(** * react-wasm-compiler: the SWC and esbuild runners

    A shallow embedding of the two compiler backends of the playground
    (the [SwcRunner] and [EsbuildRunner] classes) together with the
    properties their specification states about them.

    Conventions of the embedding.
    - A JavaScript string is a [string]; a character is one code unit
      in the range 0..255.
    - A [Map] and a plain object used as a dictionary are insertion
      ordered association lists ([OMap.t]): the source iterates over
      them, and a later write to an existing key keeps the key's place.
    - [async] methods are run to completion one after the other (the
      source awaits every call it makes); a method is a function from
      the state before the call to an outcome and the state after it,
      and a thrown error leaves the mutations made so far in place.
    - What the source imports from elsewhere (the source provider
      [fetchSourceFile], the SWC and esbuild engines, the network) is
      gathered in a record [Env] for each class, and the theorems
      quantify over it. *)

From Stdlib Require Import String Ascii List Bool Arith Lia DecimalString.
Import ListNotations.
Open Scope string_scope.
Open Scope list_scope.

Set Implicit Arguments.

(** ** Strings as the source uses them *)

Module Str.

Definition dq : string := String (ascii_of_nat 34) EmptyString.
Definition nl : string := String (ascii_of_nat 10) EmptyString.

(** [s.startsWith(p)] *)
Fixpoint startsWith (s p : string) {struct p} : bool :=
  match p, s with
  | EmptyString, _ => true
  | String a p', String b s' => if Ascii.eqb a b then startsWith s' p' else false
  | String _ _, EmptyString => false
  end.

(** [s.slice(n)] for a non-negative [n] *)
Fixpoint slice (n : nat) (s : string) : string :=
  match n, s with
  | O, _ => s
  | S n', String _ s' => slice n' s'
  | S _, EmptyString => EmptyString
  end.

(** [s.substring(0, n)] for a non-negative [n] *)
Fixpoint take (n : nat) (s : string) : string :=
  match n, s with
  | O, _ => EmptyString
  | S n', String c s' => String c (take n' s')
  | S _, EmptyString => EmptyString
  end.

(** [s.endsWith(p)] *)
Definition endsWith (s p : string) : bool :=
  Nat.leb (String.length p) (String.length s)
  && String.eqb (slice (String.length s - String.length p) s) p.

(** [s.replace(p, r)] with a string pattern: the first occurrence only *)
Fixpoint replaceFirst (p r s : string) : string :=
  if startsWith s p then r ++ slice (String.length p) s
  else match s with
       | EmptyString => EmptyString
       | String c s' => String c (replaceFirst p r s')
       end.

(** [s.split(sep)] for a one-character separator *)
Fixpoint split (sep : ascii) (s : string) : list string :=
  match s with
  | EmptyString => [EmptyString]
  | String c s' =>
      if Ascii.eqb c sep then EmptyString :: split sep s'
      else match split sep s' with
           | [] => [String c EmptyString]
           | w :: ws => String c w :: ws
           end
  end.

(** [parts.join(sep)] *)
Fixpoint join (sep : string) (parts : list string) : string :=
  match parts with
  | [] => EmptyString
  | [p] => p
  | p :: ps => p ++ sep ++ join sep ps
  end.

(** [s.lastIndexOf(c)]: [None] stands for -1 *)
Fixpoint lastIndexOf (c : ascii) (s : string) : option nat :=
  match s with
  | EmptyString => None
  | String a s' =>
      match lastIndexOf c s' with
      | Some i => Some (S i)
      | None => if Ascii.eqb a c then Some 0 else None
      end
  end.

(** [xs.some(f)] *)
Definition some {A} (f : A -> bool) (xs : list A) : bool := existsb f xs.

(** [\[...new Set(xs)\]]: the first occurrence of every element, in order *)
Fixpoint dedupFrom (seen xs : list string) : list string :=
  match xs with
  | [] => []
  | x :: xs' =>
      if existsb (String.eqb x) seen then dedupFrom seen xs'
      else x :: dedupFrom (x :: seen) xs'
  end.

Definition dedup (xs : list string) : list string := dedupFrom [] xs.

End Str.

(** ** The regular expressions of the source

    Every pattern of the two runners is a sequence of literals,
    one-character sets and greedy repetitions of a character class,
    with capture groups that are not nested; [regex] covers exactly
    that fragment.  Matching is the backtracking search of the
    language: a repetition takes as many characters as it can and gives
    them back one at a time when the rest of the pattern fails. *)

Module Re.

Inductive cclass : Type :=
| Space                      (* \s *)
| Word                       (* \w *)
| NoneOf (cs : list ascii).  (* [^...] *)

Definition is_space (c : ascii) : bool :=
  let n := nat_of_ascii c in
  (((9 <=? n) && (n <=? 13)) || (n =? 32) || (n =? 160))%nat.

Definition is_word (c : ascii) : bool :=
  let n := nat_of_ascii c in
  (((48 <=? n) && (n <=? 57)) || ((65 <=? n) && (n <=? 90))
   || ((97 <=? n) && (n <=? 122)) || (n =? 95))%nat.

Definition in_class (k : cclass) (c : ascii) : bool :=
  match k with
  | Space => is_space c
  | Word => is_word c
  | NoneOf cs => negb (existsb (Ascii.eqb c) cs)
  end.

Inductive regex : Type :=
| Lit (s : string)            (* the characters of s *)
| OneOf (cs : list ascii)     (* [...] , one character *)
| Plus (k : cclass)           (* k+ *)
| Star (k : cclass)           (* k* *)
| Cat (a b : regex)
| Group (a : regex).          (* ( a ) *)

Declare Scope re_scope.
Delimit Scope re_scope with re.
Notation "a ;; b" := (Cat a b) (at level 61, right associativity) : re_scope.

Section Match.
Variable R : Type.

(** greedy [k*] followed by the continuation [k] *)
Fixpoint star (p : ascii -> bool) (s : string) (k : string -> option R)
  : option R :=
  match s with
  | String c s' =>
      if p c then
        match star p s' k with
        | Some r => Some r
        | None => k s
        end
      else k s
  | EmptyString => k s
  end.

Definition plus (p : ascii -> bool) (s : string) (k : string -> option R)
  : option R :=
  match s with
  | String c s' => if p c then star p s' k else None
  | EmptyString => None
  end.

Fixpoint rmatch (r : regex) (s : string) (caps : list string)
         (k : string -> list string -> option R) : option R :=
  match r with
  | Lit l =>
      if Str.startsWith s l then k (Str.slice (String.length l) s) caps
      else None
  | OneOf cs =>
      match s with
      | String c s' => if existsb (Ascii.eqb c) cs then k s' caps else None
      | EmptyString => None
      end
  | Plus c => plus (in_class c) s (fun s' => k s' caps)
  | Star c => star (in_class c) s (fun s' => k s' caps)
  | Cat a b => rmatch a s caps (fun s' caps' => rmatch b s' caps' k)
  | Group a =>
      rmatch a s caps
             (fun s' caps' =>
                k s' (caps' ++ [Str.take (String.length s - String.length s') s]))
  end.
End Match.

(** A match of the pattern at the start of [s]: the matched text and
    the captures, in the order of the groups. *)
Record found : Type := { whole : string; groups : list string }.

Definition exec_at (r : regex) (s : string) : option found :=
  rmatch r s []
         (fun s' caps =>
            Some {| whole := Str.take (String.length s - String.length s') s;
                    groups := caps |}).

Definition group (n : nat) (m : found) : string := nth (n - 1) (groups m) EmptyString.

(** [s.replace(/r/g, f)]: [skip] counts the characters of the last
    match that are still to be passed over.  An empty match inserts
    the replacement and moves on by one character. *)
Fixpoint replace_go (r : regex) (f : found -> string) (skip : nat) (s : string)
  : string :=
  match s with
  | EmptyString =>
      match skip, exec_at r EmptyString with
      | O, Some m => f m
      | _, _ => EmptyString
      end
  | String c s' =>
      match skip with
      | S n => replace_go r f n s'
      | O =>
          match exec_at r s with
          | Some m =>
              match String.length (whole m) with
              | O => f m ++ String c (replace_go r f 0 s')
              | S n => f m ++ replace_go r f n s'
              end
          | None => String c (replace_go r f 0 s')
          end
      end
  end.

Definition replace (r : regex) (f : found -> string) (s : string) : string :=
  replace_go r f 0 s.

(** The loop [while ((match = re.exec(code)) !== null)] over a global
    pattern: every match from left to right, the next search starting
    where the last match ended. *)
Fixpoint matches_go (r : regex) (skip : nat) (s : string) : list found :=
  match s with
  | EmptyString => []
  | String c s' =>
      match skip with
      | S n => matches_go r n s'
      | O =>
          match exec_at r s with
          | Some m => m :: matches_go r (String.length (whole m) - 1) s'
          | None => matches_go r 0 s'
          end
      end
  end.

Definition matches (r : regex) (s : string) : list found := matches_go r 0 s.

End Re.

Import Re.
Local Open Scope re_scope.

Definition quote : regex := OneOf [ascii_of_nat 34; ascii_of_nat 39].
Definition notQuote : cclass := NoneOf [ascii_of_nat 34; ascii_of_nat 39].
Definition notBrace : cclass := NoneOf ["}"%char].

(** ** Errors, dictionaries and the state the methods run in *)

(** A thrown [Error]: the runners only ever read its [message]. *)
Record Error : Type := mkError { message : string }.

Inductive Result (A : Type) : Type :=
| Ok (a : A)
| Throw (e : Error).
Arguments Ok {A} a.
Arguments Throw {A} e.

Definition isOk {A} (r : Result A) : bool :=
  match r with Ok _ => true | Throw _ => false end.

(** A [Map] or a dictionary object with string keys, in insertion order. *)
Module OMap.

Definition t (V : Type) : Type := list (string * V).

Definition empty {V} : t V := [].

Fixpoint get {V} (m : t V) (k : string) : option V :=
  match m with
  | [] => None
  | (k', v) :: m' => if String.eqb k k' then Some v else get m' k
  end.

Definition has {V} (m : t V) (k : string) : bool :=
  match get m k with Some _ => true | None => false end.

(** a new key goes last, an old key keeps its place and takes the new value *)
Fixpoint set {V} (m : t V) (k : string) (v : V) : t V :=
  match m with
  | [] => [(k, v)]
  | (k', v') :: m' =>
      if String.eqb k k' then (k', v) :: m' else (k', v') :: set m' k v
  end.

Definition clear {V} (_ : t V) : t V := [].

Definition keys {V} (m : t V) : list string := map fst m.

Definition entries {V} (m : t V) : list (string * V) := m.

End OMap.

(** What [fetchSourceFile] resolves to: the runners read [contents]
    and [loader] of it. *)
Record FileData : Type := mkFileData { contents : string; loader : string }.

(** An entry of the file cache of a [SwcRunner]:
    [{ ...fileData, transformed }]; an [EsbuildRunner] stores the
    [FileData] itself. *)
Record SwcCacheEntry : Type :=
  mkSwcCacheEntry { fileData : FileData; transformed : string }.

(** Modelled from the spec: [createFileCache] of file-loader.js, which
    is not among the sources.  The runners call [has], [get], [set] and
    [clear] on what it returns, and the specification describes it as
    the cache of source records by path: a dictionary that starts
    empty. *)
Definition createFileCache {V} : OMap.t V := OMap.empty.

(** The sandboxed frame the compiled code runs in.  [src] is the
    object URL of the n-th blob made on the page; [sandbox] is the token
    list of the [sandbox] attribute. *)
Record Iframe : Type := mkIframe {
  src : nat;
  styleBorder : string;
  styleWidth : string;
  styleHeight : string;
  styleMinHeight : string;
  sandbox : list string
}.

(** [tokens.add(t)] of a DOM token list *)
Definition tokenAdd (tokens : list string) (t : string) : list string :=
  if existsb (String.eqb t) tokens then tokens else tokens ++ [t].

Inductive Level : Type := LogLevel | WarnLevel | ErrorLevel.

(** What a runner does to the world outside the page's memory. *)
Inductive Event : Type :=
| Fetch (modulePath baseUrl : string)     (* fetchSourceFile(modulePath, baseUrl) *)
| Import (url : string)                   (* import(url) of an engine *)
| InitSwc                                 (* initSwc() *)
| InitEsbuild (wasmURL : string)          (* esbuild.initialize({ wasmURL }) *)
| Transform (filename : string)           (* swc.transformSync(code, { filename, ... }) *)
| Build (entryPoint : string).            (* esbuild.build({ entryPoints: [entryPoint], ... }) *)

(** Everything the instances of one page share: the module-level
    variables of the two source files, the page's document, and the
    record of what was printed and requested. *)
Record World : Type := mkWorld {
  swcLoaded : bool;                (* let swc = null, then the module *)
  swcInitialized : bool;           (* let initialized = false, in the SWC file *)
  esbuildLoaded : bool;            (* let esbuild = null, then the module *)
  esbuildInitialized : bool;       (* let initialized = false, in the esbuild file *)
  hostRoot : option (list Iframe); (* document.getElementById("root") and its children *)
  blobs : list string;             (* the blobs that were given an object URL *)
  trace : list Event;
  console : list (Level * string)
}.

Definition initialWorld (root : option (list Iframe)) : World :=
  {| swcLoaded := false; swcInitialized := false;
     esbuildLoaded := false; esbuildInitialized := false;
     hostRoot := root; blobs := []; trace := []; console := [] |}.

(** A method of an instance of type [I]: from the shared world and the
    instance's own fields to an outcome and the two afterwards. *)
Definition M (I A : Type) : Type := World * I -> Result A * (World * I).

Definition ret {I A} (a : A) : M I A := fun s => (Ok a, s).

Definition throw {I A} (e : Error) : M I A := fun s => (Throw e, s).

Definition bind {I A B} (m : M I A) (k : A -> M I B) : M I B :=
  fun s =>
    match m s with
    | (Ok a, s') => k a s'
    | (Throw e, s') => (Throw e, s')
    end.

(** [try { m } catch (error) { h error }] *)
Definition tryCatch {I A} (m : M I A) (h : Error -> M I A) : M I A :=
  fun s =>
    match m s with
    | (Ok a, s') => (Ok a, s')
    | (Throw e, s') => h e s'
    end.

Definition getWorld {I} : M I World := fun s => (Ok (fst s), s).
Definition getThis {I} : M I I := fun s => (Ok (snd s), s).
Definition modifyWorld {I} (f : World -> World) : M I unit :=
  fun s => (Ok tt, (f (fst s), snd s)).
Definition modifyThis {I} (f : I -> I) : M I unit :=
  fun s => (Ok tt, (fst s, f (snd s))).

(** the outcome of a call whose result the outside world decides *)
Definition liftResult {I A} (r : Result A) : M I A :=
  match r with Ok a => ret a | Throw e => throw e end.

Declare Scope m_scope.
Delimit Scope m_scope with m.
Notation "'let!' x ':=' m 'in' k" :=
  (bind m (fun x => k))
    (at level 10, x pattern, m at level 100, k at level 200) : m_scope.
Notation "m '>>' k" :=
  (bind m (fun _ => k)) (at level 62, right associativity) : m_scope.
Local Open Scope m_scope.

Definition setTrace (w : World) (t : list Event) : World :=
  {| swcLoaded := swcLoaded w; swcInitialized := swcInitialized w;
     esbuildLoaded := esbuildLoaded w; esbuildInitialized := esbuildInitialized w;
     hostRoot := hostRoot w; blobs := blobs w; trace := t; console := console w |}.

Definition setConsole (w : World) (c : list (Level * string)) : World :=
  {| swcLoaded := swcLoaded w; swcInitialized := swcInitialized w;
     esbuildLoaded := esbuildLoaded w; esbuildInitialized := esbuildInitialized w;
     hostRoot := hostRoot w; blobs := blobs w; trace := trace w; console := c |}.

Definition setSwcGlobals (w : World) (loaded initialized : bool) : World :=
  {| swcLoaded := loaded; swcInitialized := initialized;
     esbuildLoaded := esbuildLoaded w; esbuildInitialized := esbuildInitialized w;
     hostRoot := hostRoot w; blobs := blobs w; trace := trace w; console := console w |}.

Definition setEsbuildGlobals (w : World) (loaded initialized : bool) : World :=
  {| swcLoaded := swcLoaded w; swcInitialized := swcInitialized w;
     esbuildLoaded := loaded; esbuildInitialized := initialized;
     hostRoot := hostRoot w; blobs := blobs w; trace := trace w; console := console w |}.

Definition setHostRoot (w : World) (r : option (list Iframe)) : World :=
  {| swcLoaded := swcLoaded w; swcInitialized := swcInitialized w;
     esbuildLoaded := esbuildLoaded w; esbuildInitialized := esbuildInitialized w;
     hostRoot := r; blobs := blobs w; trace := trace w; console := console w |}.

Definition setBlobs (w : World) (b : list string) : World :=
  {| swcLoaded := swcLoaded w; swcInitialized := swcInitialized w;
     esbuildLoaded := esbuildLoaded w; esbuildInitialized := esbuildInitialized w;
     hostRoot := hostRoot w; blobs := b; trace := trace w; console := console w |}.

Definition emit {I} (e : Event) : M I unit :=
  modifyWorld (fun w => setTrace w (trace w ++ [e])).

(** [console.log], [console.warn] and [console.error]; the arguments
    are printed on one line, an error by its message *)
Definition consoleLog {I} (line : string) : M I unit :=
  modifyWorld (fun w => setConsole w (console w ++ [(LogLevel, line)])).
Definition consoleWarn {I} (line : string) : M I unit :=
  modifyWorld (fun w => setConsole w (console w ++ [(WarnLevel, line)])).
Definition consoleError {I} (line : string) : M I unit :=
  modifyWorld (fun w => setConsole w (console w ++ [(ErrorLevel, line)])).

(** The options object of [compile] and [compileAndRun]; [None] is a
    property that is not given and takes the default of the
    destructuring. *)
Record Options : Type := mkOptions {
  entryPoint : option string;
  baseUrl : option string;
  minify : option bool;
  sourcemap : option bool;
  clearCache : option bool
}.

Definition noOptions : Options :=
  {| entryPoint := None; baseUrl := None; minify := None; sourcemap := None;
     clearCache := None |}.

(** a number inside a template literal *)
Definition decimal (n : nat) : string := NilEmpty.string_of_uint (Nat.to_uint n).

Definition orDefault {A} (o : option A) (d : A) : A :=
  match o with Some a => a | None => d end.

(** ** The document and the frame of [compileAndRun]

    Both classes write the same document around the script and set up
    the frame with the same statements. *)

(** The template literal [iframeHTML], with the script in the place of
    the interpolation. *)
Definition iframeHTML (script : string) : string :=
  Str.join Str.nl
    [
      EmptyString;
      "      <!DOCTYPE html>";
      "      <html>";
      "      <head>";
      ("        <meta charset=" ++ Str.dq ++ "UTF-8" ++ Str.dq ++ ">")%string;
      ("        <meta name=" ++ Str.dq ++ "viewport" ++ Str.dq ++ " content="
        ++ Str.dq ++ "width=device-width, initial-scale=1.0" ++ Str.dq ++ ">")%string;
      ("        <script type=" ++ Str.dq ++ "importmap" ++ Str.dq ++ ">")%string;
      "          {";
      ("            " ++ Str.dq ++ "imports" ++ Str.dq ++ ": {")%string;
      ("              " ++ Str.dq ++ "react" ++ Str.dq ++ ": " ++ Str.dq
        ++ "https://esm.sh/react@19.2.3" ++ Str.dq ++ ",")%string;
      ("              " ++ Str.dq ++ "react/jsx-runtime" ++ Str.dq ++ ": " ++ Str.dq
        ++ "https://esm.sh/react@19.2.3/jsx-runtime" ++ Str.dq ++ ",")%string;
      ("              " ++ Str.dq ++ "react-dom" ++ Str.dq ++ ": " ++ Str.dq
        ++ "https://esm.sh/react-dom@19.2.3" ++ Str.dq ++ ",")%string;
      ("              " ++ Str.dq ++ "react-dom/client" ++ Str.dq ++ ": " ++ Str.dq
        ++ "https://esm.sh/react-dom@19.2.3/client" ++ Str.dq)%string;
      "            }";
      "          }";
      "        </script>";
      "        <style>";
      "          * { box-sizing: border-box; margin: 0; padding: 0; }";
      "          body {";
      "            font-family: system-ui, -apple-system, sans-serif;";
      "            background: #000000;";
      "            color: #fafafa;";
      "          }";
      "        </style>";
      "      </head>";
      "      <body>";
      ("        <div id=" ++ Str.dq ++ "root" ++ Str.dq ++ "></div>")%string;
      ("        <script type=" ++ Str.dq ++ "module" ++ Str.dq ++ ">")%string;
      ("          " ++ script)%string;
      "        </script>";
      "      </body>";
      "      </html>";
      "    " ].

(** [document.createElement("iframe")]: no source, no style, an empty
    token list *)
Definition createIframe : Iframe :=
  {| src := 0; styleBorder := EmptyString; styleWidth := EmptyString;
     styleHeight := EmptyString; styleMinHeight := EmptyString; sandbox := [] |}.

Definition setSrc (f : Iframe) (url : nat) : Iframe :=
  {| src := url; styleBorder := styleBorder f; styleWidth := styleWidth f;
     styleHeight := styleHeight f; styleMinHeight := styleMinHeight f;
     sandbox := sandbox f |}.

Definition setStyle (f : Iframe) (border width height minHeight : string) : Iframe :=
  {| src := src f; styleBorder := border; styleWidth := width;
     styleHeight := height; styleMinHeight := minHeight; sandbox := sandbox f |}.

(** [iframe.sandbox.add(token)] *)
Definition sandboxAdd (f : Iframe) (token : string) : Iframe :=
  {| src := src f; styleBorder := styleBorder f; styleWidth := styleWidth f;
     styleHeight := styleHeight f; styleMinHeight := styleMinHeight f;
     sandbox := tokenAdd (sandbox f) token |}.

(** [URL.createObjectURL(new Blob(\[html\], ...))]: the blob is kept by
    the page and the URL names it *)
Definition createObjectURL {I} (html : string) : M I nat :=
  let! w := getWorld in
  modifyWorld (fun w => setBlobs w (blobs w ++ [html])) >>
  ret (List.length (blobs w)).

(** The statements of [compileAndRun] from the look-up of the root
    element to [rootEl.appendChild(iframe)], given the script that goes
    into the document. *)
Definition runInIframe {I} (script : string) : M I unit :=
  let! w := getWorld in
  match hostRoot w with
  | None => throw (mkError "No root element found")
  | Some _ =>
      (* rootEl.innerHTML = EMPTY *)
      modifyWorld (fun w => setHostRoot w (Some [])) >>
      let! blobUrl := createObjectURL (iframeHTML script) in
      let iframe := createIframe in
      let iframe := setSrc iframe blobUrl in
      let iframe := setStyle iframe "none" "100%" "100%" "400px" in
      let iframe := sandboxAdd iframe "allow-scripts" in
      let iframe := sandboxAdd iframe "allow-popups" in
      let iframe := sandboxAdd iframe "allow-forms" in
      modifyWorld (fun w =>
                     setHostRoot w (match hostRoot w with
                                    | Some children => Some (children ++ [iframe])
                                    | None => None
                                    end))
  end.

(** ** Pure helpers shared by the two runners *)

(** [isExternal(path)], the same in both classes *)
Definition externals : list string :=
  ["react"; "react-dom"; "react/jsx-runtime"; "react-dom/client"].

Definition isExternal (path : string) : bool :=
  Str.some (fun ext => String.eqb path ext || Str.startsWith path (ext ++ "/"))
           externals.

(** ** SwcRunner *)

Module Swc.

(** [wrapAsModule(code, modulePath)] *)
Definition wrapAsModule (code modulePath : string) : string :=
  Str.nl ++ "// Module: " ++ modulePath ++ Str.nl ++ code ++ Str.nl.

(** [/from\s+Q(@\/[^Q]+)Q/g], where [Q] stands for the set of the two
    quote characters, double and single, which the source writes out *)
Definition importRegex : regex :=
  Lit "from" ;; Plus Space ;; quote ;; Group (Lit "@/" ;; Plus notQuote) ;; quote.

(** [extractImports(code)] *)
Definition extractImports (code : string) : list string :=
  Str.dedup (map (group 1) (matches importRegex code)).

(** The lines that the three import rewrites and [compile] repeat:
    [if (importPath.startsWith("@/")) { resolvedPath = `/src/${importPath.slice(2)}`; ... }] *)
Definition addJs (resolvedPath : string) : string :=
  if negb (Str.endsWith resolvedPath ".js") && negb (Str.endsWith resolvedPath ".jsx")
  then resolvedPath ++ ".js"
  else resolvedPath.

Definition resolveAlias (importPath : string) : string :=
  if Str.startsWith importPath "@/"
  then addJs ("/src/" ++ Str.slice 2 importPath)
  else importPath.

(** [names.replace(/\s+as\s+/g, ": ")] *)
Definition asRegex : regex := Plus Space ;; Lit "as" ;; Plus Space.

Definition convertNames (names : string) : string :=
  Re.replace asRegex (fun _ => ": ") names.

(** [/import\s+(\w+)\s*,\s*\{([^}]+)\}\s+from\s+Q([^Q]+)Q/g] *)
Definition combinedImportRegex : regex :=
  Lit "import" ;; Plus Space ;; Group (Plus Word) ;; Star Space ;; Lit ","
  ;; Star Space ;; Lit "{" ;; Group (Plus notBrace) ;; Lit "}" ;; Plus Space
  ;; Lit "from" ;; Plus Space ;; quote ;; Group (Plus notQuote) ;; quote.

Definition combinedImportRewrite (m : found) : string :=
  let defaultName := group 1 m in
  let names := group 2 m in
  let importPath := group 3 m in
  let resolvedPath := resolveAlias importPath in
  let convertedNames := convertNames names in
  "const " ++ defaultName ++ " = require(" ++ Str.dq ++ resolvedPath ++ Str.dq
  ++ ");" ++ Str.nl ++ "const { " ++ convertedNames ++ " } = " ++ defaultName.

(** [/import\s+\{([^}]+)\}\s+from\s+Q([^Q]+)Q/g] *)
Definition namedImportRegex : regex :=
  Lit "import" ;; Plus Space ;; Lit "{" ;; Group (Plus notBrace) ;; Lit "}"
  ;; Plus Space ;; Lit "from" ;; Plus Space ;; quote ;; Group (Plus notQuote)
  ;; quote.

Definition namedImportRewrite (m : found) : string :=
  let names := group 1 m in
  let importPath := group 2 m in
  let resolvedPath := resolveAlias importPath in
  let convertedNames := convertNames names in
  "const { " ++ convertedNames ++ " } = require(" ++ Str.dq ++ resolvedPath
  ++ Str.dq ++ ")".

(** [/import\s+(\w+)\s+from\s+Q([^Q]+)Q/g] *)
Definition defaultImportRegex : regex :=
  Lit "import" ;; Plus Space ;; Group (Plus Word) ;; Plus Space ;; Lit "from"
  ;; Plus Space ;; quote ;; Group (Plus notQuote) ;; quote.

Definition defaultImportRewrite (m : found) : string :=
  let varName := group 1 m in
  let importPath := group 2 m in
  let resolvedPath := resolveAlias importPath in
  "const " ++ varName ++ " = require(" ++ Str.dq ++ resolvedPath ++ Str.dq ++ ")".

(** [/import\s+Q([^Q]+)Q/g] with the replacement [require("$1")] *)
Definition sideEffectImportRegex : regex :=
  Lit "import" ;; Plus Space ;; quote ;; Group (Plus notQuote) ;; quote.

Definition sideEffectImportRewrite (m : found) : string :=
  "require(" ++ Str.dq ++ group 1 m ++ Str.dq ++ ")".

(** [/export\s+const\s+(\w+)\s*=/g] with ["exports.$1 = "] *)
Definition exportConstRegex : regex :=
  Lit "export" ;; Plus Space ;; Lit "const" ;; Plus Space ;; Group (Plus Word)
  ;; Star Space ;; Lit "=".

Definition exportConstRewrite (m : found) : string :=
  "exports." ++ group 1 m ++ " = ".

(** [/export\s+function\s+(\w+)\s*\(/g] with ["exports.$1 = function ("] *)
Definition exportFunctionRegex : regex :=
  Lit "export" ;; Plus Space ;; Lit "function" ;; Plus Space
  ;; Group (Plus Word) ;; Star Space ;; Lit "(".

Definition exportFunctionRewrite (m : found) : string :=
  "exports." ++ group 1 m ++ " = function (".

(** [/export\s+default\s+/g] with ["exports.default = "] *)
Definition exportDefaultRegex : regex :=
  Lit "export" ;; Plus Space ;; Lit "default" ;; Plus Space.

Definition exportDefaultRewrite (_ : found) : string := "exports.default = ".

(** [resolveImports(code, filePath)]; the source never reads [filePath] *)
Definition resolveImports (code filePath : string) : string :=
  let code := Re.replace combinedImportRegex combinedImportRewrite code in
  let code := Re.replace namedImportRegex namedImportRewrite code in
  let code := Re.replace defaultImportRegex defaultImportRewrite code in
  let code := Re.replace sideEffectImportRegex sideEffectImportRewrite code in
  let code := Re.replace exportConstRegex exportConstRewrite code in
  let code := Re.replace exportFunctionRegex exportFunctionRewrite code in
  let code := Re.replace exportDefaultRegex exportDefaultRewrite code in
  code.

(** The key under which [compile] files a module:
    [`/src/${path.replace("@/", EMPTY)}`] and then the extension test *)
Definition registryPath (path : string) : string :=
  addJs ("/src/" ++ Str.replaceFirst "@/" EmptyString path).

(** *** The instance and what it calls outside *)

Record Runner : Type := mkRunner {
  fileCache : OMap.t SwcCacheEntry;
  transformedFiles : OMap.t string
}.

(** [constructor()] *)
Definition new : Runner :=
  {| fileCache := createFileCache; transformedFiles := OMap.empty |}.

(** What the class reaches outside itself: the source provider of
    file-loader.js, the dynamic import of the engine, the engine's
    own set-up and its [transformSync]. *)
Record Env : Type := mkEnv {
  fetchSourceFile : string -> string -> Result FileData;
  importModule : string -> Result unit;
  initSwc : Result unit;
  transformSync : string -> string -> Result string
}.

(** What [compile] resolves to; [resultEntryPoint] is its
    [entryPoint] property. *)
Record BuildResult : Type := mkBuildResult {
  code : string;
  moduleMap : OMap.t string;
  resultEntryPoint : string;
  warnings : list string
}.

Section Methods.
Variable env : Env.

(** [async initialize()] *)
Definition initialize : M Runner unit :=
  let! w := getWorld in
  if swcInitialized w then ret tt
  else
    tryCatch
      (emit (Import "https://esm.sh/@swc/wasm-web") >>
       let! _ := liftResult (importModule env "https://esm.sh/@swc/wasm-web") in
       emit InitSwc >>
       let! _ := liftResult (initSwc env) in
       modifyWorld (fun w => setSwcGlobals w true true) >>
       consoleLog "[swc] Initialized")
      (fun error =>
         consoleError ("[swc] Init error: " ++ message error) >>
         throw error).

(** [transformFile(code, filePath)]; reading [transformSync] off a
    [swc] that is still [null] is a [TypeError] *)
Definition transformFile (code filePath : string) : M Runner string :=
  tryCatch
    (let! w := getWorld in
     if swcLoaded w then
       emit (Transform filePath) >>
       liftResult (transformSync env code filePath)
     else
       throw (mkError "Cannot read properties of null (reading 'transformSync')"))
    (fun error =>
       consoleError ("[swc] Transform error in " ++ filePath ++ ": "
                     ++ message error) >>
       throw error).

(** [async loadAndTransformFile(modulePath, baseUrl)] *)
Definition loadAndTransformFile (modulePath baseUrl : string) : M Runner string :=
  let! this := getThis in
  match OMap.get (transformedFiles this) modulePath with
  | Some cached => ret cached
  | None =>
      tryCatch
        (emit (Fetch modulePath baseUrl) >>
         let! fileData := liftResult (fetchSourceFile env modulePath baseUrl) in
         let! transformed := transformFile (contents fileData) modulePath in
         modifyThis (fun this =>
                       {| fileCache := fileCache this;
                          transformedFiles :=
                            OMap.set (transformedFiles this) modulePath transformed |}) >>
         modifyThis (fun this =>
                       {| fileCache :=
                            OMap.set (fileCache this) modulePath
                                     (mkSwcCacheEntry fileData transformed);
                          transformedFiles := transformedFiles this |}) >>
         consoleLog ("[swc] Transformed: " ++ modulePath) >>
         ret transformed)
        (fun error =>
           consoleError ("[swc] Load error: " ++ modulePath ++ " " ++ message error) >>
           throw error)
  end.

(** the body of the loop of [transformDependencies] *)
Definition transformDependency (baseUrl importPath : string) : M Runner unit :=
  tryCatch
    (let! _ := loadAndTransformFile importPath baseUrl in ret tt)
    (fun error =>
       consoleWarn ("[swc] Could not transform dependency " ++ importPath ++ ": "
                    ++ message error)).

(** [for (const x of xs) { body x }] *)
Fixpoint forOf {I A} (xs : list A) (body : A -> M I unit) : M I unit :=
  match xs with
  | [] => ret tt
  | x :: xs' => body x >> forOf xs' body
  end.

(** [async transformDependencies(code, baseUrl)] *)
Definition transformDependencies (code baseUrl : string) : M Runner unit :=
  let imports := extractImports code in
  forOf imports (transformDependency baseUrl).

(** the loop of [compile] over [this.transformedFiles.entries()] *)
Definition addToModuleMap (moduleMap : OMap.t string) (entry : string * string)
  : OMap.t string :=
  let (path, code) := entry in
  let resolvedPath := registryPath path in
  let resolvedCode := resolveImports code path in
  OMap.set moduleMap resolvedPath resolvedCode.

(** [async compile(options)], from the destructuring of the
    options on *)
Definition compileBody (options : Options) : M Runner BuildResult :=
    let entryPoint := orDefault (entryPoint options) "@/entry" in
    let baseUrl := orDefault (baseUrl options) "/src" in
    let clearCache := orDefault (clearCache options) false in
    (if clearCache then
       modifyThis (fun this =>
                     {| fileCache := OMap.clear (fileCache this);
                        transformedFiles := transformedFiles this |}) >>
       modifyThis (fun this =>
                     {| fileCache := fileCache this;
                        transformedFiles := OMap.clear (transformedFiles this) |})
     else ret tt) >>
    consoleLog ("[swc] Building: " ++ entryPoint) >>
    tryCatch
      (let! transformed := loadAndTransformFile entryPoint baseUrl in
       transformDependencies transformed baseUrl >>
       let transformed := resolveImports transformed entryPoint in
       let entryPathResolved := registryPath entryPoint in
       let moduleMap := OMap.set OMap.empty entryPathResolved transformed in
       let! this := getThis in
       let moduleMap :=
         fold_left addToModuleMap (OMap.entries (transformedFiles this)) moduleMap in
       consoleLog ("[swc] Build complete: " ++ decimal (String.length transformed)
                   ++ " bytes (" ++ decimal (List.length (OMap.keys moduleMap))
                   ++ " modules)") >>
       ret {| code := transformed;
              moduleMap := moduleMap;
              resultEntryPoint := entryPathResolved;
              warnings := [] |})
      (fun error =>
         consoleError ("[swc] Build error: " ++ message error) >>
         throw error).

Definition notInitialized : Error :=
  mkError "SwcRunner not initialized. Call initialize() first.".

(** [async compile(options)] *)
Definition compile (options : Options) : M Runner BuildResult :=
  let! w := getWorld in
  if negb (swcInitialized w) then throw notInitialized
  else compileBody options.

(** The lines [compileAndRun] pushes before the modules: the
    registry and its [__require__]. *)
Definition registryPreamble : list string :=
  [ "// SWC Module Bundle";
    "const __modules__ = {};";
    "const __cache__ = {};";
    EmptyString;
    "function __require__(path) {";
    "  if (__cache__[path]) return __cache__[path];";
    "  const module = { exports: {} };";
    "  const fn = __modules__[path];";
    ("  if (!fn) throw new Error(" ++ Str.dq ++ "Module not found: " ++ Str.dq
       ++ " + path);")%string;
    "  fn(module, module.exports, __require__);";
    "  __cache__[path] = module.exports;";
    "  return module.exports;";
    "}" ].

(** the four lines pushed for one entry of the module map *)
Definition moduleLines (entry : string * string) : list string :=
  let (path, moduleCode) := entry in
  [ ("__modules__['" ++ path ++ "'] = function(module, exports, require) {")%string;
    moduleCode;
    "};";
    EmptyString ].

(** the lines pushed after the modules: the preload of the external
    packages and the call of the entry *)
Definition preloadLines (entryKey : string) : list string :=
  [ EmptyString;
    "// Preload external packages from import map";
    "const externalPackages = [";
    "  'react',";
    "  'react/jsx-runtime',";
    "  'react-dom',";
    "  'react-dom/client'";
    "];";
    EmptyString;
    "// Load external packages into cache before executing modules";
    "Promise.all(externalPackages.map(pkg =>";
    "  import(pkg).then(m => {";
    "    __cache__[pkg] = m;";
    "    console.log(`[swc] Preloaded: ${pkg}`);";
    "  })";
    ")).then(() => {";
    "  // Execute entry point";
    "  try {";
    ("    __require__('" ++ entryKey ++ "');")%string;
    "    console.log('[swc] App executed successfully');";
    "  } catch(err) {";
    "    console.error('[swc] Execution error:', err);";
    ("    document.getElementById('root').innerHTML = '<pre style=" ++ Str.dq
       ++ "color:red" ++ Str.dq ++ ">' + err.message + '</pre>';")%string;
    "  }";
    "}).catch(err => {";
    "  console.error('[swc] Failed to preload packages:', err);";
    ("  document.getElementById('root').innerHTML = '<pre style=" ++ Str.dq
       ++ "color:red" ++ Str.dq
       ++ ">Failed to load dependencies: ' + err.message + '</pre>';")%string;
    "});" ].

Definition bundledCodeLines (moduleMap : OMap.t string) (entryKey : string)
  : list string :=
  registryPreamble
    ++ flat_map moduleLines (OMap.entries moduleMap)
    ++ preloadLines entryKey.

(** [async compileAndRun(options)] *)
Definition compileAndRun (options : Options) : M Runner string :=
  let! result := compile options in
  let bundledCode :=
    Str.join Str.nl (bundledCodeLines (moduleMap result) (resultEntryPoint result)) in
  runInIframe bundledCode >>
  consoleLog "[swc] Execution complete in iframe" >>
  ret (code result).

End Methods.

(** [getCapabilities()] *)
Record Capabilities : Type := mkCapabilities {
  bundling : bool; jsx : bool; typescript : bool; multiFile : bool;
  name : string; note : string
}.

Definition getCapabilities : Capabilities :=
  {| bundling := false; jsx := true; typescript := true; multiFile := false;
     name := "swc"; note := EmptyString |}.

End Swc.

(** ** EsbuildRunner *)

Module Esbuild.

(** [normalizePath(path)]; [result.pop()] on an empty array leaves it
    empty *)
Definition normalizeStep (result : list string) (part : string) : list string :=
  if String.eqb part ".." then removelast result
  else if negb (String.eqb part ".") && negb (String.eqb part EmptyString)
       then result ++ [part]
       else result.

(** [s.replace(/^@\//, EMPTY)] *)
Definition stripLeadingAlias (s : string) : string :=
  if Str.startsWith s "@/" then Str.slice 2 s else s.

Definition normalizePath (path : string) : string :=
  let parts := Str.split "/" path in
  let result := fold_left normalizeStep parts [] in
  if Str.startsWith path "@/"
  then "@/" ++ stripLeadingAlias (Str.join "/" result)
  else "/" ++ Str.join "/" result.

(** *** The plugin *)

Record ResolveArgs : Type := mkResolveArgs {
  path : string;
  namespace : string;
  importer : string
}.

(** What the resolve callback returns: [{ path, external: true }],
    [{ path, namespace: "virtual" }] or [null]. *)
Inductive ResolveResult : Type :=
| External (path : string)
| Virtual (path : string)
| Null.

(** [importer.substring(0, importer.lastIndexOf("/"))]; a negative
    end counts as 0 *)
Definition dirOf (importer : string) : string :=
  match Str.lastIndexOf "/" importer with
  | Some i => Str.take i importer
  | None => EmptyString
  end.

(** the callback given to [build.onResolve] *)
Definition onResolve (args : ResolveArgs) : ResolveResult :=
  let path := path args in
  let namespace := namespace args in
  if isExternal path then External path
  else if Str.startsWith path "@/" then Virtual path
  else if String.eqb namespace "virtual"
          && (Str.startsWith path "./" || Str.startsWith path "../")
  then
    let importer := importer args in
    let importerDir := dirOf importer in
    let resolvedPath := normalizePath (importerDir ++ "/" ++ path) in
    Virtual resolvedPath
  else if negb (Str.startsWith path "/") && negb (Str.startsWith path ".")
  then External path
  else Null.

Record Diagnostic : Type := mkDiagnostic { text : string }.

(** What the load callback returns: [{ contents, loader }] or
    [{ errors: \[{ text, location: null }\] }]. *)
Inductive LoadResult : Type :=
| Loaded (contents loader : string)
| LoadErrors (errors : list Diagnostic).

Record Runner : Type := mkRunner { fileCache : OMap.t FileData }.

(** [constructor()] *)
Definition new : Runner := {| fileCache := createFileCache |}.

(** The plugin object, by the two callbacks its [setup] registers:
    the first for every path, the second for the paths of the
    namespace [virtual]. *)
Record Plugin : Type := mkPlugin {
  pluginName : string;
  resolveHook : ResolveArgs -> ResolveResult;
  loadHook : string -> M Runner LoadResult
}.

(** The options [compile] passes to [esbuild.build]. *)
Record BuildOptions : Type := mkBuildOptions {
  entryPoints : list string;
  bundle : bool;
  format : string;
  write : bool;
  buildMinify : bool;
  buildSourcemap : option string;     (* "inline" or false *)
  target : string;
  buildJsx : string;
  jsxImportSource : string;
  logLevel : string
}.

(** What [esbuild.build] resolves to. *)
Record EngineResult : Type := mkEngineResult {
  errors : list Diagnostic;
  engineWarnings : list string;
  outputFiles : list string            (* the [text] of every output file *)
}.

(** The engine, as far as the runner can tell: while it builds it
    asks the plugin to resolve specifiers and to load paths, as often
    and in whatever order it likes, each question depending on the
    answers so far, and it ends with a result or with a rejection. *)
Inductive Engine : Type :=
| Finish (outcome : Result EngineResult)
| AskResolve (args : ResolveArgs) (next : ResolveResult -> Engine)
| AskLoad (path : string) (next : LoadResult -> Engine).

(** [esbuild.build({ ..., plugins: \[plugin\] })] for an engine that
    behaves as [engine] *)
Fixpoint runEngine (engine : Engine) (plugin : Plugin) : M Runner EngineResult :=
  match engine with
  | Finish outcome => liftResult outcome
  | AskResolve args next => runEngine (next (resolveHook plugin args)) plugin
  | AskLoad path next =>
      let! loaded := loadHook plugin path in
      runEngine (next loaded) plugin
  end.

(** What the class reaches outside itself: the source provider of
    file-loader.js, the dynamic import of the engine, the engine's
    [initialize] and the way it builds under given options. *)
Record Env : Type := mkEnv {
  fetchSourceFile : string -> string -> Result FileData;
  importModule : string -> Result unit;
  engineInitialize : string -> Result unit;
  build : BuildOptions -> Engine
}.

Record BuildResult : Type := mkBuildResult {
  code : string;
  warnings : list string
}.

Section Methods.
Variable env : Env.

(** [async initialize()] *)
Definition initialize : M Runner unit :=
  let! w := getWorld in
  if esbuildInitialized w then ret tt
  else
    tryCatch
      (emit (Import "https://unpkg.com/esbuild-wasm@0.27.1/esm/browser.js") >>
       let! _ := liftResult
                   (importModule env "https://unpkg.com/esbuild-wasm@0.27.1/esm/browser.js") in
       modifyWorld (fun w => setEsbuildGlobals w true (esbuildInitialized w)) >>
       emit (InitEsbuild "https://unpkg.com/esbuild-wasm@0.27.1/esbuild.wasm") >>
       let! _ := liftResult
                   (engineInitialize env "https://unpkg.com/esbuild-wasm@0.27.1/esbuild.wasm") in
       modifyWorld (fun w => setEsbuildGlobals w (esbuildLoaded w) true) >>
       consoleLog "[esbuild] Initialized")
      (fun error =>
         consoleError ("[esbuild] Init error: " ++ message error) >>
         throw error).

(** the callback given to [build.onLoad] *)
Definition onLoad (baseUrl modulePath : string) : M Runner LoadResult :=
  let! this := getThis in
  match OMap.get (fileCache this) modulePath with
  | Some cached => ret (Loaded (contents cached) (loader cached))
  | None =>
      tryCatch
        (emit (Fetch modulePath baseUrl) >>
         let! result := liftResult (fetchSourceFile env modulePath baseUrl) in
         modifyThis (fun this =>
                       {| fileCache := OMap.set (fileCache this) modulePath result |}) >>
         consoleLog ("[esbuild] Loaded: " ++ modulePath) >>
         ret (Loaded (contents result) (loader result)))
        (fun error => ret (LoadErrors [mkDiagnostic (message error)]))
  end.

(** [createVirtualFsPlugin(baseUrl)] *)
Definition createVirtualFsPlugin (baseUrl : string) : Plugin :=
  {| pluginName := "virtual-fs";
     resolveHook := onResolve;
     loadHook := onLoad baseUrl |}.

(** [async compile(options)], from the destructuring of the
    options on *)
Definition compileBody (options : Options) : M Runner BuildResult :=
    let entryPoint := orDefault (entryPoint options) "@/entry" in
    let baseUrl := orDefault (baseUrl options) "/src" in
    let minify := orDefault (minify options) false in
    let sourcemap := orDefault (sourcemap options) false in
    let clearCache := orDefault (clearCache options) false in
    (if clearCache then
       modifyThis (fun this => {| fileCache := OMap.clear (fileCache this) |})
     else ret tt) >>
    consoleLog ("[esbuild] Building: " ++ entryPoint) >>
    tryCatch
      (emit (Build entryPoint) >>
       let! result :=
         runEngine
           (build env
                  {| entryPoints := [entryPoint];
                     bundle := true;
                     format := "esm";
                     write := false;
                     buildMinify := minify;
                     buildSourcemap := if sourcemap then Some "inline" else None;
                     target := "es2020";
                     buildJsx := "automatic";
                     jsxImportSource := "react";
                     logLevel := "warning" |})
           (createVirtualFsPlugin baseUrl) in
       match errors result with
       | _ :: _ =>
           let errorText := Str.join Str.nl (map text (errors result)) in
           consoleError ("[esbuild] Errors: " ++ errorText) >>
           throw (mkError errorText)
       | [] =>
           match outputFiles result with
           | [] =>
               throw (mkError "Cannot read properties of undefined (reading 'text')")
           | bundledCode :: _ =>
               consoleLog ("[esbuild] Build complete: "
                           ++ decimal (String.length bundledCode) ++ " bytes") >>
               ret {| code := bundledCode; warnings := engineWarnings result |}
           end
       end)
      (fun error =>
         consoleError ("[esbuild] Build error: " ++ message error) >>
         throw error).

Definition notInitialized : Error :=
  mkError "EsbuildRunner not initialized. Call initialize() first.".

(** [async compile(options)] *)
Definition compile (options : Options) : M Runner BuildResult :=
  let! w := getWorld in
  if negb (esbuildInitialized w) then throw notInitialized
  else compileBody options.

(** [async compileAndRun(options)] *)
Definition compileAndRun (options : Options) : M Runner string :=
  let! result := compile options in
  runInIframe (code result) >>
  consoleLog "[esbuild] Execution complete in iframe" >>
  ret (code result).

End Methods.

(** [getCapabilities()] *)
Record Capabilities : Type := mkCapabilities {
  bundling : bool; jsx : bool; typescript : bool; multiFile : bool;
  name : string
}.

Definition getCapabilities : Capabilities :=
  {| bundling := true; jsx := true; typescript := true; multiFile := true;
     name := "esbuild" |}.

End Esbuild.


(** ** The script of the SWC bundle

    The lines that [compileAndRun] of [SwcRunner] pushes make a program
    of their own, which the frame runs once it has loaded the document.
    [Js] holds the fragment of JavaScript these lines are written in:
    the syntax, the text of a script ([print]) and what a script does
    ([run]).  [Bundle.script] is the script whose text the pushed lines
    are.

    A script is its declarations followed by one chain of promises,
    [Promise.all(xs.map(x => import(x).then(m => {...}))).then(() =>
    {...}).catch(err => {...})].  The imports settle one at a time, in
    an order the network decides; an import that never settles is left
    out of the order.  The reactions to one import run before the next
    import settles: the jobs of two imports that settle in one turn
    interleave in the engine, but every handler runs to its end before
    the next one starts, [Promise.all] counts only callbacks that have
    returned and the chained handlers run once, so the handlers run in
    an order that some sequence of settlements gives.

    The text of a module is not read: what its function does when it
    is called is given from outside ([behaviour]), and a text that is
    no function body keeps the whole script from running, as a syntax
    error does in a module script.  A module reaches the registry
    through the [require] it is given; what it does to the document is
    what it does to the root element, during the call.  The values are
    [undefined], [null], strings, objects and errors.  A literal is
    printed as its text between quotes: the text read back is that of
    the literal where it holds no quote, backslash or line break. *)

Module Js.

(** *** Values *)

Inductive Value : Type :=
| Undefined
| Null
| Text (s : string)                  (* a string *)
| Object (name : string)             (* an object without a [message], known by a name *)
| ErrorObject (name message : string).   (* an [Error]: [name] is TypeError, Error, ... *)

(** how a piece of code ends: it completes, or it throws *)
Inductive Completion (A : Type) : Type :=
| Normal (a : A)
| Thrown (reason : Value).

Arguments Normal {A} a.
Arguments Thrown {A} reason.

Definition isNormal {A} (c : Completion A) : bool :=
  match c with Normal _ => true | Thrown _ => false end.

(** [if (v)] *)
Definition truthy (v : Value) : bool :=
  match v with
  | Undefined | Null => false
  | Text s => negb (String.eqb s EmptyString)
  | Object _ | ErrorObject _ _ => true
  end.

(** [String(v)], as [+] with a string and a template literal take it *)
Definition toText (v : Value) : string :=
  match v with
  | Undefined => "undefined"
  | Null => "null"
  | Text s => s
  | Object _ => "[object Object]"
  | ErrorObject name message =>
      if String.eqb name EmptyString then message
      else if String.eqb message EmptyString then name
      else (name ++ ": " ++ message)%string
  end.

(** The errors of the engine; the texts are those of V8. *)
Definition notDefined (x : string) : Value :=
  ErrorObject "ReferenceError" (x ++ " is not defined")%string.

Definition cannotRead (what property : string) : Value :=
  ErrorObject "TypeError"
              ("Cannot read properties of " ++ what ++ " (reading '" ++ property ++ "')")%string.

Definition cannotSet (what property : string) : Value :=
  ErrorObject "TypeError"
              ("Cannot set properties of " ++ what ++ " (setting '" ++ property ++ "')")%string.

Definition stackOverflow : Value :=
  ErrorObject "RangeError" "Maximum call stack size exceeded".

(** [v.message] *)
Definition messageOf (v : Value) : Completion Value :=
  match v with
  | Undefined => Thrown (cannotRead "undefined" "message")
  | Null => Thrown (cannotRead "null" "message")
  | Text _ | Object _ => Normal Undefined
  | ErrorObject _ message => Normal (Text message)
  end.

(** *** Syntax *)

Inductive Expr : Type :=
| Lit (text : string)                                  (* 'text' *)
| Template (text x : string)                           (* `text${x}` *)
| Var (x : string)                                     (* x *)
| Message (x : string)                                 (* x.message *)
| Around (before : string) (e : Expr) (after : string). (* 'before' + e + 'after' *)

#[warnings="-register-all"]
Inductive Stmt : Type :=
| Remark (text : string)                 (* // text *)
| CacheSet (key value : Expr)            (* __cache__[key] = value; *)
| Console (level : Level) (args : list Expr)   (* console.log(args); *)
| RootHTML (e : Expr)                    (* document.getElementById('root').innerHTML = e; *)
| Require (path : Expr)                  (* __require__(path); *)
| Try (body : list Stmt) (x : string) (handler : list Stmt).
                                         (* try { body } catch(x) { handler } *)

Inductive Item : Type :=
| Note (text : string)                   (* // text *)
| Blank                                  (* an empty line *)
| ConstObject (name : string)            (* const name = {}; *)
| RequireFunction                        (* function __require__(path) { ... } *)
| ModuleDef (path code : string)
           (* __modules__['path'] = function(module, exports, require) { code }; *)
| ConstArray (name : string) (items : list string).   (* const name = ['a', 'b']; *)

(** [Promise.all(packages.map(package => import(package).then(namespace
    => { onEach }))).then(() => { onAll }).catch(reason => { onFailure })] *)
Record Chain : Type := mkChain {
  packages : string;
  package : string;
  namespace : string;
  onEach : list Stmt;
  onAll : list Stmt;
  reason : string;
  onFailure : list Stmt
}.

Record Script : Type := mkScript {
  declarations : list Item;
  preload : Chain
}.

(** *** The text of a script *)

Fixpoint printExpr (e : Expr) : string :=
  (match e with
   | Lit text => "'" ++ text ++ "'"
   | Template text x => "`" ++ text ++ "${" ++ x ++ "}`"
   | Var x => x
   | Message x => x ++ ".message"
   | Around before e after =>
       "'" ++ before ++ "' + " ++ printExpr e ++ " + '" ++ after ++ "'"
   end)%string.

Definition method (level : Level) : string :=
  match level with
  | LogLevel => "log"
  | WarnLevel => "warn"
  | ErrorLevel => "error"
  end.

Fixpoint printStmt (indent : string) (s : Stmt) : list string :=
  match s with
  | Remark text => [(indent ++ "// " ++ text)%string]
  | CacheSet key value =>
      [(indent ++ "__cache__[" ++ printExpr key ++ "] = " ++ printExpr value ++ ";")%string]
  | Console level args =>
      [(indent ++ "console." ++ method level ++ "("
               ++ Str.join ", " (map printExpr args) ++ ");")%string]
  | RootHTML e =>
      [(indent ++ "document.getElementById('root').innerHTML = " ++ printExpr e
               ++ ";")%string]
  | Require path => [(indent ++ "__require__(" ++ printExpr path ++ ");")%string]
  | Try body x handler =>
      [(indent ++ "try {")%string]
        ++ flat_map (printStmt (indent ++ "  ")%string) body
        ++ [(indent ++ "} catch(" ++ x ++ ") {")%string]
        ++ flat_map (printStmt (indent ++ "  ")%string) handler
        ++ [(indent ++ "}")%string]
  end.

(** the lines of an array literal: one item to a line, a comma after
    each but the last *)
Fixpoint printItems (items : list string) : list string :=
  match items with
  | [] => []
  | [item] => [("  '" ++ item ++ "'")%string]
  | item :: rest => ("  '" ++ item ++ "',")%string :: printItems rest
  end.

Definition printItem (i : Item) : list string :=
  match i with
  | Note text => [("// " ++ text)%string]
  | Blank => [EmptyString]
  | ConstObject name => [("const " ++ name ++ " = {};")%string]
  | RequireFunction =>
      [ "function __require__(path) {";
        "  if (__cache__[path]) return __cache__[path];";
        "  const module = { exports: {} };";
        "  const fn = __modules__[path];";
        ("  if (!fn) throw new Error(" ++ Str.dq ++ "Module not found: " ++ Str.dq
           ++ " + path);")%string;
        "  fn(module, module.exports, __require__);";
        "  __cache__[path] = module.exports;";
        "  return module.exports;";
        "}" ]
  | ModuleDef path code =>
      [ ("__modules__['" ++ path ++ "'] = function(module, exports, require) {")%string;
        code;
        "};" ]
  | ConstArray name items =>
      [("const " ++ name ++ " = [")%string] ++ printItems items ++ ["];"]
  end.

Definition printChain (c : Chain) : list string :=
  [ ("Promise.all(" ++ packages c ++ ".map(" ++ package c ++ " =>")%string;
    ("  import(" ++ package c ++ ").then(" ++ namespace c ++ " => {")%string ]
    ++ flat_map (printStmt "    ") (onEach c)
    ++ [ "  })";
         ")).then(() => {" ]
    ++ flat_map (printStmt "  ") (onAll c)
    ++ [ ("}).catch(" ++ reason c ++ " => {")%string ]
    ++ flat_map (printStmt "  ") (onFailure c)
    ++ [ "});" ].

Definition print (s : Script) : list string :=
  flat_map printItem (declarations s) ++ printChain (preload s).

(** *** What the function of a module does

    The function [function(module, exports, require) { code }] of a
    module, by what a call of it does before it returns: it calls
    [require], changes the root element of the document, prints, and
    in the end returns, leaving a value in [module.exports], or throws.
    What it does after a [require] may depend on how that call ended. *)

Inductive Action : Type :=
| SetRoot (content : option string)    (* the root element is given this markup, or removed *)
| Say (level : Level) (args : list Value).

Inductive Body : Type :=
| Done (exports : Value)
| Raise (reason : Value)
| Call (path : string) (next : Completion Value -> Body)
| Act (a : Action) (next : Body).

(** *** The frame *)

Inductive Step : Type :=
| Cached (key : string)                  (* __cache__[key] = ... *)
| FactoryCalled (path : string)          (* the function of a module is called *)
| RootWritten (html : string)            (* innerHTML of the root element is set by the script *)
| Printed (level : Level) (args : list Value)
| Acted (a : Action)                     (* by the function of a module *)
| Uncaught (reason : Value).             (* an error, or a rejection, that nothing handles *)

(** What the script works on: its two registries, its arrays, the
    element with id [root] of the document ([None] when there is none,
    else the markup last given to it), and the record of what
    happened. *)
Record Frame : Type := mkFrame {
  modules : OMap.t Body;
  cache : OMap.t Value;
  arrays : OMap.t (list string);
  root : option string;
  steps : list Step
}.

(** The promise of [Promise.all]: the imports that are started and not
    settled, how many of its promises are fulfilled and how many it
    waits for, and whether it is fulfilled or rejected itself. *)
Record Gathered : Type := mkGathered {
  pending : list string;
  fulfilled : nat;
  wanted : nat;
  settled : bool
}.

(** the document of the frame has a [div] with id [root], empty *)
Definition initialFrame : Frame :=
  {| modules := []; cache := []; arrays := []; root := Some EmptyString; steps := [] |}.

Definition idle : Gathered :=
  {| pending := []; fulfilled := 0; wanted := 0; settled := false |}.

Definition addStep (f : Frame) (s : Step) : Frame :=
  {| modules := modules f; cache := cache f; arrays := arrays f; root := root f;
     steps := steps f ++ [s] |}.

Definition writeCache (f : Frame) (key : string) (v : Value) : Frame :=
  {| modules := modules f; cache := OMap.set (cache f) key v; arrays := arrays f;
     root := root f; steps := steps f ++ [Cached key] |}.

Definition writeRoot (f : Frame) (html : string) : Frame :=
  {| modules := modules f; cache := cache f; arrays := arrays f; root := Some html;
     steps := steps f ++ [RootWritten html] |}.

Definition act (a : Action) (f : Frame) : Frame :=
  {| modules := modules f; cache := cache f; arrays := arrays f;
     root := match a with SetRoot content => content | Say _ _ => root f end;
     steps := steps f ++ [Acted a] |}.

(** the names every object inherits from [Object.prototype] *)
Definition inherited : list string :=
  [ "constructor"; "__defineGetter__"; "__defineSetter__"; "hasOwnProperty";
    "__lookupGetter__"; "__lookupSetter__"; "isPrototypeOf"; "propertyIsEnumerable";
    "toString"; "valueOf"; "__proto__"; "toLocaleString" ].

(** [__cache__[key]]: [__cache__] is an object literal, so a key it
    does not hold is looked up in [Object.prototype] *)
Definition cacheRead (f : Frame) (key : string) : Value :=
  match OMap.get (cache f) key with
  | Some v => v
  | None =>
      if existsb (String.eqb key) inherited then Object ("Object.prototype." ++ key)%string
      else Undefined
  end.

(** *** What a script does *)

Definition Env : Type := list (string * Value).

Fixpoint eval (env : Env) (e : Expr) : Completion Value :=
  match e with
  | Lit text => Normal (Text text)
  | Template text x =>
      match OMap.get env x with
      | Some v => Normal (Text (text ++ toText v)%string)
      | None => Thrown (notDefined x)
      end
  | Var x =>
      match OMap.get env x with
      | Some v => Normal v
      | None => Thrown (notDefined x)
      end
  | Message x =>
      match OMap.get env x with
      | Some v => messageOf v
      | None => Thrown (notDefined x)
      end
  | Around before e after =>
      match eval env e with
      | Normal v => Normal (Text (before ++ toText v ++ after)%string)
      | Thrown r => Thrown r
      end
  end.

Fixpoint evalAll (env : Env) (es : list Expr) : Completion (list Value) :=
  match es with
  | [] => Normal []
  | e :: rest =>
      match eval env e with
      | Thrown r => Thrown r
      | Normal v =>
          match evalAll env rest with
          | Thrown r => Thrown r
          | Normal vs => Normal (v :: vs)
          end
      end
  end.

(** a call of the function of a module, [require] being what the
    function is given under that name *)
Fixpoint callBody (require : string -> Frame -> Completion Value * Frame)
         (b : Body) (f : Frame) {struct b} : Completion Value * Frame :=
  match b with
  | Done exports => (Normal exports, f)
  | Raise r => (Thrown r, f)
  | Call p next =>
      let (outcome, f') := require p f in
      callBody require (next outcome) f'
  | Act a next => callBody require next (act a f)
  end.

(** [__require__(path)], with [stack] calls left before the engine
    throws its [RangeError]:

    [if (__cache__[path]) return __cache__[path];]
    [const module = { exports: {} };]
    [const fn = __modules__[path];]
    [if (!fn) throw new Error("Module not found: " + path);]
    [fn(module, module.exports, __require__);]
    [__cache__[path] = module.exports;]
    [return module.exports;] *)
Fixpoint require (stack : nat) (path : string) (f : Frame) {struct stack}
  : Completion Value * Frame :=
  if truthy (cacheRead f path) then (Normal (cacheRead f path), f)
  else
    match OMap.get (modules f) path with
    | None => (Thrown (ErrorObject "Error" ("Module not found: " ++ path)%string), f)
    | Some body =>
        match stack with
        | 0 => (Thrown stackOverflow, f)
        | S stack' =>
            match callBody (require stack') body (addStep f (FactoryCalled path)) with
            | (Normal exports, f') => (Normal exports, writeCache f' path exports)
            | (Thrown r, f') => (Thrown r, f')
            end
        end
    end.

Section Run.

(** how deep calls may nest *)
Variable stack : nat.

Fixpoint exec (s : Stmt) (env : Env) (f : Frame) {struct s} : Completion unit * Frame :=
  let execAll :=
    fix execAll (body : list Stmt) (env : Env) (f : Frame) {struct body}
      : Completion unit * Frame :=
      match body with
      | [] => (Normal tt, f)
      | s :: rest =>
          match exec s env f with
          | (Normal _, f') => execAll rest env f'
          | (Thrown r, f') => (Thrown r, f')
          end
      end in
  match s with
  | Remark _ => (Normal tt, f)
  | CacheSet key value =>
      match eval env key with
      | Thrown r => (Thrown r, f)
      | Normal k =>
          match eval env value with
          | Thrown r => (Thrown r, f)
          | Normal v => (Normal tt, writeCache f (toText k) v)
          end
      end
  | Console level args =>
      match evalAll env args with
      | Thrown r => (Thrown r, f)
      | Normal vs => (Normal tt, addStep f (Printed level vs))
      end
  | RootHTML e =>
      match eval env e with
      | Thrown r => (Thrown r, f)
      | Normal v =>
          match root f with
          | None => (Thrown (cannotSet "null" "innerHTML"), f)
          | Some _ => (Normal tt, writeRoot f (toText v))
          end
      end
  | Require path =>
      match eval env path with
      | Thrown r => (Thrown r, f)
      | Normal p =>
          match require stack (toText p) f with
          | (Normal _, f') => (Normal tt, f')
          | (Thrown r, f') => (Thrown r, f')
          end
      end
  | Try body x handler =>
      match execAll body env f with
      | (Normal _, f') => (Normal tt, f')
      | (Thrown r, f') => execAll handler ((x, r) :: env) f'
      end
  end.

Fixpoint execAll (body : list Stmt) (env : Env) (f : Frame) : Completion unit * Frame :=
  match body with
  | [] => (Normal tt, f)
  | s :: rest =>
      match exec s env f with
      | (Normal _, f') => execAll rest env f'
      | (Thrown r, f') => (Thrown r, f')
      end
  end.

(** what the text of a module does as the body of its function;
    [None] for a text that is no function body *)
Variable behaviour : string -> option Body.

(** how [import(pkg)] settles *)
Variable importResult : string -> Completion Value.

(** one declaration; [None] when the script does not parse *)
Definition declare (f : Frame) (i : Item) : option Frame :=
  match i with
  | Note _ | Blank | RequireFunction => Some f
  | ConstObject name =>
      Some (if String.eqb name "__modules__"
            then {| modules := []; cache := cache f; arrays := arrays f; root := root f;
                    steps := steps f |}
            else if String.eqb name "__cache__"
            then {| modules := modules f; cache := []; arrays := arrays f; root := root f;
                    steps := steps f |}
            else f)
  | ModuleDef path code =>
      match behaviour code with
      | None => None
      | Some body =>
          Some {| modules := OMap.set (modules f) path body; cache := cache f;
                  arrays := arrays f; root := root f; steps := steps f |}
      end
  | ConstArray name items =>
      Some {| modules := modules f; cache := cache f;
              arrays := OMap.set (arrays f) name items; root := root f; steps := steps f |}
  end.

Fixpoint declareAll (f : Frame) (items : list Item) : option Frame :=
  match items with
  | [] => Some f
  | i :: rest =>
      match declare f i with
      | None => None
      | Some f' => declareAll f' rest
      end
  end.

(** the handler given to [.catch]; what it throws is handled by
    nothing *)
Definition fail (c : Chain) (r : Value) (f : Frame) : Frame :=
  match execAll (onFailure c) [(reason c, r)] f with
  | (Normal _, f') => f'
  | (Thrown r', f') => addStep f' (Uncaught r')
  end.

(** the handler given to [.then]; what it throws rejects the promise
    that [.catch] is chained on *)
Definition succeed (c : Chain) (f : Frame) : Frame :=
  match execAll (onAll c) [] f with
  | (Normal _, f') => f'
  | (Thrown r, f') => fail c r f'
  end.

Definition settleAll (g : Gathered) : Gathered :=
  {| pending := pending g; fulfilled := fulfilled g; wanted := wanted g; settled := true |}.

Fixpoint without (pkg : string) (names : list string) : list string :=
  match names with
  | [] => []
  | n :: rest => if String.eqb pkg n then rest else n :: without pkg rest
  end.

Definition notPending (pkg : string) (g : Gathered) : Gathered :=
  {| pending := without pkg (pending g); fulfilled := fulfilled g; wanted := wanted g;
     settled := settled g |}.

Definition oneMoreFulfilled (g : Gathered) : Gathered :=
  {| pending := pending g; fulfilled := S (fulfilled g); wanted := wanted g;
     settled := settled g |}.

(** a promise given to [Promise.all] is rejected: the first to be so
    rejects [Promise.all], [.then] passes the rejection on, and the
    handler of [.catch] runs *)
Definition rejected (c : Chain) (r : Value) (state : Frame * Gathered) : Frame * Gathered :=
  let (f, g) := state in
  if settled g then (f, g) else (fail c r f, settleAll g).

(** a promise given to [Promise.all] is fulfilled: with the last of
    them [Promise.all] is fulfilled and the handler of [.then] runs *)
Definition fulfilledOne (c : Chain) (state : Frame * Gathered) : Frame * Gathered :=
  let (f, g) := state in
  let g := oneMoreFulfilled g in
  if negb (settled g) && (fulfilled g =? wanted g)%nat
  then (succeed c f, settleAll g)
  else (f, g).

(** The import of [pkg] settles (a name that is not pending settles
    nothing).  Fulfilled, the callback of its [.then] runs; the promise
    of that [.then] is fulfilled when the callback returns and rejected
    with what it throws. *)
Definition settle (c : Chain) (state : Frame * Gathered) (pkg : string) : Frame * Gathered :=
  let (f, g) := state in
  if negb (existsb (String.eqb pkg) (pending g)) then state
  else
    let g := notPending pkg g in
    match importResult pkg with
    | Thrown r => rejected c r (f, g)
    | Normal m =>
        match execAll (onEach c) [(namespace c, m); (package c, Text pkg)] f with
        | (Normal _, f') => fulfilledOne c (f', g)
        | (Thrown r, f') => rejected c r (f', g)
        end
    end.

(** the chain is evaluated: the imports are started *)
Definition start (c : Chain) (f : Frame) : Frame * Gathered :=
  match OMap.get (arrays f) (packages c) with
  | None => (addStep f (Uncaught (notDefined (packages c))), idle)
  | Some items =>
      let g := {| pending := items; fulfilled := 0; wanted := List.length items;
                  settled := false |} in
      match items with
      | [] => (succeed c f, settleAll g)
      | _ :: _ => (f, g)
      end
  end.

(** The script runs in the document of the frame, and the imports
    settle in the order [order]. *)
Definition run (s : Script) (order : list string) : Frame :=
  match declareAll initialFrame (declarations s) with
  | None => initialFrame
  | Some f => fst (fold_left (settle (preload s)) order (start (preload s) f))
  end.

End Run.

End Js.

(** ** The script of the bundle *)

Module Bundle.

(** [const externalPackages = \[...\]] of the emitted script *)
Definition externalPackages : list string :=
  ["react"; "react/jsx-runtime"; "react-dom"; "react-dom/client"].

Definition redPre (text : string) : string :=
  ("<pre style=" ++ Str.dq ++ "color:red" ++ Str.dq ++ ">" ++ text ++ "</pre>")%string.

(** the registry and its [__require__] *)
Definition registry : list Js.Item :=
  [ Js.Note "SWC Module Bundle";
    Js.ConstObject "__modules__";
    Js.ConstObject "__cache__";
    Js.Blank;
    Js.RequireFunction ].

(** one entry of the module map *)
Definition moduleItems (entry : string * string) : list Js.Item :=
  [ Js.ModuleDef (fst entry) (snd entry); Js.Blank ].

Definition preloadItems : list Js.Item :=
  [ Js.Blank;
    Js.Note "Preload external packages from import map";
    Js.ConstArray "externalPackages" externalPackages;
    Js.Blank;
    Js.Note "Load external packages into cache before executing modules" ].

Definition preloadChain (entryKey : string) : Js.Chain :=
  {| Js.packages := "externalPackages";
     Js.package := "pkg";
     Js.namespace := "m";
     Js.onEach :=
       [ Js.CacheSet (Js.Var "pkg") (Js.Var "m");
         Js.Console LogLevel [Js.Template "[swc] Preloaded: " "pkg"] ];
     Js.onAll :=
       [ Js.Remark "Execute entry point";
         Js.Try
           [ Js.Require (Js.Lit entryKey);
             Js.Console LogLevel [Js.Lit "[swc] App executed successfully"] ]
           "err"
           [ Js.Console ErrorLevel [Js.Lit "[swc] Execution error:"; Js.Var "err"];
             Js.RootHTML
               (Js.Around ("<pre style=" ++ Str.dq ++ "color:red" ++ Str.dq ++ ">")%string
                          (Js.Message "err") "</pre>") ] ];
     Js.reason := "err";
     Js.onFailure :=
       [ Js.Console ErrorLevel [Js.Lit "[swc] Failed to preload packages:"; Js.Var "err"];
         Js.RootHTML
           (Js.Around ("<pre style=" ++ Str.dq ++ "color:red" ++ Str.dq
                         ++ ">Failed to load dependencies: ")%string
                      (Js.Message "err") "</pre>") ] |}.

(** the script whose text [compileAndRun] puts into the document *)
Definition script (moduleMap : OMap.t string) (entryKey : string) : Js.Script :=
  {| Js.declarations :=
       registry ++ flat_map moduleItems (OMap.entries moduleMap) ++ preloadItems;
     Js.preload := preloadChain entryKey |}.

End Bundle.

(** * Pages, scenarios and the vocabulary of the properties *)

Unset Implicit Arguments.

(** ** The frame of [compileAndRun] *)

Definition grantedCapabilities : list string :=
  ["allow-scripts"; "allow-popups"; "allow-forms"].

(** ** Concrete pages, used to run the methods on *)

Module Playground.

(** a source provider that serves a table of files *)
Definition serve (files : OMap.t string) (modulePath baseUrl : string)
  : Result FileData :=
  match OMap.get files modulePath with
  | Some text => Ok (mkFileData text "tsx")
  | None => Throw (mkError ("File not found: " ++ modulePath))
  end.

(** an engine that hands the code back as it is *)
Definition passThrough (code filename : string) : Result string := Ok code.

Definition swcEnv (files : OMap.t string) : Swc.Env :=
  {| Swc.fetchSourceFile := serve files;
     Swc.importModule := fun _ => Ok tt;
     Swc.initSwc := Ok tt;
     Swc.transformSync := passThrough |}.

(** a bundler that resolves its entry point, loads what the plugin
    resolved it to and emits the text unchanged *)
Definition loadEntryOnly (options : Esbuild.BuildOptions) : Esbuild.Engine :=
  match Esbuild.entryPoints options with
  | [] => Esbuild.Finish (Ok (Esbuild.mkEngineResult [] [] []))
  | entry :: _ =>
      Esbuild.AskResolve
        (Esbuild.mkResolveArgs entry EmptyString EmptyString)
        (fun resolved =>
           match resolved with
           | Esbuild.Virtual path =>
               Esbuild.AskLoad
                 path
                 (fun loaded =>
                    match loaded with
                    | Esbuild.Loaded text _ =>
                        Esbuild.Finish (Ok (Esbuild.mkEngineResult [] [] [text]))
                    | Esbuild.LoadErrors errors =>
                        Esbuild.Finish (Ok (Esbuild.mkEngineResult errors [] []))
                    end)
           | _ => Esbuild.Finish (Ok (Esbuild.mkEngineResult [] [] []))
           end)
  end.

Definition esbuildEnv (files : OMap.t string) : Esbuild.Env :=
  {| Esbuild.fetchSourceFile := serve files;
     Esbuild.importModule := fun _ => Ok tt;
     Esbuild.engineInitialize := fun _ => Ok tt;
     Esbuild.build := loadEntryOnly |}.

Definition quoted (s : string) : string := Str.dq ++ s ++ Str.dq.

(** a page whose document has an empty root element *)
Definition page : World := initialWorld (Some []).

(** the state after a method, whatever its outcome *)
Definition after {I A} (m : M I A) (s : World * I) : World * I := snd (m s).

(** one file, no imports *)
Definition hello : OMap.t string :=
  [("@/entry", "export default function App(){}")].

(** entry -> a -> b *)
Definition chain : OMap.t string :=
  [("@/entry", ("import A from " ++ quoted "@/a" ++ ";")%string);
   ("@/a", ("import B from " ++ quoted "@/b" ++ ";")%string);
   ("@/b", "export const b = 1;")].

(** the entry names one file by two specifiers *)
Definition twice : OMap.t string :=
  [("@/entry", ("import X from " ++ quoted "@/x" ++ "; import Y from "
                  ++ quoted "@/x.js" ++ ";")%string);
   ("@/x", "export const x = 1;");
   ("@/x.js", "export const x = 1;")].

(** the entry imports a file that does not exist *)
Definition dangling : OMap.t string :=
  [("@/entry", ("import M from " ++ quoted "@/missing" ++ ";")%string)].

End Playground.

(** ** C1: the capabilities of the frame *)

(** The two classes behind one interface: a backend is a class with
    what it calls outside and one of its instances. *)
Inductive Backend : Type :=
| SwcBackend (env : Swc.Env) (this : Swc.Runner)
| EsbuildBackend (env : Esbuild.Env) (this : Esbuild.Runner).

(** [compileAndRun(options)] on a backend: the outcome and the page
    afterwards *)
Definition compileAndRunOn (b : Backend) (options : Options) (w : World)
  : Result string * World :=
  match b with
  | SwcBackend env this =>
      let '(outcome, (w', _)) := Swc.compileAndRun env options (w, this) in (outcome, w')
  | EsbuildBackend env this =>
      let '(outcome, (w', _)) := Esbuild.compileAndRun env options (w, this) in (outcome, w')
  end.

Definition swcPageReady : World * Swc.Runner :=
  Eval vm_compute in
    Playground.after (Swc.initialize (Playground.swcEnv Playground.hello))
                     (Playground.page, Swc.new).

Definition esbuildPageReady : World * Esbuild.Runner :=
  Eval vm_compute in
    Playground.after (Esbuild.initialize (Playground.esbuildEnv Playground.hello))
                     (Playground.page, Esbuild.new).

Definition swcPageRun : World :=
  Eval vm_compute in
    fst (Playground.after (Swc.compileAndRun (Playground.swcEnv Playground.hello) noOptions)
                          swcPageReady).

Definition esbuildPageRun : World :=
  Eval vm_compute in
    fst (Playground.after
           (Esbuild.compileAndRun (Playground.esbuildEnv Playground.hello) noOptions)
           esbuildPageReady).

(** ** C5: the target of an alias *)

(** The resolution of an alias-rooted specifier in the words of the
    specification: the prefix gives way to the base location, and the
    extension is the first of the ordered candidates for which the
    source exists. *)
Definition candidateExtensions : list string := [".tsx"; ".ts"; ".jsx"; ".js"].

Definition resolveAsSpecified (sourceExists : string -> bool)
           (specifier baseUrl : string) : option string :=
  let stem := (baseUrl ++ "/" ++ Str.slice 2 specifier)%string in
  match find (fun ext => sourceExists (stem ++ ext)%string) candidateExtensions with
  | Some ext => Some (stem ++ ext)%string
  | None => None
  end.

(** the sources of the playground's own project: both files are TSX *)
Definition playgroundSources (p : string) : bool :=
  String.eqb p "/src/entry.tsx" || String.eqb p "/src/components/ui/button.tsx".

(** ** C6: relative specifiers *)

(** no slash in a string *)
Fixpoint noSlash (s : string) : bool :=
  match s with
  | EmptyString => true
  | String c s' => negb (Ascii.eqb c "/") && noSlash s'
  end.

(** a name of a file or a directory: not empty, no slash, and neither
    of the two dot names *)
Definition segment (s : string) : bool :=
  noSlash s && negb (String.eqb s EmptyString) && negb (String.eqb s ".")
  && negb (String.eqb s "..").

(** the absolute path of a list of names, [/a/b/c] for [a], [b], [c] *)
Fixpoint absolute (names : list string) : string :=
  match names with
  | [] => EmptyString
  | n :: names' => ("/" ++ n ++ absolute names')%string
  end.

(** [k] times the step to the parent directory *)
Fixpoint ups (k : nat) : string :=
  match k with
  | O => EmptyString
  | S k' => ("../" ++ ups k')%string
  end.

(** ** What a compile of [SwcRunner] does, step by step

    The methods of [SwcRunner] touch the world only by adding to the
    trace and to the console.  Each of them is equal to a function that
    computes the outcome, the events, the lines and the instance
    afterwards; the properties of [compile] are proved on these. *)

Definition Line : Type := (Level * string)%type.

Definition logged (w : World) (events : list Event) (lines : list Line) : World :=
  setConsole (setTrace w (trace w ++ events)) (console w ++ lines).

(** the outcome of a method, what it added to the trace and to the
    console, and the instance afterwards *)
Definition Summary (A : Type) : Type :=
  (Result A * (list Event * list Line) * Swc.Runner)%type.

Definition replay {A} (w : World) (s : Summary A) : Result A * (World * Swc.Runner) :=
  let '(r, (events, lines), this) := s in (r, (logged w events lines, this)).

Definition typeErrorNoEngine : Error :=
  mkError "Cannot read properties of null (reading 'transformSync')".

Definition cacheTransformed (this : Swc.Runner) (modulePath : string)
           (data : FileData) (text : string) : Swc.Runner :=
  {| Swc.fileCache := OMap.set (Swc.fileCache this) modulePath (mkSwcCacheEntry data text);
     Swc.transformedFiles := OMap.set (Swc.transformedFiles this) modulePath text |}.

Definition loadErrorLine (modulePath : string) (e : Error) : Line :=
  (ErrorLevel, ("[swc] Load error: " ++ modulePath ++ " " ++ message e)%string).

Definition transformErrorLine (filePath : string) (e : Error) : Line :=
  (ErrorLevel, ("[swc] Transform error in " ++ filePath ++ ": " ++ message e)%string).

Definition loadSummary (env : Swc.Env) (loaded : bool) (modulePath baseUrl : string)
           (this : Swc.Runner) : Summary string :=
  match OMap.get (Swc.transformedFiles this) modulePath with
  | Some cached => (Ok cached, ([], []), this)
  | None =>
      match Swc.fetchSourceFile env modulePath baseUrl with
      | Throw e => (Throw e, ([Fetch modulePath baseUrl], [loadErrorLine modulePath e]), this)
      | Ok data =>
          if loaded then
            match Swc.transformSync env (contents data) modulePath with
            | Ok text =>
                (Ok text,
                 ([Fetch modulePath baseUrl; Transform modulePath],
                  [(LogLevel, ("[swc] Transformed: " ++ modulePath)%string)]),
                 cacheTransformed this modulePath data text)
            | Throw e =>
                (Throw e,
                 ([Fetch modulePath baseUrl; Transform modulePath],
                  [transformErrorLine modulePath e; loadErrorLine modulePath e]),
                 this)
            end
          else
            (Throw typeErrorNoEngine,
             ([Fetch modulePath baseUrl],
              [transformErrorLine modulePath typeErrorNoEngine;
               loadErrorLine modulePath typeErrorNoEngine]),
             this)
      end
  end.

Definition warnLine (importPath : string) (e : Error) : Line :=
  (WarnLevel,
   ("[swc] Could not transform dependency " ++ importPath ++ ": " ++ message e)%string).

Definition dependencySummary (env : Swc.Env) (loaded : bool) (baseUrl : string)
           (this : Swc.Runner) (importPath : string)
  : (list Event * list Line) * Swc.Runner :=
  match loadSummary env loaded importPath baseUrl this with
  | (Ok _, out, this') => (out, this')
  | (Throw e, (events, lines), this') =>
      ((events, lines ++ [warnLine importPath e]), this')
  end.

Fixpoint dependenciesSummary (env : Swc.Env) (loaded : bool) (baseUrl : string)
         (imports : list string) (this : Swc.Runner)
  : (list Event * list Line) * Swc.Runner :=
  match imports with
  | [] => (([], []), this)
  | importPath :: imports' =>
      let '((events1, lines1), this1) :=
        dependencySummary env loaded baseUrl this importPath in
      let '((events2, lines2), this2) :=
        dependenciesSummary env loaded baseUrl imports' this1 in
      ((events1 ++ events2, lines1 ++ lines2), this2)
  end.

Definition cleared (clear : bool) (this : Swc.Runner) : Swc.Runner :=
  if clear then {| Swc.fileCache := []; Swc.transformedFiles := [] |} else this.

Definition entryOf (options : Options) : string := orDefault (entryPoint options) "@/entry".
Definition baseOf (options : Options) : string := orDefault (baseUrl options) "/src".
Definition clearOf (options : Options) : bool := orDefault (clearCache options) false.

Definition buildingLine (entry : string) : Line :=
  (LogLevel, ("[swc] Building: " ++ entry)%string).

Definition buildErrorLine (e : Error) : Line :=
  (ErrorLevel, ("[swc] Build error: " ++ message e)%string).

(** the module map [compile] assembles from the entry and the cache *)
Definition assemble (entry text : string) (this : Swc.Runner) : Swc.BuildResult :=
  let rewritten := Swc.resolveImports text entry in
  let entryPathResolved := Swc.registryPath entry in
  let moduleMap :=
    fold_left Swc.addToModuleMap (OMap.entries (Swc.transformedFiles this))
              (OMap.set OMap.empty entryPathResolved rewritten) in
  {| Swc.code := rewritten;
     Swc.moduleMap := moduleMap;
     Swc.resultEntryPoint := entryPathResolved;
     Swc.warnings := [] |}.

Definition buildCompleteLine (result : Swc.BuildResult) : Line :=
  (LogLevel,
   ("[swc] Build complete: " ++ decimal (String.length (Swc.code result))
      ++ " bytes (" ++ decimal (List.length (OMap.keys (Swc.moduleMap result)))
      ++ " modules)")%string).

Definition compileSummary (env : Swc.Env) (loaded : bool) (options : Options)
           (this : Swc.Runner) : Summary Swc.BuildResult :=
  let entry := entryOf options in
  let base := baseOf options in
  match loadSummary env loaded entry base (cleared (clearOf options) this) with
  | (Throw e, (events, lines), this1) =>
      (Throw e, (events, buildingLine entry :: lines ++ [buildErrorLine e]), this1)
  | (Ok text, (events, lines), this1) =>
      let '((events2, lines2), this2) :=
        dependenciesSummary env loaded base (Swc.extractImports text) this1 in
      let result := assemble entry text this2 in
      (Ok result,
       (events ++ events2,
        buildingLine entry :: lines ++ lines2 ++ [buildCompleteLine result]),
       this2)
  end.

(** ** One step of a compile *)

(** the file names given to the engine *)
Fixpoint transformedBy (events : list Event) : list string :=
  match events with
  | [] => []
  | Transform filename :: events' => filename :: transformedBy events'
  | _ :: events' => transformedBy events'
  end.

(** the module paths that were asked of the source provider *)
Fixpoint fetched (events : list Event) : list string :=
  match events with
  | [] => []
  | Fetch modulePath _ :: events' => modulePath :: fetched events'
  | _ :: events' => fetched events'
  end.

(** ** The loop over the dependencies *)

(** a load fails with [e]: the source provider throws it, or the
    engine does on what the source provider returned *)
Definition loadFails (env : Swc.Env) (modulePath baseUrl : string) (e : Error) : Prop :=
  Swc.fetchSourceFile env modulePath baseUrl = Throw e
  \/ exists data, Swc.fetchSourceFile env modulePath baseUrl = Ok data
                  /\ Swc.transformSync env (contents data) modulePath = Throw e.

(** ** C3: failures of the entry and of a dependency *)

(** the entry is in the cache with [text], or it is fetched and
    transformed to [text] *)
Definition entryLoads (env : Swc.Env) (entry base : string) (before : Swc.Runner)
           (text : string) : Prop :=
  OMap.get (Swc.transformedFiles before) entry = Some text
  \/ (OMap.get (Swc.transformedFiles before) entry = None
      /\ exists data, Swc.fetchSourceFile env entry base = Ok data
                      /\ Swc.transformSync env (contents data) entry = Ok text).

Definition notFound (modulePath : string) : Error :=
  mkError ("File not found: " ++ modulePath).

(** ** C8: one load per specifier *)

Definition twiceCompiled : Result Swc.BuildResult * (World * Swc.Runner) :=
  Eval vm_compute in
    Swc.compile (Playground.swcEnv Playground.twice) noOptions swcPageReady.

(** ** C9: what the caches save *)

Definition keepCache : Options :=
  {| entryPoint := None; baseUrl := None; minify := None; sourcemap := None;
     clearCache := Some false |}.

Definition danglingOnce : Result Swc.BuildResult * (World * Swc.Runner) :=
  Eval vm_compute in
    Swc.compile (Playground.swcEnv Playground.dangling) keepCache swcPageReady.

Definition danglingTwice : Result Swc.BuildResult * (World * Swc.Runner) :=
  Eval vm_compute in
    Swc.compile (Playground.swcEnv Playground.dangling) keepCache (snd danglingOnce).

Definition chainOnce : Result Swc.BuildResult * (World * Swc.Runner) :=
  Eval vm_compute in
    Swc.compile (Playground.swcEnv Playground.chain) keepCache swcPageReady.

Definition chainTwice : Result Swc.BuildResult * (World * Swc.Runner) :=
  Eval vm_compute in
    Swc.compile (Playground.swcEnv Playground.chain) keepCache (snd chainOnce).

Definition clearFirst : Options :=
  {| entryPoint := None; baseUrl := None; minify := None; sourcemap := None;
     clearCache := Some true |}.

Definition esbuildOnce : Result Esbuild.BuildResult * (World * Esbuild.Runner) :=
  Eval vm_compute in
    Esbuild.compile (Playground.esbuildEnv Playground.hello) keepCache esbuildPageReady.

(** ** C4: the entry runs after the preloads *)

(** no function of a module was called *)
Definition noFactory (steps : list Js.Step) : Prop :=
  forall k, ~ In (Js.FactoryCalled k) steps.

(** what a fulfilled import leaves in the steps *)
Definition preloadSteps (pkg : string) : list Js.Step :=
  [Js.Cached pkg; Js.Printed LogLevel [Js.Text ("[swc] Preloaded: " ++ pkg)]].

(** the functions of the modules of a module map, added to [m]; [None]
    when one of the texts is no function body *)
Fixpoint registered (behaviour : string -> option Js.Body) (entries : list (string * string))
         (m : OMap.t Js.Body) : option (OMap.t Js.Body) :=
  match entries with
  | [] => Some m
  | (path, code) :: rest =>
      match behaviour code with
      | None => None
      | Some body => registered behaviour rest (OMap.set m path body)
      end
  end.

(** While [Promise.all] waits for the imports of the bundle: it is not
    settled, it has counted the imports that are no longer pending,
    some import is pending, every package that is not is in the cache
    after an import that was fulfilled, no function of a module was
    called, the root element is empty, the cache holds packages only,
    and the functions are those of the module map. *)
Record Waits (importResult : string -> Js.Completion Js.Value) (ms : OMap.t Js.Body)
       (state : Js.Frame * Js.Gathered) : Prop := mkWaits {
  waits_unsettled : Js.settled (snd state) = false;
  waits_wanted :
    Js.fulfilled (snd state) + List.length (Js.pending (snd state)) = Js.wanted (snd state);
  waits_some : Js.pending (snd state) <> [];
  waits_NoDup : NoDup (Js.pending (snd state));
  waits_incl : incl (Js.pending (snd state)) Bundle.externalPackages;
  waits_noFactory : noFactory (Js.steps (fst state));
  waits_root : Js.root (fst state) = Some EmptyString;
  waits_done :
    forall pkg, In pkg Bundle.externalPackages ->
                In pkg (Js.pending (snd state))
                \/ (Js.isNormal (importResult pkg) = true
                    /\ In (Js.Cached pkg) (Js.steps (fst state)));
  waits_cache :
    forall k, ~ In k Bundle.externalPackages -> OMap.get (Js.cache (fst state)) k = None;
  waits_modules : Js.modules (fst state) = ms
}.

(** no function of a module was called, or the first to be called was
    the one of the entry, after every package was imported and put into
    the cache *)
Definition afterPreloads (importResult : string -> Js.Completion Js.Value)
           (entryKey : string) (f : Js.Frame) : Prop :=
  noFactory (Js.steps f)
  \/ exists pre post,
      Js.steps f = pre ++ Js.FactoryCalled entryKey :: post
      /\ noFactory pre
      /\ forall pkg, In pkg Bundle.externalPackages ->
                     Js.isNormal (importResult pkg) = true /\ In (Js.Cached pkg) pre.

(** the frame when the declarations of the script are evaluated *)
Definition loadedFrame (ms : OMap.t Js.Body) : Js.Frame :=
  {| Js.modules := ms;
     Js.cache := [];
     Js.arrays := [("externalPackages", Bundle.externalPackages)];
     Js.root := Some EmptyString;
     Js.steps := [] |}.

(** the four imports are started, none is settled *)
Definition allPending : Js.Gathered :=
  {| Js.pending := Bundle.externalPackages;
     Js.fulfilled := 0;
     Js.wanted := List.length Bundle.externalPackages;
     Js.settled := false |}.

(** the frame after the callback of a fulfilled import *)
Definition preloaded (f : Js.Frame) (pkg : string) (m : Js.Value) : Js.Frame :=
  Js.addStep (Js.writeCache f pkg m)
             (Js.Printed LogLevel [Js.Text ("[swc] Preloaded: " ++ pkg)]).

(** the frame after the imports of [order] were fulfilled, each with
    the namespace [namespaces] gives for it *)
Definition preloadedFrame (ms : OMap.t Js.Body) (namespaces : string -> Js.Value)
           (order : list string) : Js.Frame :=
  fold_left (fun f pkg => preloaded f pkg (namespaces pkg)) order (loadedFrame ms).

(** every import is fulfilled with an object *)
Definition network : string -> Js.Completion Js.Value :=
  fun pkg => Js.Normal (Js.Object pkg).

(** the import of react-dom is rejected *)
Definition networkWithoutReactDom : string -> Js.Completion Js.Value :=
  fun pkg => if String.eqb pkg "react-dom"
             then Js.Thrown (Js.ErrorObject "TypeError" "Failed to fetch")
             else Js.Normal (Js.Object pkg).

(** a module that renders into the root element and returns *)
Definition rendering : string -> option Js.Body :=
  fun _ => Some (Js.Act (Js.SetRoot (Some "<h1>Hello</h1>")) (Js.Done (Js.Object "exports"))).

(** a module that throws *)
Definition throwing (reason : Js.Value) : string -> option Js.Body :=
  fun _ => Some (Js.Raise reason).

(** the module map of a bundle of one module *)
Definition entryOnly : OMap.t string := [("/src/entry.js", "render();")].

(** ** C7: the rewriting of imports and exports *)

(** every character of a string is in a class *)
Fixpoint allIn (k : cclass) (s : string) : bool :=
  match s with
  | EmptyString => true
  | String c s' => in_class k c && allIn k s'
  end.

(** a repetition of the class cannot go on into the string *)
Definition stops (k : cclass) (s : string) : bool :=
  match s with
  | EmptyString => true
  | String c _ => negb (in_class k c)
  end.

(** a name: word characters, at least one *)
Definition ident (s : string) : bool := negb (String.eqb s EmptyString) && allIn Word s.

(** the text of a specifier: no quote character, at least one character *)
Definition specifierText (s : string) : bool :=
  negb (String.eqb s EmptyString) && allIn notQuote s.

(** a word occurs somewhere in a text *)
Fixpoint mentions (word s : string) : bool :=
  Str.startsWith s word
  || match s with
     | EmptyString => false
     | String _ s' => mentions word s'
     end.

(** the bindings that take the place of a combined import *)
Definition combinedBindings (A B C x : string) : string :=
  "const " ++ A ++ " = require(" ++ Str.dq ++ Swc.resolveAlias ("@/" ++ x) ++ Str.dq ++ ");"
    ++ Str.nl ++ "const {  " ++ B ++ ": " ++ C ++ "  } = " ++ A.

(** ** What a build of [EsbuildRunner] does to the page *)

(** the options [compile] of [EsbuildRunner] gives to the engine *)
Definition buildOptionsOf (options : Options) : Esbuild.BuildOptions :=
  {| Esbuild.entryPoints := [orDefault (entryPoint options) "@/entry"];
     Esbuild.bundle := true;
     Esbuild.format := "esm";
     Esbuild.write := false;
     Esbuild.buildMinify := orDefault (minify options) false;
     Esbuild.buildSourcemap :=
       if orDefault (sourcemap options) false then Some "inline" else None;
     Esbuild.target := "es2020";
     Esbuild.buildJsx := "automatic";
     Esbuild.jsxImportSource := "react";
     Esbuild.logLevel := "warning" |}.

Definition esbuildCleared (clear : bool) (this : Esbuild.Runner) : Esbuild.Runner :=
  if clear then {| Esbuild.fileCache := [] |} else this.

Definition esbuildErrorLine (e : Error) : Line :=
  (ErrorLevel, ("[esbuild] Build error: " ++ message e)%string).

(** what [compile] of [EsbuildRunner] makes of the outcome of the build *)
Definition finishBuild (built : Result Esbuild.EngineResult * (World * Esbuild.Runner))
  : Result Esbuild.BuildResult * (World * Esbuild.Runner) :=
  match built with
  | (Throw e, (w, this)) => (Throw e, (logged w [] [esbuildErrorLine e], this))
  | (Ok result, (w, this)) =>
      match Esbuild.errors result with
      | _ :: _ =>
          let errorText := Str.join Str.nl (map Esbuild.text (Esbuild.errors result)) in
          (Throw (mkError errorText),
           (logged w [] [(ErrorLevel, ("[esbuild] Errors: " ++ errorText)%string);
                         esbuildErrorLine (mkError errorText)],
            this))
      | [] =>
          match Esbuild.outputFiles result with
          | [] =>
              (Throw (mkError "Cannot read properties of undefined (reading 'text')"),
               (logged w []
                       [esbuildErrorLine
                          (mkError "Cannot read properties of undefined (reading 'text')")],
                this))
          | bundledCode :: _ =>
              (Ok {| Esbuild.code := bundledCode;
                     Esbuild.warnings := Esbuild.engineWarnings result |},
               (logged w []
                       [(LogLevel,
                         ("[esbuild] Build complete: "
                            ++ decimal (String.length bundledCode) ++ " bytes")%string)],
                this))
          end
      end
  end.

(** ** Further vocabulary, and the code beside the two classes *)

(** neither of the words import and export occurs in a text *)
Definition plain (s : string) : bool :=
  negb (mentions "import" s) && negb (mentions "export" s).

(** The two caches of a [SwcRunner] agree: they hold the same paths in
    the same order, and the text kept for a path is the [transformed]
    property of the record the file cache keeps for it. *)
Definition coherent (this : Swc.Runner) : Prop :=
  map (fun entry => (fst entry, transformed (snd entry))) (Swc.fileCache this)
  = Swc.transformedFiles this.

(** the page and the instance after one compile of the entry of
    [Playground.chain] *)
Definition chainCompiled : World * Swc.Runner :=
  Eval vm_compute in
    snd (Swc.compile (Playground.swcEnv Playground.chain) noOptions swcPageReady).

(** [{ entryPoint: "@/b" }] *)
Definition entryB : Options :=
  {| entryPoint := Some "@/b"; baseUrl := None; minify := None; sourcemap := None;
     clearCache := None |}.

(** a compile of [@/b] on the instance that has compiled the entry *)
Definition bAfterChain : Result Swc.BuildResult * (World * Swc.Runner) :=
  Eval vm_compute in
    Swc.compile (Playground.swcEnv Playground.chain) entryB chainCompiled.

(** the error of a dynamic import that cannot reach its module *)
Definition fetchFailed : Error := mkError "Failed to fetch dynamically imported module".

(** a page that cannot reach the engine of [SwcRunner] *)
Definition swcOffline : Swc.Env :=
  {| Swc.fetchSourceFile := Playground.serve Playground.hello;
     Swc.importModule := fun _ => Throw fetchFailed;
     Swc.initSwc := Ok tt;
     Swc.transformSync := Playground.passThrough |}.

(** a page on which the module of esbuild loads and its set-up fails *)
Definition esbuildBroken : Esbuild.Env :=
  {| Esbuild.fetchSourceFile := Playground.serve Playground.hello;
     Esbuild.importModule := fun _ => Ok tt;
     Esbuild.engineInitialize := fun _ => Throw (mkError "wasm failed to compile");
     Esbuild.build := Playground.loadEntryOnly |}.

(** a page whose document has no root element *)
Definition rootlessReady : World * Swc.Runner :=
  Eval vm_compute in
    Playground.after (Swc.initialize (Playground.swcEnv Playground.hello))
                     (initialWorld None, Swc.new).

(** On a page, a class whose flag is up has its engine: the module
    variable is set before the flag is. *)
Definition enginesPresent (w : World) : Prop :=
  (swcInitialized w = true -> swcLoaded w = true)
  /\ (esbuildInitialized w = true -> esbuildLoaded w = true).

(** the path the rewriter of [SwcRunner] puts in the place of [@/rest] *)
Definition aliasTarget (rest : string) : string :=
  if Str.endsWith ("/src/" ++ rest) ".js" || Str.endsWith ("/src/" ++ rest) ".jsx"
  then "/src/" ++ rest
  else "/src/" ++ rest ++ ".js".

(** a bundler that resolves its entry point and loads what the plugin
    resolved it to; as esbuild does, it rejects when the plugin reports
    errors *)
Definition rejectingOnErrors (options : Esbuild.BuildOptions) : Esbuild.Engine :=
  match Esbuild.entryPoints options with
  | [] => Esbuild.Finish (Ok (Esbuild.mkEngineResult [] [] []))
  | entry :: _ =>
      Esbuild.AskResolve
        (Esbuild.mkResolveArgs entry EmptyString EmptyString)
        (fun resolved =>
           match resolved with
           | Esbuild.Virtual path =>
               Esbuild.AskLoad
                 path
                 (fun loaded =>
                    match loaded with
                    | Esbuild.Loaded text _ =>
                        Esbuild.Finish (Ok (Esbuild.mkEngineResult [] [] [text]))
                    | Esbuild.LoadErrors errors =>
                        Esbuild.Finish
                          (Throw (mkError ("Build failed with "
                                             ++ decimal (List.length errors) ++ " error:"
                                             ++ Str.nl
                                             ++ Str.join Str.nl (map Esbuild.text errors))))
                    end)
           | _ => Esbuild.Finish (Ok (Esbuild.mkEngineResult [] [] []))
           end)
  end.

(** a page without sources, whose bundler rejects a build with errors *)
Definition rejectingEnv : Esbuild.Env :=
  {| Esbuild.fetchSourceFile := Playground.serve [];
     Esbuild.importModule := fun _ => Ok tt;
     Esbuild.engineInitialize := fun _ => Ok tt;
     Esbuild.build := rejectingOnErrors |}.

(** ** The development server (vite.config.js) *)

Module Vite.

(** [s.includes(t)] *)
Fixpoint includes (s t : string) : bool :=
  Str.startsWith s t
  || match s with
     | EmptyString => false
     | String _ s' => includes s' t
     end.

(** What [resolveId] returns: [{ id, external: true }]. *)
Record Resolved : Type := mkResolved { id : string; external : bool }.

(** the [resolveId] hook of [skipSrcAnalysis]; [None] stands for the
    [undefined] of a call that falls through *)
Definition resolveId (id : string) : option Resolved :=
  if includes id "/src/" || Str.startsWith id "@/" || Str.startsWith id "./src/"
  then Some {| id := id; external := true |}
  else None.

(** What the middleware of [serveRawSrc] reaches on the server: the
    file system, and [path.join(process.cwd(), url)]. *)
Record Env : Type := mkEnv {
  joinCwd : string -> string;
  existsSync : string -> bool;
  statIsFile : string -> Result bool;       (* fs.statSync(p).isFile() *)
  readFileSync : string -> Result string
}.

(** the response object, as far as the middleware writes to it *)
Record Response : Type := mkResponse {
  statusCode : nat;
  headers : OMap.t string;
  body : option string                       (* what [res.end] was given *)
}.

Definition freshResponse : Response :=
  {| statusCode := 200; headers := OMap.empty; body := None |}.

Definition setHeader (res : Response) (name value : string) : Response :=
  {| statusCode := statusCode res; headers := OMap.set (headers res) name value;
     body := body res |}.

Definition setStatus (res : Response) (code : nat) : Response :=
  {| statusCode := code; headers := headers res; body := body res |}.

Definition endWith (res : Response) (text : string) : Response :=
  {| statusCode := statusCode res; headers := headers res; body := Some text |}.

(** the two ways the middleware returns: it calls [next()], or it has
    ended the response *)
Inductive Handled : Type :=
| Next
| Ended (res : Response).

(** the function given to [server.middlewares.use]: the outcome and
    the line it prints *)
Definition middleware (env : Env) (url : string) : Handled * list (Level * string) :=
  if negb (Str.startsWith url "/src/") then (Next, [])
  else
    let filePath := joinCwd env url in
    let res := freshResponse in
    let failed (e : Error) :=
      (Ended (endWith (setStatus res 500) "Server error"),
       [(ErrorLevel, ("[vite] Error serving " ++ url ++ ": " ++ message e)%string)]) in
    let missing :=
      (Ended (endWith (setStatus res 404) "Not found"),
       [(LogLevel, ("[vite] Not found: " ++ url)%string)]) in
    if existsSync env filePath then
      match statIsFile env filePath with
      | Throw e => failed e
      | Ok false => missing
      | Ok true =>
          match readFileSync env filePath with
          | Throw e => failed e
          | Ok content =>
              let res := setHeader res "Content-Type" "application/javascript" in
              let res := setHeader res "Cache-Control" "no-cache" in
              (Ended (endWith res content),
               [(LogLevel, ("[vite] Served: " ++ url)%string)])
          end
      end
    else missing.

End Vite.

(** ** The page of the playground (playground.js) *)

Module Ide.

(** the module-level state [loadAllFiles] writes to *)
Record State : Type := mkState { fileContents : OMap.t string }.

Record File : Type := mkFile { path : string; name : string }.

(** [const files = \[...\]] of [loadAllFiles] *)
Definition files : list File :=
  [ {| path := "@/entry"; name := "entry.tsx" |};
    {| path := "@/components/ui/button"; name := "button.tsx" |};
    {| path := "@/lib/utils"; name := "utils.js" |} ].

Definition placeholder (file : File) (error : Error) : string :=
  "// Error loading " ++ name file ++ Str.nl ++ "// " ++ message error.

Section Methods.
(** [fetchSourceFile] of file-loader.js *)
Variable fetchSourceFile : string -> string -> Result FileData.

Definition setContents (p text : string) : M State unit :=
  modifyThis (fun state => {| fileContents := OMap.set (fileContents state) p text |}).

(** the body of the loop of [loadAllFiles] *)
Definition loadOne (file : File) : M State unit :=
  tryCatch
    (emit (Fetch (path file) "/src") >>
     let! data := liftResult (fetchSourceFile (path file) "/src") in
     setContents (path file) (contents data) >>
     consoleLog ("[playground] Loaded " ++ path file ++ ": "
                 ++ decimal (String.length (contents data)) ++ " bytes"))
    (fun error =>
       consoleError ("[playground] Failed to load " ++ path file ++ ": " ++ message error) >>
       setContents (path file) (placeholder file error)).

(** [async function loadAllFiles()] *)
Definition loadAllFiles : M State unit := Swc.forOf files loadOne.

End Methods.

End Ide.

(** what the editor shows for a file after [loadAllFiles] *)
Definition shownFor (fetchSourceFile : string -> string -> Result FileData) (file : Ide.File)
  : string :=
  match fetchSourceFile (Ide.path file) "/src" with
  | Ok data => contents data
  | Throw error => Ide.placeholder file error
  end.

(** * Properties *)

(** ** Running a method: the laws of sequencing *)

Lemma bind_Ok_inv {I A B} (m : M I A) (k : A -> M I B) s b s' :
  bind m k s = (Ok b, s') ->
  exists a s1, m s = (Ok a, s1) /\ k a s1 = (Ok b, s').
Proof.
  unfold bind. destruct (m s) as [[a | e] s1]; intros H.
  - exists a, s1. split; [reflexivity | exact H].
  - discriminate H.
Qed.

Lemma bind_Ok {I A B} (m : M I A) (k : A -> M I B) s a s1 :
  m s = (Ok a, s1) -> bind m k s = k a s1.
Proof. unfold bind. intros ->. reflexivity. Qed.

Lemma bind_Throw {I A B} (m : M I A) (k : A -> M I B) s e s1 :
  m s = (Throw e, s1) -> bind m k s = (Throw e, s1).
Proof. unfold bind. intros ->. reflexivity. Qed.

(** ** The frame of [compileAndRun] *)

Lemma runInIframe_frame {I} script (w : World) (i : I) w' i' :
  runInIframe script (w, i) = (Ok tt, (w', i')) ->
  exists frame, hostRoot w' = Some [frame]
                /\ sandbox frame = grantedCapabilities
                /\ nth_error (blobs w') (src frame) = Some (iframeHTML script).
Proof.
  unfold runInIframe, bind, getWorld, modifyWorld, createObjectURL, bind, ret, throw.
  cbn. destruct (hostRoot w) as [children |]; cbn; intros H; [| discriminate H].
  injection H as <- <-. eexists. split; [reflexivity |]. split; [reflexivity |].
  cbn. rewrite nth_error_app2 by lia. rewrite Nat.sub_diag. reflexivity.
Qed.

Lemma consoleLog_world {I} line (w : World) (i : I) :
  consoleLog line (w, i) = (Ok tt, (setConsole w (console w ++ [(LogLevel, line)]), i)).
Proof. reflexivity. Qed.

(** ** C10: one flag for all the instances of a class *)

Lemma swc_initialize_flag env w this w' this' :
  Swc.initialize env (w, this) = (Ok tt, (w', this')) ->
  swcInitialized w' = true.
Proof.
  unfold Swc.initialize, bind, getWorld. cbn.
  destruct (swcInitialized w) eqn:Hflag.
  - unfold ret. intros H. injection H as <- _. exact Hflag.
  - unfold tryCatch, bind, emit, modifyWorld, liftResult, consoleLog, consoleError.
    cbn.
    destruct (Swc.importModule env _) as [[] | e]; cbn;
      [| unfold throw; intros H; discriminate H].
    destruct (Swc.initSwc env) as [[] | e]; cbn;
      [| unfold throw; intros H; discriminate H].
    intros H. injection H as <- _. reflexivity.
Qed.

Lemma esbuild_initialize_flag env w this w' this' :
  Esbuild.initialize env (w, this) = (Ok tt, (w', this')) ->
  esbuildInitialized w' = true.
Proof.
  unfold Esbuild.initialize, bind, getWorld. cbn.
  destruct (esbuildInitialized w) eqn:Hflag.
  - unfold ret. intros H. injection H as <- _. exact Hflag.
  - unfold tryCatch, bind, emit, modifyWorld, liftResult, consoleLog, consoleError.
    cbn.
    destruct (Esbuild.importModule env _) as [[] | e]; cbn;
      [| unfold throw; intros H; discriminate H].
    destruct (Esbuild.engineInitialize env _) as [[] | e]; cbn;
      [| unfold throw; intros H; discriminate H].
    intros H. injection H as <- _. reflexivity.
Qed.

Lemma swc_initialize_again env w this :
  swcInitialized w = true -> Swc.initialize env (w, this) = (Ok tt, (w, this)).
Proof. intros H. unfold Swc.initialize, bind, getWorld. cbn. rewrite H. reflexivity. Qed.

Lemma esbuild_initialize_again env w this :
  esbuildInitialized w = true -> Esbuild.initialize env (w, this) = (Ok tt, (w, this)).
Proof.
  intros H. unfold Esbuild.initialize, bind, getWorld. cbn. rewrite H. reflexivity.
Qed.

Lemma swc_compile_ready env options w this :
  swcInitialized w = true ->
  Swc.compile env options (w, this) = Swc.compileBody env options (w, this).
Proof. intros H. unfold Swc.compile, bind, getWorld. cbn. rewrite H. reflexivity. Qed.

Lemma swc_compile_not_ready env options w this :
  swcInitialized w = false ->
  Swc.compile env options (w, this) = (Throw Swc.notInitialized, (w, this)).
Proof. intros H. unfold Swc.compile, bind, getWorld. cbn. rewrite H. reflexivity. Qed.

Lemma esbuild_compile_ready env options w this :
  esbuildInitialized w = true ->
  Esbuild.compile env options (w, this) = Esbuild.compileBody env options (w, this).
Proof. intros H. unfold Esbuild.compile, bind, getWorld. cbn. rewrite H. reflexivity. Qed.

Lemma esbuild_compile_not_ready env options w this :
  esbuildInitialized w = false ->
  Esbuild.compile env options (w, this) = (Throw Esbuild.notInitialized, (w, this)).
Proof. intros H. unfold Esbuild.compile, bind, getWorld. cbn. rewrite H. reflexivity. Qed.

(** C10. Once [initialize] has resolved on one instance of a class,
    [initialize] on any other instance of that class returns at once:
    it resolves and leaves the world as it is, so nothing is imported
    or set up again; and [compile] on that other instance passes the
    test of the flag and runs its body, although the instance never
    loaded the engine itself.  The same holds for both classes, each
    with the flag of its own file. *)
Theorem C10_initialization_is_process_wide :
  (forall (env env' : Swc.Env) (first first' other : Swc.Runner) (w w' : World)
          (options : Options),
      Swc.initialize env (w, first) = (Ok tt, (w', first')) ->
      Swc.initialize env' (w', other) = (Ok tt, (w', other))
      /\ Swc.compile env' options (w', other)
         = Swc.compileBody env' options (w', other))
  /\ (forall (env env' : Esbuild.Env) (first first' other : Esbuild.Runner)
             (w w' : World) (options : Options),
         Esbuild.initialize env (w, first) = (Ok tt, (w', first')) ->
         Esbuild.initialize env' (w', other) = (Ok tt, (w', other))
         /\ Esbuild.compile env' options (w', other)
            = Esbuild.compileBody env' options (w', other)).
Proof.
  split; intros env env' first first' other w w' options H.
  - apply swc_initialize_flag in H. split.
    + apply swc_initialize_again, H.
    + apply swc_compile_ready, H.
  - apply esbuild_initialize_flag in H. split.
    + apply esbuild_initialize_again, H.
    + apply esbuild_compile_ready, H.
Qed.

Lemma C10_initialization_is_process_wide_witness :
  (Swc.initialize (Playground.swcEnv Playground.hello) (Playground.page, Swc.new)
   = (Ok tt, swcPageReady)
   /\ Swc.initialize (Playground.swcEnv Playground.chain) (fst swcPageReady, Swc.new)
      = (Ok tt, (fst swcPageReady, Swc.new))
   /\ isOk (fst (Swc.compile (Playground.swcEnv Playground.chain) noOptions
                             (fst swcPageReady, Swc.new))) = true
   /\ fst (Swc.compile (Playground.swcEnv Playground.chain) noOptions
                       (Playground.page, Swc.new)) = Throw Swc.notInitialized)
  /\ (Esbuild.initialize (Playground.esbuildEnv Playground.hello)
                         (Playground.page, Esbuild.new)
      = (Ok tt, esbuildPageReady)
      /\ Esbuild.initialize (Playground.esbuildEnv Playground.chain)
                            (fst esbuildPageReady, Esbuild.new)
         = (Ok tt, (fst esbuildPageReady, Esbuild.new))
      /\ isOk (fst (Esbuild.compile (Playground.esbuildEnv Playground.chain) noOptions
                                    (fst esbuildPageReady, Esbuild.new))) = true
      /\ fst (Esbuild.compile (Playground.esbuildEnv Playground.chain) noOptions
                              (Playground.page, Esbuild.new))
         = Throw Esbuild.notInitialized).
Proof.
  assert (Hs : Swc.initialize (Playground.swcEnv Playground.hello)
                              (Playground.page, Swc.new) = (Ok tt, swcPageReady))
    by (vm_compute; reflexivity).
  assert (He : Esbuild.initialize (Playground.esbuildEnv Playground.hello)
                                  (Playground.page, Esbuild.new)
               = (Ok tt, esbuildPageReady))
    by (vm_compute; reflexivity).
  split.
  - split; [exact Hs |].
    destruct (proj1 C10_initialization_is_process_wide
                    (Playground.swcEnv Playground.hello)
                    (Playground.swcEnv Playground.chain)
                    Swc.new (snd swcPageReady) Swc.new
                    Playground.page (fst swcPageReady) noOptions Hs) as [Hi Hc].
    split; [exact Hi |]. split.
    + rewrite Hc. vm_compute. reflexivity.
    + vm_compute. reflexivity.
  - split; [exact He |].
    destruct (proj2 C10_initialization_is_process_wide
                    (Playground.esbuildEnv Playground.hello)
                    (Playground.esbuildEnv Playground.chain)
                    Esbuild.new (snd esbuildPageReady) Esbuild.new
                    Playground.page (fst esbuildPageReady) noOptions He) as [Hi Hc].
    split; [exact Hi |]. split.
    + rewrite Hc. vm_compute. reflexivity.
    + vm_compute. reflexivity.
Defined.

(** ** Strings: the lemmas the path properties need *)

Lemma append_assoc (a b c : string) : ((a ++ b) ++ c = a ++ (b ++ c))%string.
Proof. induction a as [| x a IH]; cbn; [reflexivity | rewrite IH; reflexivity]. Qed.

Lemma append_empty_r (a : string) : (a ++ EmptyString = a)%string.
Proof. induction a as [| x a IH]; cbn; [reflexivity | rewrite IH; reflexivity]. Qed.

Lemma length_append (a b : string) :
  String.length (a ++ b) = String.length a + String.length b.
Proof. induction a as [| x a IH]; cbn; [reflexivity | rewrite IH; reflexivity]. Qed.

Lemma startsWith_append (p s : string) : Str.startsWith (p ++ s) p = true.
Proof.
  induction p as [| x p IH]; cbn; [reflexivity |].
  rewrite Ascii.eqb_refl. exact IH.
Qed.

Lemma slice_append (p s : string) : Str.slice (String.length p) (p ++ s) = s.
Proof. induction p as [| x p IH]; cbn; [reflexivity | exact IH]. Qed.

Lemma take_append (p s : string) : Str.take (String.length p) (p ++ s) = p.
Proof. induction p as [| x p IH]; cbn; [reflexivity | rewrite IH; reflexivity]. Qed.

Lemma endsWith_append (s p : string) : Str.endsWith (s ++ p) p = true.
Proof.
  unfold Str.endsWith. rewrite length_append.
  replace (String.length s + String.length p - String.length p) with (String.length s)
    by lia.
  rewrite slice_append, String.eqb_refl.
  replace (Nat.leb (String.length p) (String.length s + String.length p)) with true;
    [reflexivity |].
  symmetry. apply Nat.leb_le. lia.
Qed.

(** ** C5: the target of an alias *)

(** Where only the TSX source of the button exists, the specified
    resolution of the specification's own example is button.tsx; the
    rewriter of [SwcRunner] answers button.js without asking which
    sources exist, and keeps /src under another base location; the
    resolve callback of [EsbuildRunner] hands the specifier back as it
    is. *)
Lemma C5_extension_is_not_inferred :
  resolveAsSpecified playgroundSources "@/components/ui/button" "/src"
  = Some "/src/components/ui/button.tsx"
  /\ Swc.resolveAlias "@/components/ui/button" = "/src/components/ui/button.js"
  /\ Some (Swc.resolveAlias "@/components/ui/button")
     <> resolveAsSpecified playgroundSources "@/components/ui/button" "/src"
  /\ Swc.resolveImports
       ("import { Button } from " ++ Playground.quoted "@/components/ui/button")
       "/src/entry.js"
     = ("const {  Button  } = require("
          ++ Playground.quoted "/src/components/ui/button.js" ++ ")")%string
  /\ Esbuild.onResolve
       (Esbuild.mkResolveArgs "@/components/ui/button" EmptyString "/src/entry.js")
     = Esbuild.Virtual "@/components/ui/button"
  /\ Some "@/components/ui/button"
     <> resolveAsSpecified playgroundSources "@/components/ui/button" "/src".
Proof.
  repeat split; try (vm_compute; reflexivity); vm_compute; intros H; discriminate H.
Qed.

Lemma isExternal_alias (rest : string) : isExternal ("@/" ++ rest) = false.
Proof. reflexivity. Qed.

Lemma replaceFirst_alias (rest : string) :
  Str.replaceFirst "@/" EmptyString ("@/" ++ rest) = rest.
Proof. reflexivity. Qed.

(** ** C6: relative specifiers *)

Lemma absolute_app (xs ys : list string) :
  absolute (xs ++ ys) = (absolute xs ++ absolute ys)%string.
Proof.
  induction xs as [| x xs IH]; cbn; [reflexivity |].
  rewrite IH, append_assoc. reflexivity.
Qed.

Lemma split_noSlash (s : string) : noSlash s = true -> Str.split "/" s = [s].
Proof.
  induction s as [| c s IH]; cbn; [reflexivity |].
  intros H. apply andb_prop in H as [Hc Hs].
  apply negb_true_iff in Hc. rewrite Hc, (IH Hs). reflexivity.
Qed.

Lemma split_name_slash (a rest : string) :
  noSlash a = true ->
  Str.split "/" (a ++ "/" ++ rest) = a :: Str.split "/" rest.
Proof.
  induction a as [| c a IH]; cbn; [reflexivity |].
  intros H. apply andb_prop in H as [Hc Ha].
  apply negb_true_iff in Hc. rewrite Hc.
  cbn in IH. rewrite (IH Ha). reflexivity.
Qed.

Lemma split_under (a : string) (dir : list string) (rest : string) :
  noSlash a = true ->
  forallb noSlash dir = true ->
  Str.split "/" (a ++ absolute dir ++ "/" ++ rest) = a :: dir ++ Str.split "/" rest.
Proof.
  revert a. induction dir as [| d dir IH]; intros a Ha Hdir.
  - cbn. apply split_name_slash, Ha.
  - cbn in Hdir. apply andb_prop in Hdir as [Hd Hdir].
    cbn [absolute].
    replace (a ++ ("/" ++ d ++ absolute dir) ++ "/" ++ rest)%string
      with (a ++ "/" ++ (d ++ absolute dir ++ "/" ++ rest))%string.
    + rewrite (split_name_slash _ _ Ha), (IH d Hd Hdir). reflexivity.
    + cbn. rewrite !append_assoc. reflexivity.
Qed.

Lemma lastIndexOf_noSlash (s : string) :
  noSlash s = true -> Str.lastIndexOf "/" s = None.
Proof.
  induction s as [| c s IH]; cbn; [reflexivity |].
  intros H. apply andb_prop in H as [Hc Hs].
  apply negb_true_iff in Hc. rewrite (IH Hs), Hc. reflexivity.
Qed.

Lemma lastIndexOf_last_slash (d file : string) :
  noSlash file = true ->
  Str.lastIndexOf "/" (d ++ "/" ++ file) = Some (String.length d).
Proof.
  intros Hf. induction d as [| c d IH]; cbn.
  - rewrite (lastIndexOf_noSlash _ Hf). reflexivity.
  - cbn in IH. rewrite IH. reflexivity.
Qed.

Lemma dirOf_absolute (dir : list string) (file : string) :
  noSlash file = true ->
  Esbuild.dirOf (absolute (dir ++ [file])) = absolute dir.
Proof.
  intros Hf. unfold Esbuild.dirOf. rewrite absolute_app. cbn [absolute].
  rewrite append_empty_r.
  rewrite (lastIndexOf_last_slash _ _ Hf). apply take_append.
Qed.

Lemma segment_noSlash (s : string) : segment s = true -> noSlash s = true.
Proof.
  unfold segment. intros H.
  apply andb_prop in H as [H _]. apply andb_prop in H as [H _].
  apply andb_prop in H as [H _]. exact H.
Qed.

Lemma forallb_segment_noSlash (dir : list string) :
  forallb segment dir = true -> forallb noSlash dir = true.
Proof.
  induction dir as [| d dir IH]; cbn; [reflexivity |].
  intros H. apply andb_prop in H as [Hd Hdir].
  rewrite (segment_noSlash _ Hd), (IH Hdir). reflexivity.
Qed.

Lemma normalizeStep_segment (result : list string) (s : string) :
  segment s = true -> Esbuild.normalizeStep result s = result ++ [s].
Proof.
  unfold segment, Esbuild.normalizeStep. intros H.
  apply andb_prop in H as [H Hdd]. apply andb_prop in H as [H Hd].
  apply andb_prop in H as [_ He].
  apply negb_true_iff in Hdd. rewrite Hdd, Hd, He. reflexivity.
Qed.

Lemma normalize_segments (dir : list string) (acc : list string) :
  forallb segment dir = true ->
  fold_left Esbuild.normalizeStep dir acc = acc ++ dir.
Proof.
  revert acc. induction dir as [| d dir IH]; intros acc H; cbn.
  - rewrite app_nil_r. reflexivity.
  - cbn in H. apply andb_prop in H as [Hd Hdir].
    rewrite (normalizeStep_segment _ _ Hd), (IH _ Hdir), <- app_assoc. reflexivity.
Qed.

Lemma join_absolute (names : list string) (x : string) :
  ("/" ++ Str.join "/" (names ++ [x]))%string = absolute (names ++ [x]).
Proof.
  induction names as [| n names IH].
  - cbn. rewrite append_empty_r. reflexivity.
  - change ((n :: names) ++ [x]) with (n :: (names ++ [x])).
    cbn [absolute]. rewrite <- IH.
    destruct (names ++ [x]) as [| y ys] eqn:E.
    + destruct names; discriminate E.
    + reflexivity.
Qed.

Lemma startsWith_absolute_slash (dir : list string) (rest : string) :
  Str.startsWith (absolute dir ++ "/" ++ rest) "@/" = false.
Proof. destruct dir; reflexivity. Qed.

(** the path that [normalizePath] makes of a directory, a slash and a
    relative specifier whose parts are [parts] *)
Lemma normalizePath_under (dir parts : list string) (rest : string) :
  forallb segment dir = true ->
  Str.split "/" rest = parts ->
  Esbuild.normalizePath (absolute dir ++ "/" ++ rest)
  = ("/" ++ Str.join "/" (fold_left Esbuild.normalizeStep parts dir))%string.
Proof.
  intros Hdir Hparts. unfold Esbuild.normalizePath.
  rewrite startsWith_absolute_slash.
  change (absolute dir ++ "/" ++ rest)%string
    with (EmptyString ++ absolute dir ++ "/" ++ rest)%string.
  rewrite (split_under EmptyString dir rest eq_refl (forallb_segment_noSlash _ Hdir)).
  rewrite Hparts. cbn [fold_left]. unfold Esbuild.normalizeStep at 2. cbn [String.eqb].
  cbn [negb andb].
  rewrite fold_left_app, (normalize_segments dir [] Hdir). reflexivity.
Qed.

Lemma split_ups (k : nat) (x : string) :
  noSlash x = true -> Str.split "/" (ups k ++ x) = repeat ".." k ++ [x].
Proof.
  intros Hx. induction k as [| k IH].
  - cbn. apply split_noSlash, Hx.
  - change (ups (S k) ++ x)%string with (".." ++ "/" ++ (ups k ++ x))%string.
    rewrite (split_name_slash ".." _ eq_refl), IH. reflexivity.
Qed.

Lemma normalize_ups (k : nat) (dir : list string) :
  fold_left Esbuild.normalizeStep (repeat ".." k) dir
  = firstn (List.length dir - k) dir.
Proof.
  revert dir. induction k as [| k IH]; intros dir.
  - cbn. rewrite Nat.sub_0_r, firstn_all. reflexivity.
  - cbn [repeat fold_left].
    replace (Esbuild.normalizeStep dir "..") with (removelast dir) by reflexivity.
    rewrite IH, removelast_firstn_len, firstn_firstn, length_firstn.
    f_equal. lia.
Qed.

(** Three steps up from a directory two levels deep are resolved, to a
    file directly under the root, and not rejected; and the path that
    is returned for the specification's own example bears none of the
    candidate extensions. *)
Lemma C6_collapse_past_root_is_not_rejected :
  Esbuild.onResolve
    (Esbuild.mkResolveArgs "../../../x" "virtual" "/src/components/a.js")
  = Esbuild.Virtual "/x"
  /\ Esbuild.normalizePath "/src/components/../../../x" = "/x"
  /\ Esbuild.onResolve (Esbuild.mkResolveArgs "./x" "virtual" "/src/components/a.js")
     = Esbuild.Virtual "/src/components/x"
  /\ existsb (Str.endsWith "/src/components/x") candidateExtensions = false.
Proof. repeat split; vm_compute; reflexivity. Qed.

Lemma dirOf_alias (dir : list string) (file : string) :
  noSlash file = true ->
  Esbuild.dirOf ("@" ++ absolute (dir ++ [file])) = ("@" ++ absolute dir)%string.
Proof.
  intros Hf. unfold Esbuild.dirOf. rewrite absolute_app. cbn [absolute].
  rewrite append_empty_r, <- append_assoc.
  rewrite (lastIndexOf_last_slash _ _ Hf). apply take_append.
Qed.

Lemma noSlash_not_alias (x : string) :
  noSlash x = true -> Esbuild.stripLeadingAlias x = x.
Proof.
  unfold Esbuild.stripLeadingAlias.
  destruct x as [| c1 [| c2 x]]; cbn -[Ascii.eqb]; try reflexivity.
  - destruct (Ascii.eqb "@" c1); reflexivity.
  - intros H. apply andb_prop in H as [_ H]. apply andb_prop in H as [H _].
    apply negb_true_iff in H. rewrite Ascii.eqb_sym in H.
    destruct (Ascii.eqb "@" c1); [rewrite H |]; reflexivity.
Qed.

(** the alias form of the names that are left after the steps up *)
Lemma alias_of_names (names : list string) (x : string) :
  noSlash x = true ->
  ("@/" ++ Esbuild.stripLeadingAlias (Str.join "/" (("@" :: names) ++ [x])))%string
  = ("@" ++ absolute (names ++ [x]))%string.
Proof.
  intros Hx. rewrite <- join_absolute.
  change (("@" :: names) ++ [x]) with ("@" :: (names ++ [x])).
  destruct (names ++ [x]) as [| y ys] eqn:E; [destruct names; discriminate E |].
  reflexivity.
Qed.

Lemma alias_of_name (x : string) :
  noSlash x = true ->
  ("@/" ++ Esbuild.stripLeadingAlias (Str.join "/" [x]))%string
  = ("@" ++ absolute [x])%string.
Proof.
  intros Hx. cbn [Str.join absolute]. rewrite (noSlash_not_alias _ Hx), append_empty_r.
  reflexivity.
Qed.

Lemma normalizePath_alias (dir parts : list string) (rest : string) :
  forallb segment dir = true ->
  Str.split "/" rest = parts ->
  Esbuild.normalizePath ("@" ++ absolute dir ++ "/" ++ rest)
  = ("@/" ++ Esbuild.stripLeadingAlias
            (Str.join "/" (fold_left Esbuild.normalizeStep parts ("@" :: dir))))%string.
Proof.
  intros Hdir Hparts. unfold Esbuild.normalizePath.
  replace (Str.startsWith ("@" ++ absolute dir ++ "/" ++ rest) "@/") with true
    by (destruct dir; reflexivity).
  rewrite (split_under "@" dir rest eq_refl (forallb_segment_noSlash _ Hdir)).
  rewrite Hparts. cbn [fold_left]. unfold Esbuild.normalizeStep at 2. cbn [String.eqb].
  cbn [negb andb Ascii.eqb Bool.eqb].
  rewrite fold_left_app, (normalize_segments dir (@nil string ++ ["@"]) Hdir). reflexivity.
Qed.

Lemma steps_up_in_alias (k : nat) (dir : list string) (x : string) :
  noSlash x = true ->
  ("@/" ++ Esbuild.stripLeadingAlias
          (Str.join "/" (firstn (List.length ("@" :: dir) - S k) ("@" :: dir) ++ [x])))%string
  = ("@" ++ absolute (firstn (List.length dir - S k) dir ++ [x]))%string.
Proof.
  intros Hx. cbn [List.length Nat.sub].
  destruct (List.length dir - k) as [| m] eqn:E.
  - replace (List.length dir - S k) with 0 by lia. cbn [firstn app].
    apply alias_of_name, Hx.
  - replace (List.length dir - S k) with m by lia. cbn [firstn].
    apply alias_of_names, Hx.
Qed.

(** C6, as the code has it. In the virtual namespace a specifier [./x]
    resolves to [x] in the directory of the importer, and a specifier
    of [k+1] steps up followed by [x] resolves to [x] in the directory
    [k+1] levels above it, each step removing the nearest name that is
    left; steps beyond the root are dropped, so the result then lies
    directly under the root, and no specifier is rejected.  This holds
    for an importer with an absolute path and for an importer under the
    alias, whose result stays under the alias.  The callback appends no
    extension. *)
Theorem C6_relative_resolution_is_directory_relative
        (dir : list string) (file x : string) (k : nat) :
  forallb segment dir = true ->
  noSlash file = true ->
  segment x = true ->
  Esbuild.onResolve
    (Esbuild.mkResolveArgs ("./" ++ x) "virtual" (absolute (dir ++ [file])))
  = Esbuild.Virtual (absolute (dir ++ [x]))
  /\ Esbuild.onResolve
       (Esbuild.mkResolveArgs (ups (S k) ++ x) "virtual" (absolute (dir ++ [file])))
     = Esbuild.Virtual (absolute (firstn (List.length dir - S k) dir ++ [x]))
  /\ Esbuild.onResolve
       (Esbuild.mkResolveArgs ("./" ++ x) "virtual" ("@" ++ absolute (dir ++ [file])))
     = Esbuild.Virtual ("@" ++ absolute (dir ++ [x]))
  /\ Esbuild.onResolve
       (Esbuild.mkResolveArgs (ups (S k) ++ x) "virtual" ("@" ++ absolute (dir ++ [file])))
     = Esbuild.Virtual ("@" ++ absolute (firstn (List.length dir - S k) dir ++ [x])).
Proof.
  intros Hdir Hfile Hx.
  assert (Hxs : noSlash x = true) by exact (segment_noSlash _ Hx).
  assert (Hdot : Str.split "/" ("./" ++ x) = ["."; x]).
  { change ("./" ++ x)%string with ("." ++ "/" ++ x)%string.
    rewrite (split_name_slash "." _ eq_refl), (split_noSlash _ Hxs). reflexivity. }
  assert (Hhere : forall importer,
             Esbuild.onResolve (Esbuild.mkResolveArgs ("./" ++ x) "virtual" importer)
             = Esbuild.Virtual
                 (Esbuild.normalizePath (Esbuild.dirOf importer ++ "/" ++ "./" ++ x)))
    by reflexivity.
  assert (Hup : forall importer,
             Esbuild.onResolve (Esbuild.mkResolveArgs (ups (S k) ++ x) "virtual" importer)
             = Esbuild.Virtual
                 (Esbuild.normalizePath (Esbuild.dirOf importer ++ "/" ++ ups (S k) ++ x)))
    by reflexivity.
  rewrite !Hhere, !Hup, (dirOf_absolute _ _ Hfile), (dirOf_alias _ _ Hfile).
  split; [| split; [| split]]; f_equal.
  - rewrite (normalizePath_under dir ["."; x] ("./" ++ x) Hdir Hdot).
    cbn [fold_left]. replace (Esbuild.normalizeStep dir ".") with dir by reflexivity.
    rewrite (normalizeStep_segment _ _ Hx). apply join_absolute.
  - rewrite (normalizePath_under dir (repeat ".." (S k) ++ [x]) (ups (S k) ++ x) Hdir
                                 (split_ups _ _ Hxs)).
    rewrite fold_left_app, normalize_ups. cbn [fold_left].
    rewrite (normalizeStep_segment _ _ Hx). apply join_absolute.
  - rewrite append_assoc.
    rewrite (normalizePath_alias dir ["."; x] ("./" ++ x) Hdir Hdot).
    cbn [fold_left].
    replace (Esbuild.normalizeStep ("@" :: dir) ".") with ("@" :: dir) by reflexivity.
    rewrite (normalizeStep_segment _ _ Hx). apply alias_of_names, Hxs.
  - rewrite append_assoc.
    rewrite (normalizePath_alias dir (repeat ".." (S k) ++ [x]) (ups (S k) ++ x) Hdir
                                 (split_ups _ _ Hxs)).
    rewrite fold_left_app, normalize_ups. cbn [fold_left].
    rewrite (normalizeStep_segment _ _ Hx). apply steps_up_in_alias, Hxs.
Qed.

Lemma C6_relative_resolution_is_directory_relative_witness :
  Esbuild.onResolve (Esbuild.mkResolveArgs "./x" "virtual" "/src/components/a.js")
  = Esbuild.Virtual "/src/components/x"
  /\ Esbuild.onResolve (Esbuild.mkResolveArgs "../x" "virtual" "/src/components/a.js")
     = Esbuild.Virtual "/src/x"
  /\ Esbuild.onResolve (Esbuild.mkResolveArgs "./x" "virtual" "@/src/components/a.js")
     = Esbuild.Virtual "@/src/components/x"
  /\ Esbuild.onResolve (Esbuild.mkResolveArgs "../x" "virtual" "@/src/components/a.js")
     = Esbuild.Virtual "@/src/x".
Proof.
  exact (C6_relative_resolution_is_directory_relative
           ["src"; "components"] "a.js" "x" 0 eq_refl eq_refl eq_refl).
Defined.

(** ** A compile of [SwcRunner] is its summary *)

Lemma logged_nil (w : World) : logged w [] [] = w.
Proof. destruct w. unfold logged, setConsole, setTrace. cbn. rewrite !app_nil_r. reflexivity. Qed.

Lemma logged_logged (w : World) e1 l1 e2 l2 :
  logged (logged w e1 l1) e2 l2 = logged w (e1 ++ e2) (l1 ++ l2).
Proof. unfold logged, setConsole, setTrace. cbn. rewrite !app_assoc. reflexivity. Qed.

(** a conjunction of equations between closed terms, by evaluation *)
Ltac by_running :=
  repeat match goal with |- _ /\ _ => split end; vm_compute; reflexivity.

Ltac run_method :=
  unfold bind, tryCatch, getWorld, getThis, modifyWorld, modifyThis, emit,
    consoleLog, consoleWarn, consoleError, liftResult, ret, throw; cbn.

Ltac same_world :=
  unfold replay, logged, setConsole, setTrace; cbn;
  rewrite <- ?app_assoc, ?app_nil_r; reflexivity.

Lemma loadAndTransformFile_summary env modulePath baseUrl w this :
  Swc.loadAndTransformFile env modulePath baseUrl (w, this)
  = replay w (loadSummary env (swcLoaded w) modulePath baseUrl this).
Proof.
  unfold Swc.loadAndTransformFile, loadSummary. run_method.
  destruct (OMap.get (Swc.transformedFiles this) modulePath) as [cached |].
  - unfold replay. rewrite logged_nil. reflexivity.
  - unfold Swc.transformFile. run_method.
    destruct (Swc.fetchSourceFile env modulePath baseUrl) as [data | e]; cbn;
      [| destruct w; same_world].
    destruct (swcLoaded w) eqn:Hloaded; cbn; [| destruct w; same_world].
    destruct (Swc.transformSync env (contents data) modulePath) as [text | e]; cbn;
      destruct w; same_world.
Qed.

Lemma transformDependency_summary env baseUrl importPath w this :
  Swc.transformDependency env baseUrl importPath (w, this)
  = let '((events, lines), this') :=
        dependencySummary env (swcLoaded w) baseUrl this importPath in
    (Ok tt, (logged w events lines, this')).
Proof.
  unfold Swc.transformDependency, dependencySummary, tryCatch, bind.
  rewrite loadAndTransformFile_summary.
  destruct (loadSummary env (swcLoaded w) importPath baseUrl this)
    as [[[text | e] [events lines]] this']; cbn; [reflexivity |].
  unfold consoleWarn, modifyWorld. cbn. f_equal. f_equal.
  unfold warnLine. same_world.
Qed.

Lemma forOf_dependencies_summary env baseUrl imports w this :
  Swc.forOf imports (Swc.transformDependency env baseUrl) (w, this)
  = let '((events, lines), this') :=
        dependenciesSummary env (swcLoaded w) baseUrl imports this in
    (Ok tt, (logged w events lines, this')).
Proof.
  revert w this. induction imports as [| d ds IH]; intros w this; cbn.
  - unfold ret. rewrite logged_nil. reflexivity.
  - unfold bind. rewrite transformDependency_summary.
    destruct (dependencySummary env (swcLoaded w) baseUrl this d)
      as [[events1 lines1] this1].
    rewrite IH. change (swcLoaded (logged w events1 lines1)) with (swcLoaded w).
    destruct (dependenciesSummary env (swcLoaded w) baseUrl ds this1)
      as [[events2 lines2] this2].
    rewrite logged_logged. reflexivity.
Qed.

Lemma compileBody_summary env options w this :
  Swc.compileBody env options (w, this)
  = replay w (compileSummary env (swcLoaded w) options this).
Proof.
  unfold Swc.compileBody, compileSummary.
  fold (entryOf options). fold (baseOf options). fold (clearOf options).
  set (entry := entryOf options). set (base := baseOf options).
  assert (Hclear :
            (if clearOf options
             then bind (modifyThis (fun this0 =>
                                      {| Swc.fileCache := OMap.clear (Swc.fileCache this0);
                                         Swc.transformedFiles := Swc.transformedFiles this0 |}))
                       (fun _ =>
                          modifyThis (fun this0 =>
                                        {| Swc.fileCache := Swc.fileCache this0;
                                           Swc.transformedFiles :=
                                             OMap.clear (Swc.transformedFiles this0) |}))
             else ret tt) (w, this)
            = (Ok tt, (w, cleared (clearOf options) this))).
  { destruct (clearOf options); reflexivity. }
  unfold bind at 1. rewrite Hclear.
  unfold bind at 1. rewrite consoleLog_world.
  unfold tryCatch. unfold bind at 1.
  rewrite loadAndTransformFile_summary.
  change (swcLoaded (setConsole w (console w ++ [(LogLevel, ("[swc] Building: " ++ entry)%string)])))
    with (swcLoaded w).
  destruct (loadSummary env (swcLoaded w) entry base (cleared (clearOf options) this))
    as [[[text | e] [events lines]] this1]; cbn [replay].
  - unfold bind at 1. unfold Swc.transformDependencies.
    rewrite forOf_dependencies_summary.
    change (swcLoaded (logged _ events lines)) with (swcLoaded w).
    destruct (dependenciesSummary env (swcLoaded w) base (Swc.extractImports text) this1)
      as [[events2 lines2] this2].
    run_method.
    apply f_equal2; [reflexivity |]. apply f_equal2; [| reflexivity].
    destruct w. unfold buildingLine, buildCompleteLine. same_world.
  - run_method.
    apply f_equal2; [reflexivity |]. apply f_equal2; [| reflexivity].
    destruct w. unfold buildingLine, buildErrorLine. same_world.
Qed.

(** ** Dictionaries *)

Lemma get_set_same {V} (m : OMap.t V) (k : string) (v : V) :
  OMap.get (OMap.set m k v) k = Some v.
Proof.
  induction m as [| [k' v'] m IH]; cbn.
  - rewrite String.eqb_refl. reflexivity.
  - destruct (String.eqb k k') eqn:E; cbn; rewrite E; [reflexivity | exact IH].
Qed.

Lemma get_set_other {V} (m : OMap.t V) (k k' : string) (v : V) :
  k' <> k -> OMap.get (OMap.set m k v) k' = OMap.get m k'.
Proof.
  intros Hne. induction m as [| [k0 v0] m IH]; cbn.
  - apply String.eqb_neq in Hne. rewrite Hne. reflexivity.
  - destruct (String.eqb k k0) eqn:E; cbn.
    + apply String.eqb_eq in E. subst k0.
      apply String.eqb_neq in Hne. rewrite Hne. reflexivity.
    + rewrite IH. reflexivity.
Qed.

Lemma keys_set {V} (m : OMap.t V) (k : string) (v : V) :
  OMap.keys (OMap.set m k v)
  = if OMap.has m k then OMap.keys m else OMap.keys m ++ [k].
Proof.
  unfold OMap.has. induction m as [| [k' v'] m IH]; cbn; [reflexivity |].
  destruct (String.eqb k k') eqn:E; cbn.
  - apply String.eqb_eq in E. subst k'. reflexivity.
  - unfold OMap.keys in IH. rewrite IH.
    destruct (OMap.get m k); reflexivity.
Qed.

Lemma get_None_not_key {V} (m : OMap.t V) (k : string) :
  OMap.get m k = None -> ~ In k (OMap.keys m).
Proof.
  induction m as [| [k' v'] m IH]; cbn; [tauto |].
  destruct (String.eqb k k') eqn:E; [discriminate |].
  intros H [Hk | Hin].
  - subst k'. rewrite String.eqb_refl in E. discriminate E.
  - exact (IH H Hin).
Qed.

Lemma NoDup_keys_set {V} (m : OMap.t V) (k : string) (v : V) :
  NoDup (OMap.keys m) -> NoDup (OMap.keys (OMap.set m k v)).
Proof.
  intros Hm. rewrite keys_set. unfold OMap.has.
  destruct (OMap.get m k) eqn:E; [exact Hm |].
  apply NoDup_app; [exact Hm | repeat constructor; intros [] |].
  intros x Hx [<- | []]. exact (get_None_not_key _ _ E Hx).
Qed.

(** ** The specifiers found in a text are distinct *)

Lemma dedupFrom_spec (seen xs : list string) :
  NoDup (Str.dedupFrom seen xs)
  /\ forall x, In x (Str.dedupFrom seen xs) -> In x xs /\ ~ In x seen.
Proof.
  revert seen. induction xs as [| x xs IH]; intros seen; cbn.
  - split; [constructor | intros ? []].
  - destruct (existsb (String.eqb x) seen) eqn:E.
    + destruct (IH seen) as [Hnd Hin]. split; [exact Hnd |].
      intros y Hy. destruct (Hin y Hy) as [H1 H2]. split; [right; exact H1 | exact H2].
    + destruct (IH (x :: seen)) as [Hnd Hin]. split.
      * constructor; [| exact Hnd].
        intros Hx. destruct (Hin x Hx) as [_ H2]. apply H2. left. reflexivity.
      * intros y [<- | Hy].
        -- split; [left; reflexivity |].
           intros Hx.
           assert (existsb (String.eqb x) seen = true) as Hex.
           { apply existsb_exists. exists x. split; [exact Hx | apply String.eqb_refl]. }
           rewrite Hex in E. discriminate E.
        -- destruct (Hin y Hy) as [H1 H2]. split; [right; exact H1 |].
           intros Hs. apply H2. right. exact Hs.
Qed.

Lemma extractImports_NoDup (code : string) : NoDup (Swc.extractImports code).
Proof. unfold Swc.extractImports, Str.dedup. apply dedupFrom_spec. Qed.

(** ** One step of a compile *)

Lemma fetched_app (a b : list Event) : fetched (a ++ b) = fetched a ++ fetched b.
Proof.
  induction a as [| e a IH]; cbn; [reflexivity |].
  destruct e; cbn; rewrite IH; reflexivity.
Qed.

Lemma transformedBy_app (a b : list Event) :
  transformedBy (a ++ b) = transformedBy a ++ transformedBy b.
Proof.
  induction a as [| e a IH]; cbn; [reflexivity |].
  destruct e; cbn; rewrite IH; reflexivity.
Qed.

Ltac load_cases env loaded p b this :=
  unfold loadSummary;
  destruct (OMap.get (Swc.transformedFiles this) p) as [cached |] eqn:Hget;
  [| destruct (Swc.fetchSourceFile env p b) as [data | e] eqn:Hfetch;
     [destruct loaded eqn:Hloaded;
      [destruct (Swc.transformSync env (contents data) p) as [text | e] eqn:Htransform |]
     |]].

(** a load leaves the other paths of the cache alone, and every entry
    of the cache keeps its value *)
Lemma loadSummary_cache env loaded p b this :
  let this' := snd (loadSummary env loaded p b this) in
  (forall q, q <> p ->
             OMap.get (Swc.transformedFiles this') q = OMap.get (Swc.transformedFiles this) q)
  /\ (forall q text, OMap.get (Swc.transformedFiles this) q = Some text ->
                     OMap.get (Swc.transformedFiles this') q = Some text)
  /\ (forall q, OMap.has (Swc.fileCache this) q = true ->
                OMap.has (Swc.fileCache this') q = true).
Proof.
  assert (Hset : forall data text,
             (forall q, q <> p ->
                        OMap.get (Swc.transformedFiles (cacheTransformed this p data text)) q
                        = OMap.get (Swc.transformedFiles this) q)
             /\ (OMap.get (Swc.transformedFiles this) p = None ->
                 forall q t, OMap.get (Swc.transformedFiles this) q = Some t ->
                             OMap.get (Swc.transformedFiles (cacheTransformed this p data text)) q
                             = Some t)
             /\ (forall q, OMap.has (Swc.fileCache this) q = true ->
                           OMap.has (Swc.fileCache (cacheTransformed this p data text)) q = true)).
  { intros data text. split; [| split].
    - intros q Hq. cbn. apply get_set_other, Hq.
    - intros Hnone q t Hq. cbn. rewrite get_set_other; [exact Hq |].
      intros ->. rewrite Hnone in Hq. discriminate Hq.
    - intros q Hq. cbn. unfold OMap.has in *.
      destruct (String.eqb q p) eqn:E.
      + apply String.eqb_eq in E. subst q. rewrite get_set_same. reflexivity.
      + apply String.eqb_neq in E. rewrite get_set_other; [exact Hq | exact E]. }
  load_cases env loaded p b this; cbn; try (split; [| split]; intros; assumption || reflexivity).
  destruct (Hset data text) as (H1 & H2 & H3).
  split; [exact H1 |]. split; [exact (H2 eq_refl) | exact H3].
Qed.

(** what a load asks of the source provider and of the engine: the
    path itself, once, and only when the path is not in the cache *)
Lemma loadSummary_events env loaded p b this :
  let events := fst (snd (fst (loadSummary env loaded p b this))) in
  (fetched events = []
   \/ (fetched events = [p] /\ OMap.get (Swc.transformedFiles this) p = None))
  /\ (transformedBy events = []
      \/ (transformedBy events = [p] /\ OMap.get (Swc.transformedFiles this) p = None))
  /\ (OMap.get (Swc.transformedFiles this) p <> None -> events = []).
Proof.
  load_cases env loaded p b this; cbn;
    (split; [| split]);
    try (left; reflexivity); try (right; split; reflexivity);
    try reflexivity; try (intros H; exfalso; apply H; reflexivity).
Qed.

(** a load that resolves leaves the text in the cache; a load that
    throws leaves the instance as it was *)
Lemma loadSummary_outcome env loaded p b this :
  match loadSummary env loaded p b this with
  | (Ok text, _, this') => OMap.get (Swc.transformedFiles this') p = Some text
  | (Throw _, _, this') => this' = this
  end.
Proof.
  load_cases env loaded p b this; cbn; try reflexivity; try exact Hget.
  apply get_set_same.
Qed.

Lemma dependencySummary_this env loaded b this d :
  snd (dependencySummary env loaded b this d) = snd (loadSummary env loaded d b this).
Proof.
  unfold dependencySummary.
  destruct (loadSummary env loaded d b this) as [[[text | e] [events lines]] this'];
    reflexivity.
Qed.

Lemma dependencySummary_events env loaded b this d :
  fst (fst (dependencySummary env loaded b this d))
  = fst (snd (fst (loadSummary env loaded d b this))).
Proof.
  unfold dependencySummary.
  destruct (loadSummary env loaded d b this) as [[[text | e] [events lines]] this'];
    reflexivity.
Qed.

(** ** The loop over the dependencies *)

Lemma dependenciesSummary_cache env loaded b imports this :
  let this' := snd (dependenciesSummary env loaded b imports this) in
  (forall q, ~ In q imports ->
             OMap.get (Swc.transformedFiles this') q = OMap.get (Swc.transformedFiles this) q)
  /\ (forall q text, OMap.get (Swc.transformedFiles this) q = Some text ->
                     OMap.get (Swc.transformedFiles this') q = Some text)
  /\ (forall q, OMap.has (Swc.fileCache this) q = true ->
                OMap.has (Swc.fileCache this') q = true).
Proof.
  revert this. induction imports as [| d ds IH]; intros this; cbn.
  - split; [| split]; intros; assumption || reflexivity.
  - pose proof (loadSummary_cache env loaded d b this) as Hstep.
    rewrite <- dependencySummary_this in Hstep. cbn in Hstep.
    destruct (dependencySummary env loaded b this d) as [[e1 l1] this1].
    specialize (IH this1).
    destruct (dependenciesSummary env loaded b ds this1) as [[e2 l2] this2].
    cbn in *. destruct Hstep as (S1 & S2 & S3). destruct IH as (I1 & I2 & I3).
    split; [| split].
    + intros q Hq. rewrite I1 by tauto. apply S1. intros ->. apply Hq. left. reflexivity.
    + intros q text Hq. apply I2, S2, Hq.
    + intros q Hq. apply I3, S3, Hq.
Qed.

Lemma dependenciesSummary_events env loaded b imports this :
  NoDup imports ->
  let events := fst (fst (dependenciesSummary env loaded b imports this)) in
  NoDup (fetched events)
  /\ NoDup (transformedBy events)
  /\ (forall p, In p (fetched events) ->
                In p imports /\ OMap.get (Swc.transformedFiles this) p = None)
  /\ (forall p, In p (transformedBy events) ->
                In p imports /\ OMap.get (Swc.transformedFiles this) p = None).
Proof.
  revert this. induction imports as [| d ds IH]; intros this Hnd; cbn.
  - split; [constructor |]. split; [constructor |]. split; intros p [].
  - inversion Hnd as [| ? ? Hd Hds]; subst.
    pose proof (loadSummary_events env loaded d b this) as Hev.
    rewrite <- dependencySummary_events in Hev.
    pose proof (loadSummary_cache env loaded d b this) as Hcache.
    rewrite <- dependencySummary_this in Hcache.
    destruct (dependencySummary env loaded b this d) as [[e1 l1] this1].
    specialize (IH this1 Hds).
    destruct (dependenciesSummary env loaded b ds this1) as [[e2 l2] this2].
    cbn in *. destruct Hev as (F & T & _). destruct Hcache as (_ & Hkeep & _).
    destruct IH as (I1 & I2 & I3 & I4).
    assert (Hback : forall p, OMap.get (Swc.transformedFiles this1) p = None ->
                              OMap.get (Swc.transformedFiles this) p = None).
    { intros p Hp. destruct (OMap.get (Swc.transformedFiles this) p) as [t |] eqn:E;
        [| reflexivity].
      rewrite (Hkeep _ _ E) in Hp. discriminate Hp. }
    rewrite fetched_app, transformedBy_app.
    split; [| split; [| split]].
    + destruct F as [-> | [-> _]]; cbn; [exact I1 |].
      constructor; [| exact I1]. intros Hin. apply Hd. apply (I3 _ Hin).
    + destruct T as [-> | [-> _]]; cbn; [exact I2 |].
      constructor; [| exact I2]. intros Hin. apply Hd. apply (I4 _ Hin).
    + intros p Hp. apply in_app_or in Hp as [Hp | Hp].
      * destruct F as [F | [F Hnone]]; rewrite F in Hp; [destruct Hp |].
        destruct Hp as [<- | []]. split; [left; reflexivity | exact Hnone].
      * destruct (I3 _ Hp) as [Hin Hnone]. split; [right; exact Hin | apply Hback, Hnone].
    + intros p Hp. apply in_app_or in Hp as [Hp | Hp].
      * destruct T as [T | [T Hnone]]; rewrite T in Hp; [destruct Hp |].
        destruct Hp as [<- | []]. split; [left; reflexivity | exact Hnone].
      * destruct (I4 _ Hp) as [Hin Hnone]. split; [right; exact Hin | apply Hback, Hnone].
Qed.

Lemma dependenciesSummary_cached env loaded b imports this :
  (forall d, In d imports -> OMap.has (Swc.transformedFiles this) d = true) ->
  dependenciesSummary env loaded b imports this = (([], []), this).
Proof.
  induction imports as [| d ds IH]; intros Hall; cbn; [reflexivity |].
  assert (Hd : OMap.has (Swc.transformedFiles this) d = true)
    by (apply Hall; left; reflexivity).
  unfold OMap.has in Hd. unfold dependencySummary, loadSummary.
  destruct (OMap.get (Swc.transformedFiles this) d) as [cached |]; [| discriminate Hd].
  rewrite IH; [reflexivity |]. intros d' Hd'. apply Hall. right. exact Hd'.
Qed.

Lemma dependencySummary_failing env b this d e :
  OMap.get (Swc.transformedFiles this) d = None ->
  loadFails env d b e ->
  exists events lines,
    dependencySummary env true b this d = ((events, lines ++ [warnLine d e]), this).
Proof.
  intros Hnone Hfail. unfold dependencySummary, loadSummary. rewrite Hnone.
  destruct Hfail as [Hf | (data & Hf & Ht)]; rewrite Hf; [| rewrite Ht];
    eexists; eexists; reflexivity.
Qed.

(** a dependency that fails is warned about and stays out of the cache *)
Lemma dependenciesSummary_failing env b imports this d e :
  NoDup imports ->
  In d imports ->
  OMap.get (Swc.transformedFiles this) d = None ->
  loadFails env d b e ->
  In (warnLine d e) (snd (fst (dependenciesSummary env true b imports this)))
  /\ OMap.get (Swc.transformedFiles (snd (dependenciesSummary env true b imports this))) d
     = None.
Proof.
  revert this. induction imports as [| d' ds IH]; intros this Hnd Hin Hnone Hfail;
    [destruct Hin |].
  inversion Hnd as [| ? ? Hd' Hds]; subst. cbn.
  destruct Hin as [-> | Hin].
  - destruct (dependencySummary_failing env b this d e Hnone Hfail)
      as (events & lines & Hstep).
    rewrite Hstep.
    pose proof (dependenciesSummary_cache env true b ds this) as (Hother & _ & _).
    destruct (dependenciesSummary env true b ds this) as [[e2 l2] this2]. cbn in *.
    split.
    + apply in_or_app. left. apply in_or_app. right. left. reflexivity.
    + rewrite (Hother d Hd'). exact Hnone.
  - pose proof (loadSummary_cache env true d' b this) as (Hother & _ & _).
    rewrite <- dependencySummary_this in Hother.
    destruct (dependencySummary env true b this d') as [[e1 l1] this1]. cbn in Hother.
    assert (Hne : d <> d') by (intros ->; exact (Hd' Hin)).
    assert (Hnone1 : OMap.get (Swc.transformedFiles this1) d = None)
      by (rewrite (Hother d Hne); exact Hnone).
    specialize (IH this1 Hds Hin Hnone1 Hfail).
    destruct (dependenciesSummary env true b ds this1) as [[e2 l2] this2]. cbn in *.
    destruct IH as [IH1 IH2]. split; [| exact IH2].
    apply in_or_app. right. exact IH1.
Qed.

(** ** C2: how far the dependencies are followed *)

(** C2. The entry imports [@/a] and [@/a] imports [@/b]; all three
    sources exist.  [compile] resolves, asks the source provider for
    the entry and for [@/a] only, and returns a module map of two
    modules: the module [/src/a.js] requires [/src/b.js], which the map
    does not hold. *)
Theorem C2_imports_of_a_dependency_are_not_followed :
  exists result w this,
    Swc.compile (Playground.swcEnv Playground.chain) noOptions swcPageReady
    = (Ok result, (w, this))
    /\ isOk (Playground.serve Playground.chain "@/b" "/src") = true
    /\ OMap.get (Swc.transformedFiles this) "@/a"
       = Some ("import B from " ++ Playground.quoted "@/b" ++ ";")%string
    /\ Swc.extractImports ("import B from " ++ Playground.quoted "@/b" ++ ";") = ["@/b"]
    /\ fetched (trace w) = ["@/entry"; "@/a"]
    /\ OMap.keys (Swc.moduleMap result) = ["/src/entry.js"; "/src/a.js"]
    /\ OMap.get (Swc.moduleMap result) "/src/a.js"
       = Some ("const B = require(" ++ Playground.quoted "/src/b.js" ++ ");")%string
    /\ OMap.get (Swc.moduleMap result) (Swc.registryPath "@/b") = None.
Proof.
  eexists. eexists. eexists. split; [vm_compute; reflexivity |].
  repeat split; vm_compute; reflexivity.
Qed.

(** ** C3: failures of the entry and of a dependency *)

Lemma loadSummary_entryLoads env entry base before text :
  entryLoads env entry base before text ->
  exists events lines this1,
    loadSummary env true entry base before = (Ok text, (events, lines), this1)
    /\ forall d, d <> entry ->
                 OMap.get (Swc.transformedFiles this1) d
                 = OMap.get (Swc.transformedFiles before) d.
Proof.
  intros [Hhit | (Hmiss & data & Hf & Ht)]; unfold loadSummary.
  - rewrite Hhit. eexists. eexists. eexists. split; [reflexivity |]. reflexivity.
  - rewrite Hmiss, Hf, Ht. eexists. eexists. eexists. split; [reflexivity |].
    intros d Hd. cbn. apply get_set_other, Hd.
Qed.

Lemma loadSummary_loadFails env p b this e :
  OMap.get (Swc.transformedFiles this) p = None ->
  loadFails env p b e ->
  exists events lines, loadSummary env true p b this = (Throw e, (events, lines), this).
Proof.
  intros Hnone Hfail. unfold loadSummary. rewrite Hnone.
  destruct Hfail as [Hf | (data & Hf & Ht)]; rewrite Hf; [| rewrite Ht];
    eexists; eexists; reflexivity.
Qed.

(** C3. On a page whose engine is loaded: when the entry is not in the
    cache and fetching or transforming it fails, [compile] rejects with
    that error; when the entry loads, [compile] resolves whatever
    happens to the dependencies, and for every specifier found in the
    entry whose fetch or transform fails a warning is printed and the
    specifier stays out of the cache of transformed files. *)
Theorem C3_entry_failure_aborts_dependency_failure_is_skipped
        (env : Swc.Env) (options : Options) (w : World) (this : Swc.Runner) :
  swcInitialized w = true ->
  swcLoaded w = true ->
  (forall e,
      OMap.get (Swc.transformedFiles (cleared (clearOf options) this)) (entryOf options)
      = None ->
      loadFails env (entryOf options) (baseOf options) e ->
      fst (Swc.compile env options (w, this)) = Throw e)
  /\ (forall text,
         entryLoads env (entryOf options) (baseOf options)
                    (cleared (clearOf options) this) text ->
         exists result w' this',
           Swc.compile env options (w, this) = (Ok result, (w', this'))
           /\ forall d e,
               In d (Swc.extractImports text) ->
               d <> entryOf options ->
               OMap.get (Swc.transformedFiles (cleared (clearOf options) this)) d = None ->
               loadFails env d (baseOf options) e ->
               In (warnLine d e) (console w')
               /\ OMap.get (Swc.transformedFiles this') d = None).
Proof.
  intros Hinit Hloaded. split.
  - intros e Hnone Hfail.
    rewrite (swc_compile_ready _ _ _ _ Hinit), compileBody_summary, Hloaded.
    unfold compileSummary.
    destruct (loadSummary_loadFails _ _ _ _ _ Hnone Hfail) as (events & lines & ->).
    reflexivity.
  - intros text Hentry.
    rewrite (swc_compile_ready _ _ _ _ Hinit), compileBody_summary, Hloaded.
    unfold compileSummary.
    destruct (loadSummary_entryLoads _ _ _ _ _ Hentry)
      as (events & lines & this1 & -> & Hsame).
    pose proof (fun d e Hnd Hin Hnone Hfail =>
                  dependenciesSummary_failing env (baseOf options)
                    (Swc.extractImports text) this1 d e Hnd Hin Hnone Hfail) as Hdeps.
    destruct (dependenciesSummary env true (baseOf options) (Swc.extractImports text) this1)
      as [[events2 lines2] this2].
    cbn [replay]. eexists. eexists. eexists. split; [reflexivity |].
    intros d e Hin Hne Hnone Hfail.
    destruct (Hdeps d e (extractImports_NoDup text) Hin) as [Hwarn Hout];
      [rewrite (Hsame d Hne); exact Hnone | exact Hfail |].
    cbn in Hwarn, Hout. split; [| exact Hout].
    unfold logged, setConsole. cbn.
    apply in_or_app. right. right. apply in_or_app. right.
    apply in_or_app. left. exact Hwarn.
Qed.

Lemma C3_entry_failure_aborts_dependency_failure_is_skipped_witness :
  fst (Swc.compile (Playground.swcEnv []) noOptions swcPageReady)
  = Throw (notFound "@/entry")
  /\ exists result w' this',
      Swc.compile (Playground.swcEnv Playground.dangling) noOptions swcPageReady
      = (Ok result, (w', this'))
      /\ In (warnLine "@/missing" (notFound "@/missing")) (console w')
      /\ OMap.get (Swc.transformedFiles this') "@/missing" = None.
Proof.
  split.
  - apply (proj1 (C3_entry_failure_aborts_dependency_failure_is_skipped
                    (Playground.swcEnv []) noOptions (fst swcPageReady) (snd swcPageReady)
                    eq_refl eq_refl)).
    + reflexivity.
    + left. reflexivity.
  - destruct (proj2 (C3_entry_failure_aborts_dependency_failure_is_skipped
                       (Playground.swcEnv Playground.dangling) noOptions
                       (fst swcPageReady) (snd swcPageReady) eq_refl eq_refl)
                    ("import M from " ++ Playground.quoted "@/missing" ++ ";")%string)
      as (result & w' & this' & Hrun & Hdeps).
    + right. split; [reflexivity |].
      exists (mkFileData ("import M from " ++ Playground.quoted "@/missing" ++ ";") "tsx").
      split; reflexivity.
    + exists result, w', this'. split; [exact Hrun |].
      apply (Hdeps "@/missing" (notFound "@/missing")).
      * vm_compute. left. reflexivity.
      * intros H. discriminate H.
      * reflexivity.
      * left. reflexivity.
Defined.

(** ** C8: one load per specifier *)

(** The entry names one file as [@/x] and as [@/x.js].  Both are
    registered under [/src/x.js], yet the source behind that path is
    fetched twice and transformed twice, and the cache of transformed
    files holds it twice. *)
Lemma C8_one_path_under_two_specifiers_is_loaded_twice :
  exists result w this,
    Swc.compile (Playground.swcEnv Playground.twice) noOptions swcPageReady
    = (Ok result, (w, this))
    /\ Swc.registryPath "@/x" = "/src/x.js"
    /\ Swc.registryPath "@/x.js" = "/src/x.js"
    /\ fetched (trace w) = ["@/entry"; "@/x"; "@/x.js"]
    /\ transformedBy (trace w) = ["@/entry"; "@/x"; "@/x.js"]
    /\ OMap.keys (Swc.transformedFiles this) = ["@/entry"; "@/x"; "@/x.js"]
    /\ List.length (filter (fun p => String.eqb (Swc.registryPath p) "/src/x.js")
                           (fetched (trace w))) = 2.
Proof.
  eexists. eexists. eexists. split; [vm_compute; reflexivity |].
  repeat split; vm_compute; reflexivity.
Qed.

Lemma NoDup_keys_assemble (entry text : string) (this : Swc.Runner) :
  NoDup (OMap.keys (Swc.moduleMap (assemble entry text this))).
Proof.
  unfold assemble. cbn [Swc.moduleMap].
  assert (Hfold : forall entries (m : OMap.t string),
             NoDup (OMap.keys m) ->
             NoDup (OMap.keys (fold_left Swc.addToModuleMap entries m))).
  { induction entries as [| [path code] entries IH]; intros m Hm; cbn; [exact Hm |].
    apply IH. apply NoDup_keys_set, Hm. }
  apply Hfold. cbn. repeat constructor. intros [].
Qed.

Lemma NoDup_keys_loadSummary env loaded p b this :
  NoDup (OMap.keys (Swc.transformedFiles this)) ->
  NoDup (OMap.keys (Swc.transformedFiles (snd (loadSummary env loaded p b this)))).
Proof.
  intros H. load_cases env loaded p b this; cbn; try exact H.
  apply NoDup_keys_set, H.
Qed.

Lemma NoDup_keys_dependenciesSummary env loaded b imports this :
  NoDup (OMap.keys (Swc.transformedFiles this)) ->
  NoDup (OMap.keys (Swc.transformedFiles
                      (snd (dependenciesSummary env loaded b imports this)))).
Proof.
  revert this. induction imports as [| d ds IH]; intros this H; cbn; [exact H |].
  pose proof (NoDup_keys_loadSummary env loaded d b this H) as Hstep.
  rewrite <- dependencySummary_this in Hstep.
  destruct (dependencySummary env loaded b this d) as [[e1 l1] this1]. cbn in Hstep.
  specialize (IH this1 Hstep).
  destruct (dependenciesSummary env loaded b ds this1) as [[e2 l2] this2]. exact IH.
Qed.

Lemma NoDup_keys_cleared (clear : bool) (this : Swc.Runner) :
  NoDup (OMap.keys (Swc.transformedFiles this)) ->
  NoDup (OMap.keys (Swc.transformedFiles (cleared clear this))).
Proof. destruct clear; cbn; [intros _; constructor | tauto]. Qed.

Lemma swc_compile_Ok_initialized env options w this result s' :
  Swc.compile env options (w, this) = (Ok result, s') -> swcInitialized w = true.
Proof.
  destruct (swcInitialized w) eqn:E; [reflexivity |].
  rewrite (swc_compile_not_ready _ _ _ _ E). intros H. discriminate H.
Qed.

(** C8, as the code has it. The caches are keyed by the specifier as
    it is written.  Within one compile that resolves, no specifier is
    fetched twice and none is transformed twice; the module map has one
    entry for a path; and the cache of transformed files, if it held
    one text for a specifier before, holds one for a specifier
    afterwards. *)
Theorem C8_each_specifier_is_loaded_at_most_once
        (env : Swc.Env) (options : Options) (w w' : World) (this this' : Swc.Runner)
        (result : Swc.BuildResult) :
  Swc.compile env options (w, this) = (Ok result, (w', this')) ->
  exists events,
    trace w' = trace w ++ events
    /\ NoDup (fetched events)
    /\ NoDup (transformedBy events)
    /\ NoDup (OMap.keys (Swc.moduleMap result))
    /\ (NoDup (OMap.keys (Swc.transformedFiles this)) ->
        NoDup (OMap.keys (Swc.transformedFiles this'))).
Proof.
  intros H. pose proof (swc_compile_Ok_initialized _ _ _ _ _ _ H) as Hinit.
  rewrite (swc_compile_ready _ _ _ _ Hinit), compileBody_summary in H.
  unfold compileSummary in H.
  pose proof (loadSummary_events env (swcLoaded w) (entryOf options) (baseOf options)
                                 (cleared (clearOf options) this)) as Hev.
  pose proof (loadSummary_outcome env (swcLoaded w) (entryOf options) (baseOf options)
                                  (cleared (clearOf options) this)) as Hout.
  pose proof (NoDup_keys_loadSummary env (swcLoaded w) (entryOf options) (baseOf options)
                                     (cleared (clearOf options) this)) as Hkeys.
  destruct (loadSummary env (swcLoaded w) (entryOf options) (baseOf options)
                        (cleared (clearOf options) this))
    as [[[text | e] [events1 lines1]] this1]; [| discriminate H].
  cbn in Hev, Hkeys. destruct Hev as (F & T & _).
  pose proof (dependenciesSummary_events env (swcLoaded w) (baseOf options)
                                         (Swc.extractImports text) this1
                                         (extractImports_NoDup text)) as Hdeps.
  pose proof (NoDup_keys_dependenciesSummary env (swcLoaded w) (baseOf options)
                                             (Swc.extractImports text) this1) as Hkeys2.
  destruct (dependenciesSummary env (swcLoaded w) (baseOf options)
                                (Swc.extractImports text) this1)
    as [[events2 lines2] this2].
  cbn in Hdeps, Hkeys2. destruct Hdeps as (D1 & D2 & D3 & D4).
  cbn [replay] in H. injection H as <- <- <-.
  exists (events1 ++ events2). split; [reflexivity |].
  rewrite fetched_app, transformedBy_app.
  assert (Hcached : forall p, OMap.get (Swc.transformedFiles this1) p = None ->
                              p <> entryOf options).
  { intros p Hp ->. rewrite Hout in Hp. discriminate Hp. }
  split; [| split; [| split]].
  - destruct F as [-> | [-> _]]; cbn; [exact D1 |].
    constructor; [| exact D1]. intros Hin.
    exact (Hcached _ (proj2 (D3 _ Hin)) eq_refl).
  - destruct T as [-> | [-> _]]; cbn; [exact D2 |].
    constructor; [| exact D2]. intros Hin.
    exact (Hcached _ (proj2 (D4 _ Hin)) eq_refl).
  - apply NoDup_keys_assemble.
  - intros Hbefore. apply Hkeys2, Hkeys, NoDup_keys_cleared, Hbefore.
Qed.

Lemma C8_each_specifier_is_loaded_at_most_once_witness :
  isOk (fst twiceCompiled) = true
  /\ exists events,
      trace (fst (snd twiceCompiled)) = trace (fst swcPageReady) ++ events
      /\ NoDup (fetched events)
      /\ NoDup (transformedBy events).
Proof.
  split; [vm_compute; reflexivity |].
  destruct (C8_each_specifier_is_loaded_at_most_once
              (Playground.swcEnv Playground.twice) noOptions
              (fst swcPageReady) (fst (snd twiceCompiled))
              (snd swcPageReady) (snd (snd twiceCompiled))
              (assemble "@/entry"
                        ("import X from " ++ Playground.quoted "@/x" ++ "; import Y from "
                           ++ Playground.quoted "@/x.js" ++ ";")
                        (snd (snd twiceCompiled))))
    as (events & Htrace & Hfetched & Htransformed & _).
  - vm_compute. reflexivity.
  - exists events. split; [exact Htrace |]. split; [exact Hfetched | exact Htransformed].
Defined.

(** ** C9: what the caches save *)

(** The entry imports a file that the source provider does not have.
    Both compiles resolve, with the same sources and with
    [clearCache] false, and the second asks the source provider for the
    missing file once more. *)
Lemma C9_failed_dependency_is_fetched_again :
  isOk (fst danglingOnce) = true
  /\ isOk (fst danglingTwice) = true
  /\ fetched (trace (fst (snd danglingOnce))) = ["@/entry"; "@/missing"]
  /\ fetched (trace (fst (snd danglingTwice))) = ["@/entry"; "@/missing"; "@/missing"]
  /\ trace (fst (snd danglingTwice))
     = trace (fst (snd danglingOnce)) ++ [Fetch "@/missing" "/src"].
Proof. by_running. Qed.

Lemma swc_second_compile env options again w w1 this this1 result :
  Swc.compile env options (w, this) = (Ok result, (w1, this1)) ->
  entryOf again = entryOf options ->
  clearOf again = false ->
  (forall text,
      OMap.get (Swc.transformedFiles this1) (entryOf options) = Some text ->
      forall d, In d (Swc.extractImports text) ->
                OMap.has (Swc.transformedFiles this1) d = true) ->
  exists w2,
    Swc.compile env again (w1, this1) = (Ok result, (w2, this1))
    /\ trace w2 = trace w1.
Proof.
  intros H Hentry Hclear Hall.
  pose proof (swc_compile_Ok_initialized _ _ _ _ _ _ H) as Hinit.
  rewrite (swc_compile_ready _ _ _ _ Hinit), compileBody_summary in H.
  unfold compileSummary in H.
  pose proof (loadSummary_outcome env (swcLoaded w) (entryOf options) (baseOf options)
                                  (cleared (clearOf options) this)) as Hout.
  destruct (loadSummary env (swcLoaded w) (entryOf options) (baseOf options)
                        (cleared (clearOf options) this))
    as [[[text | e] [events1 lines1]] this0]; [| discriminate H].
  pose proof (dependenciesSummary_cache env (swcLoaded w) (baseOf options)
                                        (Swc.extractImports text) this0) as (_ & Hkeep & _).
  destruct (dependenciesSummary env (swcLoaded w) (baseOf options)
                                (Swc.extractImports text) this0)
    as [[events2 lines2] this2].
  cbn in Hkeep. cbn [replay] in H. injection H as <- <- <-.
  assert (Hcached : OMap.get (Swc.transformedFiles this2) (entryOf options) = Some text)
    by exact (Hkeep _ _ Hout).
  assert (Hinit1 : swcInitialized
                     (logged w (events1 ++ events2)
                             (buildingLine (entryOf options)
                                           :: lines1 ++ lines2
                                           ++ [buildCompleteLine
                                                 (assemble (entryOf options) text this2)]))
                   = true) by exact Hinit.
  rewrite (swc_compile_ready _ _ _ _ Hinit1), compileBody_summary.
  unfold compileSummary. rewrite Hentry, Hclear. cbn [cleared].
  unfold loadSummary at 1. rewrite Hcached.
  rewrite (dependenciesSummary_cached _ _ _ _ _ (Hall text Hcached)).
  cbn [replay]. eexists. split; [reflexivity |].
  cbn. rewrite app_nil_r. reflexivity.
Qed.

Lemma swc_cache_persists env options w w1 this this1 outcome :
  clearOf options = false ->
  Swc.compile env options (w, this) = (outcome, (w1, this1)) ->
  (forall p text, OMap.get (Swc.transformedFiles this) p = Some text ->
                  OMap.get (Swc.transformedFiles this1) p = Some text)
  /\ (forall p, OMap.has (Swc.fileCache this) p = true ->
                OMap.has (Swc.fileCache this1) p = true).
Proof.
  intros Hclear H.
  destruct (swcInitialized w) eqn:Hinit.
  - rewrite (swc_compile_ready _ _ _ _ Hinit), compileBody_summary in H.
    unfold compileSummary in H. rewrite Hclear in H. cbn [cleared] in H.
    pose proof (loadSummary_cache env (swcLoaded w) (entryOf options) (baseOf options) this)
      as (_ & L2 & L3).
    destruct (loadSummary env (swcLoaded w) (entryOf options) (baseOf options) this)
      as [[[text | e] [events1 lines1]] this0]; cbn in L2, L3.
    + pose proof (dependenciesSummary_cache env (swcLoaded w) (baseOf options)
                                            (Swc.extractImports text) this0)
        as (_ & D2 & D3).
      destruct (dependenciesSummary env (swcLoaded w) (baseOf options)
                                    (Swc.extractImports text) this0)
        as [[events2 lines2] this2].
      cbn in D2, D3. cbn [replay] in H. injection H as _ _ <-.
      split; [intros p text' Hp; apply D2, L2, Hp | intros p Hp; apply D3, L3, Hp].
    + cbn [replay] in H. injection H as _ _ <-.
      split; [exact L2 | exact L3].
  - rewrite (swc_compile_not_ready _ _ _ _ Hinit) in H. injection H as _ _ <-.
    split; intros; assumption.
Qed.

Lemma swc_clearCache_evicts env options w this :
  swcInitialized w = true ->
  clearOf options = true ->
  Swc.compile env options (w, this) = Swc.compile env options (w, Swc.new).
Proof.
  intros Hinit Hclear.
  rewrite !(swc_compile_ready _ _ _ _ Hinit), !compileBody_summary.
  unfold compileSummary. rewrite Hclear. reflexivity.
Qed.

Lemma esbuild_onLoad_hit env base p w this data :
  OMap.get (Esbuild.fileCache this) p = Some data ->
  Esbuild.onLoad env base p (w, this)
  = (Ok (Esbuild.Loaded (contents data) (loader data)), (w, this)).
Proof. intros H. unfold Esbuild.onLoad. run_method. rewrite H. reflexivity. Qed.

Lemma esbuild_onLoad_caches env base p w this text kind w' this' :
  Esbuild.onLoad env base p (w, this) = (Ok (Esbuild.Loaded text kind), (w', this')) ->
  OMap.has (Esbuild.fileCache this') p = true
  /\ forall q, OMap.has (Esbuild.fileCache this) q = true ->
               OMap.has (Esbuild.fileCache this') q = true.
Proof.
  unfold Esbuild.onLoad. run_method. unfold OMap.has.
  destruct (OMap.get (Esbuild.fileCache this) p) as [cached |] eqn:Hget.
  - intros H. injection H as _ _ _ <-. rewrite Hget. split; [reflexivity | tauto].
  - destruct (Esbuild.fetchSourceFile env p base) as [data | e]; cbn; intros H.
    + injection H as _ _ _ <-. cbn. split; [rewrite get_set_same; reflexivity |].
      intros q Hq. destruct (String.eqb q p) eqn:E.
      * apply String.eqb_eq in E. subst q. rewrite get_set_same. reflexivity.
      * apply String.eqb_neq in E. rewrite get_set_other; [exact Hq | exact E].
    + discriminate H.
Qed.

Lemma esbuild_clearCache_evicts env options w this :
  esbuildInitialized w = true ->
  clearOf options = true ->
  Esbuild.compile env options (w, this) = Esbuild.compile env options (w, Esbuild.new).
Proof.
  intros Hinit Hclear.
  rewrite !(esbuild_compile_ready _ _ _ _ Hinit).
  unfold Esbuild.compileBody. fold (clearOf options). rewrite Hclear.
  reflexivity.
Qed.

(** ** C7: the rewriting of imports and exports *)

Lemma take_matched (m rest : string) :
  Str.take (String.length (m ++ rest) - String.length rest) (m ++ rest) = m.
Proof.
  rewrite length_append, Nat.add_sub. apply take_append.
Qed.

Lemma star_run {R} (k : cclass) (run s : string) (cont : string -> option R) (v : R) :
  allIn k run = true ->
  stops k s = true ->
  cont s = Some v ->
  Re.star (in_class k) (run ++ s) cont = Some v.
Proof.
  intros Hrun Hstop Hcont. induction run as [| c run IH]; cbn.
  - destruct s as [| c s]; cbn; [exact Hcont |].
    cbn in Hstop. apply negb_true_iff in Hstop. rewrite Hstop. exact Hcont.
  - cbn in Hrun. apply andb_prop in Hrun as [Hc Hrun].
    rewrite Hc, (IH Hrun). reflexivity.
Qed.

Lemma rmatch_Lit {R} (l s : string) caps (cont : string -> list string -> option R) :
  Re.rmatch (Lit l) (l ++ s) caps cont = cont s caps.
Proof. cbn. rewrite startsWith_append, slice_append. reflexivity. Qed.

Lemma rmatch_OneOf {R} (cs : list ascii) (c : ascii) (s : string) caps
      (cont : string -> list string -> option R) :
  existsb (Ascii.eqb c) cs = true ->
  Re.rmatch (OneOf cs) (String c s) caps cont = cont s caps.
Proof. intros H. cbn. rewrite H. reflexivity. Qed.

Lemma rmatch_Star {R} (k : cclass) (run s : string) caps
      (cont : string -> list string -> option R) (v : R) :
  allIn k run = true ->
  stops k s = true ->
  cont s caps = Some v ->
  Re.rmatch (Star k) (run ++ s) caps cont = Some v.
Proof. intros Hrun Hstop Hcont. cbn. apply star_run; assumption. Qed.

Lemma rmatch_Plus {R} (k : cclass) (run s : string) caps
      (cont : string -> list string -> option R) (v : R) :
  run <> EmptyString ->
  allIn k run = true ->
  stops k s = true ->
  cont s caps = Some v ->
  Re.rmatch (Plus k) (run ++ s) caps cont = Some v.
Proof.
  intros Hne Hrun Hstop Hcont. cbn. unfold Re.plus.
  destruct run as [| c run]; [contradiction Hne; reflexivity |].
  cbn in Hrun |- *. apply andb_prop in Hrun as [Hc Hrun]. rewrite Hc.
  apply star_run; assumption.
Qed.

Lemma rmatch_Group_Plus {R} (k : cclass) (run s : string) caps
      (cont : string -> list string -> option R) (v : R) :
  run <> EmptyString ->
  allIn k run = true ->
  stops k s = true ->
  cont s (caps ++ [run]) = Some v ->
  Re.rmatch (Group (Plus k)) (run ++ s) caps cont = Some v.
Proof.
  intros Hne Hrun Hstop Hcont.
  change (Re.rmatch (Group (Plus k)) (run ++ s) caps cont)
    with (Re.rmatch (Plus k) (run ++ s) caps
                    (fun s' caps' =>
                       cont s' (caps' ++ [Str.take (String.length (run ++ s)
                                                    - String.length s') (run ++ s)]))).
  apply rmatch_Plus; try assumption.
  rewrite take_matched. exact Hcont.
Qed.

Lemma ident_nonempty (s : string) : ident s = true -> s <> EmptyString.
Proof. intros H ->. discriminate H. Qed.

Lemma ident_word (s : string) : ident s = true -> allIn Word s = true.
Proof. unfold ident. intros H. apply andb_prop in H as [_ H]. exact H. Qed.

Lemma word_not_space (c : ascii) : is_word c = true -> is_space c = false.
Proof.
  destruct c as [[] [] [] [] [] [] [] []]; vm_compute; intros H;
    (reflexivity || discriminate H).
Qed.

Lemma rmatch_Cat {R} (a b : regex) (s : string) caps
      (cont : string -> list string -> option R) :
  Re.rmatch (Cat a b) s caps cont
  = Re.rmatch a s caps (fun s' caps' => Re.rmatch b s' caps' cont).
Proof. reflexivity. Qed.

Lemma stops_Space_ident (a rest : string) :
  ident a = true -> stops Space (a ++ rest) = true.
Proof.
  unfold ident. destruct a as [| c a]; [discriminate |]. cbn.
  intros H. apply andb_prop in H as [H _]. rewrite (word_not_space _ H). reflexivity.
Qed.

Ltac same_text :=
  unfold Str.dq, Str.nl; repeat (rewrite ?append_assoc; cbn [append]);
  rewrite ?append_empty_r; reflexivity.

Ltac step_Lit := rewrite rmatch_Cat, rmatch_Lit; cbv beta.
Ltac step_OneOf := rewrite rmatch_Cat, rmatch_OneOf by reflexivity; cbv beta.

(** the match of the combined import at the start of a text *)
Lemma combinedImport_match (A names p rest : string) :
  ident A = true ->
  names <> EmptyString ->
  allIn notBrace names = true ->
  specifierText p = true ->
  Re.exec_at Swc.combinedImportRegex
             ("import " ++ A ++ ", {" ++ names ++ "} from " ++ Str.dq ++ p ++ Str.dq ++ rest)
  = Some {| whole := "import " ++ A ++ ", {" ++ names ++ "} from " ++ Str.dq ++ p ++ Str.dq;
            groups := [A; names; p] |}.
Proof.
  intros HA Hne Hnames Hp.
  unfold specifierText in Hp. apply andb_prop in Hp as [Hpne Hp].
  assert (Hp' : p <> EmptyString) by (intros ->; discriminate Hpne).
  unfold Re.exec_at.
  set (text := ("import " ++ A ++ ", {" ++ names ++ "} from " ++ Str.dq ++ p ++ Str.dq
                          ++ rest)%string).
  set (final := fun (s' : string) (caps : list string) =>
                  Some {| whole := Str.take (String.length text - String.length s') text;
                          groups := caps |}).
  unfold text at 1. unfold Swc.combinedImportRegex, quote.
  change ("import " ++ A ++ ", {" ++ names ++ "} from " ++ Str.dq ++ p ++ Str.dq ++ rest)%string
    with ("import" ++ " " ++ A ++ EmptyString ++ "," ++ " " ++ "{" ++ names ++ "}" ++ " "
                   ++ "from" ++ " " ++ String (ascii_of_nat 34) (p ++ Str.dq ++ rest))%string.
  step_Lit.
  rewrite rmatch_Cat.
  apply rmatch_Plus; [discriminate | reflexivity | apply stops_Space_ident, HA |].
  rewrite rmatch_Cat.
  apply rmatch_Group_Plus;
    [apply ident_nonempty, HA | apply ident_word, HA | reflexivity |].
  rewrite rmatch_Cat.
  apply rmatch_Star; [reflexivity | reflexivity |].
  step_Lit.
  rewrite rmatch_Cat.
  apply rmatch_Star; [reflexivity | reflexivity |].
  step_Lit.
  rewrite rmatch_Cat.
  apply rmatch_Group_Plus; [exact Hne | exact Hnames | reflexivity |].
  step_Lit.
  rewrite rmatch_Cat.
  apply rmatch_Plus; [discriminate | reflexivity | reflexivity |].
  step_Lit.
  rewrite rmatch_Cat.
  apply rmatch_Plus; [discriminate | reflexivity | reflexivity |].
  step_OneOf.
  rewrite rmatch_Cat.
  change (p ++ Str.dq ++ rest)%string with (p ++ String (ascii_of_nat 34) rest)%string.
  apply rmatch_Group_Plus; [exact Hp' | exact Hp | reflexivity |].
  rewrite rmatch_OneOf by reflexivity.
  unfold final. f_equal. f_equal.
  replace text
    with (("import " ++ A ++ ", {" ++ names ++ "} from " ++ Str.dq ++ p ++ Str.dq) ++ rest)%string.
  - apply take_matched.
  - unfold text. same_text.
Qed.

(** ** Replacing: at a match, and where the pattern's first word is absent *)

Lemma replace_skip (r : regex) (f : found -> string) (m rest : string) :
  Re.replace_go r f (String.length m) (m ++ rest) = Re.replace_go r f 0 rest.
Proof. induction m as [| c m IH]; cbn; [reflexivity | exact IH]. Qed.

Lemma replace_at_match (r : regex) (f : found -> string) (m rest : string) caps :
  m <> EmptyString ->
  Re.exec_at r (m ++ rest) = Some {| whole := m; groups := caps |} ->
  Re.replace_go r f 0 (m ++ rest)
  = (f {| whole := m; groups := caps |} ++ Re.replace_go r f 0 rest)%string.
Proof.
  intros Hne Hexec. destruct m as [| c m]; [contradiction Hne; reflexivity |].
  change (Re.replace_go r f 0 (String c m ++ rest))
    with (match Re.exec_at r (String c m ++ rest) with
          | Some m0 =>
              match String.length (whole m0) with
              | O => (f m0 ++ String c (Re.replace_go r f 0 (m ++ rest)))%string
              | S n => (f m0 ++ Re.replace_go r f n (m ++ rest))%string
              end
          | None => String c (Re.replace_go r f 0 (m ++ rest))
          end).
  rewrite Hexec. cbn [whole String.length]. rewrite replace_skip. reflexivity.
Qed.

Lemma replace_no_mention (word : string) (r : regex) (f : found -> string) (s : string) :
  mentions word s = false ->
  Re.replace (Cat (Lit word) r) f s = s.
Proof.
  unfold Re.replace. induction s as [| c s IH]; intros H.
  - cbn in H |- *. unfold Re.exec_at. cbn. apply orb_false_elim in H as [H _].
    rewrite H. reflexivity.
  - cbn [mentions] in H. apply orb_false_elim in H as [Hhere Hlater].
    cbn [Re.replace_go]. unfold Re.exec_at. cbn [Re.rmatch]. rewrite Hhere.
    rewrite (IH Hlater). reflexivity.
Qed.

(** a text that mentions neither word is left as it is by the six
    rewrites that follow the combined import *)
Lemma later_rewrites_idle (s : string) :
  mentions "import" s = false ->
  mentions "export" s = false ->
  Re.replace Swc.exportDefaultRegex Swc.exportDefaultRewrite
    (Re.replace Swc.exportFunctionRegex Swc.exportFunctionRewrite
       (Re.replace Swc.exportConstRegex Swc.exportConstRewrite
          (Re.replace Swc.sideEffectImportRegex Swc.sideEffectImportRewrite
             (Re.replace Swc.defaultImportRegex Swc.defaultImportRewrite
                (Re.replace Swc.namedImportRegex Swc.namedImportRewrite s)))))
  = s.
Proof.
  intros Hi He.
  unfold Swc.namedImportRegex, Swc.defaultImportRegex, Swc.sideEffectImportRegex,
    Swc.exportConstRegex, Swc.exportFunctionRegex, Swc.exportDefaultRegex.
  rewrite (replace_no_mention "import" _ Swc.namedImportRewrite s Hi).
  rewrite (replace_no_mention "import" _ Swc.defaultImportRewrite s Hi).
  rewrite (replace_no_mention "import" _ Swc.sideEffectImportRewrite s Hi).
  rewrite (replace_no_mention "export" _ Swc.exportConstRewrite s He).
  rewrite (replace_no_mention "export" _ Swc.exportFunctionRewrite s He).
  apply (replace_no_mention "export" _ Swc.exportDefaultRewrite s He).
Qed.

Lemma star_stop {R} (k : cclass) (s : string) (cont : string -> option R) :
  stops k s = true -> Re.star (in_class k) s cont = cont s.
Proof.
  destruct s as [| c s]; cbn; [reflexivity |].
  intros H. apply negb_true_iff in H. rewrite H. reflexivity.
Qed.

Lemma plus_stop {R} (k : cclass) (s : string) (cont : string -> option R) :
  stops k s = true -> Re.plus (in_class k) s cont = None.
Proof.
  destruct s as [| c s]; cbn; [reflexivity |].
  intros H. apply negb_true_iff in H. rewrite H. reflexivity.
Qed.

(** after a name other than [as], a text that starts with [as] goes on
    with a character that is not white space *)
Lemma as_inside_a_name (B rest : string) :
  ident B = true ->
  B <> "as" ->
  Str.startsWith (B ++ String " " rest) "as" = true ->
  stops Space (Str.slice 2 (B ++ String " " rest)) = true.
Proof.
  intros HB Hne. unfold ident in HB. apply andb_prop in HB as [_ HB].
  destruct B as [| b1 [| b2 [| b3 B]]];
    cbn -[Ascii.eqb is_word is_space] in HB |- *.
  - intros H. discriminate H.
  - destruct (Ascii.eqb "a" b1); cbn; intros H; discriminate H.
  - destruct (Ascii.eqb_spec "a" b1) as [<- |]; [| intros H; discriminate H].
    destruct (Ascii.eqb_spec "s" b2) as [<- |]; [| intros H; discriminate H].
    contradiction Hne. reflexivity.
  - intros _. apply andb_prop in HB as [_ HB]. apply andb_prop in HB as [_ HB].
    apply andb_prop in HB as [H3 _]. rewrite (word_not_space _ H3). reflexivity.
Qed.

Lemma as_none_before_name (B rest : string) :
  ident B = true ->
  B <> "as" ->
  Re.exec_at Swc.asRegex (String " " (B ++ String " " rest)) = None.
Proof.
  intros HB Hne. unfold Re.exec_at, Swc.asRegex.
  rewrite rmatch_Cat. cbn [Re.rmatch]. unfold Re.plus.
  replace (in_class Space " ") with true by reflexivity.
  rewrite (star_stop Space) by (apply stops_Space_ident, HB).
  destruct (Str.startsWith (B ++ String " " rest) "as") eqn:E; [| reflexivity].
  apply (plus_stop Space). apply as_inside_a_name; assumption.
Qed.

Lemma as_none_at_word (c : ascii) (s : string) :
  is_word c = true -> Re.exec_at Swc.asRegex (String c s) = None.
Proof.
  intros H. unfold Re.exec_at, Swc.asRegex. rewrite rmatch_Cat. cbn [Re.rmatch].
  unfold Re.plus. cbn [in_class]. rewrite (word_not_space _ H). reflexivity.
Qed.

Lemma as_replace_over_name (f : found -> string) (w rest : string) :
  allIn Word w = true ->
  Re.replace_go Swc.asRegex f 0 (w ++ rest)
  = (w ++ Re.replace_go Swc.asRegex f 0 rest)%string.
Proof.
  induction w as [| c w IH]; intros H; [reflexivity |].
  cbn in H. apply andb_prop in H as [Hc Hw].
  cbn [append Re.replace_go]. rewrite (as_none_at_word _ _ Hc), (IH Hw). reflexivity.
Qed.

Lemma as_match (C rest : string) :
  ident C = true ->
  Re.exec_at Swc.asRegex (" as " ++ C ++ rest)
  = Some {| whole := " as "; groups := [] |}.
Proof.
  intros HC. unfold Re.exec_at.
  set (text := (" as " ++ C ++ rest)%string).
  set (final := fun (s' : string) (caps : list string) =>
                  Some {| whole := Str.take (String.length text - String.length s') text;
                          groups := caps |}).
  unfold text at 1. unfold Swc.asRegex.
  change (" as " ++ C ++ rest)%string with (" " ++ "as" ++ " " ++ C ++ rest)%string.
  rewrite rmatch_Cat.
  apply rmatch_Plus; [discriminate | reflexivity | reflexivity |].
  step_Lit.
  apply rmatch_Plus; [discriminate | reflexivity | apply stops_Space_ident, HC |].
  unfold final. f_equal. f_equal.
  replace text with (" as " ++ (C ++ rest))%string by reflexivity.
  apply take_matched.
Qed.

(** the renaming of one imported name *)
Lemma convertNames_rename (B C : string) :
  ident B = true ->
  ident C = true ->
  B <> "as" ->
  Swc.convertNames (" " ++ B ++ " as " ++ C ++ " ") = (" " ++ B ++ ": " ++ C ++ " ")%string.
Proof.
  intros HB HC Hne. unfold Swc.convertNames, Re.replace.
  change (" " ++ B ++ " as " ++ C ++ " ")%string
    with (String " " (B ++ String " " ("as " ++ C ++ " ")))%string.
  cbn [Re.replace_go]. rewrite (as_none_before_name _ _ HB Hne).
  rewrite (as_replace_over_name _ _ _ (ident_word _ HB)).
  change (String " " ("as " ++ C ++ " "))%string with (" as " ++ (C ++ " "))%string.
  rewrite (replace_at_match Swc.asRegex _ " as " (C ++ " ") []);
    [| discriminate | apply (as_match C " " HC)].
  rewrite (as_replace_over_name _ _ _ (ident_word _ HC)).
  replace (Re.replace_go Swc.asRegex (fun _ : found => ": ") 0 " ") with " "
    by (vm_compute; reflexivity).
  reflexivity.
Qed.

Lemma exportDefault_match (e : string) :
  stops Space e = true ->
  Re.exec_at Swc.exportDefaultRegex ("export default " ++ e)
  = Some {| whole := "export default "; groups := [] |}.
Proof.
  intros He. unfold Re.exec_at.
  set (text := ("export default " ++ e)%string).
  set (final := fun (s' : string) (caps : list string) =>
                  Some {| whole := Str.take (String.length text - String.length s') text;
                          groups := caps |}).
  unfold text at 1. unfold Swc.exportDefaultRegex.
  change ("export default " ++ e)%string
    with ("export" ++ " " ++ "default" ++ " " ++ e)%string.
  step_Lit.
  rewrite rmatch_Cat.
  apply rmatch_Plus; [discriminate | reflexivity | reflexivity |].
  step_Lit.
  apply rmatch_Plus; [discriminate | reflexivity | exact He |].
  unfold final. f_equal. f_equal. apply (take_matched "export default " e).
Qed.

Lemma allIn_append (k : cclass) (a b : string) :
  allIn k (a ++ b) = allIn k a && allIn k b.
Proof.
  induction a as [| c a IH]; cbn; [reflexivity |].
  rewrite IH, andb_assoc. reflexivity.
Qed.

Lemma word_not_brace (c : ascii) : is_word c = true -> in_class notBrace c = true.
Proof.
  destruct c as [[] [] [] [] [] [] [] []]; vm_compute; intros H;
    (reflexivity || discriminate H).
Qed.

Lemma allIn_Word_notBrace (s : string) : allIn Word s = true -> allIn notBrace s = true.
Proof.
  induction s as [| c s IH]; cbn [allIn]; [reflexivity |].
  intros H. apply andb_prop in H as [Hc Hs].
  rewrite (word_not_brace _ Hc). exact (IH Hs).
Qed.

Lemma replace_one_miss (r : regex) (f : found -> string) (c : ascii) (s : string) :
  Re.exec_at r (String c s) = None ->
  Re.replace r f s = s ->
  Re.replace r f (String c s) = String c s.
Proof.
  unfold Re.replace. intros Hmiss Hrest. cbn [Re.replace_go].
  rewrite Hmiss, Hrest. reflexivity.
Qed.

Lemma resolveImports_export_default (e importer : string) :
  stops Space e = true ->
  mentions "import" e = false ->
  mentions "export" e = false ->
  Swc.resolveImports ("export default " ++ e) importer = ("exports.default = " ++ e)%string.
Proof.
  intros Hstop Hi He. unfold Swc.resolveImports. cbv zeta.
  assert (Hi0 : mentions "import" ("export default " ++ e) = false) by exact Hi.
  unfold Swc.combinedImportRegex, Swc.namedImportRegex, Swc.defaultImportRegex,
    Swc.sideEffectImportRegex.
  rewrite (replace_no_mention "import" _ Swc.combinedImportRewrite _ Hi0).
  rewrite (replace_no_mention "import" _ Swc.namedImportRewrite _ Hi0).
  rewrite (replace_no_mention "import" _ Swc.defaultImportRewrite _ Hi0).
  rewrite (replace_no_mention "import" _ Swc.sideEffectImportRewrite _ Hi0).
  assert (He1 : mentions "export" ("xport default " ++ e) = false) by exact He.
  change ("export default " ++ e)%string with (String "e" ("xport default " ++ e)).
  rewrite (replace_one_miss Swc.exportConstRegex Swc.exportConstRewrite "e"
                            ("xport default " ++ e));
    [| reflexivity | exact (replace_no_mention "export" _ _ _ He1)].
  rewrite (replace_one_miss Swc.exportFunctionRegex Swc.exportFunctionRewrite "e"
                            ("xport default " ++ e));
    [| reflexivity | exact (replace_no_mention "export" _ _ _ He1)].
  change (String "e" ("xport default " ++ e)) with ("export default " ++ e)%string.
  unfold Re.replace.
  rewrite (replace_at_match Swc.exportDefaultRegex _ "export default " e []);
    [| discriminate | apply exportDefault_match, Hstop].
  unfold Swc.exportDefaultRegex.
  change (Re.replace_go (Lit "export";; Plus Space;; Lit "default";; Plus Space)
                        Swc.exportDefaultRewrite 0 e)
    with (Re.replace (Lit "export";; Plus Space;; Lit "default";; Plus Space)
                     Swc.exportDefaultRewrite e).
  rewrite (replace_no_mention "export" _ Swc.exportDefaultRewrite _ He).
  reflexivity.
Qed.

Lemma resolveImports_combined (A B C x importer : string) :
  ident A = true ->
  ident B = true ->
  ident C = true ->
  B <> "as" ->
  specifierText x = true ->
  mentions "import" (combinedBindings A B C x) = false ->
  mentions "export" (combinedBindings A B C x) = false ->
  Swc.resolveImports
    ("import " ++ A ++ ", { " ++ B ++ " as " ++ C ++ " } from " ++ Str.dq ++ "@/" ++ x ++ Str.dq)
    importer
  = combinedBindings A B C x.
Proof.
  intros HA HB HC Hne Hx Hi He.
  set (names := (" " ++ B ++ " as " ++ C ++ " ")%string).
  assert (Hfirst :
            Re.replace Swc.combinedImportRegex Swc.combinedImportRewrite
                       ("import " ++ A ++ ", { " ++ B ++ " as " ++ C ++ " } from "
                                  ++ Str.dq ++ "@/" ++ x ++ Str.dq)
            = combinedBindings A B C x).
  { replace ("import " ++ A ++ ", { " ++ B ++ " as " ++ C ++ " } from "
                       ++ Str.dq ++ "@/" ++ x ++ Str.dq)%string
      with (("import " ++ A ++ ", {" ++ names ++ "} from " ++ Str.dq ++ ("@/" ++ x) ++ Str.dq)
              ++ EmptyString)%string
      by (unfold names; same_text).
    unfold Re.replace.
    rewrite (replace_at_match Swc.combinedImportRegex _ _ EmptyString [A; names; ("@/" ++ x)%string]).
    - replace (Re.replace_go Swc.combinedImportRegex Swc.combinedImportRewrite 0 EmptyString)
        with EmptyString by reflexivity.
      unfold Swc.combinedImportRewrite. cbn [Re.group Re.groups nth Nat.sub].
      unfold names. rewrite (convertNames_rename _ _ HB HC Hne).
      unfold combinedBindings. same_text.
    - discriminate.
    - replace (("import " ++ A ++ ", {" ++ names ++ "} from " ++ Str.dq ++ ("@/" ++ x) ++ Str.dq)
                 ++ EmptyString)%string
        with ("import " ++ A ++ ", {" ++ names ++ "} from " ++ Str.dq ++ ("@/" ++ x) ++ Str.dq
                        ++ EmptyString)%string
        by same_text.
      apply combinedImport_match.
      + exact HA.
      + discriminate.
      + unfold names. cbn [append allIn]. rewrite allIn_append. cbn [append allIn].
        rewrite allIn_append.
        rewrite (allIn_Word_notBrace _ (ident_word _ HB)).
        rewrite (allIn_Word_notBrace _ (ident_word _ HC)). reflexivity.
      + unfold specifierText in Hx |- *. apply andb_prop in Hx as [_ Hx].
        cbn. exact Hx. }
  unfold Swc.resolveImports. cbv zeta. rewrite Hfirst.
  apply later_rewrites_idle; assumption.
Qed.

(** C7. For an expression [e] that does not start with white space,
    [export default e] is rewritten to [exports.default = e]; for names
    [A], [B] and [C] ([B] other than [as]) and a specifier [@/x],
    [import A, { B as C } from "@/x"] is rewritten to
    [const A = require(p)] followed by [const {  B: C  } = A], where
    [p] is the path of the alias: [A] is bound to the module and [C] to
    its property [B].  Both hold where the words import and export do
    not occur again, in [e] and in the bindings.  The path [p] is the
    key under which [compile] registers the module of [@/x], and the
    factory that wraps a module takes [exports] and [require] as
    parameters, so an assignment to [exports.default] is what
    [require(path).default] reads. *)
Theorem C7_import_and_export_rewriting (A B C x e importer : string) :
  ident A = true ->
  ident B = true ->
  ident C = true ->
  B <> "as" ->
  specifierText x = true ->
  stops Space e = true ->
  mentions "import" e = false ->
  mentions "export" e = false ->
  mentions "import" (combinedBindings A B C x) = false ->
  mentions "export" (combinedBindings A B C x) = false ->
  Swc.resolveImports ("export default " ++ e) importer = ("exports.default = " ++ e)%string
  /\ Swc.resolveImports
       ("import " ++ A ++ ", { " ++ B ++ " as " ++ C ++ " } from "
                  ++ Str.dq ++ "@/" ++ x ++ Str.dq)
       importer
     = ("const " ++ A ++ " = require(" ++ Str.dq ++ Swc.resolveAlias ("@/" ++ x) ++ Str.dq
                 ++ ");" ++ Str.nl ++ "const {  " ++ B ++ ": " ++ C ++ "  } = " ++ A)%string
  /\ Swc.registryPath ("@/" ++ x) = Swc.resolveAlias ("@/" ++ x)
  /\ forall path code,
      Swc.moduleLines (path, code)
      = [("__modules__['" ++ path ++ "'] = function(module, exports, require) {")%string;
         code; "};"; EmptyString].
Proof.
  intros HA HB HC Hne Hx Hstop Hie Hee Hib Heb.
  split; [exact (resolveImports_export_default e importer Hstop Hie Hee) |].
  split; [exact (resolveImports_combined A B C x importer HA HB HC Hne Hx Hib Heb) |].
  split; [| reflexivity].
  unfold Swc.registryPath. rewrite replaceFirst_alias. reflexivity.
Qed.

Lemma C7_import_and_export_rewriting_witness :
  Swc.resolveImports "export default function Foo(){}" "@/entry"
  = "exports.default = function Foo(){}"
  /\ Swc.resolveImports ("import A, { B as C } from " ++ Playground.quoted "@/x") "@/entry"
     = ("const A = require(" ++ Playground.quoted "/src/x.js" ++ ");" ++ Str.nl
          ++ "const {  B: C  } = A")%string
  /\ Swc.registryPath "@/x" = "/src/x.js".
Proof.
  destruct (C7_import_and_export_rewriting
              "A" "B" "C" "x" "function Foo(){}" "@/entry"
              eq_refl eq_refl eq_refl) as (H1 & H2 & H3 & _);
    try reflexivity.
  - intros H. discriminate H.
  - split; [exact H1 |]. split; [exact H2 | exact H3].
Defined.

(** ** The reach of one compile *)

(** Whatever the sources, a compile that resolves asks the source
    provider for nothing but the entry and the specifiers found in the
    text of the entry itself. *)
Lemma swc_compile_fetches_entry_and_its_imports
      (env : Swc.Env) (options : Options) (w w' : World) (this this' : Swc.Runner)
      (result : Swc.BuildResult) :
  Swc.compile env options (w, this) = (Ok result, (w', this')) ->
  exists events text,
    trace w' = trace w ++ events
    /\ OMap.get (Swc.transformedFiles this') (entryOf options) = Some text
    /\ forall p, In p (fetched events) ->
                 p = entryOf options \/ In p (Swc.extractImports text).
Proof.
  intros H. pose proof (swc_compile_Ok_initialized _ _ _ _ _ _ H) as Hinit.
  rewrite (swc_compile_ready _ _ _ _ Hinit), compileBody_summary in H.
  unfold compileSummary in H.
  pose proof (loadSummary_events env (swcLoaded w) (entryOf options) (baseOf options)
                                 (cleared (clearOf options) this)) as Hev.
  pose proof (loadSummary_outcome env (swcLoaded w) (entryOf options) (baseOf options)
                                  (cleared (clearOf options) this)) as Hout.
  destruct (loadSummary env (swcLoaded w) (entryOf options) (baseOf options)
                        (cleared (clearOf options) this))
    as [[[text | e] [events1 lines1]] this1]; [| discriminate H].
  cbn in Hev. destruct Hev as (F & _ & _).
  pose proof (dependenciesSummary_events env (swcLoaded w) (baseOf options)
                                         (Swc.extractImports text) this1
                                         (extractImports_NoDup text)) as Hdeps.
  pose proof (dependenciesSummary_cache env (swcLoaded w) (baseOf options)
                                        (Swc.extractImports text) this1) as (_ & Hkeep & _).
  destruct (dependenciesSummary env (swcLoaded w) (baseOf options)
                                (Swc.extractImports text) this1)
    as [[events2 lines2] this2].
  cbn in Hdeps, Hkeep. destruct Hdeps as (_ & _ & D3 & _).
  cbn [replay] in H. injection H as _ <- <-.
  exists (events1 ++ events2), text.
  split; [reflexivity |]. split; [exact (Hkeep _ _ Hout) |].
  intros p Hp. rewrite fetched_app in Hp. apply in_app_or in Hp as [Hp | Hp].
  - left. destruct F as [F | [F _]]; rewrite F in Hp; [destruct Hp |].
    destruct Hp as [<- | []]. reflexivity.
  - right. exact (proj1 (D3 _ Hp)).
Qed.

(** ** What a build of [EsbuildRunner] does to the page *)

Lemma esbuild_onLoad_cases env base p w this :
  match OMap.get (Esbuild.fileCache this) p with
  | Some data =>
      Esbuild.onLoad env base p (w, this)
      = (Ok (Esbuild.Loaded (contents data) (loader data)), (w, this))
  | None =>
      match Esbuild.fetchSourceFile env p base with
      | Ok data =>
          Esbuild.onLoad env base p (w, this)
          = (Ok (Esbuild.Loaded (contents data) (loader data)),
             (logged w [Fetch p base] [(LogLevel, ("[esbuild] Loaded: " ++ p)%string)],
              {| Esbuild.fileCache := OMap.set (Esbuild.fileCache this) p data |}))
      | Throw e =>
          Esbuild.onLoad env base p (w, this)
          = (Ok (Esbuild.LoadErrors [Esbuild.mkDiagnostic (message e)]),
             (logged w [Fetch p base] [], this))
      end
  end.
Proof.
  unfold Esbuild.onLoad. run_method.
  destruct (OMap.get (Esbuild.fileCache this) p) as [data |]; [reflexivity |].
  destruct (Esbuild.fetchSourceFile env p base) as [data | e]; cbn;
    destruct w; unfold logged, setConsole, setTrace; cbn;
    rewrite ?app_nil_r; reflexivity.
Qed.

(** a build adds to the trace and to the console and leaves the rest
    of the page alone *)
Lemma runEngine_logged env base engine w this :
  exists events lines,
    fst (snd (Esbuild.runEngine engine (Esbuild.createVirtualFsPlugin env base) (w, this)))
    = logged w events lines.
Proof.
  revert w this. induction engine as [outcome | args next IH | p next IH]; intros w this.
  - exists [], []. rewrite logged_nil. destruct outcome; reflexivity.
  - cbn. apply IH.
  - cbn [Esbuild.runEngine]. unfold bind.
    change (Esbuild.loadHook (Esbuild.createVirtualFsPlugin env base) p)
      with (Esbuild.onLoad env base p).
    pose proof (esbuild_onLoad_cases env base p w this) as Hload.
    destruct (OMap.get (Esbuild.fileCache this) p) as [data |].
    + rewrite Hload. apply IH.
    + destruct (Esbuild.fetchSourceFile env p base) as [data | e]; rewrite Hload.
      * destruct (IH (Esbuild.Loaded (contents data) (loader data))
                     (logged w [Fetch p base] [(LogLevel, ("[esbuild] Loaded: " ++ p)%string)])
                     {| Esbuild.fileCache := OMap.set (Esbuild.fileCache this) p data |})
          as (events & lines & ->).
        eexists. eexists. apply logged_logged.
      * destruct (IH (Esbuild.LoadErrors [Esbuild.mkDiagnostic (message e)])
                     (logged w [Fetch p base] []) this)
          as (events & lines & ->).
        eexists. eexists. apply logged_logged.
Qed.

Lemma hostRoot_logged w events lines : hostRoot (logged w events lines) = hostRoot w.
Proof. reflexivity. Qed.

Lemma esbuild_compileBody_unfold env options w this :
  Esbuild.compileBody env options (w, this)
  = finishBuild
      (Esbuild.runEngine
         (Esbuild.build env (buildOptionsOf options))
         (Esbuild.createVirtualFsPlugin env (baseOf options))
         (logged w [Build (entryOf options)]
                 [(LogLevel, ("[esbuild] Building: " ++ entryOf options)%string)],
          esbuildCleared (clearOf options) this)).
Proof.
  unfold Esbuild.compileBody.
  fold (clearOf options). fold (baseOf options). fold (entryOf options).
  change (Esbuild.mkBuildOptions _ _ _ _ _ _ _ _ _ _) with (buildOptionsOf options).
  assert (Hclear :
            (if clearOf options
             then modifyThis (fun this0 : Esbuild.Runner =>
                                {| Esbuild.fileCache := OMap.clear (Esbuild.fileCache this0) |})
             else ret tt) (w, this)
            = (Ok tt, (w, esbuildCleared (clearOf options) this))).
  { destruct (clearOf options); reflexivity. }
  unfold bind at 1. rewrite Hclear.
  unfold bind at 1. rewrite consoleLog_world.
  unfold tryCatch. unfold bind at 1. unfold emit, modifyWorld. cbn [fst snd].
  unfold bind at 1.
  replace (setTrace
             (setConsole w (console w ++ [(LogLevel, ("[esbuild] Building: " ++ entryOf options)%string)]))
             (trace
                (setConsole w
                            (console w ++ [(LogLevel, ("[esbuild] Building: " ++ entryOf options)%string)]))
                ++ [Build (entryOf options)]))
    with (logged w [Build (entryOf options)]
                 [(LogLevel, ("[esbuild] Building: " ++ entryOf options)%string)])
    by (destruct w; reflexivity).
  destruct (Esbuild.runEngine _ _ _) as [[result | e] [w1 this1]]; unfold finishBuild.
  - destruct (Esbuild.errors result) as [| d ds].
    + destruct (Esbuild.outputFiles result) as [| bundledCode files]; run_method;
        destruct w1; unfold logged, esbuildErrorLine, setConsole, setTrace; cbn;
        rewrite ?app_nil_r; reflexivity.
    + run_method. destruct w1; unfold logged, esbuildErrorLine, setConsole, setTrace; cbn.
      rewrite ?app_nil_r, <- ?app_assoc. reflexivity.
  - run_method. destruct w1; unfold logged, esbuildErrorLine, setConsole, setTrace; cbn.
    rewrite ?app_nil_r. reflexivity.
Qed.

Lemma finishBuild_hostRoot built :
  hostRoot (fst (snd (finishBuild built))) = hostRoot (fst (snd built)).
Proof.
  destruct built as [[result | e] [w this]]; cbn; [| reflexivity].
  destruct (Esbuild.errors result); [| reflexivity].
  destruct (Esbuild.outputFiles result); reflexivity.
Qed.

Lemma esbuild_compile_hostRoot env options w this :
  hostRoot (fst (snd (Esbuild.compile env options (w, this)))) = hostRoot w.
Proof.
  destruct (esbuildInitialized w) eqn:Hinit.
  - rewrite (esbuild_compile_ready _ _ _ _ Hinit), esbuild_compileBody_unfold,
      finishBuild_hostRoot.
    destruct (runEngine_logged env (baseOf options)
                               (Esbuild.build env (buildOptionsOf options))
                               (logged w [Build (entryOf options)]
                                       [(LogLevel, ("[esbuild] Building: " ++ entryOf options)%string)])
                               (esbuildCleared (clearOf options) this))
      as (events & lines & ->).
    reflexivity.
  - rewrite (esbuild_compile_not_ready _ _ _ _ Hinit). reflexivity.
Qed.

Lemma swc_compile_hostRoot env options w this :
  hostRoot (fst (snd (Swc.compile env options (w, this)))) = hostRoot w.
Proof.
  destruct (swcInitialized w) eqn:Hinit.
  - rewrite (swc_compile_ready _ _ _ _ Hinit), compileBody_summary.
    destruct (compileSummary env (swcLoaded w) options this) as [[r [events lines]] this1].
    reflexivity.
  - rewrite (swc_compile_not_ready _ _ _ _ Hinit). reflexivity.
Qed.

(** the steps of [compileAndRun] after [compile]: a frame with the
    three capabilities when they go through, an untouched root element
    when they throw *)
Lemma runInIframe_outcome {I} script (w : World) (i : I) :
  match runInIframe script (w, i) with
  | (Ok _, (w', _)) =>
      exists frame, hostRoot w' = Some [frame] /\ sandbox frame = grantedCapabilities
  | (Throw _, (w', _)) => hostRoot w' = hostRoot w
  end.
Proof.
  destruct (runInIframe script (w, i)) as [[[] | e] [w' i']] eqn:E.
  - destruct (runInIframe_frame _ _ _ _ _ E) as (frame & H1 & H2 & _).
    exists frame. split; assumption.
  - revert E. unfold runInIframe. run_method.
    destruct (hostRoot w) eqn:Hroot; cbn; intros E; [discriminate E |].
    injection E as _ <- _. exact Hroot.
Qed.

(** ** C1: the capabilities of the frame *)

Lemma swc_compileAndRun_outcome env options w this :
  match Swc.compileAndRun env options (w, this) with
  | (Ok _, (w', _)) =>
      exists frame, hostRoot w' = Some [frame] /\ sandbox frame = grantedCapabilities
  | (Throw _, (w', _)) => hostRoot w' = hostRoot w
  end.
Proof.
  pose proof (swc_compile_hostRoot env options w this) as Hcompile.
  unfold Swc.compileAndRun. unfold bind at 1.
  destruct (Swc.compile env options (w, this)) as [[result | e] [w1 this1]];
    cbn [fst snd] in Hcompile; [| exact Hcompile].
  unfold bind at 1.
  pose proof (runInIframe_outcome
                (Str.join Str.nl (Swc.bundledCodeLines (Swc.moduleMap result)
                                                       (Swc.resultEntryPoint result)))
                w1 this1) as Hrun.
  destruct (runInIframe _ (w1, this1)) as [[[] | e] [w2 this2]].
  - exact Hrun.
  - rewrite Hrun. exact Hcompile.
Qed.

Lemma esbuild_compileAndRun_outcome env options w this :
  match Esbuild.compileAndRun env options (w, this) with
  | (Ok _, (w', _)) =>
      exists frame, hostRoot w' = Some [frame] /\ sandbox frame = grantedCapabilities
  | (Throw _, (w', _)) => hostRoot w' = hostRoot w
  end.
Proof.
  pose proof (esbuild_compile_hostRoot env options w this) as Hcompile.
  unfold Esbuild.compileAndRun. unfold bind at 1.
  destruct (Esbuild.compile env options (w, this)) as [[result | e] [w1 this1]];
    cbn [fst snd] in Hcompile; [| exact Hcompile].
  unfold bind at 1.
  pose proof (runInIframe_outcome (Esbuild.code result) w1 this1) as Hrun.
  destruct (runInIframe _ (w1, this1)) as [[[] | e] [w2 this2]].
  - exact Hrun.
  - rewrite Hrun. exact Hcompile.
Qed.

(** C1. Every [compileAndRun], on either backend, ends in one of two
    ways.  It resolves, and then the root element of the page holds
    exactly one frame, whose sandbox attribute carries exactly the
    tokens allow-scripts, allow-popups and allow-forms, so
    allow-same-origin is not among them; or it throws, and then the
    root element and the frames in it are as they were before the
    call. *)
Theorem C1_sandbox_capabilities
        (b : Backend) (options : Options) (w w' : World) (outcome : Result string) :
  compileAndRunOn b options w = (outcome, w') ->
  match outcome with
  | Ok _ =>
      exists frame,
        hostRoot w' = Some [frame]
        /\ sandbox frame = ["allow-scripts"; "allow-popups"; "allow-forms"]
        /\ ~ In "allow-same-origin" (sandbox frame)
  | Throw _ => hostRoot w' = hostRoot w
  end.
Proof.
  intros H.
  assert (Hout : match outcome with
                 | Ok _ => exists frame, hostRoot w' = Some [frame]
                                         /\ sandbox frame = grantedCapabilities
                 | Throw _ => hostRoot w' = hostRoot w
                 end).
  { destruct b as [env this | env this]; cbn in H.
    - pose proof (swc_compileAndRun_outcome env options w this) as Hrun.
      destruct (Swc.compileAndRun env options (w, this)) as [out [w1 this1]].
      injection H as <- <-. exact Hrun.
    - pose proof (esbuild_compileAndRun_outcome env options w this) as Hrun.
      destruct (Esbuild.compileAndRun env options (w, this)) as [out [w1 this1]].
      injection H as <- <-. exact Hrun. }
  destruct outcome as [out | e]; [| exact Hout].
  destruct Hout as (frame & Hroot & Hsb).
  exists frame. split; [exact Hroot |]. split; [exact Hsb |].
  rewrite Hsb. cbn. intros [H1 | [H1 | [H1 | []]]]; discriminate H1.
Qed.

Lemma C1_sandbox_capabilities_witness :
  (exists frame,
      hostRoot swcPageRun = Some [frame]
      /\ sandbox frame = ["allow-scripts"; "allow-popups"; "allow-forms"]
      /\ ~ In "allow-same-origin" (sandbox frame))
  /\ (exists frame,
         hostRoot esbuildPageRun = Some [frame]
         /\ sandbox frame = ["allow-scripts"; "allow-popups"; "allow-forms"]
         /\ ~ In "allow-same-origin" (sandbox frame))
  /\ hostRoot (snd (compileAndRunOn
                      (SwcBackend (Playground.swcEnv []) (snd swcPageReady))
                      noOptions swcPageRun))
     = hostRoot swcPageRun.
Proof.
  split; [| split].
  - apply (C1_sandbox_capabilities
             (SwcBackend (Playground.swcEnv Playground.hello) (snd swcPageReady))
             noOptions (fst swcPageReady) swcPageRun
             (Ok "exports.default = function App(){}")).
    vm_compute. reflexivity.
  - apply (C1_sandbox_capabilities
             (EsbuildBackend (Playground.esbuildEnv Playground.hello) (snd esbuildPageReady))
             noOptions (fst esbuildPageReady) esbuildPageRun
             (Ok "export default function App(){}")).
    vm_compute. reflexivity.
  - apply (C1_sandbox_capabilities
             (SwcBackend (Playground.swcEnv []) (snd swcPageReady))
             noOptions swcPageRun _ (Throw (notFound "@/entry"))).
    vm_compute. reflexivity.
Defined.

(** ** A second build of [EsbuildRunner] *)

Lemma runEngine_keeps env base engine w this :
  forall p data,
    OMap.get (Esbuild.fileCache this) p = Some data ->
    OMap.get (Esbuild.fileCache
                (snd (snd (Esbuild.runEngine engine (Esbuild.createVirtualFsPlugin env base)
                                             (w, this)))))
             p = Some data.
Proof.
  revert w this. induction engine as [outcome | args next IH | q next IH];
    intros w this p data Hp.
  - destruct outcome; exact Hp.
  - cbn. apply IH, Hp.
  - cbn [Esbuild.runEngine]. unfold bind.
    change (Esbuild.loadHook (Esbuild.createVirtualFsPlugin env base) q)
      with (Esbuild.onLoad env base q).
    pose proof (esbuild_onLoad_cases env base q w this) as Hload.
    destruct (OMap.get (Esbuild.fileCache this) q) as [cached |] eqn:Hq.
    + rewrite Hload. apply IH, Hp.
    + destruct (Esbuild.fetchSourceFile env q base) as [fresh | e]; rewrite Hload.
      * apply IH. cbn. rewrite get_set_other; [exact Hp |].
        intros ->. rewrite Hq in Hp. discriminate Hp.
      * apply IH, Hp.
Qed.

(** a build all of whose fetches succeeded, run once more on a cache
    that has kept what the first run left: the same questions, the
    same answers, the same outcome, and nothing is fetched or printed *)
Lemma runEngine_again env base engine :
  forall w this outcome w1 this1,
    Esbuild.runEngine engine (Esbuild.createVirtualFsPlugin env base) (w, this)
    = (outcome, (w1, this1)) ->
    (forall events, trace w1 = trace w ++ events ->
                    forall p, In p (fetched events) ->
                              isOk (Esbuild.fetchSourceFile env p base) = true) ->
    forall w' this',
      (forall p data, OMap.get (Esbuild.fileCache this1) p = Some data ->
                      OMap.get (Esbuild.fileCache this') p = Some data) ->
      Esbuild.runEngine engine (Esbuild.createVirtualFsPlugin env base) (w', this')
      = (outcome, (w', this')).
Proof.
  induction engine as [outcome0 | args next IH | q next IH];
    intros w this outcome w1 this1 Hrun Hfetch w' this' Hkept.
  - destruct outcome0; cbn in Hrun |- *; injection Hrun as <- _ _; reflexivity.
  - cbn in Hrun |- *. exact (IH _ _ _ _ _ _ Hrun Hfetch _ _ Hkept).
  - cbn [Esbuild.runEngine] in Hrun |- *. unfold bind in Hrun |- *.
    change (Esbuild.loadHook (Esbuild.createVirtualFsPlugin env base) q)
      with (Esbuild.onLoad env base q) in Hrun |- *.
    pose proof (esbuild_onLoad_cases env base q w this) as Hload.
    assert (Hhit : forall data,
               OMap.get (Esbuild.fileCache this1) q = Some data ->
               Esbuild.onLoad env base q (w', this')
               = (Ok (Esbuild.Loaded (contents data) (loader data)), (w', this'))).
    { intros data Hq. apply esbuild_onLoad_hit, Hkept, Hq. }
    destruct (OMap.get (Esbuild.fileCache this) q) as [cached |] eqn:Hq.
    + rewrite Hload in Hrun.
      assert (Hend : OMap.get (Esbuild.fileCache this1) q = Some cached).
      { pose proof (runEngine_keeps env base
                                    (next (Esbuild.Loaded (contents cached) (loader cached)))
                                    w this q cached Hq) as Hk.
        rewrite Hrun in Hk. exact Hk. }
      rewrite (Hhit _ Hend). exact (IH _ _ _ _ _ _ Hrun Hfetch _ _ Hkept).
    + destruct (Esbuild.fetchSourceFile env q base) as [fresh | e] eqn:Hf;
        rewrite Hload in Hrun.
      * assert (Hend : OMap.get (Esbuild.fileCache this1) q = Some fresh).
        { pose proof (runEngine_keeps
                        env base (next (Esbuild.Loaded (contents fresh) (loader fresh)))
                        (logged w [Fetch q base]
                                [(LogLevel, ("[esbuild] Loaded: " ++ q)%string)])
                        {| Esbuild.fileCache := OMap.set (Esbuild.fileCache this) q fresh |}
                        q fresh (get_set_same _ _ _)) as Hk.
          rewrite Hrun in Hk. exact Hk. }
        rewrite (Hhit _ Hend). apply (IH _ _ _ _ _ _ Hrun); [| exact Hkept].
        intros events Hevents p Hp. apply (Hfetch ([Fetch q base] ++ events)).
        -- rewrite Hevents. cbn. rewrite <- app_assoc. reflexivity.
        -- right. exact Hp.
      * exfalso.
        destruct (runEngine_logged env base
                                   (next (Esbuild.LoadErrors [Esbuild.mkDiagnostic (message e)]))
                                   (logged w [Fetch q base] []) this)
          as (events & lines & Hlogged).
        rewrite Hrun in Hlogged. cbn [fst snd] in Hlogged.
        assert (Hq' : isOk (Esbuild.fetchSourceFile env q base) = true).
        { apply (Hfetch ([Fetch q base] ++ events)).
          - rewrite Hlogged. cbn. rewrite <- app_assoc. reflexivity.
          - left. reflexivity. }
        rewrite Hf in Hq'. discriminate Hq'.
Qed.

Lemma esbuild_compile_Ok_initialized env options w this result s' :
  Esbuild.compile env options (w, this) = (Ok result, s') -> esbuildInitialized w = true.
Proof.
  destruct (esbuildInitialized w) eqn:E; [reflexivity |].
  rewrite (esbuild_compile_not_ready _ _ _ _ E). intros H. discriminate H.
Qed.

Lemma esbuild_second_compile env options again w w1 this this1 result :
  Esbuild.compile env options (w, this) = (Ok result, (w1, this1)) ->
  buildOptionsOf again = buildOptionsOf options ->
  baseOf again = baseOf options ->
  clearOf again = false ->
  (forall events, trace w1 = trace w ++ events ->
                  forall p, In p (fetched events) ->
                            isOk (Esbuild.fetchSourceFile env p (baseOf options)) = true) ->
  exists w2,
    Esbuild.compile env again (w1, this1) = (Ok result, (w2, this1))
    /\ fetched (trace w2) = fetched (trace w1).
Proof.
  intros H Hopts Hbase Hclear Hfetch.
  pose proof (esbuild_compile_Ok_initialized _ _ _ _ _ _ H) as Hinit.
  rewrite (esbuild_compile_ready _ _ _ _ Hinit), esbuild_compileBody_unfold in H.
  set (w0 := logged w [Build (entryOf options)]
                    [(LogLevel, ("[esbuild] Building: " ++ entryOf options)%string)]) in H.
  destruct (runEngine_logged env (baseOf options) (Esbuild.build env (buildOptionsOf options))
                             w0 (esbuildCleared (clearOf options) this))
    as (events & lines & Hlogged).
  destruct (Esbuild.runEngine (Esbuild.build env (buildOptionsOf options))
                              (Esbuild.createVirtualFsPlugin env (baseOf options))
                              (w0, esbuildCleared (clearOf options) this))
    as [[built | e] [wa thisa]] eqn:Hrun; [| discriminate H].
  cbn [fst snd] in Hlogged.
  assert (Hw1 : trace w1 = trace wa /\ esbuildInitialized w1 = esbuildInitialized wa
                /\ this1 = thisa).
  { unfold finishBuild in H. destruct (Esbuild.errors built); [| discriminate H].
    destruct (Esbuild.outputFiles built); [discriminate H |].
    injection H as _ <- <-. cbn. rewrite app_nil_r. repeat split; reflexivity. }
  destruct Hw1 as (Htrace & Hflag & ->).
  assert (Hinit1 : esbuildInitialized w1 = true).
  { rewrite Hflag, Hlogged. exact Hinit. }
  pose proof (runEngine_again env (baseOf options) _ _ _ _ _ _ Hrun) as Hagain.
  rewrite (esbuild_compile_ready _ _ _ _ Hinit1), esbuild_compileBody_unfold.
  rewrite Hopts, Hbase, Hclear. cbn [esbuildCleared].
  rewrite Hagain.
  - unfold finishBuild in H |- *. destruct (Esbuild.errors built); [| discriminate H].
    destruct (Esbuild.outputFiles built); [discriminate H |].
    injection H as <- _. eexists. split; [reflexivity |].
    cbn. rewrite app_nil_r, fetched_app. cbn. rewrite app_nil_r. reflexivity.
  - intros events' Hevents p Hp.
    apply (Hfetch ([Build (entryOf options)] ++ events')).
    + rewrite Htrace, Hevents. unfold w0. cbn. rewrite <- app_assoc. reflexivity.
    + exact Hp.
  - intros p data Hp. exact Hp.
Qed.

(** ** C9: what the caches save, for both classes *)

(** C9, as the code has it. After a compile of a [SwcRunner] that
    resolved and left every specifier found in the entry in the cache
    of transformed files, a second compile of the same entry with
    [clearCache] false or absent resolves to the same result and adds
    nothing to the trace: it fetches nothing.  After a compile of an
    [EsbuildRunner] that resolved and all of whose fetches succeeded, a
    second compile with the same options and [clearCache] false or
    absent resolves to the same result and fetches nothing.  (A path
    whose load failed is not in the cache and is fetched again.)
    Without the flag every text in the cache of transformed files and
    every path in the file cache of a [SwcRunner] is still there after
    a compile, the load callback of an [EsbuildRunner] answers a path
    of the file cache from the cache, and a load that succeeds leaves
    its path in the cache and removes none.  With the flag a compile
    on an initialized page runs as on a new instance, in both
    classes. *)
Theorem C9_caches_persist_until_cleared :
  (forall env options again w w1 this this1 result,
      Swc.compile env options (w, this) = (Ok result, (w1, this1)) ->
      entryOf again = entryOf options ->
      clearOf again = false ->
      (forall text,
          OMap.get (Swc.transformedFiles this1) (entryOf options) = Some text ->
          forall d, In d (Swc.extractImports text) ->
                    OMap.has (Swc.transformedFiles this1) d = true) ->
      exists w2,
        Swc.compile env again (w1, this1) = (Ok result, (w2, this1))
        /\ trace w2 = trace w1)
  /\ (forall env options again w w1 this this1 result,
         Esbuild.compile env options (w, this) = (Ok result, (w1, this1)) ->
         buildOptionsOf again = buildOptionsOf options ->
         baseOf again = baseOf options ->
         clearOf again = false ->
         (forall events,
             trace w1 = trace w ++ events ->
             forall p, In p (fetched events) ->
                       isOk (Esbuild.fetchSourceFile env p (baseOf options)) = true) ->
         exists w2,
           Esbuild.compile env again (w1, this1) = (Ok result, (w2, this1))
           /\ fetched (trace w2) = fetched (trace w1))
  /\ (forall env options w w1 this this1 outcome,
         clearOf options = false ->
         Swc.compile env options (w, this) = (outcome, (w1, this1)) ->
         (forall p text, OMap.get (Swc.transformedFiles this) p = Some text ->
                         OMap.get (Swc.transformedFiles this1) p = Some text)
         /\ (forall p, OMap.has (Swc.fileCache this) p = true ->
                       OMap.has (Swc.fileCache this1) p = true))
  /\ (forall env base p w this data,
         OMap.get (Esbuild.fileCache this) p = Some data ->
         Esbuild.onLoad env base p (w, this)
         = (Ok (Esbuild.Loaded (contents data) (loader data)), (w, this)))
  /\ (forall env base p w this text kind w' this',
         Esbuild.onLoad env base p (w, this) = (Ok (Esbuild.Loaded text kind), (w', this')) ->
         OMap.has (Esbuild.fileCache this') p = true
         /\ forall q, OMap.has (Esbuild.fileCache this) q = true ->
                      OMap.has (Esbuild.fileCache this') q = true)
  /\ (forall env options w this,
         swcInitialized w = true ->
         clearOf options = true ->
         Swc.compile env options (w, this) = Swc.compile env options (w, Swc.new))
  /\ (forall env options w this,
         esbuildInitialized w = true ->
         clearOf options = true ->
         Esbuild.compile env options (w, this)
         = Esbuild.compile env options (w, Esbuild.new)).
Proof.
  split; [exact swc_second_compile |].
  split; [exact esbuild_second_compile |].
  split; [exact swc_cache_persists |].
  split; [exact esbuild_onLoad_hit |].
  split; [exact esbuild_onLoad_caches |].
  split; [exact swc_clearCache_evicts | exact esbuild_clearCache_evicts].
Qed.

Lemma C9_caches_persist_until_cleared_witness :
  (isOk (fst chainOnce) = true
   /\ exists w2,
       Swc.compile (Playground.swcEnv Playground.chain) keepCache (snd chainOnce)
       = (fst chainOnce, (w2, snd (snd chainOnce)))
       /\ trace w2 = trace (fst (snd chainOnce)))
  /\ (isOk (fst esbuildOnce) = true
      /\ exists w2,
          Esbuild.compile (Playground.esbuildEnv Playground.hello) keepCache (snd esbuildOnce)
          = (fst esbuildOnce, (w2, snd (snd esbuildOnce)))
          /\ fetched (trace w2) = fetched (trace (fst (snd esbuildOnce))))
  /\ Swc.compile (Playground.swcEnv Playground.chain) clearFirst (snd chainOnce)
     = Swc.compile (Playground.swcEnv Playground.chain) clearFirst
                   (fst (snd chainOnce), Swc.new).
Proof.
  split; [| split].
  - split; [reflexivity |].
    apply (proj1 C9_caches_persist_until_cleared
                 (Playground.swcEnv Playground.chain) keepCache keepCache
                 (fst swcPageReady) (fst (snd chainOnce))
                 (snd swcPageReady) (snd (snd chainOnce))).
    + vm_compute. reflexivity.
    + reflexivity.
    + reflexivity.
    + intros text Htext d Hd. vm_compute in Htext. injection Htext as <-.
      vm_compute in Hd. destruct Hd as [<- | []]. vm_compute. reflexivity.
  - split; [reflexivity |].
    apply (proj1 (proj2 C9_caches_persist_until_cleared)
                 (Playground.esbuildEnv Playground.hello) keepCache keepCache
                 (fst esbuildPageReady) (fst (snd esbuildOnce))
                 (snd esbuildPageReady) (snd (snd esbuildOnce))).
    + vm_compute. reflexivity.
    + reflexivity.
    + reflexivity.
    + reflexivity.
    + intros events Hevents p Hp.
      apply (app_inv_head (trace (fst esbuildPageReady))
                          [Build "@/entry"; Fetch "@/entry" "/src"] events) in Hevents.
      subst events. destruct Hp as [<- | []]. reflexivity.
  - apply (proj1 (proj2 (proj2 (proj2 (proj2 (proj2 C9_caches_persist_until_cleared)))))
                 (Playground.swcEnv Playground.chain) clearFirst
                 (fst (snd chainOnce)) (snd (snd chainOnce))); reflexivity.
Defined.


(** * Further properties of the code *)

(** ** Prefixes *)

Lemma startsWith_prefix (s a b : string) :
  Str.startsWith s (a ++ b) = true -> Str.startsWith s a = true.
Proof.
  revert s. induction a as [| x a IH]; intros s; [reflexivity |].
  destruct s as [| y s]; cbn; [discriminate |].
  destruct (Ascii.eqb x y); [apply IH | discriminate].
Qed.

Lemma startsWith_eq (s p : string) :
  Str.startsWith s p = true -> s = (p ++ Str.slice (String.length p) s)%string.
Proof.
  revert s. induction p as [| x p IH]; intros s; [reflexivity |].
  destruct s as [| y s]; cbn; [discriminate |].
  destruct (Ascii.eqb_spec x y) as [<- |]; [| discriminate].
  intros H. rewrite <- (IH _ H). reflexivity.
Qed.

Lemma isExternal_true_inv (path : string) :
  isExternal path = true ->
  path = "react" \/ path = "react-dom"
  \/ Str.startsWith path "react/" = true
  \/ Str.startsWith path "react-dom/" = true.
Proof.
  unfold isExternal, Str.some, externals. cbn [existsb append].
  intros H.
  repeat (apply orb_prop in H as [H | H]); try discriminate H.
  - left. apply String.eqb_eq, H.
  - right. right. left. exact H.
  - right. left. apply String.eqb_eq, H.
  - right. right. right. exact H.
  - apply String.eqb_eq in H. subst path. right. right. left. reflexivity.
  - right. right. left. exact (startsWith_prefix path "react/" "jsx-runtime/" H).
  - apply String.eqb_eq in H. subst path. right. right. right. reflexivity.
  - right. right. right. exact (startsWith_prefix path "react-dom/" "client/" H).
Qed.

(** X1. [isExternal] accepts exactly the specifiers [react] and
    [react-dom] and every specifier that begins with [react/] or with
    [react-dom/]: the entries [react/jsx-runtime] and [react-dom/client]
    of its list add nothing to the other two. *)
Theorem isExternal_is_react_or_react_dom (path : string) :
  isExternal path = true
  <-> path = "react" \/ path = "react-dom"
      \/ Str.startsWith path "react/" = true
      \/ Str.startsWith path "react-dom/" = true.
Proof.
  split; [apply isExternal_true_inv |].
  unfold isExternal, Str.some, externals. cbn [existsb append].
  intros [-> | [-> | [H | H]]]; [reflexivity | reflexivity | |]; rewrite H;
    rewrite ?orb_true_r; reflexivity.
Qed.

(** ** What a repetition has taken when the match succeeds *)

Lemma star_inv {R} (k : cclass) (s : string) (cont : string -> option R) (v : R) :
  Re.star (in_class k) s cont = Some v ->
  exists run rest, s = (run ++ rest)%string /\ allIn k run = true /\ cont rest = Some v.
Proof.
  induction s as [| c s IH]; cbn.
  - intros H. exists EmptyString, EmptyString. repeat split. exact H.
  - destruct (in_class k c) eqn:Hc.
    + destruct (Re.star (in_class k) s cont) as [r |] eqn:Hs.
      * intros H. injection H as ->.
        destruct (IH eq_refl) as (run & rest & -> & Hrun & Hrest).
        exists (String c run), rest. cbn. rewrite Hc, Hrun. repeat split. exact Hrest.
      * intros H. exists EmptyString, (String c s). repeat split. exact H.
    + intros H. exists EmptyString, (String c s). repeat split. exact H.
Qed.

Lemma plus_inv {R} (k : cclass) (s : string) (cont : string -> option R) (v : R) :
  Re.plus (in_class k) s cont = Some v ->
  exists run rest, s = (run ++ rest)%string /\ run <> EmptyString
                   /\ allIn k run = true /\ cont rest = Some v.
Proof.
  unfold Re.plus. destruct s as [| c s]; [discriminate |].
  destruct (in_class k c) eqn:Hc; [| discriminate].
  intros H. destruct (star_inv _ _ _ _ H) as (run & rest & -> & Hrun & Hrest).
  exists (String c run), rest. cbn. rewrite Hc, Hrun.
  repeat split; [discriminate | exact Hrest].
Qed.

(** the specifier a match of the import pattern captures *)
Lemma importRegex_capture (t : string) (m : found) :
  Re.exec_at Swc.importRegex t = Some m ->
  exists x, x <> EmptyString /\ allIn notQuote x = true
            /\ groups m = [("@/" ++ x)%string].
Proof.
  unfold Re.exec_at, Swc.importRegex.
  rewrite rmatch_Cat. cbn [Re.rmatch].
  destruct (Str.startsWith t "from"); [| discriminate].
  intros H. apply plus_inv in H as (sp & s1 & _ & _ & _ & H).
  unfold quote in H.
  destruct s1 as [| q s2]; [discriminate H |].
  cbn [Re.rmatch] in H.
  destruct (existsb (Ascii.eqb q) [ascii_of_nat 34; ascii_of_nat 39]); [| discriminate H].
  destruct (Str.startsWith s2 "@/") eqn:Halias; [| discriminate H].
  apply plus_inv in H as (x & rest & Hs3 & Hne & Hx & H).
  pose proof (startsWith_eq _ _ Halias) as Hs2. rewrite Hs3 in Hs2.
  change (String.length "@/") with 2 in *.
  destruct rest as [| q' rest']; [discriminate H |].
  cbn [Re.rmatch] in H.
  destruct (existsb (Ascii.eqb q') [ascii_of_nat 34; ascii_of_nat 39]); [| discriminate H].
  injection H as <-. cbn [groups app].
  exists x. split; [exact Hne |]. split; [exact Hx |].
  f_equal. rewrite Hs2.
  replace ("@/" ++ x ++ String q' rest')%string with (("@/" ++ x) ++ String q' rest')%string
    by (rewrite append_assoc; reflexivity).
  apply take_matched.
Qed.

Lemma matches_go_sound (r : regex) (m : found) (s : string) :
  forall skip, In m (Re.matches_go r skip s) -> exists t, Re.exec_at r t = Some m.
Proof.
  induction s as [| c s IH]; intros skip; cbn; [intros [] |].
  destruct skip as [| n]; [| apply IH].
  destruct (Re.exec_at r (String c s)) as [m0 |] eqn:E; [| apply IH].
  intros [<- | H]; [exists (String c s); exact E | exact (IH _ H)].
Qed.

(** X2. Whatever the text, [extractImports] returns no specifier twice,
    and every specifier it returns is alias-rooted: it begins with
    [@/], goes on with at least one character and holds no quote
    character.  Packages and relative paths are never among them. *)
Theorem extractImports_finds_alias_specifiers_once (code : string) :
  NoDup (Swc.extractImports code)
  /\ forall p, In p (Swc.extractImports code) ->
               exists x, p = ("@/" ++ x)%string /\ x <> EmptyString
                         /\ allIn notQuote x = true.
Proof.
  split; [apply extractImports_NoDup |].
  intros p Hp. unfold Swc.extractImports, Str.dedup in Hp.
  apply (proj2 (dedupFrom_spec [] _)) in Hp as [Hp _].
  apply in_map_iff in Hp as (m & <- & Hm).
  apply matches_go_sound in Hm as (t & Ht).
  destruct (importRegex_capture _ _ Ht) as (x & Hne & Hx & Hg).
  exists x. unfold Re.group. rewrite Hg. repeat split; assumption.
Qed.

(** ** Where a word cannot occur *)

Lemma startsWith_barrier (word a b : string) (c : ascii) :
  mentions (String c EmptyString) word = false ->
  Str.startsWith (a ++ String c b) word = Str.startsWith a word.
Proof.
  revert a. induction word as [| y word IH]; intros a Hc; [reflexivity |].
  cbn in Hc. apply orb_false_elim in Hc as [Hy Hword].
  destruct a as [| x a]; cbn.
  - destruct (Ascii.eqb_spec y c) as [-> |]; [| reflexivity].
    rewrite Ascii.eqb_refl in Hy. discriminate Hy.
  - destruct (Ascii.eqb y x); [apply IH, Hword | reflexivity].
Qed.

Lemma mentions_empty_word (s : string) : mentions EmptyString s = true.
Proof. destruct s; reflexivity. Qed.

(** a character that is not in the word separates the places where the
    word can occur *)
Lemma mentions_barrier (word a b : string) (c : ascii) :
  mentions (String c EmptyString) word = false ->
  mentions word (a ++ String c b) = mentions word a || mentions word b.
Proof.
  intros Hc. induction a as [| x a IH].
  - cbn [append]. cbn [mentions].
    destruct word as [| y word]; [rewrite mentions_empty_word; reflexivity |].
    cbn in Hc. apply orb_false_elim in Hc as [Hy _].
    cbn [Str.startsWith].
    destruct (Ascii.eqb_spec y c) as [-> |]; [| reflexivity].
    rewrite Ascii.eqb_refl in Hy. discriminate Hy.
  - cbn [append mentions].
    change (String x (a ++ String c b)) with (String x a ++ String c b)%string.
    rewrite (startsWith_barrier _ _ _ _ Hc), IH, orb_assoc. reflexivity.
Qed.

Lemma mentions_later (word a b : string) :
  mentions word (a ++ b) = false -> mentions word b = false.
Proof.
  induction a as [| x a IH]; [tauto |].
  cbn [append mentions]. intros H. apply orb_false_elim in H as [_ H]. exact (IH H).
Qed.

Lemma plain_import (s : string) : plain s = true -> mentions "import" s = false.
Proof.
  unfold plain. intros H. apply andb_prop in H as [H _]. apply negb_true_iff, H.
Qed.

Lemma plain_export (s : string) : plain s = true -> mentions "export" s = false.
Proof.
  unfold plain. intros H. apply andb_prop in H as [_ H]. apply negb_true_iff, H.
Qed.

(** the path of an alias mentions no more than the specifier does *)
Lemma mentions_resolveAlias (word p : string) :
  mentions "/" word = false ->
  mentions "." word = false ->
  mentions word "src" = false ->
  mentions word "js" = false ->
  mentions word EmptyString = false ->
  mentions word p = false ->
  mentions word (Swc.resolveAlias p) = false.
Proof.
  intros Hslash Hdot Hsrc Hjs Hempty Hp. unfold Swc.resolveAlias.
  destruct (Str.startsWith p "@/") eqn:Halias; [| exact Hp].
  assert (Hx : mentions word (Str.slice 2 p) = false).
  { apply (mentions_later word "@/").
    change 2 with (String.length "@/"). rewrite <- (startsWith_eq _ _ Halias). exact Hp. }
  assert (Hsrcx : mentions word ("/src/" ++ Str.slice 2 p) = false).
  { change ("/src/" ++ Str.slice 2 p)%string
      with (EmptyString ++ String "/" ("src" ++ String "/" (Str.slice 2 p)))%string.
    rewrite !mentions_barrier by assumption. rewrite Hempty, Hsrc, Hx. reflexivity. }
  unfold Swc.addJs.
  destruct (negb (Str.endsWith _ ".js") && negb (Str.endsWith _ ".jsx")); [| exact Hsrcx].
  change (("/src/" ++ Str.slice 2 p) ++ ".js")%string
    with (("/src/" ++ Str.slice 2 p) ++ String "." "js")%string.
  rewrite mentions_barrier by assumption. rewrite Hsrcx, Hjs. reflexivity.
Qed.

Lemma plain_resolveAlias (p : string) :
  plain p = true ->
  mentions "import" (Swc.resolveAlias p) = false
  /\ mentions "export" (Swc.resolveAlias p) = false.
Proof.
  intros H. split; apply mentions_resolveAlias;
    try reflexivity; [apply plain_import | apply plain_export]; exact H.
Qed.

(** ** Where a repetition cannot succeed *)

Lemma star_none {R} (k : cclass) (run s : string) (cont : string -> option R) :
  allIn k run = true ->
  stops k s = true ->
  (forall a b, run = (a ++ b)%string -> cont (b ++ s)%string = None) ->
  Re.star (in_class k) (run ++ s) cont = None.
Proof.
  intros Hrun Hstop. induction run as [| c run IH]; intros Hcont.
  - cbn [append]. rewrite (star_stop _ _ _ Hstop). exact (Hcont EmptyString EmptyString eq_refl).
  - cbn in Hrun. apply andb_prop in Hrun as [Hc Hrun].
    cbn [append Re.star]. rewrite Hc, (IH Hrun).
    + exact (Hcont EmptyString (String c run) eq_refl).
    + intros a b ->. exact (Hcont (String c a) b eq_refl).
Qed.

Lemma plus_none {R} (k : cclass) (run s : string) (cont : string -> option R) :
  allIn k run = true ->
  stops k s = true ->
  (forall a b, run = (a ++ b)%string -> cont (b ++ s)%string = None) ->
  Re.plus (in_class k) (run ++ s) cont = None.
Proof.
  intros Hrun Hstop Hcont. destruct run as [| c run].
  - apply plus_stop, Hstop.
  - cbn in Hrun. apply andb_prop in Hrun as [Hc Hrun].
    cbn [append]. unfold Re.plus. rewrite Hc.
    apply star_none; [exact Hrun | exact Hstop |].
    intros a b ->. exact (Hcont (String c a) b eq_refl).
Qed.

Lemma word_is_no_punctuation (c : ascii) :
  is_word c = true ->
  Ascii.eqb "{" c = false /\ Ascii.eqb "," c = false.
Proof.
  destruct c as [[] [] [] [] [] [] [] []]; vm_compute; intros H;
    (split; reflexivity) || discriminate H.
Qed.

(** ** The matches of the other patterns of [resolveImports] *)

Lemma specifierText_parts (p : string) :
  specifierText p = true -> p <> EmptyString /\ allIn notQuote p = true.
Proof.
  unfold specifierText. intros H. apply andb_prop in H as [Hne Hp].
  split; [intros -> ; discriminate Hne | exact Hp].
Qed.

Lemma namedImport_match (names p rest : string) :
  names <> EmptyString ->
  allIn notBrace names = true ->
  specifierText p = true ->
  Re.exec_at Swc.namedImportRegex
             ("import {" ++ names ++ "} from " ++ Str.dq ++ p ++ Str.dq ++ rest)
  = Some {| whole := "import {" ++ names ++ "} from " ++ Str.dq ++ p ++ Str.dq;
            groups := [names; p] |}.
Proof.
  intros Hne Hnames Hp. apply specifierText_parts in Hp as [Hp' Hp].
  unfold Re.exec_at.
  set (text := ("import {" ++ names ++ "} from " ++ Str.dq ++ p ++ Str.dq ++ rest)%string).
  set (final := fun (s' : string) (caps : list string) =>
                  Some {| whole := Str.take (String.length text - String.length s') text;
                          groups := caps |}).
  unfold text at 1. unfold Swc.namedImportRegex, quote.
  change ("import {" ++ names ++ "} from " ++ Str.dq ++ p ++ Str.dq ++ rest)%string
    with ("import" ++ " " ++ "{" ++ names ++ "}" ++ " " ++ "from" ++ " "
                   ++ String (ascii_of_nat 34) (p ++ String (ascii_of_nat 34) rest))%string.
  step_Lit.
  rewrite rmatch_Cat.
  apply rmatch_Plus; [discriminate | reflexivity | reflexivity |].
  step_Lit.
  rewrite rmatch_Cat.
  apply rmatch_Group_Plus; [exact Hne | exact Hnames | reflexivity |].
  step_Lit.
  rewrite rmatch_Cat.
  apply rmatch_Plus; [discriminate | reflexivity | reflexivity |].
  step_Lit.
  rewrite rmatch_Cat.
  apply rmatch_Plus; [discriminate | reflexivity | reflexivity |].
  step_OneOf.
  rewrite rmatch_Cat.
  apply rmatch_Group_Plus; [exact Hp' | exact Hp | reflexivity |].
  rewrite rmatch_OneOf by reflexivity.
  unfold final. f_equal. f_equal.
  replace text
    with (("import {" ++ names ++ "} from " ++ Str.dq ++ p ++ Str.dq) ++ rest)%string.
  - apply take_matched.
  - unfold text. same_text.
Qed.

Lemma defaultImport_match (A p rest : string) :
  ident A = true ->
  specifierText p = true ->
  Re.exec_at Swc.defaultImportRegex
             ("import " ++ A ++ " from " ++ Str.dq ++ p ++ Str.dq ++ rest)
  = Some {| whole := "import " ++ A ++ " from " ++ Str.dq ++ p ++ Str.dq;
            groups := [A; p] |}.
Proof.
  intros HA Hp. apply specifierText_parts in Hp as [Hp' Hp].
  unfold Re.exec_at.
  set (text := ("import " ++ A ++ " from " ++ Str.dq ++ p ++ Str.dq ++ rest)%string).
  set (final := fun (s' : string) (caps : list string) =>
                  Some {| whole := Str.take (String.length text - String.length s') text;
                          groups := caps |}).
  unfold text at 1. unfold Swc.defaultImportRegex, quote.
  change ("import " ++ A ++ " from " ++ Str.dq ++ p ++ Str.dq ++ rest)%string
    with ("import" ++ " " ++ A ++ " " ++ "from" ++ " "
                   ++ String (ascii_of_nat 34) (p ++ String (ascii_of_nat 34) rest))%string.
  step_Lit.
  rewrite rmatch_Cat.
  apply rmatch_Plus; [discriminate | reflexivity | apply stops_Space_ident, HA |].
  rewrite rmatch_Cat.
  apply rmatch_Group_Plus;
    [apply ident_nonempty, HA | apply ident_word, HA | reflexivity |].
  rewrite rmatch_Cat.
  apply rmatch_Plus; [discriminate | reflexivity | reflexivity |].
  step_Lit.
  rewrite rmatch_Cat.
  apply rmatch_Plus; [discriminate | reflexivity | reflexivity |].
  step_OneOf.
  rewrite rmatch_Cat.
  apply rmatch_Group_Plus; [exact Hp' | exact Hp | reflexivity |].
  rewrite rmatch_OneOf by reflexivity.
  unfold final. f_equal. f_equal.
  replace text
    with (("import " ++ A ++ " from " ++ Str.dq ++ p ++ Str.dq) ++ rest)%string.
  - apply take_matched.
  - unfold text. same_text.
Qed.

Lemma sideEffectImport_match (p rest : string) :
  specifierText p = true ->
  Re.exec_at Swc.sideEffectImportRegex ("import " ++ Str.dq ++ p ++ Str.dq ++ rest)
  = Some {| whole := "import " ++ Str.dq ++ p ++ Str.dq; groups := [p] |}.
Proof.
  intros Hp. apply specifierText_parts in Hp as [Hp' Hp].
  unfold Re.exec_at.
  set (text := ("import " ++ Str.dq ++ p ++ Str.dq ++ rest)%string).
  set (final := fun (s' : string) (caps : list string) =>
                  Some {| whole := Str.take (String.length text - String.length s') text;
                          groups := caps |}).
  unfold text at 1. unfold Swc.sideEffectImportRegex, quote.
  change ("import " ++ Str.dq ++ p ++ Str.dq ++ rest)%string
    with ("import" ++ " " ++ String (ascii_of_nat 34) (p ++ String (ascii_of_nat 34) rest))%string.
  step_Lit.
  rewrite rmatch_Cat.
  apply rmatch_Plus; [discriminate | reflexivity | reflexivity |].
  step_OneOf.
  rewrite rmatch_Cat.
  apply rmatch_Group_Plus; [exact Hp' | exact Hp | reflexivity |].
  rewrite rmatch_OneOf by reflexivity.
  unfold final. f_equal. f_equal.
  replace text with (("import " ++ Str.dq ++ p ++ Str.dq) ++ rest)%string.
  - apply take_matched.
  - unfold text. same_text.
Qed.

Lemma exportConst_match (x rest : string) :
  ident x = true ->
  Re.exec_at Swc.exportConstRegex ("export const " ++ x ++ " =" ++ rest)
  = Some {| whole := "export const " ++ x ++ " ="; groups := [x] |}.
Proof.
  intros Hx. unfold Re.exec_at.
  set (text := ("export const " ++ x ++ " =" ++ rest)%string).
  set (final := fun (s' : string) (caps : list string) =>
                  Some {| whole := Str.take (String.length text - String.length s') text;
                          groups := caps |}).
  unfold text at 1. unfold Swc.exportConstRegex.
  change ("export const " ++ x ++ " =" ++ rest)%string
    with ("export" ++ " " ++ "const" ++ " " ++ x ++ " " ++ "=" ++ rest)%string.
  step_Lit.
  rewrite rmatch_Cat.
  apply rmatch_Plus; [discriminate | reflexivity | reflexivity |].
  step_Lit.
  rewrite rmatch_Cat.
  apply rmatch_Plus; [discriminate | reflexivity | apply stops_Space_ident, Hx |].
  rewrite rmatch_Cat.
  apply rmatch_Group_Plus;
    [apply ident_nonempty, Hx | apply ident_word, Hx | reflexivity |].
  rewrite rmatch_Cat.
  apply rmatch_Star; [reflexivity | reflexivity |].
  rewrite rmatch_Lit.
  unfold final. f_equal. f_equal.
  replace text with (("export const " ++ x ++ " =") ++ rest)%string.
  - apply take_matched.
  - unfold text. same_text.
Qed.

Lemma exportFunction_match (f rest : string) :
  ident f = true ->
  Re.exec_at Swc.exportFunctionRegex ("export function " ++ f ++ "(" ++ rest)
  = Some {| whole := "export function " ++ f ++ "("; groups := [f] |}.
Proof.
  intros Hf. unfold Re.exec_at.
  set (text := ("export function " ++ f ++ "(" ++ rest)%string).
  set (final := fun (s' : string) (caps : list string) =>
                  Some {| whole := Str.take (String.length text - String.length s') text;
                          groups := caps |}).
  unfold text at 1. unfold Swc.exportFunctionRegex.
  change ("export function " ++ f ++ "(" ++ rest)%string
    with ("export" ++ " " ++ "function" ++ " " ++ f ++ EmptyString ++ "(" ++ rest)%string.
  step_Lit.
  rewrite rmatch_Cat.
  apply rmatch_Plus; [discriminate | reflexivity | reflexivity |].
  step_Lit.
  rewrite rmatch_Cat.
  apply rmatch_Plus; [discriminate | reflexivity | apply stops_Space_ident, Hf |].
  rewrite rmatch_Cat.
  apply rmatch_Group_Plus;
    [apply ident_nonempty, Hf | apply ident_word, Hf | reflexivity |].
  rewrite rmatch_Cat.
  apply rmatch_Star; [reflexivity | reflexivity |].
  rewrite rmatch_Lit.
  unfold final. f_equal. f_equal.
  replace text with (("export function " ++ f ++ "(") ++ rest)%string.
  - apply take_matched.
  - unfold text. same_text.
Qed.

Lemma replace_miss_then_idle (word : string) (r : regex) (f : found -> string)
      (c : ascii) (s : string) :
  Re.exec_at (Cat (Lit word) r) (String c s) = None ->
  mentions word s = false ->
  Re.replace (Cat (Lit word) r) f (String c s) = String c s.
Proof.
  intros Hmiss Hs. apply replace_one_miss; [exact Hmiss |].
  apply replace_no_mention, Hs.
Qed.

(** the occurrences of a word in a text that is written out but for
    the names in it *)
Ltac no_mention :=
  repeat first
         [ rewrite mentions_barrier by reflexivity
         | progress cbn [mentions Str.startsWith append Ascii.eqb Bool.eqb orb andb] ].

Lemma convertNames_keep (B : string) :
  ident B = true ->
  B <> "as" ->
  Swc.convertNames (" " ++ B ++ " ") = (" " ++ B ++ " ")%string.
Proof.
  intros HB Hne. unfold Swc.convertNames, Re.replace.
  change (" " ++ B ++ " ")%string with (String " " (B ++ String " " EmptyString))%string.
  cbn [Re.replace_go]. rewrite (as_none_before_name _ _ HB Hne).
  rewrite (as_replace_over_name _ _ _ (ident_word _ HB)).
  replace (Re.replace_go Swc.asRegex (fun _ : found => ": ") 0 " ") with " "
    by (vm_compute; reflexivity).
  reflexivity.
Qed.

Lemma three_exports_idle (s : string) :
  mentions "export" s = false ->
  Re.replace Swc.exportDefaultRegex Swc.exportDefaultRewrite
    (Re.replace Swc.exportFunctionRegex Swc.exportFunctionRewrite
       (Re.replace Swc.exportConstRegex Swc.exportConstRewrite s))
  = s.
Proof.
  intros He.
  unfold Swc.exportConstRegex, Swc.exportFunctionRegex, Swc.exportDefaultRegex.
  rewrite (replace_no_mention "export" _ Swc.exportConstRewrite s He).
  rewrite (replace_no_mention "export" _ Swc.exportFunctionRewrite s He).
  apply (replace_no_mention "export" _ Swc.exportDefaultRewrite s He).
Qed.

Lemma names_notBrace (B C : string) :
  ident B = true -> ident C = true ->
  allIn notBrace (" " ++ B ++ " as " ++ C ++ " ") = true.
Proof.
  intros HB HC. cbn [append allIn]. rewrite allIn_append. cbn [append allIn].
  rewrite allIn_append.
  rewrite (allIn_Word_notBrace _ (ident_word _ HB)).
  rewrite (allIn_Word_notBrace _ (ident_word _ HC)). reflexivity.
Qed.

Lemma resolveImports_named_rename (B C p importer : string) :
  ident B = true ->
  ident C = true ->
  B <> "as" ->
  specifierText p = true ->
  plain B = true ->
  plain C = true ->
  plain p = true ->
  Swc.resolveImports
    ("import { " ++ B ++ " as " ++ C ++ " } from " ++ Str.dq ++ p ++ Str.dq) importer
  = ("const {  " ++ B ++ ": " ++ C ++ "  } = require(" ++ Str.dq ++ Swc.resolveAlias p
       ++ Str.dq ++ ")")%string.
Proof.
  intros HB HC Hne Hp HpB HpC Hpp.
  pose proof (plain_import _ HpB) as HiB. pose proof (plain_export _ HpB) as HeB.
  pose proof (plain_import _ HpC) as HiC. pose proof (plain_export _ HpC) as HeC.
  pose proof (plain_import _ Hpp) as Hip.
  destruct (plain_resolveAlias _ Hpp) as [HiR HeR].
  set (text := ("import { " ++ B ++ " as " ++ C ++ " } from " ++ Str.dq ++ p ++ Str.dq)%string).
  set (out := ("const {  " ++ B ++ ": " ++ C ++ "  } = require(" ++ Str.dq ++ Swc.resolveAlias p
                 ++ Str.dq ++ ")")%string).
  assert (Hcombined :
            Re.replace Swc.combinedImportRegex Swc.combinedImportRewrite text = text).
  { unfold Swc.combinedImportRegex. apply replace_miss_then_idle; [reflexivity |].
    unfold Str.dq. no_mention. rewrite HiB, HiC, Hip. reflexivity. }
  assert (Hnamed : Re.replace Swc.namedImportRegex Swc.namedImportRewrite text = out).
  { set (names := (" " ++ B ++ " as " ++ C ++ " ")%string).
    replace text
      with (("import {" ++ names ++ "} from " ++ Str.dq ++ p ++ Str.dq) ++ EmptyString)%string
      by (unfold text, names; same_text).
    unfold Re.replace.
    rewrite (replace_at_match Swc.namedImportRegex _ _ EmptyString [names; p]).
    - replace (Re.replace_go Swc.namedImportRegex Swc.namedImportRewrite 0 EmptyString)
        with EmptyString by reflexivity.
      unfold Swc.namedImportRewrite. cbn [Re.group Re.groups nth Nat.sub].
      unfold names. rewrite (convertNames_rename _ _ HB HC Hne).
      unfold out. same_text.
    - discriminate.
    - replace (("import {" ++ names ++ "} from " ++ Str.dq ++ p ++ Str.dq) ++ EmptyString)%string
        with ("import {" ++ names ++ "} from " ++ Str.dq ++ p ++ Str.dq ++ EmptyString)%string
        by same_text.
      apply namedImport_match; [discriminate | apply names_notBrace; assumption | exact Hp]. }
  assert (Hi : mentions "import" out = false).
  { unfold out, Str.dq. no_mention. rewrite HiB, HiC, HiR. reflexivity. }
  assert (He : mentions "export" out = false).
  { unfold out, Str.dq. no_mention. rewrite HeB, HeC, HeR. reflexivity. }
  unfold Swc.resolveImports. cbv zeta. rewrite Hcombined, Hnamed.
  unfold Swc.defaultImportRegex, Swc.sideEffectImportRegex.
  rewrite (replace_no_mention "import" _ Swc.defaultImportRewrite _ Hi).
  rewrite (replace_no_mention "import" _ Swc.sideEffectImportRewrite _ Hi).
  apply three_exports_idle, He.
Qed.

Lemma resolveImports_named_plain (B p importer : string) :
  ident B = true ->
  B <> "as" ->
  specifierText p = true ->
  plain B = true ->
  plain p = true ->
  Swc.resolveImports ("import { " ++ B ++ " } from " ++ Str.dq ++ p ++ Str.dq) importer
  = ("const {  " ++ B ++ "  } = require(" ++ Str.dq ++ Swc.resolveAlias p
       ++ Str.dq ++ ")")%string.
Proof.
  intros HB Hne Hp HpB Hpp.
  pose proof (plain_import _ HpB) as HiB. pose proof (plain_export _ HpB) as HeB.
  pose proof (plain_import _ Hpp) as Hip.
  destruct (plain_resolveAlias _ Hpp) as [HiR HeR].
  set (text := ("import { " ++ B ++ " } from " ++ Str.dq ++ p ++ Str.dq)%string).
  set (out := ("const {  " ++ B ++ "  } = require(" ++ Str.dq ++ Swc.resolveAlias p
                 ++ Str.dq ++ ")")%string).
  assert (Hcombined :
            Re.replace Swc.combinedImportRegex Swc.combinedImportRewrite text = text).
  { unfold Swc.combinedImportRegex. apply replace_miss_then_idle; [reflexivity |].
    unfold Str.dq. no_mention. rewrite HiB, Hip. reflexivity. }
  assert (Hnamed : Re.replace Swc.namedImportRegex Swc.namedImportRewrite text = out).
  { set (names := (" " ++ B ++ " ")%string).
    replace text
      with (("import {" ++ names ++ "} from " ++ Str.dq ++ p ++ Str.dq) ++ EmptyString)%string
      by (unfold text, names; same_text).
    unfold Re.replace.
    rewrite (replace_at_match Swc.namedImportRegex _ _ EmptyString [names; p]).
    - replace (Re.replace_go Swc.namedImportRegex Swc.namedImportRewrite 0 EmptyString)
        with EmptyString by reflexivity.
      unfold Swc.namedImportRewrite. cbn [Re.group Re.groups nth Nat.sub].
      unfold names. rewrite (convertNames_keep _ HB Hne).
      unfold out. same_text.
    - discriminate.
    - replace (("import {" ++ names ++ "} from " ++ Str.dq ++ p ++ Str.dq) ++ EmptyString)%string
        with ("import {" ++ names ++ "} from " ++ Str.dq ++ p ++ Str.dq ++ EmptyString)%string
        by same_text.
      apply namedImport_match; [discriminate | | exact Hp].
      unfold names. cbn [append allIn]. rewrite allIn_append.
      rewrite (allIn_Word_notBrace _ (ident_word _ HB)). reflexivity. }
  assert (Hi : mentions "import" out = false).
  { unfold out, Str.dq. no_mention. rewrite HiB, HiR. reflexivity. }
  assert (He : mentions "export" out = false).
  { unfold out, Str.dq. no_mention. rewrite HeB, HeR. reflexivity. }
  unfold Swc.resolveImports. cbv zeta. rewrite Hcombined, Hnamed.
  unfold Swc.defaultImportRegex, Swc.sideEffectImportRegex.
  rewrite (replace_no_mention "import" _ Swc.defaultImportRewrite _ Hi).
  rewrite (replace_no_mention "import" _ Swc.sideEffectImportRewrite _ Hi).
  apply three_exports_idle, He.
Qed.

(** X5. A named import is rewritten to a destructuring of what
    [require] returns, a renaming [B as C] to [B: C]: for identifiers
    [B] (other than [as]) and [C] and a specifier [p],
    [import { B as C } from "p"] becomes [const {  B: C  } = require("q")]
    and [import { B } from "p"] becomes [const {  B  } = require("q")],
    where [q] is the path of the alias when [p] is alias-rooted and [p]
    itself otherwise.  This holds where the words import and export do
    not occur in the names and in the specifier. *)
Theorem resolveImports_named_import (B C p importer : string) :
  ident B = true ->
  ident C = true ->
  B <> "as" ->
  specifierText p = true ->
  plain B = true ->
  plain C = true ->
  plain p = true ->
  Swc.resolveImports
    ("import { " ++ B ++ " as " ++ C ++ " } from " ++ Str.dq ++ p ++ Str.dq) importer
  = ("const {  " ++ B ++ ": " ++ C ++ "  } = require(" ++ Str.dq ++ Swc.resolveAlias p
       ++ Str.dq ++ ")")%string
  /\ Swc.resolveImports ("import { " ++ B ++ " } from " ++ Str.dq ++ p ++ Str.dq) importer
     = ("const {  " ++ B ++ "  } = require(" ++ Str.dq ++ Swc.resolveAlias p
          ++ Str.dq ++ ")")%string.
Proof.
  intros HB HC Hne Hp HpB HpC Hpp. split.
  - apply resolveImports_named_rename; assumption.
  - apply resolveImports_named_plain; assumption.
Qed.

Lemma resolveImports_named_import_witness :
  Swc.resolveImports ("import { cn as classes } from " ++ Playground.quoted "@/lib/utils")
                     "@/entry"
  = ("const {  cn: classes  } = require(" ++ Playground.quoted "/src/lib/utils.js" ++ ")")%string
  /\ Swc.resolveImports ("import { cn } from " ++ Playground.quoted "@/lib/utils") "@/entry"
     = ("const {  cn  } = require(" ++ Playground.quoted "/src/lib/utils.js" ++ ")")%string.
Proof.
  apply (resolveImports_named_import "cn" "classes" "@/lib/utils" "@/entry");
    try reflexivity.
  intros H. discriminate H.
Defined.

(** a default import is no combined import: after the name comes no
    comma, however much of the name the pattern takes *)
Lemma combinedImport_miss_default (A rest : string) :
  ident A = true ->
  Re.exec_at Swc.combinedImportRegex ("import " ++ A ++ " from " ++ rest) = None.
Proof.
  intros HA. unfold Re.exec_at, Swc.combinedImportRegex.
  change ("import " ++ A ++ " from " ++ rest)%string
    with ("import" ++ " " ++ A ++ " from " ++ rest)%string.
  step_Lit. rewrite rmatch_Cat. cbn [Re.rmatch append]. unfold Re.plus at 1.
  replace (in_class Space " ") with true by reflexivity.
  rewrite (star_stop Space) by (apply stops_Space_ident, HA).
  apply plus_none; [apply ident_word, HA | reflexivity |].
  intros a b Hab.
  assert (Hb : allIn Word b = true).
  { pose proof (ident_word _ HA) as Hw. rewrite Hab, allIn_append in Hw.
    apply andb_prop in Hw as [_ Hw]. exact Hw. }
  destruct b as [| b0 b]; [reflexivity |].
  cbn in Hb. apply andb_prop in Hb as [Hb0 _].
  cbn [append Re.star in_class]. rewrite (word_not_space _ Hb0).
  cbn [Str.startsWith]. rewrite (proj2 (word_is_no_punctuation _ Hb0)). reflexivity.
Qed.

Lemma namedImport_miss_default (A rest : string) :
  ident A = true ->
  Re.exec_at Swc.namedImportRegex ("import " ++ A ++ rest) = None.
Proof.
  intros HA. unfold Re.exec_at, Swc.namedImportRegex.
  change ("import " ++ A ++ rest)%string with ("import" ++ " " ++ A ++ rest)%string.
  step_Lit. rewrite rmatch_Cat. cbn [Re.rmatch append]. unfold Re.plus at 1.
  replace (in_class Space " ") with true by reflexivity.
  rewrite (star_stop Space) by (apply stops_Space_ident, HA).
  pose proof (ident_word _ HA) as Hw.
  destruct A as [| a A]; [discriminate HA |].
  cbn in Hw. apply andb_prop in Hw as [Ha _].
  cbn [append Str.startsWith]. rewrite (proj1 (word_is_no_punctuation _ Ha)). reflexivity.
Qed.

Lemma resolveImports_default (A p importer : string) :
  ident A = true ->
  specifierText p = true ->
  plain A = true ->
  plain p = true ->
  Swc.resolveImports ("import " ++ A ++ " from " ++ Str.dq ++ p ++ Str.dq) importer
  = ("const " ++ A ++ " = require(" ++ Str.dq ++ Swc.resolveAlias p ++ Str.dq ++ ")")%string.
Proof.
  intros HA Hp HpA Hpp.
  pose proof (plain_import _ HpA) as HiA. pose proof (plain_export _ HpA) as HeA.
  pose proof (plain_import _ Hpp) as Hip.
  destruct (plain_resolveAlias _ Hpp) as [HiR HeR].
  set (text := ("import " ++ A ++ " from " ++ Str.dq ++ p ++ Str.dq)%string).
  set (out := ("const " ++ A ++ " = require(" ++ Str.dq ++ Swc.resolveAlias p ++ Str.dq
                 ++ ")")%string).
  assert (Htail : mentions "import" ("mport " ++ A ++ " from " ++ Str.dq ++ p ++ Str.dq) = false).
  { unfold Str.dq. no_mention. rewrite HiA, Hip. reflexivity. }
  assert (Hcombined :
            Re.replace Swc.combinedImportRegex Swc.combinedImportRewrite text = text).
  { unfold Swc.combinedImportRegex. apply replace_miss_then_idle; [| exact Htail].
    apply (combinedImport_miss_default A _ HA). }
  assert (Hnamed : Re.replace Swc.namedImportRegex Swc.namedImportRewrite text = text).
  { unfold Swc.namedImportRegex. apply replace_miss_then_idle; [| exact Htail].
    apply (namedImport_miss_default A _ HA). }
  assert (Hdefault : Re.replace Swc.defaultImportRegex Swc.defaultImportRewrite text = out).
  { replace text
      with (("import " ++ A ++ " from " ++ Str.dq ++ p ++ Str.dq) ++ EmptyString)%string
      by (unfold text; same_text).
    unfold Re.replace.
    rewrite (replace_at_match Swc.defaultImportRegex _ _ EmptyString [A; p]).
    - replace (Re.replace_go Swc.defaultImportRegex Swc.defaultImportRewrite 0 EmptyString)
        with EmptyString by reflexivity.
      unfold Swc.defaultImportRewrite. cbn [Re.group Re.groups nth Nat.sub].
      unfold out. same_text.
    - discriminate.
    - replace (("import " ++ A ++ " from " ++ Str.dq ++ p ++ Str.dq) ++ EmptyString)%string
        with ("import " ++ A ++ " from " ++ Str.dq ++ p ++ Str.dq ++ EmptyString)%string
        by same_text.
      apply defaultImport_match; assumption. }
  assert (Hi : mentions "import" out = false).
  { unfold out, Str.dq. no_mention. rewrite HiA, HiR. reflexivity. }
  assert (He : mentions "export" out = false).
  { unfold out, Str.dq. no_mention. rewrite HeA, HeR. reflexivity. }
  unfold Swc.resolveImports. cbv zeta. rewrite Hcombined, Hnamed, Hdefault.
  unfold Swc.sideEffectImportRegex.
  rewrite (replace_no_mention "import" _ Swc.sideEffectImportRewrite _ Hi).
  apply three_exports_idle, He.
Qed.

(** X6. A default import is rewritten to a binding of what [require]
    returns: for an identifier [A] and a specifier [p],
    [import A from "p"] becomes [const A = require("q")], where [q] is
    the path of the alias when [p] is alias-rooted and [p] itself
    otherwise; the name is bound to the whole module, not to its
    [default] property.  This holds where the words import and export
    do not occur in the name and in the specifier. *)
Theorem resolveImports_default_import (A p importer : string) :
  ident A = true ->
  specifierText p = true ->
  plain A = true ->
  plain p = true ->
  Swc.resolveImports ("import " ++ A ++ " from " ++ Str.dq ++ p ++ Str.dq) importer
  = ("const " ++ A ++ " = require(" ++ Str.dq ++ Swc.resolveAlias p ++ Str.dq ++ ")")%string.
Proof.
  intros HA Hp HpA Hpp. apply resolveImports_default; assumption.
Qed.

Lemma resolveImports_default_import_witness :
  Swc.resolveImports ("import App from " ++ Playground.quoted "@/app") "@/entry"
  = ("const App = require(" ++ Playground.quoted "/src/app.js" ++ ")")%string.
Proof.
  apply (resolveImports_default_import "App" "@/app" "@/entry"); reflexivity.
Defined.

Lemma resolveImports_side_effect (p importer : string) :
  specifierText p = true ->
  plain p = true ->
  Swc.resolveImports ("import " ++ Str.dq ++ p ++ Str.dq) importer
  = ("require(" ++ Str.dq ++ p ++ Str.dq ++ ")")%string.
Proof.
  intros Hp Hpp.
  pose proof (plain_import _ Hpp) as Hip. pose proof (plain_export _ Hpp) as Hep.
  set (text := ("import " ++ Str.dq ++ p ++ Str.dq)%string).
  set (out := ("require(" ++ Str.dq ++ p ++ Str.dq ++ ")")%string).
  assert (Htail : mentions "import" ("mport " ++ Str.dq ++ p ++ Str.dq) = false).
  { unfold Str.dq. no_mention. rewrite Hip. reflexivity. }
  assert (Hcombined :
            Re.replace Swc.combinedImportRegex Swc.combinedImportRewrite text = text).
  { unfold Swc.combinedImportRegex. apply replace_miss_then_idle; [reflexivity | exact Htail]. }
  assert (Hnamed : Re.replace Swc.namedImportRegex Swc.namedImportRewrite text = text).
  { unfold Swc.namedImportRegex. apply replace_miss_then_idle; [reflexivity | exact Htail]. }
  assert (Hdefault : Re.replace Swc.defaultImportRegex Swc.defaultImportRewrite text = text).
  { unfold Swc.defaultImportRegex. apply replace_miss_then_idle; [reflexivity | exact Htail]. }
  assert (Hside : Re.replace Swc.sideEffectImportRegex Swc.sideEffectImportRewrite text = out).
  { replace text with (("import " ++ Str.dq ++ p ++ Str.dq) ++ EmptyString)%string
      by (unfold text; same_text).
    unfold Re.replace.
    rewrite (replace_at_match Swc.sideEffectImportRegex _ _ EmptyString [p]).
    - replace (Re.replace_go Swc.sideEffectImportRegex Swc.sideEffectImportRewrite 0 EmptyString)
        with EmptyString by reflexivity.
      unfold Swc.sideEffectImportRewrite. cbn [Re.group Re.groups nth Nat.sub].
      unfold out. same_text.
    - discriminate.
    - replace (("import " ++ Str.dq ++ p ++ Str.dq) ++ EmptyString)%string
        with ("import " ++ Str.dq ++ p ++ Str.dq ++ EmptyString)%string by same_text.
      apply sideEffectImport_match, Hp. }
  assert (He : mentions "export" out = false).
  { unfold out, Str.dq. no_mention. rewrite Hep. reflexivity. }
  unfold Swc.resolveImports. cbv zeta. rewrite Hcombined, Hnamed, Hdefault, Hside.
  apply three_exports_idle, He.
Qed.

Lemma registryPath_is_rooted (p : string) : Str.startsWith (Swc.registryPath p) "/src/" = true.
Proof.
  unfold Swc.registryPath, Swc.addJs.
  destruct (negb (Str.endsWith _ ".js") && negb (Str.endsWith _ ".jsx")); reflexivity.
Qed.

(** X7. An import for its effect only, [import "p"], is rewritten to
    [require("p")] with the specifier as it is written: an alias is not
    resolved here.  For an alias-rooted specifier the text that is
    required is therefore not the key under which [compile] registers
    the module, which begins with [/src/].  This holds where the words
    import and export do not occur in the specifier. *)
Theorem resolveImports_side_effect_import (p importer : string) :
  specifierText p = true ->
  plain p = true ->
  Swc.resolveImports ("import " ++ Str.dq ++ p ++ Str.dq) importer
  = ("require(" ++ Str.dq ++ p ++ Str.dq ++ ")")%string
  /\ (Str.startsWith p "@/" = true -> p <> Swc.registryPath p).
Proof.
  intros Hp Hpp. split; [apply resolveImports_side_effect; assumption |].
  intros Halias Heq. pose proof (registryPath_is_rooted p) as Hroot.
  rewrite <- Heq in Hroot.
  destruct p as [| c p]; [discriminate Halias |].
  cbn [Str.startsWith] in Halias, Hroot.
  destruct (Ascii.eqb_spec "@" c) as [<- |]; [discriminate Hroot | discriminate Halias].
Qed.

Lemma resolveImports_side_effect_import_witness :
  Swc.resolveImports ("import " ++ Playground.quoted "@/styles") "@/entry"
  = ("require(" ++ Playground.quoted "@/styles" ++ ")")%string
  /\ "@/styles" <> Swc.registryPath "@/styles".
Proof.
  destruct (resolveImports_side_effect_import "@/styles" "@/entry" eq_refl eq_refl)
    as [H1 H2].
  split; [exact H1 | exact (H2 eq_refl)].
Defined.

Lemma four_imports_idle (s : string) :
  mentions "import" s = false ->
  Re.replace Swc.sideEffectImportRegex Swc.sideEffectImportRewrite
    (Re.replace Swc.defaultImportRegex Swc.defaultImportRewrite
       (Re.replace Swc.namedImportRegex Swc.namedImportRewrite
          (Re.replace Swc.combinedImportRegex Swc.combinedImportRewrite s)))
  = s.
Proof.
  intros Hi.
  unfold Swc.combinedImportRegex, Swc.namedImportRegex, Swc.defaultImportRegex,
    Swc.sideEffectImportRegex.
  rewrite (replace_no_mention "import" _ Swc.combinedImportRewrite s Hi).
  rewrite (replace_no_mention "import" _ Swc.namedImportRewrite s Hi).
  rewrite (replace_no_mention "import" _ Swc.defaultImportRewrite s Hi).
  apply (replace_no_mention "import" _ Swc.sideEffectImportRewrite s Hi).
Qed.

(** X4. A text in which neither the word import nor the word export
    occurs is returned by [resolveImports] as it is. *)
Theorem resolveImports_leaves_plain_code (code filePath : string) :
  mentions "import" code = false ->
  mentions "export" code = false ->
  Swc.resolveImports code filePath = code.
Proof.
  intros Hi He. unfold Swc.resolveImports. cbv zeta.
  rewrite (four_imports_idle _ Hi). apply three_exports_idle, He.
Qed.

Lemma resolveImports_leaves_plain_code_witness :
  Swc.resolveImports "const x = require('react');" "@/entry" = "const x = require('react');".
Proof.
  apply (resolveImports_leaves_plain_code "const x = require('react');" "@/entry");
    reflexivity.
Defined.

Lemma resolveImports_export_const (x e importer : string) :
  ident x = true ->
  plain x = true ->
  plain e = true ->
  Swc.resolveImports ("export const " ++ x ++ " = " ++ e) importer
  = ("exports." ++ x ++ " =  " ++ e)%string.
Proof.
  intros Hx Hpx Hpe.
  pose proof (plain_import _ Hpx) as Hix. pose proof (plain_export _ Hpx) as Hex.
  pose proof (plain_import _ Hpe) as Hie. pose proof (plain_export _ Hpe) as Hee.
  set (text := ("export const " ++ x ++ " = " ++ e)%string).
  set (out := ("exports." ++ x ++ " =  " ++ e)%string).
  assert (Hi : mentions "import" text = false).
  { unfold text. no_mention. rewrite Hix, Hie. reflexivity. }
  assert (Hconst : Re.replace Swc.exportConstRegex Swc.exportConstRewrite text = out).
  { replace text with (("export const " ++ x ++ " =") ++ " " ++ e)%string
      by (unfold text; same_text).
    unfold Re.replace.
    rewrite (replace_at_match Swc.exportConstRegex _ _ (" " ++ e) [x]).
    - unfold Swc.exportConstRegex.
      change (Re.replace_go (Lit "export";; ?r) ?f 0 (" " ++ e))
        with (Re.replace (Lit "export";; r) f (" " ++ e)).
      rewrite replace_no_mention by (no_mention; exact Hee).
      unfold Swc.exportConstRewrite. cbn [Re.group Re.groups nth Nat.sub].
      unfold out. same_text.
    - destruct x; discriminate.
    - replace (("export const " ++ x ++ " =") ++ " " ++ e)%string
        with ("export const " ++ x ++ " =" ++ " " ++ e)%string by same_text.
      apply exportConst_match, Hx. }
  assert (Htail : mentions "export" ("xports." ++ x ++ " =  " ++ e) = false).
  { no_mention. rewrite Hex, Hee. reflexivity. }
  assert (Hfunction : Re.replace Swc.exportFunctionRegex Swc.exportFunctionRewrite out = out).
  { unfold Swc.exportFunctionRegex.
    apply (replace_miss_then_idle "export" _ _ "e" ("xports." ++ x ++ " =  " ++ e));
      [reflexivity | exact Htail]. }
  assert (Hdefault : Re.replace Swc.exportDefaultRegex Swc.exportDefaultRewrite out = out).
  { unfold Swc.exportDefaultRegex.
    apply (replace_miss_then_idle "export" _ _ "e" ("xports." ++ x ++ " =  " ++ e));
      [reflexivity | exact Htail]. }
  unfold Swc.resolveImports. cbv zeta.
  rewrite (four_imports_idle _ Hi), Hconst, Hfunction. exact Hdefault.
Qed.

Lemma resolveImports_export_function (f rest importer : string) :
  ident f = true ->
  plain f = true ->
  plain rest = true ->
  Swc.resolveImports ("export function " ++ f ++ "(" ++ rest) importer
  = ("exports." ++ f ++ " = function (" ++ rest)%string.
Proof.
  intros Hf Hpf Hpr.
  pose proof (plain_import _ Hpf) as Hif. pose proof (plain_export _ Hpf) as Hef.
  pose proof (plain_import _ Hpr) as Hir. pose proof (plain_export _ Hpr) as Her.
  set (text := ("export function " ++ f ++ "(" ++ rest)%string).
  set (out := ("exports." ++ f ++ " = function (" ++ rest)%string).
  assert (Hi : mentions "import" text = false).
  { unfold text. no_mention. rewrite Hif, Hir. reflexivity. }
  assert (Htext : mentions "export" ("xport function " ++ f ++ "(" ++ rest) = false).
  { no_mention. rewrite Hef, Her. reflexivity. }
  assert (Hconst : Re.replace Swc.exportConstRegex Swc.exportConstRewrite text = text).
  { unfold Swc.exportConstRegex.
    apply (replace_miss_then_idle "export" _ _ "e" ("xport function " ++ f ++ "(" ++ rest));
      [reflexivity | exact Htext]. }
  assert (Hfunction : Re.replace Swc.exportFunctionRegex Swc.exportFunctionRewrite text = out).
  { replace text with (("export function " ++ f ++ "(") ++ rest)%string
      by (unfold text; same_text).
    unfold Re.replace.
    rewrite (replace_at_match Swc.exportFunctionRegex _ _ rest [f]).
    - unfold Swc.exportFunctionRegex.
      change (Re.replace_go (Lit "export";; ?r) ?g 0 rest)
        with (Re.replace (Lit "export";; r) g rest).
      rewrite replace_no_mention by exact Her.
      unfold Swc.exportFunctionRewrite. cbn [Re.group Re.groups nth Nat.sub].
      unfold out. same_text.
    - destruct f; discriminate.
    - replace (("export function " ++ f ++ "(") ++ rest)%string
        with ("export function " ++ f ++ "(" ++ rest)%string by same_text.
      apply exportFunction_match, Hf. }
  assert (Htail : mentions "export" ("xports." ++ f ++ " = function (" ++ rest) = false).
  { no_mention. rewrite Hef, Her. reflexivity. }
  assert (Hdefault : Re.replace Swc.exportDefaultRegex Swc.exportDefaultRewrite out = out).
  { unfold Swc.exportDefaultRegex.
    apply (replace_miss_then_idle "export" _ _ "e" ("xports." ++ f ++ " = function (" ++ rest));
      [reflexivity | exact Htail]. }
  unfold Swc.resolveImports. cbv zeta.
  rewrite (four_imports_idle _ Hi), Hconst, Hfunction. exact Hdefault.
Qed.

(** X8. The two named exports the rewriter knows become assignments
    to [exports]: for an identifier [x], [export const x = e] becomes
    [exports.x =  e] (the space before [e] is kept after the one the
    replacement brings), and for an identifier [f],
    [export function f(...] becomes [exports.f = function (...].  This
    holds where the words import and export do not occur in the names
    and in what follows them. *)
Theorem resolveImports_named_exports (x e f rest importer : string) :
  ident x = true ->
  ident f = true ->
  plain x = true ->
  plain e = true ->
  plain f = true ->
  plain rest = true ->
  Swc.resolveImports ("export const " ++ x ++ " = " ++ e) importer
  = ("exports." ++ x ++ " =  " ++ e)%string
  /\ Swc.resolveImports ("export function " ++ f ++ "(" ++ rest) importer
     = ("exports." ++ f ++ " = function (" ++ rest)%string.
Proof.
  intros Hx Hf Hpx Hpe Hpf Hpr. split.
  - apply resolveImports_export_const; assumption.
  - apply resolveImports_export_function; assumption.
Qed.

Lemma resolveImports_named_exports_witness :
  Swc.resolveImports "export const answer = 42;" "@/lib/utils" = "exports.answer =  42;"
  /\ Swc.resolveImports "export function cn(a, b) { return a + b; }" "@/lib/utils"
     = "exports.cn = function (a, b) { return a + b; }".
Proof.
  apply (resolveImports_named_exports "answer" "42;" "cn" "a, b) { return a + b; }"
                                      "@/lib/utils");
    reflexivity.
Defined.

Lemma resolveImports_namespace_import (X p importer : string) :
  plain X = true ->
  plain p = true ->
  Swc.resolveImports ("import * as " ++ X ++ " from " ++ Str.dq ++ p ++ Str.dq) importer
  = ("import * as " ++ X ++ " from " ++ Str.dq ++ p ++ Str.dq)%string.
Proof.
  intros HpX Hpp.
  pose proof (plain_import _ HpX) as HiX. pose proof (plain_export _ HpX) as HeX.
  pose proof (plain_import _ Hpp) as Hip. pose proof (plain_export _ Hpp) as Hep.
  set (text := ("import * as " ++ X ++ " from " ++ Str.dq ++ p ++ Str.dq)%string).
  assert (Htail : mentions "import" ("mport * as " ++ X ++ " from " ++ Str.dq ++ p ++ Str.dq)
                  = false).
  { unfold Str.dq. no_mention. rewrite HiX, Hip. reflexivity. }
  assert (Hcombined :
            Re.replace Swc.combinedImportRegex Swc.combinedImportRewrite text = text).
  { unfold Swc.combinedImportRegex. apply replace_miss_then_idle; [reflexivity | exact Htail]. }
  assert (Hnamed : Re.replace Swc.namedImportRegex Swc.namedImportRewrite text = text).
  { unfold Swc.namedImportRegex. apply replace_miss_then_idle; [reflexivity | exact Htail]. }
  assert (Hdefault : Re.replace Swc.defaultImportRegex Swc.defaultImportRewrite text = text).
  { unfold Swc.defaultImportRegex. apply replace_miss_then_idle; [reflexivity | exact Htail]. }
  assert (Hside : Re.replace Swc.sideEffectImportRegex Swc.sideEffectImportRewrite text = text).
  { unfold Swc.sideEffectImportRegex.
    apply replace_miss_then_idle; [reflexivity | exact Htail]. }
  assert (He : mentions "export" text = false).
  { unfold text, Str.dq. no_mention. rewrite HeX, Hep. reflexivity. }
  unfold Swc.resolveImports. cbv zeta. rewrite Hcombined, Hnamed, Hdefault, Hside.
  apply three_exports_idle, He.
Qed.

Lemma resolveImports_export_list (names importer : string) :
  plain names = true ->
  Swc.resolveImports ("export { " ++ names ++ " }") importer
  = ("export { " ++ names ++ " }")%string.
Proof.
  intros Hpn.
  pose proof (plain_import _ Hpn) as Hin. pose proof (plain_export _ Hpn) as Hen.
  set (text := ("export { " ++ names ++ " }")%string).
  assert (Hi : mentions "import" text = false).
  { unfold text. no_mention. rewrite Hin. reflexivity. }
  assert (Htail : mentions "export" ("xport { " ++ names ++ " }") = false).
  { no_mention. rewrite Hen. reflexivity. }
  assert (Hconst : Re.replace Swc.exportConstRegex Swc.exportConstRewrite text = text).
  { unfold Swc.exportConstRegex. apply replace_miss_then_idle; [reflexivity | exact Htail]. }
  assert (Hfunction : Re.replace Swc.exportFunctionRegex Swc.exportFunctionRewrite text = text).
  { unfold Swc.exportFunctionRegex. apply replace_miss_then_idle; [reflexivity | exact Htail]. }
  assert (Hdefault : Re.replace Swc.exportDefaultRegex Swc.exportDefaultRewrite text = text).
  { unfold Swc.exportDefaultRegex. apply replace_miss_then_idle; [reflexivity | exact Htail]. }
  unfold Swc.resolveImports. cbv zeta.
  rewrite (four_imports_idle _ Hi), Hconst, Hfunction. exact Hdefault.
Qed.

(** X9. Two forms of the module syntax are not among the seven
    patterns and are left in the text as they are: the namespace import
    [import * as X from "p"] and the export list [export { names }].
    The module that holds one of them is wrapped in a function as it
    is.  This holds where the words import and export do not occur in
    the names and in the specifier. *)
Theorem resolveImports_leaves_other_forms (X p names importer : string) :
  plain X = true ->
  plain p = true ->
  plain names = true ->
  Swc.resolveImports ("import * as " ++ X ++ " from " ++ Str.dq ++ p ++ Str.dq) importer
  = ("import * as " ++ X ++ " from " ++ Str.dq ++ p ++ Str.dq)%string
  /\ Swc.resolveImports ("export { " ++ names ++ " }") importer
     = ("export { " ++ names ++ " }")%string.
Proof.
  intros HX Hp Hn. split.
  - apply resolveImports_namespace_import; assumption.
  - apply resolveImports_export_list, Hn.
Qed.

Lemma resolveImports_leaves_other_forms_witness :
  Swc.resolveImports ("import * as React from " ++ Playground.quoted "react") "@/entry"
  = ("import * as React from " ++ Playground.quoted "react")%string
  /\ Swc.resolveImports "export { a, b }" "@/entry" = "export { a, b }".
Proof.
  apply (resolveImports_leaves_other_forms "React" "react" "a, b" "@/entry"); reflexivity.
Defined.

(** ** The parts of a path *)

Lemma split_parts_noSlash (s : string) : forallb noSlash (Str.split "/" s) = true.
Proof.
  induction s as [| c s IH]; [reflexivity |].
  cbn [Str.split]. destruct (Ascii.eqb c "/") eqn:E; [exact IH |].
  destruct (Str.split "/" s) as [| w ws]; cbn in IH |- *; rewrite E; [reflexivity |].
  exact IH.
Qed.

Lemma forallb_removelast {A} (f : A -> bool) (xs : list A) :
  forallb f xs = true -> forallb f (removelast xs) = true.
Proof.
  induction xs as [| x xs IH]; [reflexivity |].
  cbn [forallb]. intros H. apply andb_prop in H as [Hx Hxs].
  destruct xs as [| y ys]; [reflexivity |].
  change (removelast (x :: y :: ys)) with (x :: removelast (y :: ys)).
  cbn [forallb]. rewrite Hx, (IH Hxs). reflexivity.
Qed.

Lemma normalizeStep_keeps_segments (result : list string) (part : string) :
  forallb segment result = true ->
  noSlash part = true ->
  forallb segment (Esbuild.normalizeStep result part) = true.
Proof.
  intros Hr Hp. unfold Esbuild.normalizeStep.
  destruct (String.eqb part "..") eqn:Edd; [apply forallb_removelast, Hr |].
  destruct (String.eqb part ".") eqn:Ed; [exact Hr |].
  destruct (String.eqb part EmptyString) eqn:Ee; [exact Hr |].
  cbn [negb andb]. rewrite forallb_app, Hr. cbn [forallb].
  unfold segment. rewrite Hp, Ee, Ed, Edd. reflexivity.
Qed.

Lemma normalize_keeps_segments (parts acc : list string) :
  forallb segment acc = true ->
  forallb noSlash parts = true ->
  forallb segment (fold_left Esbuild.normalizeStep parts acc) = true.
Proof.
  revert acc. induction parts as [| p parts IH]; intros acc Hacc Hparts; [exact Hacc |].
  cbn in Hparts. apply andb_prop in Hparts as [Hp Hparts].
  cbn [fold_left]. apply IH; [| exact Hparts].
  apply normalizeStep_keeps_segments; assumption.
Qed.

(** the names [normalizePath] is left with *)
Lemma normalized_names (path : string) :
  forallb segment (fold_left Esbuild.normalizeStep (Str.split "/" path) []) = true.
Proof. apply normalize_keeps_segments; [reflexivity | apply split_parts_noSlash]. Qed.

Lemma split_join_names (names : list string) :
  forallb noSlash names = true ->
  names <> [] ->
  Str.split "/" (Str.join "/" names) = names.
Proof.
  induction names as [| x names IH]; intros H Hne; [contradiction Hne; reflexivity |].
  cbn in H. apply andb_prop in H as [Hx Hnames].
  destruct names as [| y names].
  - cbn. apply split_noSlash, Hx.
  - change (Str.join "/" (x :: y :: names))
      with (x ++ "/" ++ Str.join "/" (y :: names))%string.
    rewrite (split_name_slash _ _ Hx), (IH Hnames); [reflexivity | discriminate].
Qed.

Lemma segment_parts (s : string) :
  segment s = true -> noSlash s = true /\ s <> EmptyString /\ s <> "." /\ s <> "..".
Proof.
  unfold segment. intros H.
  apply andb_prop in H as [H Hdd]. apply andb_prop in H as [H Hd].
  apply andb_prop in H as [Hs He].
  split; [exact Hs |]. repeat split; intros ->; discriminate.
Qed.

(** an absolute path without empty names and dot names is its own
    normal form *)
Lemma normalizePath_absolute_fixed (names : list string) :
  forallb segment names = true ->
  Esbuild.normalizePath ("/" ++ Str.join "/" names) = ("/" ++ Str.join "/" names)%string.
Proof.
  intros H. unfold Esbuild.normalizePath.
  change (Str.startsWith ("/" ++ Str.join "/" names) "@/") with false. cbv iota.
  change (Str.split "/" ("/" ++ Str.join "/" names))
    with (EmptyString :: Str.split "/" (Str.join "/" names)).
  cbn [fold_left]. change (Esbuild.normalizeStep [] EmptyString) with (@nil string).
  destruct names as [| x names]; [reflexivity |].
  rewrite split_join_names;
    [| apply forallb_segment_noSlash, H | discriminate].
  rewrite (normalize_segments _ [] H). reflexivity.
Qed.

Lemma normalizePath_alias_fixed (names : list string) :
  forallb segment names = true ->
  names <> [] ->
  Esbuild.normalizePath (Str.join "/" ("@" :: names)) = Str.join "/" ("@" :: names).
Proof.
  intros H Hne. unfold Esbuild.normalizePath.
  destruct names as [| x names]; [contradiction Hne; reflexivity |].
  change (Str.startsWith (Str.join "/" ("@" :: x :: names)) "@/") with true. cbv iota.
  rewrite split_join_names;
    [| exact (forallb_segment_noSlash _ H) | discriminate].
  rewrite (normalize_segments ("@" :: x :: names) []); [reflexivity | exact H].
Qed.

(** a name other than the alias sign does not look like the alias prefix *)
Lemma join_no_alias_prefix (x : string) (names : list string) :
  segment x = true ->
  x <> "@" ->
  Str.startsWith (Str.join "/" (x :: names)) "@/" = false.
Proof.
  intros Hx Hne. apply segment_parts in Hx as (Hs & He & _ & _).
  assert (Hhead : forall rest, Str.startsWith (x ++ rest) "@/" = false
                               \/ x = "@").
  { intros rest. destruct x as [| c [| d x]]; [contradiction He; reflexivity | |].
    - destruct (Ascii.eqb "@" c) eqn:E.
      + apply Ascii.eqb_eq in E. subst c. right. reflexivity.
      + left. cbn [append Str.startsWith]. rewrite E. reflexivity.
    - left. cbn [noSlash] in Hs. apply andb_prop in Hs as [_ Hs].
      apply andb_prop in Hs as [Hd _]. apply negb_true_iff in Hd.
      cbn [append Str.startsWith]. rewrite (Ascii.eqb_sym "/" d), Hd.
      destruct (Ascii.eqb "@" c); reflexivity. }
  destruct names as [| y names].
  - cbn [Str.join]. destruct (Hhead EmptyString) as [H | H]; [| contradiction].
    rewrite append_empty_r in H. exact H.
  - change (Str.join "/" (x :: y :: names))
      with (x ++ "/" ++ Str.join "/" (y :: names))%string.
    destruct (Hhead ("/" ++ Str.join "/" (y :: names))%string) as [H | H];
      [exact H | contradiction].
Qed.

(** what [normalizePath] returns for a path under the alias is the
    alias sign and at least one name, joined *)
Lemma alias_result_joined (names : list string) :
  forallb segment names = true ->
  names <> [] ->
  exists names',
    forallb segment names' = true /\ names' <> []
    /\ ("@/" ++ Esbuild.stripLeadingAlias (Str.join "/" names))%string
       = Str.join "/" ("@" :: names').
Proof.
  intros H Hne. destruct names as [| x names]; [contradiction Hne; reflexivity |].
  destruct (string_dec x "@") as [-> | Hx].
  - destruct names as [| y names].
    + exists ["@"]. repeat split. discriminate.
    + exists (y :: names). cbn [forallb] in H. apply andb_prop in H as [_ H].
      split; [exact H |]. split; [discriminate | reflexivity].
  - exists (x :: names). split; [exact H |]. split; [discriminate |].
    unfold Esbuild.stripLeadingAlias.
    cbn [forallb] in H. apply andb_prop in H as [Hseg _].
    rewrite (join_no_alias_prefix _ _ Hseg Hx). reflexivity.
Qed.

(** X11. [normalizePath] is idempotent: a path it has returned is
    returned as it is when normalized again.  The one exception is the
    bare alias prefix [@/], which it returns when every name of an
    alias-rooted path was taken back by a step up, and which it turns
    into [@/@]. *)
Theorem normalizePath_is_idempotent (path : string) :
  Esbuild.normalizePath path <> "@/" ->
  Esbuild.normalizePath (Esbuild.normalizePath path) = Esbuild.normalizePath path.
Proof.
  intros Hne. pose proof (normalized_names path) as Hnames.
  unfold Esbuild.normalizePath at 2 3. unfold Esbuild.normalizePath in Hne.
  destruct (Str.startsWith path "@/").
  - destruct (fold_left Esbuild.normalizeStep (Str.split "/" path) []) as [| x names] eqn:E;
      [contradiction Hne; reflexivity |].
    destruct (alias_result_joined (x :: names) Hnames) as (names' & H' & Hne' & ->);
      [discriminate |].
    apply normalizePath_alias_fixed; assumption.
  - apply normalizePath_absolute_fixed, Hnames.
Qed.

Lemma normalizePath_is_idempotent_witness :
  Esbuild.normalizePath "/src/./components//ui/../a.js" = "/src/components/a.js"
  /\ Esbuild.normalizePath (Esbuild.normalizePath "/src/./components//ui/../a.js")
     = Esbuild.normalizePath "/src/./components//ui/../a.js"
  /\ Esbuild.normalizePath (Esbuild.normalizePath "@/lib/../x")
     = Esbuild.normalizePath "@/lib/../x"
  /\ Esbuild.normalizePath "@/.." = "@/"
  /\ Esbuild.normalizePath "@/" = "@/@".
Proof.
  split; [reflexivity |]. split; [| split; [| split; reflexivity]].
  - apply (normalizePath_is_idempotent "/src/./components//ui/../a.js"). discriminate.
  - apply (normalizePath_is_idempotent "@/lib/../x"). discriminate.
Defined.

Lemma segments_no_dot_names (names : list string) :
  forallb segment names = true ->
  forallb (fun part => negb (String.eqb part ".") && negb (String.eqb part "..")) names
  = true.
Proof.
  induction names as [| x names IH]; [reflexivity |].
  cbn [forallb]. intros H. apply andb_prop in H as [Hx Hnames].
  rewrite (IH Hnames). unfold segment in Hx.
  apply andb_prop in Hx as [Hx Hdd]. apply andb_prop in Hx as [_ Hd].
  rewrite Hd, Hdd. reflexivity.
Qed.

(** X10. Whatever the path, what [normalizePath] returns begins with
    [/] or with [@/], and none of its parts between slashes is [.] or
    [..]: every step up and every step in place is resolved, steps
    above the root included. *)
Theorem normalizePath_leaves_no_dot_names (path : string) :
  (Str.startsWith (Esbuild.normalizePath path) "/" = true
   \/ Str.startsWith (Esbuild.normalizePath path) "@/" = true)
  /\ forallb (fun part => negb (String.eqb part ".") && negb (String.eqb part ".."))
             (Str.split "/" (Esbuild.normalizePath path))
     = true.
Proof.
  pose proof (normalized_names path) as Hnames.
  unfold Esbuild.normalizePath.
  destruct (Str.startsWith path "@/").
  - split; [right; reflexivity |].
    destruct (fold_left Esbuild.normalizeStep (Str.split "/" path) []) as [| x names];
      [reflexivity |].
    destruct (alias_result_joined (x :: names) Hnames) as (names' & H' & Hne' & ->);
      [discriminate |].
    rewrite split_join_names; [| exact (forallb_segment_noSlash _ H') | discriminate].
    exact (segments_no_dot_names _ H').
  - split; [left; reflexivity |].
    change (Str.split "/" ("/" ++ ?s)) with (EmptyString :: Str.split "/" s).
    destruct (fold_left Esbuild.normalizeStep (Str.split "/" path) []) as [| x names];
      [reflexivity |].
    rewrite split_join_names; [| apply forallb_segment_noSlash, Hnames | discriminate].
    exact (segments_no_dot_names _ Hnames).
Qed.

(** ** The resolve callback *)

Lemma external_starts_with_react (path : string) :
  isExternal path = true -> Str.startsWith path "react" = true.
Proof.
  intros H. apply isExternal_true_inv in H.
  destruct H as [-> | [-> | [H | H]]]; try reflexivity.
  - exact (startsWith_prefix path "react" "/" H).
  - exact (startsWith_prefix path "react" "-dom/" H).
Qed.

(** X12. The resolve callback returns [null], and so leaves the
    specifier to the bundler's own resolution, exactly for the
    specifiers that begin with [/] or with [.] and are not relative
    imports ([./] or [../]) of a file in the virtual namespace.  A
    relative import of a file outside that namespace is among them. *)
Theorem onResolve_declines_exactly (args : Esbuild.ResolveArgs) :
  Esbuild.onResolve args = Esbuild.Null
  <-> (Str.startsWith (Esbuild.path args) "/" || Str.startsWith (Esbuild.path args) ".")
      && negb (String.eqb (Esbuild.namespace args) "virtual"
               && (Str.startsWith (Esbuild.path args) "./"
                   || Str.startsWith (Esbuild.path args) "../"))
      = true.
Proof.
  destruct args as [p ns importer]. unfold Esbuild.onResolve.
  cbn [Esbuild.path Esbuild.namespace Esbuild.importer].
  destruct (isExternal p) eqn:Hext.
  - apply external_starts_with_react in Hext.
    destruct p as [| c p]; [discriminate Hext |].
    cbn [Str.startsWith] in Hext |- *.
    destruct (Ascii.eqb_spec "r" c) as [<- |]; [| discriminate Hext].
    cbn. split; intros H; discriminate H.
  - destruct (Str.startsWith p "@/") eqn:Halias.
    + destruct p as [| c p]; [discriminate Halias |].
      cbn [Str.startsWith] in Halias |- *.
      destruct (Ascii.eqb_spec "@" c) as [<- |]; [| discriminate Halias].
      cbn. split; intros H; discriminate H.
    + destruct (String.eqb ns "virtual" && (Str.startsWith p "./" || Str.startsWith p "../")).
      * rewrite andb_false_r. split; intros H; discriminate H.
      * rewrite andb_true_r.
        destruct (Str.startsWith p "/"), (Str.startsWith p "."); cbn;
          split; intros H; (reflexivity || discriminate H).
Qed.

Lemma map_set {V W} (g : V -> W) (m : OMap.t V) (k : string) (v : V) :
  map (fun entry => (fst entry, g (snd entry))) (OMap.set m k v)
  = OMap.set (map (fun entry => (fst entry, g (snd entry))) m) k (g v).
Proof.
  induction m as [| [k' v'] m IH]; cbn; [reflexivity |].
  destruct (String.eqb k k'); cbn; [reflexivity | rewrite IH; reflexivity].
Qed.

Lemma coherent_cacheTransformed this p data text :
  coherent this -> coherent (cacheTransformed this p data text).
Proof.
  unfold coherent. intros H. cbn. rewrite map_set, H. reflexivity.
Qed.

Lemma coherent_cleared clear this : coherent this -> coherent (cleared clear this).
Proof. destruct clear; [intros _; reflexivity | tauto]. Qed.

Lemma coherent_loadSummary env loaded p b this :
  coherent this -> coherent (snd (loadSummary env loaded p b this)).
Proof.
  intros H. load_cases env loaded p b this; cbn; try exact H.
  apply coherent_cacheTransformed, H.
Qed.

Lemma coherent_dependenciesSummary env loaded b imports this :
  coherent this -> coherent (snd (dependenciesSummary env loaded b imports this)).
Proof.
  revert this. induction imports as [| d ds IH]; intros this H; cbn; [exact H |].
  pose proof (coherent_loadSummary env loaded d b this H) as Hstep.
  rewrite <- dependencySummary_this in Hstep.
  destruct (dependencySummary env loaded b this d) as [[e1 l1] this1]. cbn in Hstep.
  specialize (IH this1 Hstep).
  destruct (dependenciesSummary env loaded b ds this1) as [[e2 l2] this2]. exact IH.
Qed.

Lemma coherent_compileSummary env loaded options this :
  coherent this -> coherent (snd (compileSummary env loaded options this)).
Proof.
  intros H. unfold compileSummary.
  pose proof (coherent_loadSummary env loaded (entryOf options) (baseOf options) _
                                   (coherent_cleared (clearOf options) _ H)) as H1.
  destruct (loadSummary env loaded (entryOf options) (baseOf options)
                        (cleared (clearOf options) this))
    as [[[text | e] [events lines]] this1]; cbn in H1 |- *; [| exact H1].
  pose proof (coherent_dependenciesSummary env loaded (baseOf options)
                                           (Swc.extractImports text) this1 H1) as H2.
  destruct (dependenciesSummary env loaded (baseOf options) (Swc.extractImports text) this1)
    as [[events2 lines2] this2].
  exact H2.
Qed.

Lemma replay_this {A} w (s : Summary A) : snd (snd (replay w s)) = snd s.
Proof. destruct s as [[r [events lines]] this]. reflexivity. Qed.

(** X14. The two caches of a [SwcRunner] stay in step.  When
    [transformedFiles] holds, for the same paths in the same order, the
    [transformed] text of what [fileCache] holds, the same is true
    after [loadAndTransformFile], after [transformDependencies] and
    after [compile], whatever they return. *)
Theorem swc_caches_stay_coherent (env : Swc.Env) (w : World) (this : Swc.Runner) :
  coherent this ->
  (forall modulePath baseUrl,
      coherent (snd (snd (Swc.loadAndTransformFile env modulePath baseUrl (w, this)))))
  /\ (forall code baseUrl,
         coherent (snd (snd (Swc.transformDependencies env code baseUrl (w, this)))))
  /\ (forall options, coherent (snd (snd (Swc.compile env options (w, this))))).
Proof.
  intros H. split; [| split].
  - intros p b. rewrite loadAndTransformFile_summary, replay_this.
    apply coherent_loadSummary, H.
  - intros code b. unfold Swc.transformDependencies.
    rewrite forOf_dependencies_summary.
    pose proof (coherent_dependenciesSummary env (swcLoaded w) b
                                             (Swc.extractImports code) this H) as Hd.
    destruct (dependenciesSummary env (swcLoaded w) b (Swc.extractImports code) this)
      as [[events lines] this']. exact Hd.
  - intros options. destruct (swcInitialized w) eqn:Hinit.
    + rewrite (swc_compile_ready _ _ _ _ Hinit), compileBody_summary, replay_this.
      apply coherent_compileSummary, H.
    + rewrite (swc_compile_not_ready _ _ _ _ Hinit). exact H.
Qed.

Lemma swc_caches_stay_coherent_witness :
  coherent Swc.new
  /\ coherent (snd chainCompiled)
  /\ OMap.keys (Swc.fileCache (snd chainCompiled)) = ["@/entry"; "@/a"].
Proof.
  split; [reflexivity |]. split; [| reflexivity].
  exact (proj2 (proj2 (swc_caches_stay_coherent
                         (Playground.swcEnv Playground.chain)
                         (fst swcPageReady) (snd swcPageReady) eq_refl))
               noOptions).
Defined.

(** ** A compile that rejects *)

(** X17. A [compile] of [SwcRunner] that rejects has cached nothing:
    the instance is the one it began with, emptied when the class is
    initialized and [clearCache] was asked.  The root element and the
    documents of the page are untouched, and when the class is not
    initialized the page is untouched altogether and the error is the
    one of the missing initialization. *)
Theorem swc_rejected_compile_caches_nothing
        (env : Swc.Env) (options : Options) (w w' : World) (this this' : Swc.Runner)
        (e : Error) :
  Swc.compile env options (w, this) = (Throw e, (w', this')) ->
  this' = (if swcInitialized w then cleared (clearOf options) this else this)
  /\ hostRoot w' = hostRoot w
  /\ blobs w' = blobs w
  /\ (swcInitialized w = false -> w' = w /\ e = Swc.notInitialized).
Proof.
  intros H. destruct (swcInitialized w) eqn:Hinit.
  - rewrite (swc_compile_ready _ _ _ _ Hinit), compileBody_summary in H.
    unfold compileSummary in H.
    pose proof (loadSummary_outcome env (swcLoaded w) (entryOf options) (baseOf options)
                                    (cleared (clearOf options) this)) as Hout.
    destruct (loadSummary env (swcLoaded w) (entryOf options) (baseOf options)
                          (cleared (clearOf options) this))
      as [[[text | e1] [events lines]] this1].
    + destruct (dependenciesSummary env (swcLoaded w) (baseOf options)
                                    (Swc.extractImports text) this1)
        as [[events2 lines2] this2].
      discriminate H.
    + cbn [replay] in H. injection H as _ <- <-.
      split; [exact Hout |]. split; [reflexivity |]. split; [reflexivity |].
      intros Hfalse. discriminate Hfalse.
  - rewrite (swc_compile_not_ready _ _ _ _ Hinit) in H. injection H as <- <- <-.
    repeat split.
Qed.

Lemma swc_rejected_compile_caches_nothing_witness :
  exists w',
    Swc.compile (Playground.swcEnv []) clearFirst chainCompiled
    = (Throw (notFound "@/entry"), (w', Swc.new))
    /\ hostRoot w' = hostRoot (fst chainCompiled).
Proof.
  destruct (Swc.compile (Playground.swcEnv []) clearFirst chainCompiled)
    as [[result | e] [w' this']] eqn:E; [vm_compute in E; discriminate E |].
  destruct (swc_rejected_compile_caches_nothing
              (Playground.swcEnv []) clearFirst (fst chainCompiled) w'
              (snd chainCompiled) this' e E) as (Hthis & Hroot & _ & _).
  exists w'. split; [| exact Hroot].
  assert (He : e = notFound "@/entry").
  { vm_compute in E. injection E as <- _ _. reflexivity. }
  rewrite He, Hthis. reflexivity.
Defined.

(** ** The module map *)

Lemma get_Some_In {V} (m : OMap.t V) (k : string) (v : V) :
  OMap.get m k = Some v -> In (k, v) m.
Proof.
  induction m as [| [k' v'] m IH]; cbn; [discriminate |].
  destruct (String.eqb_spec k k') as [-> |].
  - intros H. injection H as ->. left. reflexivity.
  - intros H. right. exact (IH H).
Qed.

Lemma get_Some_key {V} (m : OMap.t V) (k : string) (v : V) :
  OMap.get m k = Some v -> In k (OMap.keys m).
Proof.
  intros H. apply get_Some_In in H. unfold OMap.keys.
  apply in_map_iff. exists (k, v). split; [reflexivity | exact H].
Qed.

Lemma In_keys_set {V} (m : OMap.t V) (k k' : string) (v : V) :
  In k' (OMap.keys (OMap.set m k v)) <-> In k' (OMap.keys m) \/ k' = k.
Proof.
  rewrite keys_set. unfold OMap.has.
  destruct (OMap.get m k) as [v0 |] eqn:E.
  - split; [tauto |]. intros [H | ->]; [exact H | exact (get_Some_key _ _ _ E)].
  - rewrite in_app_iff. cbn. split; intros [H | H]; try tauto.
    + destruct H as [<- | []]. right. reflexivity.
    + right. left. symmetry. exact H.
Qed.

Lemma In_keys_fold (entries : list (string * string)) (m : OMap.t string) (k : string) :
  In k (OMap.keys (fold_left Swc.addToModuleMap entries m))
  <-> In k (OMap.keys m) \/ exists p, In p (map fst entries) /\ k = Swc.registryPath p.
Proof.
  revert m. induction entries as [| [q c] entries IH]; intros m; cbn [fold_left map].
  - split; [tauto |]. intros [H | (p & [] & _)]. exact H.
  - rewrite IH. change (Swc.addToModuleMap m (q, c))
      with (OMap.set m (Swc.registryPath q) (Swc.resolveImports c q)).
    rewrite In_keys_set. cbn [fst In].
    split.
    + intros [[H | ->] | (p & Hp & ->)].
      * left. exact H.
      * right. exists q. split; [left; reflexivity | reflexivity].
      * right. exists p. split; [right; exact Hp | reflexivity].
    + intros [H | (p & [<- | Hp] & ->)].
      * left. left. exact H.
      * left. right. reflexivity.
      * right. exists p. split; [exact Hp | reflexivity].
Qed.

Lemma get_fold_other (entries : list (string * string)) (m : OMap.t string) (k : string) :
  (forall q, In q (map fst entries) -> Swc.registryPath q <> k) ->
  OMap.get (fold_left Swc.addToModuleMap entries m) k = OMap.get m k.
Proof.
  revert m. induction entries as [| [q c] entries IH]; intros m Hother; [reflexivity |].
  cbn [fold_left]. rewrite IH.
  - unfold Swc.addToModuleMap. apply get_set_other.
    intros Hk. apply (Hother q); [left; reflexivity | symmetry; exact Hk].
  - intros q' Hq'. apply Hother. right. exact Hq'.
Qed.

Lemma get_fold_registered (entries : list (string * string)) (m : OMap.t string)
      (p text : string) :
  NoDup (map fst entries) ->
  In (p, text) entries ->
  (forall q, In q (map fst entries) -> Swc.registryPath q = Swc.registryPath p -> q = p) ->
  OMap.get (fold_left Swc.addToModuleMap entries m) (Swc.registryPath p)
  = Some (Swc.resolveImports text p).
Proof.
  revert m. induction entries as [| [q c] entries IH]; intros m Hnd Hin Hinj;
    [destruct Hin |].
  cbn [map fst] in Hnd. inversion Hnd as [| ? ? Hq Hnd']; subst.
  cbn [fold_left]. destruct Hin as [Heq | Hin].
  - injection Heq as -> ->.
    rewrite get_fold_other.
    + unfold Swc.addToModuleMap. apply get_set_same.
    + intros q Hq' Hsame. apply Hq.
      rewrite <- (Hinj q (or_intror Hq') Hsame). exact Hq'.
  - apply IH; [exact Hnd' | exact Hin |].
    intros q' Hq'. apply Hinj. right. exact Hq'.
Qed.

(** what a compile that resolves has gone through *)
Lemma swc_compile_Ok_inv env options w this result w' this' :
  Swc.compile env options (w, this) = (Ok result, (w', this')) ->
  exists text events lines this1,
    loadSummary env (swcLoaded w) (entryOf options) (baseOf options)
                (cleared (clearOf options) this)
    = (Ok text, (events, lines), this1)
    /\ this' = snd (dependenciesSummary env (swcLoaded w) (baseOf options)
                                        (Swc.extractImports text) this1)
    /\ result = assemble (entryOf options) text this'
    /\ OMap.get (Swc.transformedFiles this') (entryOf options) = Some text.
Proof.
  intros H. pose proof (swc_compile_Ok_initialized _ _ _ _ _ _ H) as Hinit.
  rewrite (swc_compile_ready _ _ _ _ Hinit), compileBody_summary in H.
  unfold compileSummary in H.
  pose proof (loadSummary_outcome env (swcLoaded w) (entryOf options) (baseOf options)
                                  (cleared (clearOf options) this)) as Hout.
  destruct (loadSummary env (swcLoaded w) (entryOf options) (baseOf options)
                        (cleared (clearOf options) this))
    as [[[text | e] [events lines]] this1]; [| discriminate H].
  pose proof (dependenciesSummary_cache env (swcLoaded w) (baseOf options)
                                        (Swc.extractImports text) this1) as (_ & Hkeep & _).
  destruct (dependenciesSummary env (swcLoaded w) (baseOf options)
                                (Swc.extractImports text) this1)
    as [[events2 lines2] this2] eqn:Hdeps.
  cbn [replay] in H. injection H as <- _ <-.
  exists text, events, lines, this1. cbn [snd] in *.
  split; [reflexivity |]. split; [rewrite Hdeps; reflexivity |].
  split; [reflexivity |]. exact (Hkeep _ _ Hout).
Qed.

(** X19. When [compile] of [SwcRunner] fulfils, the keys of the module
    map are exactly the registry paths of the files the cache holds
    afterwards: files kept from earlier compiles are registered along
    with those of this one.  The entry point of the result is the
    registry path of the entry and is among the keys, and no warning is
    returned. *)
Theorem swc_module_map_registers_the_whole_cache
        (env : Swc.Env) (options : Options) (w w' : World) (this this' : Swc.Runner)
        (result : Swc.BuildResult) :
  Swc.compile env options (w, this) = (Ok result, (w', this')) ->
  Swc.resultEntryPoint result = Swc.registryPath (entryOf options)
  /\ In (Swc.resultEntryPoint result) (OMap.keys (Swc.moduleMap result))
  /\ Swc.warnings result = []
  /\ forall k, In k (OMap.keys (Swc.moduleMap result))
               <-> exists p, In p (OMap.keys (Swc.transformedFiles this'))
                             /\ k = Swc.registryPath p.
Proof.
  intros H.
  destruct (swc_compile_Ok_inv _ _ _ _ _ _ _ H) as (text & events & lines & this1 & _ & _ & -> & Hentry).
  assert (Hkeys : forall k, In k (OMap.keys (Swc.moduleMap (assemble (entryOf options) text this')))
                            <-> exists p, In p (OMap.keys (Swc.transformedFiles this'))
                                          /\ k = Swc.registryPath p).
  { intros k. unfold assemble. cbn [Swc.moduleMap]. rewrite In_keys_fold.
    unfold OMap.entries, OMap.keys. cbn [OMap.set OMap.empty map fst In]. split.
    - intros [[<- | []] | Hp]; [| exact Hp].
      exists (entryOf options). split; [| reflexivity].
      exact (get_Some_key _ _ _ Hentry).
    - intros Hp. right. exact Hp. }
  split; [reflexivity |]. split; [| split; [reflexivity | exact Hkeys]].
  apply Hkeys. exists (entryOf options). split; [| reflexivity].
  exact (get_Some_key _ _ _ Hentry).
Qed.

Lemma swc_module_map_registers_the_whole_cache_witness :
  OMap.keys (Swc.transformedFiles (snd chainCompiled)) = ["@/entry"; "@/a"]
  /\ exists result w' this',
      bAfterChain = (Ok result, (w', this'))
      /\ OMap.keys (Swc.moduleMap result) = ["/src/b.js"; "/src/entry.js"; "/src/a.js"]
      /\ In (Swc.resultEntryPoint result) (OMap.keys (Swc.moduleMap result)).
Proof.
  split; [reflexivity |].
  eexists. eexists. eexists. split; [reflexivity |]. split; [reflexivity |].
  refine (proj1 (proj2 (swc_module_map_registers_the_whole_cache
                          (Playground.swcEnv Playground.chain) entryB
                          (fst chainCompiled) _ (snd chainCompiled) _ _ _))).
  vm_compute. reflexivity.
Defined.

Lemma NoDup_keys_compile env options w this result w' this' :
  Swc.compile env options (w, this) = (Ok result, (w', this')) ->
  NoDup (OMap.keys (Swc.transformedFiles this)) ->
  NoDup (OMap.keys (Swc.transformedFiles this')).
Proof.
  intros H Hnd.
  destruct (swc_compile_Ok_inv _ _ _ _ _ _ _ H)
    as (text & events & lines & this1 & Hload & -> & _ & _).
  apply NoDup_keys_dependenciesSummary.
  pose proof (NoDup_keys_loadSummary env (swcLoaded w) (entryOf options) (baseOf options)
                                     (cleared (clearOf options) this)
                                     (NoDup_keys_cleared _ _ Hnd)) as H1.
  rewrite Hload in H1. exact H1.
Qed.

(** X20. When [compile] of [SwcRunner] fulfils, the module map holds,
    under the registry path of a cached file, the transformed text of
    that file with its imports rewritten.  This holds for a cache that
    named no path twice when the compile began, and for a file whose
    registry path is shared by no other cached file. *)
Theorem swc_module_map_holds_the_rewritten_text
        (env : Swc.Env) (options : Options) (w w' : World) (this this' : Swc.Runner)
        (result : Swc.BuildResult) (p text : string) :
  Swc.compile env options (w, this) = (Ok result, (w', this')) ->
  NoDup (OMap.keys (Swc.transformedFiles this)) ->
  OMap.get (Swc.transformedFiles this') p = Some text ->
  (forall q, In q (OMap.keys (Swc.transformedFiles this')) ->
             Swc.registryPath q = Swc.registryPath p -> q = p) ->
  OMap.get (Swc.moduleMap result) (Swc.registryPath p)
  = Some (Swc.resolveImports text p).
Proof.
  intros H Hnd Hp Hinj.
  pose proof (NoDup_keys_compile _ _ _ _ _ _ _ H Hnd) as Hnd'.
  destruct (swc_compile_Ok_inv _ _ _ _ _ _ _ H)
    as (text0 & events & lines & this1 & _ & _ & -> & _).
  unfold assemble. cbn [Swc.moduleMap].
  apply get_fold_registered; [exact Hnd' | apply get_Some_In, Hp | exact Hinj].
Qed.

Lemma swc_module_map_holds_the_rewritten_text_witness :
  exists result w' this',
    bAfterChain = (Ok result, (w', this'))
    /\ OMap.get (Swc.moduleMap result) "/src/a.js"
       = Some (Swc.resolveImports ("import B from " ++ Playground.quoted "@/b" ++ ";") "@/a").
Proof.
  eexists. eexists. eexists. split; [reflexivity |].
  refine (swc_module_map_holds_the_rewritten_text
            (Playground.swcEnv Playground.chain) entryB
            (fst chainCompiled) _ (snd chainCompiled) _ _ "@/a" _ _ _ _ _).
  - vm_compute. reflexivity.
  - repeat constructor; cbn; intros Hin;
      repeat (destruct Hin as [Hin | Hin]; [discriminate Hin |]); exact Hin.
  - reflexivity.
  - intros q Hq Hsame. cbn in Hq.
    destruct Hq as [<- | [<- | [<- | []]]];
      [discriminate Hsame | reflexivity | discriminate Hsame].
Defined.

(** ** What a compile asks for, and what it keeps *)

Lemma loadSummary_requests env loaded p b this :
  forall ev, In ev (fst (snd (fst (loadSummary env loaded p b this)))) ->
             ev = Fetch p b \/ ev = Transform p.
Proof.
  load_cases env loaded p b this; cbn; intros ev Hev;
    repeat (destruct Hev as [<- | Hev]; [tauto |]); destruct Hev.
Qed.

Lemma dependenciesSummary_requests env loaded b imports this :
  forall ev, In ev (fst (fst (dependenciesSummary env loaded b imports this))) ->
             exists d, In d imports /\ (ev = Fetch d b \/ ev = Transform d).
Proof.
  revert this. induction imports as [| d ds IH]; intros this ev; cbn; [intros [] |].
  pose proof (loadSummary_requests env loaded d b this) as Hstep.
  rewrite <- dependencySummary_events in Hstep.
  destruct (dependencySummary env loaded b this d) as [[e1 l1] this1]. cbn in Hstep.
  specialize (IH this1).
  destruct (dependenciesSummary env loaded b ds this1) as [[e2 l2] this2]. cbn in IH |- *.
  intros Hev. apply in_app_or in Hev as [Hev | Hev].
  - exists d. split; [left; reflexivity | exact (Hstep _ Hev)].
  - destruct (IH _ Hev) as (d' & Hd' & Hcase). exists d'. split; [right; exact Hd' | exact Hcase].
Qed.

Lemma extractImports_alias (code p : string) :
  In p (Swc.extractImports code) -> Str.startsWith p "@/" = true.
Proof.
  intros Hp. unfold Swc.extractImports, Str.dedup in Hp.
  apply (proj2 (dedupFrom_spec [] _)) in Hp as [Hp _].
  apply in_map_iff in Hp as (m & <- & Hm).
  apply matches_go_sound in Hm as (t & Ht).
  destruct (importRegex_capture _ _ Ht) as (x & _ & _ & Hg).
  unfold Re.group. rewrite Hg. reflexivity.
Qed.

(** X16. Whatever it returns, [compile] of [SwcRunner] only adds to
    the record of requests, and every request it adds is a fetch under
    the base of the options, or a transform, of the entry or of an
    alias-rooted path: nothing outside the alias is asked for on behalf
    of an import. *)
Theorem swc_compile_requests
        (env : Swc.Env) (options : Options) (w w' : World) (this this' : Swc.Runner)
        (outcome : Result Swc.BuildResult) :
  Swc.compile env options (w, this) = (outcome, (w', this')) ->
  exists events,
    trace w' = trace w ++ events
    /\ forall ev, In ev events ->
                  exists p, (ev = Fetch p (baseOf options) \/ ev = Transform p)
                            /\ (p = entryOf options \/ Str.startsWith p "@/" = true).
Proof.
  intros H. destruct (swcInitialized w) eqn:Hinit.
  - rewrite (swc_compile_ready _ _ _ _ Hinit), compileBody_summary in H.
    unfold compileSummary in H.
    pose proof (loadSummary_requests env (swcLoaded w) (entryOf options) (baseOf options)
                                     (cleared (clearOf options) this)) as Hentry.
    destruct (loadSummary env (swcLoaded w) (entryOf options) (baseOf options)
                          (cleared (clearOf options) this))
      as [[[text | e] [events1 lines1]] this1]; cbn in Hentry.
    + pose proof (dependenciesSummary_requests env (swcLoaded w) (baseOf options)
                                               (Swc.extractImports text) this1) as Hdeps.
      destruct (dependenciesSummary env (swcLoaded w) (baseOf options)
                                    (Swc.extractImports text) this1)
        as [[events2 lines2] this2].
      cbn in Hdeps. cbn [replay] in H. injection H as _ <- _.
      exists (events1 ++ events2). split; [reflexivity |].
      intros ev Hev. apply in_app_or in Hev as [Hev | Hev].
      * exists (entryOf options). split; [exact (Hentry _ Hev) | left; reflexivity].
      * destruct (Hdeps _ Hev) as (d & Hd & Hcase).
        exists d. split; [exact Hcase | right; exact (extractImports_alias _ _ Hd)].
    + cbn [replay] in H. injection H as _ <- _.
      exists events1. split; [reflexivity |].
      intros ev Hev. exists (entryOf options).
      split; [exact (Hentry _ Hev) | left; reflexivity].
  - rewrite (swc_compile_not_ready _ _ _ _ Hinit) in H. injection H as _ <- _.
    exists []. split; [rewrite app_nil_r; reflexivity | intros ev []].
Qed.

Lemma swc_compile_requests_witness :
  exists events,
    trace (fst chainCompiled) = trace (fst swcPageReady) ++ events
    /\ forall ev, In ev events ->
                  exists p, (ev = Fetch p "/src" \/ ev = Transform p)
                            /\ (p = "@/entry" \/ Str.startsWith p "@/" = true).
Proof.
  refine (swc_compile_requests (Playground.swcEnv Playground.chain) noOptions
                               (fst swcPageReady) (fst chainCompiled)
                               (snd swcPageReady) (snd chainCompiled) _ _).
  vm_compute. reflexivity.
Defined.

Lemma loadSummary_sound env loaded p b this :
  forall q t,
    OMap.get (Swc.transformedFiles (snd (loadSummary env loaded p b this))) q = Some t ->
    OMap.get (Swc.transformedFiles this) q = Some t
    \/ exists data, Swc.fetchSourceFile env q b = Ok data
                    /\ Swc.transformSync env (contents data) q = Ok t.
Proof.
  load_cases env loaded p b this; cbn; intros q t Hq; try (left; exact Hq).
  destruct (string_dec q p) as [-> | Hne].
  - rewrite get_set_same in Hq. injection Hq as <-.
    right. exists data. split; assumption.
  - rewrite (get_set_other _ _ _ _ Hne) in Hq. left. exact Hq.
Qed.

Lemma dependenciesSummary_sound env loaded b imports this :
  forall q t,
    OMap.get (Swc.transformedFiles (snd (dependenciesSummary env loaded b imports this))) q
    = Some t ->
    OMap.get (Swc.transformedFiles this) q = Some t
    \/ exists data, Swc.fetchSourceFile env q b = Ok data
                    /\ Swc.transformSync env (contents data) q = Ok t.
Proof.
  revert this. induction imports as [| d ds IH]; intros this q t; cbn; [tauto |].
  pose proof (loadSummary_sound env loaded d b this) as Hstep.
  rewrite <- dependencySummary_this in Hstep.
  destruct (dependencySummary env loaded b this d) as [[e1 l1] this1]. cbn in Hstep.
  specialize (IH this1).
  destruct (dependenciesSummary env loaded b ds this1) as [[e2 l2] this2]. cbn in IH |- *.
  intros Hq. destruct (IH _ _ Hq) as [Hold | Hnew]; [| right; exact Hnew].
  exact (Hstep _ _ Hold).
Qed.

(** X15. Whatever [compile] of [SwcRunner] returns, what
    [transformedFiles] holds for a path afterwards was either held for
    it before, or is what the engine returned for the contents that
    were fetched for that path under the base of the options. *)
Theorem swc_cache_holds_what_the_engine_returned
        (env : Swc.Env) (options : Options) (w w' : World) (this this' : Swc.Runner)
        (outcome : Result Swc.BuildResult) (q t : string) :
  Swc.compile env options (w, this) = (outcome, (w', this')) ->
  OMap.get (Swc.transformedFiles this') q = Some t ->
  OMap.get (Swc.transformedFiles this) q = Some t
  \/ exists data, Swc.fetchSourceFile env q (baseOf options) = Ok data
                  /\ Swc.transformSync env (contents data) q = Ok t.
Proof.
  intros H Hq.
  assert (Hcleared : forall q t, OMap.get (Swc.transformedFiles (cleared (clearOf options) this)) q
                                 = Some t ->
                                 OMap.get (Swc.transformedFiles this) q = Some t).
  { intros q0 t0. destruct (clearOf options); cbn; [discriminate | tauto]. }
  destruct (swcInitialized w) eqn:Hinit.
  - rewrite (swc_compile_ready _ _ _ _ Hinit), compileBody_summary in H.
    unfold compileSummary in H.
    pose proof (loadSummary_sound env (swcLoaded w) (entryOf options) (baseOf options)
                                  (cleared (clearOf options) this)) as Hentry.
    destruct (loadSummary env (swcLoaded w) (entryOf options) (baseOf options)
                          (cleared (clearOf options) this))
      as [[[text | e] [events1 lines1]] this1]; cbn in Hentry.
    + pose proof (dependenciesSummary_sound env (swcLoaded w) (baseOf options)
                                            (Swc.extractImports text) this1) as Hdeps.
      destruct (dependenciesSummary env (swcLoaded w) (baseOf options)
                                    (Swc.extractImports text) this1)
        as [[events2 lines2] this2].
      cbn in Hdeps. cbn [replay] in H. injection H as _ _ <-.
      destruct (Hdeps _ _ Hq) as [Hold | Hnew]; [| right; exact Hnew].
      destruct (Hentry _ _ Hold) as [Hold' | Hnew]; [| right; exact Hnew].
      left. exact (Hcleared _ _ Hold').
    + cbn [replay] in H. injection H as _ _ <-.
      destruct (Hentry _ _ Hq) as [Hold' | Hnew]; [| right; exact Hnew].
      left. exact (Hcleared _ _ Hold').
  - rewrite (swc_compile_not_ready _ _ _ _ Hinit) in H. injection H as _ _ <-.
    left. exact Hq.
Qed.

Lemma swc_cache_holds_what_the_engine_returned_witness :
  OMap.get (Swc.transformedFiles (snd swcPageReady)) "@/a"
  = Some ("import B from " ++ Playground.quoted "@/b" ++ ";")%string
  \/ exists data,
      Playground.serve Playground.chain "@/a" "/src" = Ok data
      /\ Playground.passThrough (contents data) "@/a"
         = Ok ("import B from " ++ Playground.quoted "@/b" ++ ";")%string.
Proof.
  refine (swc_cache_holds_what_the_engine_returned
            (Playground.swcEnv Playground.chain) noOptions
            (fst swcPageReady) (fst chainCompiled) (snd swcPageReady) (snd chainCompiled)
            _ "@/a" _ _ _).
  - vm_compute. reflexivity.
  - reflexivity.
Defined.

(** ** An engine that does not come up *)

Lemma swc_initialize_failure env w this e w' this' :
  Swc.initialize env (w, this) = (Throw e, (w', this')) ->
  swcInitialized w' = false
  /\ swcLoaded w' = swcLoaded w
  /\ this' = this
  /\ console w' = console w ++ [(ErrorLevel, ("[swc] Init error: " ++ message e)%string)]
  /\ (Swc.importModule env "https://esm.sh/@swc/wasm-web" = Throw e
      \/ Swc.initSwc env = Throw e).
Proof.
  unfold Swc.initialize, bind, getWorld. cbn.
  destruct (swcInitialized w) eqn:Hflag; [unfold ret; intros H; discriminate H |].
  unfold tryCatch, bind, emit, modifyWorld, liftResult, consoleLog, consoleError. cbn.
  destruct (Swc.importModule env _) as [[] | e1] eqn:Himport; cbn.
  - destruct (Swc.initSwc env) as [[] | e2] eqn:Hinit; cbn; unfold throw, ret; intros H;
      [discriminate H |].
    injection H as <- <- <-. cbn. repeat split; try assumption. right. reflexivity.
  - unfold throw. intros H. injection H as <- <- <-. cbn.
    repeat split; try assumption. left. reflexivity.
Qed.

Lemma esbuild_initialize_failure env w this e w' this' :
  Esbuild.initialize env (w, this) = (Throw e, (w', this')) ->
  esbuildInitialized w' = false
  /\ this' = this
  /\ console w' = console w ++ [(ErrorLevel, ("[esbuild] Init error: " ++ message e)%string)]
  /\ ((Esbuild.importModule env "https://unpkg.com/esbuild-wasm@0.27.1/esm/browser.js"
       = Throw e
       /\ esbuildLoaded w' = esbuildLoaded w)
      \/ (Esbuild.engineInitialize env "https://unpkg.com/esbuild-wasm@0.27.1/esbuild.wasm"
          = Throw e
          /\ esbuildLoaded w' = true)).
Proof.
  unfold Esbuild.initialize, bind, getWorld. cbn.
  destruct (esbuildInitialized w) eqn:Hflag; [unfold ret; intros H; discriminate H |].
  unfold tryCatch, bind, emit, modifyWorld, liftResult, consoleLog, consoleError. cbn.
  destruct (Esbuild.importModule env _) as [[] | e1] eqn:Himport; cbn.
  - destruct (Esbuild.engineInitialize env _) as [[] | e2] eqn:Hinit; cbn;
      unfold throw, ret; intros H; [discriminate H |].
    injection H as <- <- <-. cbn. repeat split; try assumption. right. split; reflexivity.
  - unfold throw. intros H. injection H as <- <- <-. cbn.
    repeat split; try assumption. left. split; reflexivity.
Qed.

(** X21. When [initialize] rejects, in either class, the error is the
    one of the step that failed (the import of the engine, or its
    set-up), the flag of the class is down, the instance is as it was,
    and the last line printed is the init error with its message.  A
    [compileAndRun] on that page then rejects for the missing
    initialization and leaves the page as it is.  For esbuild a set-up
    that fails leaves the engine loaded. *)
Theorem initialize_failure_leaves_the_flag_down :
  (forall (env env' : Swc.Env) (w w' : World) (this this' other : Swc.Runner)
          (e : Error) (options : Options),
      Swc.initialize env (w, this) = (Throw e, (w', this')) ->
      (Swc.importModule env "https://esm.sh/@swc/wasm-web" = Throw e
       \/ Swc.initSwc env = Throw e)
      /\ swcInitialized w' = false
      /\ swcLoaded w' = swcLoaded w
      /\ this' = this
      /\ console w' = console w ++ [(ErrorLevel, ("[swc] Init error: " ++ message e)%string)]
      /\ Swc.compileAndRun env' options (w', other)
         = (Throw Swc.notInitialized, (w', other)))
  /\ (forall (env env' : Esbuild.Env) (w w' : World) (this this' other : Esbuild.Runner)
             (e : Error) (options : Options),
         Esbuild.initialize env (w, this) = (Throw e, (w', this')) ->
         ((Esbuild.importModule env "https://unpkg.com/esbuild-wasm@0.27.1/esm/browser.js"
           = Throw e
           /\ esbuildLoaded w' = esbuildLoaded w)
          \/ (Esbuild.engineInitialize env "https://unpkg.com/esbuild-wasm@0.27.1/esbuild.wasm"
              = Throw e
              /\ esbuildLoaded w' = true))
         /\ esbuildInitialized w' = false
         /\ this' = this
         /\ console w'
            = console w ++ [(ErrorLevel, ("[esbuild] Init error: " ++ message e)%string)]
         /\ Esbuild.compileAndRun env' options (w', other)
            = (Throw Esbuild.notInitialized, (w', other))).
Proof.
  split.
  - intros env env' w w' this this' other e options H.
    destruct (swc_initialize_failure _ _ _ _ _ _ H)
      as (Hflag & Hloaded & Hthis & Hcons & Hwhich).
    repeat split; try assumption.
    unfold Swc.compileAndRun, bind. rewrite (swc_compile_not_ready _ _ _ _ Hflag). reflexivity.
  - intros env env' w w' this this' other e options H.
    destruct (esbuild_initialize_failure _ _ _ _ _ _ H) as (Hflag & Hthis & Hcons & Hwhich).
    repeat split; try assumption.
    unfold Esbuild.compileAndRun, bind.
    rewrite (esbuild_compile_not_ready _ _ _ _ Hflag). reflexivity.
Qed.

Lemma initialize_failure_leaves_the_flag_down_witness :
  (exists w',
      Swc.initialize swcOffline (Playground.page, Swc.new) = (Throw fetchFailed, (w', Swc.new))
      /\ swcInitialized w' = false
      /\ Swc.compileAndRun (Playground.swcEnv Playground.hello) noOptions (w', Swc.new)
         = (Throw Swc.notInitialized, (w', Swc.new)))
  /\ exists w',
      Esbuild.initialize esbuildBroken (Playground.page, Esbuild.new)
      = (Throw (mkError "wasm failed to compile"), (w', Esbuild.new))
      /\ esbuildLoaded w' = true
      /\ esbuildInitialized w' = false
      /\ Esbuild.compileAndRun (Playground.esbuildEnv Playground.hello) noOptions
                               (w', Esbuild.new)
         = (Throw Esbuild.notInitialized, (w', Esbuild.new)).
Proof.
  split.
  - eexists. split; [vm_compute; reflexivity |].
    refine ((fun H => conj (proj1 (proj2 H)) (proj2 (proj2 (proj2 (proj2 (proj2 H))))))
              (proj1 initialize_failure_leaves_the_flag_down
                     swcOffline (Playground.swcEnv Playground.hello)
                     Playground.page _ Swc.new Swc.new Swc.new fetchFailed noOptions _)).
    vm_compute. reflexivity.
  - eexists. split; [vm_compute; reflexivity |]. split; [reflexivity |].
    refine ((fun H => conj (proj1 (proj2 H)) (proj2 (proj2 (proj2 (proj2 H)))))
              (proj2 initialize_failure_leaves_the_flag_down
                     esbuildBroken (Playground.esbuildEnv Playground.hello)
                     Playground.page _ Esbuild.new Esbuild.new Esbuild.new
                     (mkError "wasm failed to compile") noOptions _)).
    vm_compute. reflexivity.
Defined.

(** ** [compileAndRun] after the compile *)

Lemma swc_compile_page env options w this :
  hostRoot (fst (snd (Swc.compile env options (w, this)))) = hostRoot w
  /\ blobs (fst (snd (Swc.compile env options (w, this)))) = blobs w.
Proof.
  destruct (swcInitialized w) eqn:Hinit.
  - rewrite (swc_compile_ready _ _ _ _ Hinit), compileBody_summary.
    destruct (compileSummary env (swcLoaded w) options this) as [[r [events lines]] this1].
    split; reflexivity.
  - rewrite (swc_compile_not_ready _ _ _ _ Hinit). split; reflexivity.
Qed.

Lemma finishBuild_blobs built :
  blobs (fst (snd (finishBuild built))) = blobs (fst (snd built)).
Proof.
  destruct built as [[result | e] [w this]]; cbn; [| reflexivity].
  destruct (Esbuild.errors result); [| reflexivity].
  destruct (Esbuild.outputFiles result); reflexivity.
Qed.

Lemma esbuild_compile_page env options w this :
  hostRoot (fst (snd (Esbuild.compile env options (w, this)))) = hostRoot w
  /\ blobs (fst (snd (Esbuild.compile env options (w, this)))) = blobs w.
Proof.
  split; [apply esbuild_compile_hostRoot |].
  destruct (esbuildInitialized w) eqn:Hinit.
  - rewrite (esbuild_compile_ready _ _ _ _ Hinit), esbuild_compileBody_unfold,
      finishBuild_blobs.
    destruct (runEngine_logged env (baseOf options)
                               (Esbuild.build env (buildOptionsOf options))
                               (logged w [Build (entryOf options)]
                                       [(LogLevel, ("[esbuild] Building: " ++ entryOf options)%string)])
                               (esbuildCleared (clearOf options) this))
      as (events & lines & ->).
    reflexivity.
  - rewrite (esbuild_compile_not_ready _ _ _ _ Hinit). reflexivity.
Qed.

Lemma runInIframe_without_root {I} script (w : World) (i : I) :
  hostRoot w = None ->
  runInIframe script (w, i) = (Throw (mkError "No root element found"), (w, i)).
Proof. intros H. unfold runInIframe. run_method. rewrite H. reflexivity. Qed.

Lemma swc_compileAndRun_unfold env options w this :
  Swc.compileAndRun env options (w, this)
  = match Swc.compile env options (w, this) with
    | (Ok result, after) =>
        (runInIframe
           (Str.join Str.nl (Swc.bundledCodeLines (Swc.moduleMap result)
                                                  (Swc.resultEntryPoint result))) >>
         consoleLog "[swc] Execution complete in iframe" >>
         ret (Swc.code result)) after
    | (Throw e, after) => (Throw e, after)
    end.
Proof.
  unfold Swc.compileAndRun. unfold bind at 1.
  destruct (Swc.compile env options (w, this)) as [[result | e] after]; reflexivity.
Qed.

Lemma esbuild_compileAndRun_unfold env options w this :
  Esbuild.compileAndRun env options (w, this)
  = match Esbuild.compile env options (w, this) with
    | (Ok result, after) =>
        (runInIframe (Esbuild.code result) >>
         consoleLog "[esbuild] Execution complete in iframe" >>
         ret (Esbuild.code result)) after
    | (Throw e, after) => (Throw e, after)
    end.
Proof.
  unfold Esbuild.compileAndRun. unfold bind at 1.
  destruct (Esbuild.compile env options (w, this)) as [[result | e] after]; reflexivity.
Qed.

(** X23. On a page without a root element [compileAndRun] never
    fulfils, in either class: it rejects with the error of [compile]
    when [compile] rejects, and with [No root element found] otherwise.
    In both cases the page and the instance are left as [compile] left
    them, so the work of the compile is done and kept. *)
Theorem compileAndRun_needs_a_root_element :
  (forall (env : Swc.Env) (options : Options) (w : World) (this : Swc.Runner),
      hostRoot w = None ->
      match Swc.compile env options (w, this) with
      | (Ok _, after) =>
          Swc.compileAndRun env options (w, this)
          = (Throw (mkError "No root element found"), after)
      | (Throw e, after) => Swc.compileAndRun env options (w, this) = (Throw e, after)
      end)
  /\ (forall (env : Esbuild.Env) (options : Options) (w : World) (this : Esbuild.Runner),
         hostRoot w = None ->
         match Esbuild.compile env options (w, this) with
         | (Ok _, after) =>
             Esbuild.compileAndRun env options (w, this)
             = (Throw (mkError "No root element found"), after)
         | (Throw e, after) => Esbuild.compileAndRun env options (w, this) = (Throw e, after)
         end).
Proof.
  split; intros env options w this Hroot.
  - pose proof (proj1 (swc_compile_page env options w this)) as Hpage.
    rewrite swc_compileAndRun_unfold.
    destruct (Swc.compile env options (w, this)) as [[result | e] [w1 this1]];
      [| reflexivity].
    cbn [fst snd] in Hpage. unfold bind at 1.
    rewrite runInIframe_without_root; [reflexivity |]. rewrite Hpage. exact Hroot.
  - pose proof (proj1 (esbuild_compile_page env options w this)) as Hpage.
    rewrite esbuild_compileAndRun_unfold.
    destruct (Esbuild.compile env options (w, this)) as [[result | e] [w1 this1]];
      [| reflexivity].
    cbn [fst snd] in Hpage. unfold bind at 1.
    rewrite runInIframe_without_root; [reflexivity |]. rewrite Hpage. exact Hroot.
Qed.

Lemma compileAndRun_needs_a_root_element_witness :
  exists w' this',
    Swc.compileAndRun (Playground.swcEnv Playground.hello) noOptions rootlessReady
    = (Throw (mkError "No root element found"), (w', this'))
    /\ fetched (trace w') = ["@/entry"]
    /\ OMap.keys (Swc.transformedFiles this') = ["@/entry"]
    /\ blobs w' = [].
Proof.
  eexists. eexists. split.
  - pose proof (proj1 compileAndRun_needs_a_root_element
                      (Playground.swcEnv Playground.hello) noOptions
                      (fst rootlessReady) (snd rootlessReady) eq_refl) as H.
    vm_compute in H. vm_compute. exact H.
  - repeat split; reflexivity.
Defined.

(** the frame and the document of a run that goes through *)
Lemma runInIframe_document {I} script (w : World) (i : I) children :
  hostRoot w = Some children ->
  runInIframe script (w, i)
  = (Ok tt,
     (setHostRoot (setBlobs w (blobs w ++ [iframeHTML script]))
                  (Some [{| src := List.length (blobs w);
                            styleBorder := "none"; styleWidth := "100%";
                            styleHeight := "100%"; styleMinHeight := "400px";
                            sandbox := grantedCapabilities |}]),
      i)).
Proof.
  intros H. unfold runInIframe, createObjectURL. run_method. rewrite H.
  destruct w. reflexivity.
Qed.

(** X24. When [compileAndRun] fulfils, for either backend, the page
    has exactly one document more, the root element holds one frame and
    nothing else, the frame shows that document with the sandbox of
    scripts, popups and forms, and the fulfilled value is the code of
    the result of [compile].  For esbuild that code is the script of
    the document; for SWC the script is the bundle built from the
    module map and the entry point of the result. *)
Theorem compileAndRun_shows_one_new_document
        (b : Backend) (options : Options) (w w' : World) (out : string) :
  compileAndRunOn b options w = (Ok out, w') ->
  exists script,
    blobs w' = blobs w ++ [iframeHTML script]
    /\ hostRoot w'
       = Some [{| src := List.length (blobs w);
                  styleBorder := "none"; styleWidth := "100%";
                  styleHeight := "100%"; styleMinHeight := "400px";
                  sandbox := ["allow-scripts"; "allow-popups"; "allow-forms"] |}]
    /\ match b with
       | SwcBackend env this =>
           exists result,
           fst (Swc.compile env options (w, this)) = Ok result
           /\ out = Swc.code result
           /\ script = Str.join Str.nl (Swc.bundledCodeLines (Swc.moduleMap result)
                                                             (Swc.resultEntryPoint result))
       | EsbuildBackend env this =>
           exists result,
           fst (Esbuild.compile env options (w, this)) = Ok result
           /\ out = Esbuild.code result
           /\ script = out
       end.
Proof.
  destruct b as [env this | env this]; cbn [compileAndRunOn].
  - rewrite swc_compileAndRun_unfold.
    destruct (swc_compile_page env options w this) as [Hroot Hblobs].
    destruct (Swc.compile env options (w, this)) as [[result | e] [w1 this1]];
      cbn [fst snd] in *; [| intros H; discriminate H].
    destruct (hostRoot w1) as [children |] eqn:Hw1.
    + unfold bind at 1. rewrite (runInIframe_document _ _ _ _ Hw1).
      unfold bind, consoleLog, modifyWorld, ret. cbn [fst snd].
      intros H. injection H as <- <-.
      eexists. split; [cbn -[iframeHTML Str.join]; rewrite Hblobs; reflexivity |].
      split; [cbn -[iframeHTML Str.join]; rewrite Hblobs; reflexivity |].
      exists result. repeat split.
    + unfold bind at 1. rewrite (runInIframe_without_root _ _ _ Hw1).
      intros H. discriminate H.
  - rewrite esbuild_compileAndRun_unfold.
    destruct (esbuild_compile_page env options w this) as [Hroot Hblobs].
    destruct (Esbuild.compile env options (w, this)) as [[result | e] [w1 this1]];
      cbn [fst snd] in *; [| intros H; discriminate H].
    destruct (hostRoot w1) as [children |] eqn:Hw1.
    + unfold bind at 1. rewrite (runInIframe_document _ _ _ _ Hw1).
      unfold bind, consoleLog, modifyWorld, ret. cbn [fst snd].
      intros H. injection H as <- <-.
      eexists. split; [cbn -[iframeHTML Str.join]; rewrite Hblobs; reflexivity |].
      split; [cbn -[iframeHTML Str.join]; rewrite Hblobs; reflexivity |].
      exists result. repeat split.
    + unfold bind at 1. rewrite (runInIframe_without_root _ _ _ Hw1).
      intros H. discriminate H.
Qed.

Lemma compileAndRun_shows_one_new_document_witness :
  exists script,
    blobs esbuildPageRun = blobs (fst esbuildPageReady) ++ [iframeHTML script]
    /\ hostRoot esbuildPageRun
       = Some [{| src := List.length (blobs (fst esbuildPageReady));
                  styleBorder := "none"; styleWidth := "100%";
                  styleHeight := "100%"; styleMinHeight := "400px";
                  sandbox := ["allow-scripts"; "allow-popups"; "allow-forms"] |}]
    /\ exists result,
        fst (Esbuild.compile (Playground.esbuildEnv Playground.hello) noOptions
                             (fst esbuildPageReady, snd esbuildPageReady))
        = Ok result
        /\ "export default function App(){}" = Esbuild.code result
        /\ script = "export default function App(){}".
Proof.
  refine (compileAndRun_shows_one_new_document
            (EsbuildBackend (Playground.esbuildEnv Playground.hello) (snd esbuildPageReady))
            noOptions (fst esbuildPageReady) esbuildPageRun
            "export default function App(){}" _).
  vm_compute. reflexivity.
Defined.

(** ** The load callback *)

(** X13. The load callback never rejects.  It answers either with the
    contents and the loader of the record the cache holds for the path
    afterwards, or, when the fetch of the path fails, with a single
    error that carries the message of the failure; in that case the
    cache is untouched and nothing is printed. *)
Theorem esbuild_onLoad_reports_instead_of_throwing
        (env : Esbuild.Env) (baseUrl modulePath : string) (w : World)
        (this : Esbuild.Runner) :
  exists answer w' this',
    Esbuild.onLoad env baseUrl modulePath (w, this) = (Ok answer, (w', this'))
    /\ match answer with
       | Esbuild.Loaded text kind =>
           exists data, OMap.get (Esbuild.fileCache this') modulePath = Some data
                        /\ contents data = text /\ loader data = kind
       | Esbuild.LoadErrors diagnostics =>
           exists e, Esbuild.fetchSourceFile env modulePath baseUrl = Throw e
                     /\ diagnostics = [Esbuild.mkDiagnostic (message e)]
                     /\ this' = this
                     /\ console w' = console w
       end.
Proof.
  pose proof (esbuild_onLoad_cases env baseUrl modulePath w this) as H.
  destruct (OMap.get (Esbuild.fileCache this) modulePath) as [cached |] eqn:Hget.
  - eexists. eexists. eexists. split; [exact H |].
    exists cached. repeat split. exact Hget.
  - destruct (Esbuild.fetchSourceFile env modulePath baseUrl) as [data | e].
    + eexists. eexists. eexists. split; [exact H |].
      exists data. cbn. rewrite get_set_same. repeat split.
    + eexists. eexists. eexists. split; [exact H |].
      exists e. repeat split. cbn. rewrite app_nil_r. reflexivity.
Qed.

(** ** What a build asks for, and what it keeps *)

Lemma runEngine_effects env base engine :
  forall w this,
  exists events lines,
    fst (snd (Esbuild.runEngine engine (Esbuild.createVirtualFsPlugin env base) (w, this)))
    = logged w events lines
    /\ (forall ev, In ev events ->
                   exists p, ev = Fetch p base /\ OMap.get (Esbuild.fileCache this) p = None)
    /\ (forall p data,
           OMap.get (Esbuild.fileCache
                       (snd (snd (Esbuild.runEngine engine
                                                    (Esbuild.createVirtualFsPlugin env base)
                                                    (w, this))))) p = Some data ->
           OMap.get (Esbuild.fileCache this) p = Some data
           \/ Esbuild.fetchSourceFile env p base = Ok data).
Proof.
  induction engine as [outcome | args next IH | q next IH]; intros w this.
  - exists [], []. rewrite logged_nil.
    destruct outcome; cbn; (split; [reflexivity |]); (split; [intros ev [] |]); tauto.
  - cbn. apply IH.
  - cbn [Esbuild.runEngine]. unfold bind.
    change (Esbuild.loadHook (Esbuild.createVirtualFsPlugin env base) q)
      with (Esbuild.onLoad env base q).
    pose proof (esbuild_onLoad_cases env base q w this) as Hload.
    destruct (OMap.get (Esbuild.fileCache this) q) as [cached |] eqn:Hq.
    + rewrite Hload. apply IH.
    + destruct (Esbuild.fetchSourceFile env q base) as [fresh | e] eqn:Hf; rewrite Hload.
      * destruct (IH (Esbuild.Loaded (contents fresh) (loader fresh))
                     (logged w [Fetch q base] [(LogLevel, ("[esbuild] Loaded: " ++ q)%string)])
                     {| Esbuild.fileCache := OMap.set (Esbuild.fileCache this) q fresh |})
          as (events & lines & -> & Hev & Hcache).
        eexists. eexists. split; [apply logged_logged |]. split.
        -- intros ev [<- | Hin]; [exists q; split; [reflexivity | exact Hq] |].
           destruct (Hev _ Hin) as (p & -> & Hp). exists p. split; [reflexivity |].
           cbn in Hp. destruct (string_dec p q) as [-> | Hne].
           ++ rewrite get_set_same in Hp. discriminate Hp.
           ++ rewrite (get_set_other _ _ _ _ Hne) in Hp. exact Hp.
        -- intros p data Hp. destruct (Hcache _ _ Hp) as [Hold | Hnew]; [| right; exact Hnew].
           cbn in Hold. destruct (string_dec p q) as [-> | Hne].
           ++ rewrite get_set_same in Hold. injection Hold as <-. right. exact Hf.
           ++ rewrite (get_set_other _ _ _ _ Hne) in Hold. left. exact Hold.
      * destruct (IH (Esbuild.LoadErrors [Esbuild.mkDiagnostic (message e)])
                     (logged w [Fetch q base] []) this)
          as (events & lines & -> & Hev & Hcache).
        eexists. eexists. split; [apply logged_logged |]. split; [| exact Hcache].
        intros ev [<- | Hin]; [exists q; split; [reflexivity | exact Hq] |].
        exact (Hev _ Hin).
Qed.

Lemma finishBuild_state built :
  snd (snd (finishBuild built)) = snd (snd built)
  /\ trace (fst (snd (finishBuild built))) = trace (fst (snd built)).
Proof.
  destruct built as [[result | e] [w this]]; cbn;
    [| split; [reflexivity | apply app_nil_r]].
  destruct (Esbuild.errors result);
    [destruct (Esbuild.outputFiles result) |]; cbn;
      (split; [reflexivity | apply app_nil_r]).
Qed.

(** X25. On an initialized page, whatever [compile] of
    [EsbuildRunner] returns, it adds to the record of requests one
    build of the entry and after it only fetches under the base of the
    options, each of a path the cache it worked on did not hold.  What
    the cache holds for a path afterwards was either held for it
    before, or is what was fetched for that path. *)
Theorem esbuild_compile_requests
        (env : Esbuild.Env) (options : Options) (w w' : World) (this this' : Esbuild.Runner)
        (outcome : Result Esbuild.BuildResult) :
  esbuildInitialized w = true ->
  Esbuild.compile env options (w, this) = (outcome, (w', this')) ->
  exists events,
    trace w' = trace w ++ Build (entryOf options) :: events
    /\ (forall ev, In ev events ->
                   exists p, ev = Fetch p (baseOf options)
                             /\ OMap.get (Esbuild.fileCache
                                            (esbuildCleared (clearOf options) this)) p = None)
    /\ (forall p data,
           OMap.get (Esbuild.fileCache this') p = Some data ->
           OMap.get (Esbuild.fileCache this) p = Some data
           \/ Esbuild.fetchSourceFile env p (baseOf options) = Ok data).
Proof.
  intros Hinit H.
  rewrite (esbuild_compile_ready _ _ _ _ Hinit), esbuild_compileBody_unfold in H.
  set (w0 := logged w [Build (entryOf options)]
                    [(LogLevel, ("[esbuild] Building: " ++ entryOf options)%string)]) in H.
  destruct (runEngine_effects env (baseOf options) (Esbuild.build env (buildOptionsOf options))
                              w0 (esbuildCleared (clearOf options) this))
    as (events & lines & Hworld & Hev & Hcache).
  destruct (finishBuild_state
              (Esbuild.runEngine (Esbuild.build env (buildOptionsOf options))
                                 (Esbuild.createVirtualFsPlugin env (baseOf options))
                                 (w0, esbuildCleared (clearOf options) this)))
    as [Hthis Htrace].
  rewrite H in Hthis, Htrace. cbn [fst snd] in Hthis, Htrace.
  exists events. split; [| split].
  - rewrite Htrace, Hworld. unfold w0. cbn. rewrite <- app_assoc. reflexivity.
  - exact Hev.
  - intros p data Hp. rewrite Hthis in Hp.
    destruct (Hcache _ _ Hp) as [Hold | Hnew]; [| right; exact Hnew].
    left. destruct (clearOf options); cbn in Hold; [discriminate Hold | exact Hold].
Qed.

Lemma esbuild_compile_requests_witness :
  exists events,
    trace (fst (snd esbuildOnce)) = trace (fst esbuildPageReady) ++ Build "@/entry" :: events
    /\ (forall ev, In ev events ->
                   exists p, ev = Fetch p "/src"
                             /\ OMap.get (Esbuild.fileCache (snd esbuildPageReady)) p = None)
    /\ (forall p data,
           OMap.get (Esbuild.fileCache (snd (snd esbuildOnce))) p = Some data ->
           OMap.get (Esbuild.fileCache (snd esbuildPageReady)) p = Some data
           \/ Playground.serve Playground.hello p "/src" = Ok data).
Proof.
  refine (esbuild_compile_requests (Playground.esbuildEnv Playground.hello) keepCache
                                   (fst esbuildPageReady) (fst (snd esbuildOnce))
                                   (snd esbuildPageReady) (snd (snd esbuildOnce))
                                   (fst esbuildOnce) eq_refl _).
  vm_compute. reflexivity.
Defined.

(** ** A build that the engine rejects *)

(** X26. On an initialized page, when the build of the engine rejects,
    as the build of esbuild does when it ends with errors, [compile] of
    [EsbuildRunner] rejects with that very error and prints it once, as
    the build error.  The page and the cache are otherwise as the build
    left them: what the plugin had loaded before the failure stays in
    the cache. *)
Theorem esbuild_compile_rejects_with_the_error_of_the_build
        (env : Esbuild.Env) (options : Options) (w w1 : World) (this this1 : Esbuild.Runner)
        (e : Error) :
  esbuildInitialized w = true ->
  Esbuild.runEngine
    (Esbuild.build env (buildOptionsOf options))
    (Esbuild.createVirtualFsPlugin env (baseOf options))
    (logged w [Build (entryOf options)]
            [(LogLevel, ("[esbuild] Building: " ++ entryOf options)%string)],
     esbuildCleared (clearOf options) this)
  = (Throw e, (w1, this1)) ->
  Esbuild.compile env options (w, this)
  = (Throw e,
     (logged w1 [] [(ErrorLevel, ("[esbuild] Build error: " ++ message e)%string)], this1))
  /\ hostRoot w1 = hostRoot w
  /\ blobs w1 = blobs w
  /\ forall p data,
      OMap.get (Esbuild.fileCache this1) p = Some data ->
      OMap.get (Esbuild.fileCache this) p = Some data
      \/ Esbuild.fetchSourceFile env p (baseOf options) = Ok data.
Proof.
  intros Hinit Hrun.
  assert (Hcompile :
            Esbuild.compile env options (w, this)
            = (Throw e,
               (logged w1 [] [(ErrorLevel, ("[esbuild] Build error: " ++ message e)%string)],
                this1))).
  { rewrite (esbuild_compile_ready _ _ _ _ Hinit), esbuild_compileBody_unfold, Hrun.
    reflexivity. }
  split; [exact Hcompile |].
  destruct (esbuild_compile_page env options w this) as [Hroot Hblobs].
  rewrite Hcompile in Hroot, Hblobs. cbn [fst snd] in Hroot, Hblobs.
  split; [exact Hroot |]. split; [exact Hblobs |].
  intros p data Hp.
  destruct (runEngine_effects env (baseOf options)
                              (Esbuild.build env (buildOptionsOf options))
                              (logged w [Build (entryOf options)]
                                      [(LogLevel,
                                        ("[esbuild] Building: " ++ entryOf options)%string)])
                              (esbuildCleared (clearOf options) this))
    as (events & lines & _ & _ & Hcache).
  rewrite Hrun in Hcache. cbn [fst snd] in Hcache.
  destruct (Hcache _ _ Hp) as [Hold | Hnew]; [| right; exact Hnew].
  left. destruct (clearOf options); cbn in Hold; [discriminate Hold | exact Hold].
Qed.

Lemma esbuild_compile_rejects_with_the_error_of_the_build_witness :
  exists w',
    Esbuild.compile rejectingEnv noOptions esbuildPageReady
    = (Throw (mkError ("Build failed with 1 error:" ++ Str.nl ++ "File not found: @/entry")),
       (w', snd esbuildPageReady))
    /\ fetched (trace w') = ["@/entry"].
Proof.
  eexists. split.
  - refine (proj1 (esbuild_compile_rejects_with_the_error_of_the_build
                     rejectingEnv noOptions (fst esbuildPageReady) _
                     (snd esbuildPageReady) (snd esbuildPageReady) _ eq_refl _)).
    vm_compute. reflexivity.
  - reflexivity.
Defined.

(** ** The error of a compile that rejects *)

Lemma loadSummary_Throw_inv env p b this e out this' :
  loadSummary env true p b this = (Throw e, out, this') ->
  OMap.get (Swc.transformedFiles this) p = None /\ loadFails env p b e.
Proof.
  unfold loadSummary, loadFails.
  destruct (OMap.get (Swc.transformedFiles this) p) as [cached |]; [discriminate |].
  destruct (Swc.fetchSourceFile env p b) as [data | e1] eqn:Hf.
  - destruct (Swc.transformSync env (contents data) p) as [text | e2] eqn:Ht;
      [discriminate |].
    intros H. injection H as <- _ _. split; [reflexivity |].
    right. exists data. split; [reflexivity | exact Ht].
  - intros H. injection H as <- _ _. split; [reflexivity |]. left. reflexivity.
Qed.

(** X18. On a page whose engine is loaded, [compile] of [SwcRunner]
    rejects only on behalf of its entry: the entry was not in the cache
    the compile worked on, the error is the one the fetch or the
    transform of the entry failed with, and the last line printed is
    the build error with the message of that error.  A dependency that
    fails never makes it reject. *)
Theorem swc_compile_rejects_with_the_error_of_the_entry
        (env : Swc.Env) (options : Options) (w w' : World) (this this' : Swc.Runner)
        (e : Error) :
  swcInitialized w = true ->
  swcLoaded w = true ->
  Swc.compile env options (w, this) = (Throw e, (w', this')) ->
  OMap.get (Swc.transformedFiles (cleared (clearOf options) this)) (entryOf options) = None
  /\ loadFails env (entryOf options) (baseOf options) e
  /\ exists before, console w' = before ++ [(ErrorLevel, ("[swc] Build error: " ++ message e)%string)].
Proof.
  intros Hinit Hloaded H.
  rewrite (swc_compile_ready _ _ _ _ Hinit), compileBody_summary, Hloaded in H.
  unfold compileSummary in H.
  destruct (loadSummary env true (entryOf options) (baseOf options)
                        (cleared (clearOf options) this))
    as [[[text | e1] [events lines]] this1] eqn:Hload.
  - destruct (dependenciesSummary env true (baseOf options) (Swc.extractImports text) this1)
      as [[events2 lines2] this2].
    discriminate H.
  - cbn [replay] in H. injection H as <- <- _.
    destruct (loadSummary_Throw_inv _ _ _ _ _ _ _ Hload) as [Hnone Hfails].
    split; [exact Hnone |]. split; [exact Hfails |].
    exists (console w ++ buildingLine (entryOf options) :: lines).
    unfold logged, setConsole, buildErrorLine. cbn.
    rewrite <- app_assoc. reflexivity.
Qed.

Lemma swc_compile_rejects_with_the_error_of_the_entry_witness :
  loadFails (Playground.swcEnv []) "@/entry" "/src" (notFound "@/entry").
Proof.
  refine (proj1 (proj2 (swc_compile_rejects_with_the_error_of_the_entry
                          (Playground.swcEnv []) noOptions
                          (fst swcPageReady) _ (snd swcPageReady) _ (notFound "@/entry")
                          eq_refl eq_refl _))).
  vm_compute. reflexivity.
Defined.

(** ** The engine behind the flag *)

Lemma enginesPresent_logged w events lines :
  enginesPresent w -> enginesPresent (logged w events lines).
Proof. tauto. Qed.

Lemma swc_initialize_enginesPresent env w this :
  enginesPresent w -> enginesPresent (fst (snd (Swc.initialize env (w, this)))).
Proof.
  unfold Swc.initialize, bind, getWorld. cbn.
  destruct (swcInitialized w) eqn:Hflag; [tauto |]. intros [Hs He].
  unfold tryCatch, bind, emit, modifyWorld, liftResult, consoleLog, consoleError. cbn.
  destruct (Swc.importModule env _) as [[] | e1]; cbn.
  - destruct (Swc.initSwc env) as [[] | e2]; cbn; split; cbn; try tauto;
      rewrite Hflag; discriminate.
  - split; cbn; [rewrite Hflag; discriminate | exact He].
Qed.

Lemma esbuild_initialize_enginesPresent env w this :
  enginesPresent w -> enginesPresent (fst (snd (Esbuild.initialize env (w, this)))).
Proof.
  unfold Esbuild.initialize, bind, getWorld. cbn.
  destruct (esbuildInitialized w) eqn:Hflag; [tauto |]. intros [Hs He].
  unfold tryCatch, bind, emit, modifyWorld, liftResult, consoleLog, consoleError. cbn.
  destruct (Esbuild.importModule env _) as [[] | e1]; cbn.
  - destruct (Esbuild.engineInitialize env _) as [[] | e2]; cbn; split; cbn; try tauto;
      rewrite Hflag; discriminate.
  - split; cbn; [exact Hs | rewrite Hflag; discriminate].
Qed.

Lemma enginesPresent_same_flags w w' :
  swcLoaded w' = swcLoaded w ->
  swcInitialized w' = swcInitialized w ->
  esbuildLoaded w' = esbuildLoaded w ->
  esbuildInitialized w' = esbuildInitialized w ->
  enginesPresent w -> enginesPresent w'.
Proof. unfold enginesPresent. intros -> -> -> ->. tauto. Qed.

Lemma runInIframe_enginesPresent {I} script (w : World) (i : I) :
  enginesPresent w -> enginesPresent (fst (snd (runInIframe script (w, i)))).
Proof.
  intros H. destruct (hostRoot w) as [children |] eqn:Hroot.
  - rewrite (runInIframe_document _ _ _ _ Hroot). exact H.
  - rewrite (runInIframe_without_root _ _ _ Hroot). exact H.
Qed.

Lemma swc_compile_enginesPresent env options w this :
  enginesPresent w -> enginesPresent (fst (snd (Swc.compile env options (w, this)))).
Proof.
  intros H. destruct (swcInitialized w) eqn:Hinit.
  - rewrite (swc_compile_ready _ _ _ _ Hinit), compileBody_summary.
    destruct (compileSummary env (swcLoaded w) options this) as [[r [events lines]] this1].
    apply enginesPresent_logged. exact H.
  - rewrite (swc_compile_not_ready _ _ _ _ Hinit). exact H.
Qed.

Lemma esbuild_compile_enginesPresent env options w this :
  enginesPresent w -> enginesPresent (fst (snd (Esbuild.compile env options (w, this)))).
Proof.
  intros H. destruct (esbuildInitialized w) eqn:Hinit.
  - rewrite (esbuild_compile_ready _ _ _ _ Hinit), esbuild_compileBody_unfold.
    destruct (runEngine_logged env (baseOf options)
                               (Esbuild.build env (buildOptionsOf options))
                               (logged w [Build (entryOf options)]
                                       [(LogLevel, ("[esbuild] Building: " ++ entryOf options)%string)])
                               (esbuildCleared (clearOf options) this))
      as (events & lines & Hw).
    destruct (Esbuild.runEngine _ _ _) as [[result | e] [w1 this1]]. 
    + cbn [fst snd] in Hw. subst w1. unfold finishBuild.
      destruct (Esbuild.errors result); [destruct (Esbuild.outputFiles result) |];
        cbn [fst snd]; repeat apply enginesPresent_logged; exact H.
    + cbn [fst snd] in Hw. subst w1. unfold finishBuild. cbn [fst snd].
      repeat apply enginesPresent_logged. exact H.
  - rewrite (esbuild_compile_not_ready _ _ _ _ Hinit). exact H.
Qed.

(** X22. On a page, a class whose flag is up has its engine loaded:
    this holds on a fresh page and is kept by [initialize] and by
    [compileAndRun] of both classes, whatever they return. *)
Theorem a_raised_flag_has_its_engine :
  (forall root, enginesPresent (initialWorld root))
  /\ forall w,
      enginesPresent w ->
      (forall env this, enginesPresent (fst (snd (Swc.initialize env (w, this)))))
      /\ (forall env options this,
             enginesPresent (fst (snd (Swc.compileAndRun env options (w, this)))))
      /\ (forall env this, enginesPresent (fst (snd (Esbuild.initialize env (w, this)))))
      /\ (forall env options this,
             enginesPresent (fst (snd (Esbuild.compileAndRun env options (w, this))))).
Proof.
  split; [intros root; split; intros H; discriminate H |].
  intros w H. split; [| split; [| split]].
  - intros env this. apply swc_initialize_enginesPresent, H.
  - intros env options this. rewrite swc_compileAndRun_unfold.
    pose proof (swc_compile_enginesPresent env options w this H) as Hc.
    destruct (Swc.compile env options (w, this)) as [[result | e] [w1 this1]];
      cbn [fst snd] in Hc; [| exact Hc].
    unfold bind at 1.
    pose proof (runInIframe_enginesPresent
                  (Str.join Str.nl (Swc.bundledCodeLines (Swc.moduleMap result)
                                                         (Swc.resultEntryPoint result)))
                  w1 this1 Hc) as Hr.
    destruct (runInIframe _ (w1, this1)) as [[[] | e] [w2 this2]]; cbn [fst snd] in Hr;
      exact Hr.
  - intros env this. apply esbuild_initialize_enginesPresent, H.
  - intros env options this. rewrite esbuild_compileAndRun_unfold.
    pose proof (esbuild_compile_enginesPresent env options w this H) as Hc.
    destruct (Esbuild.compile env options (w, this)) as [[result | e] [w1 this1]];
      cbn [fst snd] in Hc; [| exact Hc].
    unfold bind at 1.
    pose proof (runInIframe_enginesPresent (Esbuild.code result) w1 this1 Hc) as Hr.
    destruct (runInIframe _ (w1, this1)) as [[[] | e] [w2 this2]]; cbn [fst snd] in Hr;
      exact Hr.
Qed.

Lemma a_raised_flag_has_its_engine_witness :
  enginesPresent swcPageRun /\ swcInitialized swcPageRun = true.
Proof.
  split; [| reflexivity].
  exact (proj1 (proj2 (proj2 a_raised_flag_has_its_engine (fst swcPageReady)
                              (conj (fun _ => eq_refl) (fun H => H))))
               (Playground.swcEnv Playground.hello) noOptions (snd swcPageReady)).
Defined.

Lemma includes_later (s p t : string) : Vite.includes s t = true -> Vite.includes (p ++ s) t = true.
Proof.
  intros H. induction p as [| c p IH]; [exact H |].
  cbn [append Vite.includes]. rewrite IH. apply orb_true_r.
Qed.

Lemma includes_at (s t : string) : Str.startsWith s t = true -> Vite.includes s t = true.
Proof. intros H. destruct s; cbn [Vite.includes]; rewrite H; reflexivity. Qed.

(** X29. [resolveId] marks as external exactly the identifiers that
    hold [/src/] somewhere or begin with [@/], and returns nothing for
    the others: its third test, for identifiers that begin with
    [./src/], is covered by the first. *)
Theorem vite_resolveId_marks_alias_and_src_paths (id : string) :
  Vite.resolveId id
  = (if Vite.includes id "/src/" || Str.startsWith id "@/"
     then Some (Vite.mkResolved id true)
     else None)
  /\ (Str.startsWith id "./src/" = true -> Vite.includes id "/src/" = true).
Proof.
  assert (Hdot : Str.startsWith id "./src/" = true -> Vite.includes id "/src/" = true).
  { intros H. rewrite (startsWith_eq _ _ H).
    change ("./src/" ++ Str.slice (String.length "./src/") id)%string
      with ("." ++ ("/src/" ++ Str.slice (String.length "./src/") id))%string.
    apply includes_later, includes_at, startsWith_append. }
  split; [| exact Hdot].
  unfold Vite.resolveId.
  destruct (Str.startsWith id "./src/") eqn:Hd.
  - rewrite (Hdot eq_refl). reflexivity.
  - rewrite orb_false_r. reflexivity.
Qed.

(** X30. The middleware passes on every request whose url does not
    begin with [/src/], and answers every other one itself, with a body
    and one printed line.  The status is 200, with the contents that
    were read and the two headers, exactly when the path exists, is a
    file and can be read; otherwise it is 404 or 500. *)
Theorem vite_middleware_answers_every_src_request (env : Vite.Env) (url : string) :
  (Str.startsWith url "/src/" = false -> Vite.middleware env url = (Vite.Next, []))
  /\ (Str.startsWith url "/src/" = true ->
      exists res line,
        Vite.middleware env url = (Vite.Ended res, [line])
        /\ Vite.body res <> None
        /\ (Vite.statusCode res = 200 \/ Vite.statusCode res = 404
            \/ Vite.statusCode res = 500)
        /\ (Vite.statusCode res = 200 <->
            Vite.existsSync env (Vite.joinCwd env url) = true
            /\ Vite.statIsFile env (Vite.joinCwd env url) = Ok true
            /\ isOk (Vite.readFileSync env (Vite.joinCwd env url)) = true)
        /\ (Vite.statusCode res = 200 ->
            exists content,
              Vite.readFileSync env (Vite.joinCwd env url) = Ok content
              /\ Vite.body res = Some content
              /\ Vite.headers res = [("Content-Type", "application/javascript");
                                      ("Cache-Control", "no-cache")])).
Proof.
  unfold Vite.middleware. split; intros Hurl; rewrite Hurl; cbn [negb]; [reflexivity |].
  destruct (Vite.existsSync env (Vite.joinCwd env url)).
  - destruct (Vite.statIsFile env (Vite.joinCwd env url)) as [[] | e].
    + destruct (Vite.readFileSync env (Vite.joinCwd env url)) as [content | e].
      * eexists. eexists. split; [reflexivity |]. cbn.
        split; [discriminate |]. split; [left; reflexivity |].
        split; [split; intros _; repeat split |].
        intros _. exists content. repeat split.
      * eexists. eexists. split; [reflexivity |]. cbn.
        split; [discriminate |]. split; [right; right; reflexivity |].
        split; [split; [intros H; discriminate H | intros (_ & _ & H); discriminate H] |].
        intros H. discriminate H.
    + eexists. eexists. split; [reflexivity |]. cbn.
      split; [discriminate |]. split; [right; left; reflexivity |].
      split; [split; [intros H; discriminate H | intros (_ & H & _); discriminate H] |].
      intros H. discriminate H.
    + eexists. eexists. split; [reflexivity |]. cbn.
      split; [discriminate |]. split; [right; right; reflexivity |].
      split; [split; [intros H; discriminate H | intros (_ & H & _); discriminate H] |].
      intros H. discriminate H.
  - eexists. eexists. split; [reflexivity |]. cbn.
    split; [discriminate |]. split; [right; left; reflexivity |].
    split; [split; [intros H; discriminate H | intros (H & _); discriminate H] |].
    intros H. discriminate H.
Qed.

(** ** The files of the playground *)

Lemma ide_loadOne fetchSourceFile file w state :
  exists line,
    Ide.loadOne fetchSourceFile file (w, state)
    = (Ok tt,
       (logged w [Fetch (Ide.path file) "/src"] [line],
        {| Ide.fileContents :=
             OMap.set (Ide.fileContents state) (Ide.path file)
                      (shownFor fetchSourceFile file) |})).
Proof.
  unfold Ide.loadOne, Ide.setContents, shownFor. run_method.
  destruct (fetchSourceFile (Ide.path file) "/src") as [data | e]; cbn;
    eexists; destruct w; unfold logged, setConsole, setTrace; cbn; reflexivity.
Qed.

(** X28. [loadAllFiles] never rejects.  It asks for the three files of
    the project once each, in order, under [/src], and afterwards the
    table of contents holds for every one of them either the contents
    that were fetched or, when the fetch failed, the two-line
    placeholder with the name of the file and the message of the
    failure. *)
Theorem ide_loadAllFiles_fills_every_file
        (fetchSourceFile : string -> string -> Result FileData) (w : World)
        (state : Ide.State) :
  exists w' state',
    Ide.loadAllFiles fetchSourceFile (w, state) = (Ok tt, (w', state'))
    /\ trace w' = trace w ++ [Fetch "@/entry" "/src";
                              Fetch "@/components/ui/button" "/src";
                              Fetch "@/lib/utils" "/src"]
    /\ forall file, In file Ide.files ->
                    OMap.get (Ide.fileContents state') (Ide.path file)
                    = Some (shownFor fetchSourceFile file).
Proof.
  unfold Ide.loadAllFiles, Ide.files. cbn [Swc.forOf]. unfold bind.
  repeat match goal with
         | |- context [Ide.loadOne _ ?f (?w0, ?s0)] =>
             let l := fresh "l" in
             destruct (ide_loadOne fetchSourceFile f w0 s0) as (l & ->)
         end.
  eexists. eexists. split; [reflexivity |]. split.
  - cbn. rewrite <- !app_assoc. reflexivity.
  - cbn [Ide.fileContents Ide.path]. intros file [<- | [<- | [<- | []]]]; cbn [Ide.path].
    + rewrite !get_set_other by discriminate. apply get_set_same.
    + rewrite get_set_other by discriminate. apply get_set_same.
    + apply get_set_same.
Qed.

(** ** The first import of a text *)

Lemma matches_pass_over (word : string) (r : regex) (a b : string) (c : ascii) :
  mentions (String c EmptyString) word = false ->
  mentions word a = false ->
  Re.matches_go (Cat (Lit word) r) 0 (a ++ String c b)
  = Re.matches_go (Cat (Lit word) r) 0 (String c b).
Proof.
  intros Hc. induction a as [| x a IH]; intros Ha; [reflexivity |].
  cbn [mentions] in Ha. apply orb_false_elim in Ha as [Hhere Hlater].
  cbn [append Re.matches_go]. unfold Re.exec_at. cbn [Re.rmatch].
  change (String x (a ++ String c b)) with (String x a ++ String c b)%string.
  rewrite (startsWith_barrier _ _ _ _ Hc), Hhere.
  exact (IH Hlater).
Qed.

Lemma importRegex_match (x rest : string) :
  x <> EmptyString ->
  allIn notQuote x = true ->
  Re.exec_at Swc.importRegex ("from " ++ Str.dq ++ "@/" ++ x ++ Str.dq ++ rest)
  = Some {| whole := "from " ++ Str.dq ++ "@/" ++ x ++ Str.dq;
            groups := [("@/" ++ x)%string] |}.
Proof.
  intros Hne Hx. unfold Re.exec_at.
  set (text := ("from " ++ Str.dq ++ "@/" ++ x ++ Str.dq ++ rest)%string).
  set (final := fun (s' : string) (caps : list string) =>
                  Some {| whole := Str.take (String.length text - String.length s') text;
                          groups := caps |}).
  unfold text at 1. unfold Swc.importRegex, quote.
  change ("from " ++ Str.dq ++ "@/" ++ x ++ Str.dq ++ rest)%string
    with ("from" ++ " "
                 ++ String (ascii_of_nat 34)
                           ("@/" ++ x ++ String (ascii_of_nat 34) rest))%string.
  step_Lit.
  rewrite rmatch_Cat.
  apply rmatch_Plus; [discriminate | reflexivity | reflexivity |].
  step_OneOf.
  rewrite rmatch_Cat.
  change (Re.rmatch (Group (Lit "@/";; Plus notQuote))
                    ("@/" ++ x ++ String (ascii_of_nat 34) rest) [] ?k)
    with (Re.rmatch (Lit "@/";; Plus notQuote)
                    ("@/" ++ x ++ String (ascii_of_nat 34) rest) []
                    (fun s' caps' =>
                       k s' (caps' ++ [Str.take
                                         (String.length
                                            ("@/" ++ x ++ String (ascii_of_nat 34) rest)
                                          - String.length s')
                                         ("@/" ++ x ++ String (ascii_of_nat 34) rest)]))).
  rewrite rmatch_Cat, rmatch_Lit.
  apply rmatch_Plus; [exact Hne | exact Hx | reflexivity |].
  cbv beta.
  replace ("@/" ++ x ++ String (ascii_of_nat 34) rest)%string
    with (("@/" ++ x) ++ String (ascii_of_nat 34) rest)%string
    by (rewrite append_assoc; reflexivity).
  rewrite take_matched.
  rewrite rmatch_OneOf by reflexivity.
  unfold final. f_equal. f_equal.
  replace text with (("from " ++ Str.dq ++ "@/" ++ x ++ Str.dq) ++ rest)%string.
  - apply take_matched.
  - unfold text. same_text.
Qed.

(** X3. An import of an alias-rooted specifier is found: when the
    first [from] of a text is followed by one space and a quoted
    specifier that begins with [@/] and goes on with at least one
    character, none of them a quote, that specifier is the first that
    [extractImports] returns, whatever follows the closing quote. *)
Theorem extractImports_finds_the_first_import (pre x rest : string) :
  mentions "from" pre = false ->
  x <> EmptyString ->
  allIn notQuote x = true ->
  exists others,
    Swc.extractImports (pre ++ " from " ++ Str.dq ++ "@/" ++ x ++ Str.dq ++ rest)
    = ("@/" ++ x)%string :: others.
Proof.
  intros Hpre Hne Hx. unfold Swc.extractImports, Re.matches, Swc.importRegex.
  change (pre ++ " from " ++ Str.dq ++ "@/" ++ x ++ Str.dq ++ rest)%string
    with (pre ++ String " " ("from " ++ Str.dq ++ "@/" ++ x ++ Str.dq ++ rest))%string.
  rewrite (matches_pass_over "from" _ pre _ " " eq_refl Hpre).
  fold Swc.importRegex.
  change (Re.matches_go Swc.importRegex 0
                        (String " " ("from " ++ Str.dq ++ "@/" ++ x ++ Str.dq ++ rest)))
    with (Re.matches_go Swc.importRegex 0
                        ("from " ++ Str.dq ++ "@/" ++ x ++ Str.dq ++ rest)).
  change ("from " ++ Str.dq ++ "@/" ++ x ++ Str.dq ++ rest)%string
    with (String "f" ("rom " ++ Str.dq ++ "@/" ++ x ++ Str.dq ++ rest))%string at 1.
  cbn [Re.matches_go].
  change (String "f" ("rom " ++ Str.dq ++ "@/" ++ x ++ Str.dq ++ rest))%string
    with ("from " ++ Str.dq ++ "@/" ++ x ++ Str.dq ++ rest)%string.
  rewrite (importRegex_match x rest Hne Hx).
  cbn [map Re.group Re.groups nth Nat.sub]. unfold Str.dedup. cbn [Str.dedupFrom existsb].
  eexists. reflexivity.
Qed.

Lemma extractImports_finds_the_first_import_witness :
  exists others,
    Swc.extractImports
      ("import { Button } from " ++ Playground.quoted "@/components/ui/button" ++ ";")
    = "@/components/ui/button" :: others.
Proof.
  apply (extractImports_finds_the_first_import
           "import { Button }" "components/ui/button" ";"); [reflexivity | | reflexivity].
  intros H. discriminate H.
Defined.

(** * The bundle at run time, and the target of an alias *)

Lemma flat_map_flat_map {A B C} (f : A -> list B) (g : B -> list C) (l : list A) :
  flat_map g (flat_map f l) = flat_map (fun a => flat_map g (f a)) l.
Proof.
  induction l as [| a l IH]; [reflexivity |].
  cbn [flat_map]. rewrite flat_map_app, IH. reflexivity.
Qed.

Lemma print_preload (entryKey : string) :
  flat_map Js.printItem Bundle.preloadItems ++ Js.printChain (Bundle.preloadChain entryKey)
  = Swc.preloadLines entryKey.
Proof.
  unfold Swc.preloadLines. cbn. rewrite !append_assoc. reflexivity.
Qed.

Lemma bundle_is_printed (moduleMap : OMap.t string) (entryKey : string) :
  Swc.bundledCodeLines moduleMap entryKey = Js.print (Bundle.script moduleMap entryKey).
Proof.
  unfold Swc.bundledCodeLines, Js.print, Bundle.script. cbn [Js.declarations Js.preload].
  rewrite !flat_map_app, flat_map_flat_map, <- !app_assoc, print_preload.
  f_equal. f_equal.
  apply flat_map_ext. intros [path code]. reflexivity.
Qed.

Section Preload.
Variable stack : nat.
Variable importResult : string -> Js.Completion Js.Value.
Variable entryKey : string.

Let c := Bundle.preloadChain entryKey.

Lemma noFactory_app (a b : list Js.Step) : noFactory a -> noFactory b -> noFactory (a ++ b).
Proof.
  intros Ha Hb k H. apply in_app_or in H as [H | H]; [exact (Ha k H) | exact (Hb k H)].
Qed.

Lemma noFactory_nil : noFactory [].
Proof. intros k []. Qed.

(** the callback of an import that is fulfilled *)
Lemma onEach_runs (pkg : string) (m : Js.Value) (f : Js.Frame) :
  Js.execAll stack (Js.onEach c) [(Js.namespace c, m); (Js.package c, Js.Text pkg)] f
  = (Js.Normal tt,
     Js.addStep (Js.writeCache f pkg m)
                (Js.Printed LogLevel [Js.Text ("[swc] Preloaded: " ++ pkg)])).
Proof. reflexivity. Qed.

Lemma callBody_keeps (req : string -> Js.Frame -> Js.Completion Js.Value * Js.Frame)
      (b : Js.Body) :
  (forall p f, Js.modules (snd (req p f)) = Js.modules f
               /\ exists more, Js.steps (snd (req p f)) = Js.steps f ++ more) ->
  forall f, Js.modules (snd (Js.callBody req b f)) = Js.modules f
            /\ exists more, Js.steps (snd (Js.callBody req b f)) = Js.steps f ++ more.
Proof.
  intros Hreq. induction b as [exports | r | p next IH | a next IH]; intros f.
  - split; [reflexivity | exists []; rewrite app_nil_r; reflexivity].
  - split; [reflexivity | exists []; rewrite app_nil_r; reflexivity].
  - cbn [Js.callBody]. destruct (Hreq p f) as [Hm (more1 & Hs)].
    destruct (req p f) as [outcome f']. cbn [snd] in Hm, Hs.
    destruct (IH outcome f') as [Hm2 (more2 & Hs2)].
    split; [rewrite Hm2; exact Hm |].
    exists (more1 ++ more2). rewrite Hs2, Hs, app_assoc. reflexivity.
  - cbn [Js.callBody]. destruct (IH (Js.act a f)) as [Hm (more & Hs)].
    split; [exact Hm |].
    exists (Js.Acted a :: more). rewrite Hs. cbn. rewrite <- app_assoc. reflexivity.
Qed.

(** a call of [__require__] leaves the functions as they are and only
    adds to the steps; what it adds begins with the call of the
    function it was asked for *)
Lemma require_keeps (n : nat) :
  forall p f,
    Js.modules (snd (Js.require n p f)) = Js.modules f
    /\ exists more,
        Js.steps (snd (Js.require n p f)) = Js.steps f ++ more
        /\ (more = [] \/ exists rest, more = Js.FactoryCalled p :: rest).
Proof.
  induction n as [| n IH]; intros p f; cbn [Js.require];
    (destruct (Js.truthy (Js.cacheRead f p));
     [split; [reflexivity | exists []; rewrite app_nil_r; split; [reflexivity | left; reflexivity]] |]);
    (destruct (OMap.get (Js.modules f) p) as [body |];
     [| split; [reflexivity | exists []; rewrite app_nil_r; split; [reflexivity | left; reflexivity]]]).
  - split; [reflexivity | exists []; rewrite app_nil_r; split; [reflexivity | left; reflexivity]].
  - assert (Hreq : forall q g, Js.modules (snd (Js.require n q g)) = Js.modules g
                               /\ exists more, Js.steps (snd (Js.require n q g))
                                               = Js.steps g ++ more).
    { intros q g. destruct (IH q g) as [Hm (more & Hs & _)].
      split; [exact Hm | exists more; exact Hs]. }
    destruct (callBody_keeps (Js.require n) body Hreq (Js.addStep f (Js.FactoryCalled p)))
      as [Hm (more & Hs)].
    destruct (Js.callBody (Js.require n) body (Js.addStep f (Js.FactoryCalled p)))
      as [[exports | r] f']; cbn [snd Js.addStep Js.writeCache Js.steps Js.modules] in *.
    + split; [exact Hm |].
      exists (Js.FactoryCalled p :: more ++ [Js.Cached p]).
      split; [| right; eexists; reflexivity].
      rewrite Hs, <- !app_assoc. reflexivity.
    + split; [exact Hm |].
      exists (Js.FactoryCalled p :: more).
      split; [| right; eexists; reflexivity].
      rewrite Hs, <- !app_assoc. reflexivity.
Qed.

(** the handler of [.catch] *)
Lemma fail_cases (r : Js.Value) (f : Js.Frame) :
  Js.fail stack c r f
  = let f1 := Js.addStep f (Js.Printed ErrorLevel
                                       [Js.Text "[swc] Failed to preload packages:"; r]) in
    match Js.messageOf r with
    | Js.Thrown e => Js.addStep f1 (Js.Uncaught e)
    | Js.Normal v =>
        match Js.root f with
        | None => Js.addStep f1 (Js.Uncaught (Js.cannotSet "null" "innerHTML"))
        | Some _ =>
            Js.writeRoot f1 (Bundle.redPre ("Failed to load dependencies: " ++ Js.toText v))
        end
    end.
Proof.
  unfold Js.fail. cbn -[Js.messageOf].
  destruct (Js.messageOf r) as [v | e]; [| reflexivity].
  cbn. destruct (Js.root f); [| reflexivity].
  reflexivity.
Qed.

(** the handler of [.then], and the handler of [.catch] for what it
    throws *)
Lemma succeed_cases (f : Js.Frame) :
  Js.succeed stack c f
  = match Js.require stack entryKey f with
    | (Js.Normal _, f') =>
        Js.addStep f' (Js.Printed LogLevel [Js.Text "[swc] App executed successfully"])
    | (Js.Thrown r, f') =>
        let f1 := Js.addStep f' (Js.Printed ErrorLevel
                                            [Js.Text "[swc] Execution error:"; r]) in
        match Js.messageOf r with
        | Js.Thrown e => Js.fail stack c e f1
        | Js.Normal v =>
            match Js.root f' with
            | None => Js.fail stack c (Js.cannotSet "null" "innerHTML") f1
            | Some _ => Js.writeRoot f1 (Bundle.redPre (Js.toText v))
            end
        end
    end.
Proof.
  unfold Js.succeed. cbn -[Js.messageOf Js.require Js.fail].
  destruct (Js.require stack entryKey f) as [[exports | r] f']; [reflexivity |].
  cbn -[Js.messageOf Js.fail].
  destruct (Js.messageOf r) as [v | e]; [| reflexivity].
  cbn -[Js.fail]. destruct (Js.root f'); [| reflexivity].
  reflexivity.
Qed.

(** *** What the handlers add to the steps *)

Lemma fail_keeps (r : Js.Value) (f : Js.Frame) :
  Js.modules (Js.fail stack c r f) = Js.modules f
  /\ Js.cache (Js.fail stack c r f) = Js.cache f
  /\ exists more, Js.steps (Js.fail stack c r f) = Js.steps f ++ more /\ noFactory more.
Proof.
  rewrite fail_cases. cbv zeta.
  destruct (Js.messageOf r) as [v | e]; [destruct (Js.root f) |];
    (split; [reflexivity |]; split; [reflexivity |]);
    cbn [Js.steps Js.writeRoot Js.addStep]; rewrite <- app_assoc; eexists;
    (split; [reflexivity |]);
    intros k [H | [H | []]]; discriminate H.
Qed.

Lemma succeed_steps (f : Js.Frame) :
  exists more tail,
    Js.steps (Js.succeed stack c f) = Js.steps f ++ more ++ tail
    /\ (more = [] \/ exists rest, more = Js.FactoryCalled entryKey :: rest)
    /\ noFactory tail.
Proof.
  rewrite succeed_cases.
  destruct (require_keeps stack entryKey f) as [_ (more & Hs & Hmore)].
  destruct (Js.require stack entryKey f) as [[exports | r] f']; cbn [snd] in Hs.
  - exists more. eexists. cbn [Js.steps Js.addStep]. rewrite Hs, <- app_assoc.
    split; [reflexivity |]. split; [exact Hmore |].
    intros k [H | []]; discriminate H.
  - cbv zeta. exists more.
    set (f1 := Js.addStep f' (Js.Printed ErrorLevel [Js.Text "[swc] Execution error:"; r])).
    assert (Hf1 : Js.steps f1
                  = Js.steps f ++ more
                              ++ [Js.Printed ErrorLevel [Js.Text "[swc] Execution error:"; r]]).
    { unfold f1. cbn [Js.steps Js.addStep]. rewrite Hs, <- app_assoc. reflexivity. }
    assert (Hprinted : noFactory [Js.Printed ErrorLevel [Js.Text "[swc] Execution error:"; r]]).
    { intros k [H | []]; discriminate H. }
    assert (Hfail : forall e, exists tail,
                 Js.steps (Js.fail stack c e f1) = Js.steps f ++ more ++ tail
                 /\ noFactory tail).
    { intros e. destruct (fail_keeps e f1) as (_ & _ & more2 & Hs2 & Hno).
      eexists. rewrite Hs2, Hf1, <- !app_assoc. split; [reflexivity |].
      apply noFactory_app; assumption. }
    destruct (Js.messageOf r) as [v | e].
    + destruct (Js.root f').
      * eexists. cbn [Js.steps Js.writeRoot]. rewrite Hf1, <- !app_assoc.
        split; [reflexivity |]. split; [exact Hmore |].
        apply noFactory_app; [exact Hprinted |].
        intros k [H | []]; discriminate H.
      * destruct (Hfail (Js.cannotSet "null" "innerHTML")) as (tail & Ht & Hno).
        exists tail. split; [exact Ht |]. split; assumption.
    + destruct (Hfail e) as (tail & Ht & Hno).
      exists tail. split; [exact Ht |]. split; assumption.
Qed.

(** *** The names that wait *)

Lemma existsb_eqb_In (x : string) (l : list string) :
  existsb (String.eqb x) l = true <-> In x l.
Proof.
  rewrite existsb_exists. split.
  - intros (y & Hy & E). apply String.eqb_eq in E. subst y. exact Hy.
  - intros H. exists x. split; [exact H | apply String.eqb_refl].
Qed.

Lemma without_In (x y : string) (l : list string) : In y (Js.without x l) -> In y l.
Proof.
  induction l as [| n l IH]; cbn; [tauto |].
  destruct (String.eqb x n); [tauto |]. intros [H | H]; [left; exact H | right; exact (IH H)].
Qed.

Lemma without_other (x y : string) (l : list string) :
  In y l -> y <> x -> In y (Js.without x l).
Proof.
  intros Hy Hne. induction l as [| n l IH]; cbn in *; [exact Hy |].
  destruct (String.eqb_spec x n) as [-> |].
  - destruct Hy as [-> | Hy]; [contradiction Hne; reflexivity | exact Hy].
  - destruct Hy as [-> | Hy]; [left; reflexivity | right; exact (IH Hy)].
Qed.

Lemma without_length (x : string) (l : list string) :
  In x l -> S (List.length (Js.without x l)) = List.length l.
Proof.
  induction l as [| n l IH]; cbn; [tauto |].
  destruct (String.eqb_spec x n) as [-> |]; [reflexivity |].
  intros [-> | H]; [contradiction n0; reflexivity |]. cbn. rewrite (IH H). reflexivity.
Qed.

Lemma without_NoDup (x : string) (l : list string) :
  NoDup l -> NoDup (Js.without x l) /\ ~ In x (Js.without x l).
Proof.
  induction l as [| n l IH]; cbn; intros Hnd; [split; [constructor | tauto] |].
  inversion Hnd as [| ? ? Hn Hl]; subst.
  destruct (String.eqb_spec x n) as [-> |]; [split; assumption |].
  destruct (IH Hl) as [IH1 IH2]. split.
  - constructor; [| exact IH1]. intros H. exact (Hn (without_In _ _ _ H)).
  - intros [H | H]; [exact (n0 (eq_sym H)) | exact (IH2 H)].
Qed.

(** *** While [Promise.all] waits *)

(** the functions of the module map *)
Variable ms : OMap.t Js.Body.

Local Abbreviation Waits := (Waits importResult ms).

Lemma settle_not_pending (state : Js.Frame * Js.Gathered) (pkg : string) :
  ~ In pkg (Js.pending (snd state)) ->
  Js.settle stack importResult c state pkg = state.
Proof.
  intros H. destruct state as [f g]. unfold Js.settle.
  destruct (existsb (String.eqb pkg) (Js.pending g)) eqn:E; [| reflexivity].
  apply existsb_eqb_In in E. contradiction (H E).
Qed.

Lemma settle_fulfilled (f : Js.Frame) (g : Js.Gathered) (pkg : string) (m : Js.Value) :
  In pkg (Js.pending g) ->
  importResult pkg = Js.Normal m ->
  Js.settle stack importResult c (f, g) pkg
  = Js.fulfilledOne stack c (preloaded f pkg m, Js.notPending pkg g).
Proof.
  intros Hin Hm. unfold Js.settle.
  apply existsb_eqb_In in Hin. rewrite Hin, Hm. cbn [negb]. rewrite onEach_runs. reflexivity.
Qed.

Lemma settle_rejected (f : Js.Frame) (g : Js.Gathered) (pkg : string) (r : Js.Value) :
  In pkg (Js.pending g) ->
  importResult pkg = Js.Thrown r ->
  Js.settle stack importResult c (f, g) pkg
  = Js.rejected stack c r (f, Js.notPending pkg g).
Proof.
  intros Hin Hr. unfold Js.settle.
  apply existsb_eqb_In in Hin. rewrite Hin, Hr. reflexivity.
Qed.

(** a fulfilled import that is not the last one *)
Lemma waits_on (f : Js.Frame) (g : Js.Gathered) (pkg : string) (m : Js.Value) :
  Waits (f, g) ->
  In pkg (Js.pending g) ->
  importResult pkg = Js.Normal m ->
  Js.without pkg (Js.pending g) <> [] ->
  Js.settle stack importResult c (f, g) pkg
  = (preloaded f pkg m, Js.oneMoreFulfilled (Js.notPending pkg g))
    /\ Waits (preloaded f pkg m, Js.oneMoreFulfilled (Js.notPending pkg g)).
Proof.
  intros W Hin Hm Hrest. destruct W; cbn [fst snd] in *.
  pose proof (without_length pkg _ Hin) as Hlen.
  split.
  - rewrite (settle_fulfilled f g pkg m Hin Hm). unfold Js.fulfilledOne.
    cbn [Js.settled Js.oneMoreFulfilled Js.notPending Js.fulfilled Js.wanted].
    rewrite waits_unsettled0. cbn [negb andb].
    replace (Nat.eqb (S (Js.fulfilled g)) (Js.wanted g)) with false; [reflexivity |].
    symmetry. apply Nat.eqb_neq.
    destruct (Js.without pkg (Js.pending g)) as [| x l]; [contradiction Hrest; reflexivity |].
    cbn [List.length] in Hlen. lia.
  - constructor; cbn [fst snd Js.settled Js.oneMoreFulfilled Js.notPending Js.fulfilled
                          Js.wanted Js.pending preloaded Js.addStep Js.writeCache Js.steps
                          Js.root Js.cache Js.modules].
    + exact waits_unsettled0.
    + lia.
    + exact Hrest.
    + exact (proj1 (without_NoDup pkg _ waits_NoDup0)).
    + intros q Hq. apply waits_incl0. exact (without_In _ _ _ Hq).
    + apply noFactory_app; [apply noFactory_app; [exact waits_noFactory0 |] |];
        intros k [H | []]; discriminate H.
    + exact waits_root0.
    + intros q Hq. destruct (string_dec q pkg) as [-> | Hne].
      * right. rewrite Hm. split; [reflexivity |].
        apply in_or_app. left. apply in_or_app. right. left. reflexivity.
      * destruct (waits_done0 q Hq) as [Hp | [Hn Hc]].
        -- left. exact (without_other _ _ _ Hp Hne).
        -- right. split; [exact Hn |]. apply in_or_app. left. apply in_or_app. left. exact Hc.
    + intros k Hk. rewrite get_set_other.
      * exact (waits_cache0 k Hk).
      * intros ->. exact (Hk (waits_incl0 _ Hin)).
    + exact waits_modules0.
Qed.

(** the last of the imports is fulfilled: every package is in the
    cache, and the handler of [.then] runs *)
Lemma waits_over (f : Js.Frame) (g : Js.Gathered) (pkg : string) (m : Js.Value) :
  Waits (f, g) ->
  In pkg (Js.pending g) ->
  importResult pkg = Js.Normal m ->
  Js.without pkg (Js.pending g) = [] ->
  Js.settle stack importResult c (f, g) pkg
  = (Js.succeed stack c (preloaded f pkg m),
     Js.settleAll (Js.oneMoreFulfilled (Js.notPending pkg g)))
    /\ noFactory (Js.steps (preloaded f pkg m))
    /\ Js.root (preloaded f pkg m) = Some EmptyString
    /\ Js.modules (preloaded f pkg m) = ms
    /\ (forall k, ~ In k Bundle.externalPackages ->
                  OMap.get (Js.cache (preloaded f pkg m)) k = None)
    /\ forall q, In q Bundle.externalPackages ->
                 Js.isNormal (importResult q) = true
                 /\ In (Js.Cached q) (Js.steps (preloaded f pkg m)).
Proof.
  intros W Hin Hm Hrest. destruct W; cbn [fst snd] in *.
  pose proof (without_length pkg _ Hin) as Hlen. rewrite Hrest in Hlen.
  cbn [List.length] in Hlen.
  split; [| split; [| split; [| split; [| split]]]].
  - rewrite (settle_fulfilled f g pkg m Hin Hm). unfold Js.fulfilledOne.
    cbn [Js.settled Js.oneMoreFulfilled Js.notPending Js.fulfilled Js.wanted].
    rewrite waits_unsettled0. cbn [negb andb].
    replace (Nat.eqb (S (Js.fulfilled g)) (Js.wanted g)) with true; [reflexivity |].
    symmetry. apply Nat.eqb_eq. lia.
  - unfold preloaded. cbn [Js.steps Js.addStep Js.writeCache].
    apply noFactory_app; [apply noFactory_app; [exact waits_noFactory0 |] |];
      intros k [H | []]; discriminate H.
  - exact waits_root0.
  - exact waits_modules0.
  - intros k Hk. unfold preloaded. cbn [Js.cache Js.addStep Js.writeCache].
    rewrite get_set_other; [exact (waits_cache0 k Hk) |].
    intros ->. exact (Hk (waits_incl0 _ Hin)).
  - intros q Hq. unfold preloaded. cbn [Js.steps Js.addStep Js.writeCache].
    destruct (string_dec q pkg) as [-> | Hne].
    + rewrite Hm. split; [reflexivity |].
      apply in_or_app. left. apply in_or_app. right. left. reflexivity.
    + destruct (waits_done0 q Hq) as [Hp | [Hn Hc]].
      * pose proof (without_other _ _ _ Hp Hne) as H. rewrite Hrest in H. destruct H.
      * split; [exact Hn |]. apply in_or_app. left. apply in_or_app. left. exact Hc.
Qed.

(** *** Once [Promise.all] is settled *)

Lemma settle_settled (f : Js.Frame) (g : Js.Gathered) (pkg : string) :
  Js.settled g = true ->
  Js.settled (snd (Js.settle stack importResult c (f, g) pkg)) = true
  /\ Js.root (fst (Js.settle stack importResult c (f, g) pkg)) = Js.root f
  /\ exists more,
      Js.steps (fst (Js.settle stack importResult c (f, g) pkg)) = Js.steps f ++ more
      /\ noFactory more.
Proof.
  intros Hs. unfold Js.settle.
  destruct (existsb (String.eqb pkg) (Js.pending g)); cbn [negb].
  - destruct (importResult pkg) as [m | r].
    + rewrite onEach_runs. unfold Js.fulfilledOne.
      cbn [Js.settled Js.oneMoreFulfilled Js.notPending]. rewrite Hs. cbn [negb andb fst snd].
      split; [exact Hs |]. split; [reflexivity |].
      cbn [Js.steps Js.addStep Js.writeCache]. rewrite <- app_assoc.
      eexists. split; [reflexivity |]. intros k [H | [H | []]]; discriminate H.
    + unfold Js.rejected. cbn [Js.settled Js.notPending]. rewrite Hs. cbn [fst snd].
      split; [exact Hs |]. split; [reflexivity |].
      exists []. rewrite app_nil_r. split; [reflexivity | apply noFactory_nil].
  - cbn [fst snd]. split; [exact Hs |]. split; [reflexivity |].
    exists []. rewrite app_nil_r. split; [reflexivity | apply noFactory_nil].
Qed.

Lemma run_settled (rest : list string) :
  forall state,
    Js.settled (snd state) = true ->
    Js.settled (snd (fold_left (Js.settle stack importResult c) rest state)) = true
    /\ Js.root (fst (fold_left (Js.settle stack importResult c) rest state))
       = Js.root (fst state)
    /\ exists more,
        Js.steps (fst (fold_left (Js.settle stack importResult c) rest state))
        = Js.steps (fst state) ++ more
        /\ noFactory more.
Proof.
  induction rest as [| pkg rest IH]; intros [f g] Hs; cbn [fold_left].
  - split; [exact Hs |]. split; [reflexivity |].
    exists []. rewrite app_nil_r. split; [reflexivity | apply noFactory_nil].
  - destruct (settle_settled f g pkg Hs) as (S1 & S2 & more1 & S3 & S4).
    destruct (IH _ S1) as (I1 & I2 & more2 & I3 & I4).
    split; [exact I1 |]. split; [rewrite I2; exact S2 |].
    exists (more1 ++ more2). rewrite I3, S3, app_assoc.
    split; [reflexivity | apply noFactory_app; assumption].
Qed.

(** *** The call of the entry comes after the preloads *)

Local Abbreviation afterPreloads := (afterPreloads importResult entryKey).

Lemma afterPreloads_more (f f' : Js.Frame) (more : list Js.Step) :
  afterPreloads f -> Js.steps f' = Js.steps f ++ more -> noFactory more -> afterPreloads f'.
Proof.
  intros [Hno | (pre & post & Hs & Hpre & Hall)] Hf' Hmore.
  - left. rewrite Hf'. apply noFactory_app; assumption.
  - right. exists pre, (post ++ more). rewrite Hf', Hs, <- app_assoc.
    split; [reflexivity |]. split; assumption.
Qed.

Lemma settle_afterPreloads (state : Js.Frame * Js.Gathered) (pkg : string) :
  Waits state \/ (Js.settled (snd state) = true /\ afterPreloads (fst state)) ->
  Waits (Js.settle stack importResult c state pkg)
  \/ (Js.settled (snd (Js.settle stack importResult c state pkg)) = true
      /\ afterPreloads (fst (Js.settle stack importResult c state pkg))).
Proof.
  destruct state as [f g]. intros [W | [Hs Hgood]].
  - destruct (in_dec string_dec pkg (Js.pending g)) as [Hin | Hout];
      [| rewrite settle_not_pending by exact Hout; left; exact W].
    destruct (importResult pkg) as [m | r] eqn:Hm.
    + destruct (Js.without pkg (Js.pending g)) as [| x l] eqn:Hrest.
      * destruct (waits_over f g pkg m W Hin Hm Hrest) as (-> & Hno & _ & _ & _ & Hall).
        right. cbn [fst snd]. split; [reflexivity |].
        destruct (succeed_steps (preloaded f pkg m)) as (more & tail & Hsteps & Hmore & Htail).
        destruct Hmore as [-> | (rest & ->)].
        -- left. rewrite Hsteps. apply noFactory_app; [exact Hno | exact Htail].
        -- right. exists (Js.steps (preloaded f pkg m)), (rest ++ tail).
           split; [exact Hsteps |]. split; [exact Hno | exact Hall].
      * assert (Hne : Js.without pkg (Js.pending g) <> []) by (rewrite Hrest; discriminate).
        destruct (waits_on f g pkg m W Hin Hm Hne) as [-> W']. left. exact W'.
    + rewrite (settle_rejected f g pkg r Hin Hm). unfold Js.rejected.
      pose proof (waits_unsettled _ _ _ W) as Hu. cbn [snd] in Hu.
      cbn [Js.settled Js.notPending]. rewrite Hu. cbn [fst snd].
      right. split; [reflexivity |]. left.
      destruct (fail_keeps r f) as (_ & _ & more & -> & Hmore).
      apply noFactory_app; [exact (waits_noFactory _ _ _ W) | exact Hmore].
  - right. destruct (settle_settled f g pkg Hs) as (S1 & _ & more & S3 & S4).
    split; [exact S1 |]. exact (afterPreloads_more _ _ _ Hgood S3 S4).
Qed.

Lemma run_afterPreloads (order : list string) :
  forall state,
    Waits state \/ (Js.settled (snd state) = true /\ afterPreloads (fst state)) ->
    afterPreloads (fst (fold_left (Js.settle stack importResult c) order state)).
Proof.
  induction order as [| pkg order IH]; intros state H; cbn [fold_left].
  - destruct H as [W | [_ H]]; [left; exact (waits_noFactory _ _ _ W) | exact H].
  - apply IH, settle_afterPreloads, H.
Qed.

(** *** An import is rejected *)

Lemma run_waits (before : list string) (pkg : string) :
  forall state,
    Waits state ->
    (forall q, In q before -> Js.isNormal (importResult q) = true) ->
    In pkg (Js.pending (snd state)) ->
    ~ In pkg before ->
    Waits (fold_left (Js.settle stack importResult c) before state)
    /\ In pkg (Js.pending (snd (fold_left (Js.settle stack importResult c) before state))).
Proof.
  induction before as [| q before IH]; intros [f g] W Hok Hin Hout; cbn [fold_left];
    [split; assumption |].
  cbn [snd] in Hin.
  assert (Hne : pkg <> q) by (intros ->; apply Hout; left; reflexivity).
  assert (Hout' : ~ In pkg before) by (intros H; apply Hout; right; exact H).
  assert (Hok' : forall q', In q' before -> Js.isNormal (importResult q') = true)
    by (intros q' H; apply Hok; right; exact H).
  destruct (in_dec string_dec q (Js.pending g)) as [Hq | Hq].
  - pose proof (Hok q (or_introl eq_refl)) as Hn.
    destruct (importResult q) as [m | r] eqn:Hm; [| discriminate Hn].
    pose proof (without_other q pkg _ Hin Hne) as Hstill.
    assert (Hrest : Js.without q (Js.pending g) <> []).
    { intros E. rewrite E in Hstill. destruct Hstill. }
    destruct (waits_on f g q m W Hq Hm Hrest) as [-> W'].
    apply IH; [exact W' | exact Hok' | exact Hstill | exact Hout'].
  - rewrite settle_not_pending by exact Hq.
    apply IH; [exact W | exact Hok' | exact Hin | exact Hout'].
Qed.

Lemma run_rejected (before after : list string) (pkg : string) (r : Js.Value)
      (state : Js.Frame * Js.Gathered) :
  Waits state ->
  (forall q, In q before -> Js.isNormal (importResult q) = true) ->
  In pkg (Js.pending (snd state)) ->
  ~ In pkg before ->
  importResult pkg = Js.Thrown r ->
  let final := fst (fold_left (Js.settle stack importResult c) (before ++ pkg :: after) state) in
  noFactory (Js.steps final)
  /\ (forall v, Js.messageOf r = Js.Normal v ->
                Js.root final
                = Some (Bundle.redPre ("Failed to load dependencies: " ++ Js.toText v)))
  /\ (forall e, Js.messageOf r = Js.Thrown e ->
                Js.root final = Some EmptyString /\ In (Js.Uncaught e) (Js.steps final)).
Proof.
  intros W Hok Hin Hout Hr final. unfold final. clear final.
  rewrite fold_left_app. cbn [fold_left].
  destruct (run_waits before pkg state W Hok Hin Hout) as [W1 Hin1].
  destruct (fold_left (Js.settle stack importResult c) before state) as [f g].
  cbn [snd] in Hin1.
  rewrite (settle_rejected f g pkg r Hin1 Hr). unfold Js.rejected.
  pose proof (waits_unsettled _ _ _ W1) as Hu. cbn [snd] in Hu.
  pose proof (waits_root _ _ _ W1) as Hroot. cbn [fst] in Hroot.
  pose proof (waits_noFactory _ _ _ W1) as Hnone. cbn [fst] in Hnone.
  cbn [Js.settled Js.notPending]. rewrite Hu.
  destruct (run_settled after (Js.fail stack c r f, Js.settleAll (Js.notPending pkg g)) eq_refl)
    as (_ & R2 & more & R3 & R4).
  cbn [fst] in R2, R3. rewrite R2, R3.
  destruct (fail_keeps r f) as (_ & _ & more0 & Hf & Hmore0).
  split; [| split].
  - rewrite Hf. apply noFactory_app; [apply noFactory_app |];
      [exact Hnone | exact Hmore0 | exact R4].
  - intros v Hv. rewrite fail_cases, Hv. cbv zeta. cbn [Js.root Js.addStep].
    rewrite Hroot. reflexivity.
  - intros e He. rewrite fail_cases, He. cbv zeta. cbn [Js.root Js.addStep Js.steps].
    split; [exact Hroot |].
    apply in_or_app. left. apply in_or_app. right. left. reflexivity.
Qed.

(** *** Every import is fulfilled *)

Lemma succeed_after_require (f : Js.Frame) :
  exists tail,
    Js.steps (Js.succeed stack c f) = Js.steps (snd (Js.require stack entryKey f)) ++ tail.
Proof.
  rewrite succeed_cases.
  destruct (Js.require stack entryKey f) as [[exports | r] f']; cbn [snd].
  - eexists. reflexivity.
  - cbv zeta.
    set (f1 := Js.addStep f' (Js.Printed ErrorLevel [Js.Text "[swc] Execution error:"; r])).
    assert (Hfail : forall e, exists tail,
                 Js.steps (Js.fail stack c e f1) = Js.steps f' ++ tail).
    { intros e. destruct (fail_keeps e f1) as (_ & _ & more & -> & _).
      unfold f1. cbn [Js.steps Js.addStep]. rewrite <- app_assoc. eexists. reflexivity. }
    destruct (Js.messageOf r) as [v | e]; [destruct (Js.root f') |].
    + unfold f1. cbn [Js.steps Js.addStep Js.writeRoot]. rewrite <- app_assoc.
      eexists. reflexivity.
    + apply Hfail.
    + apply Hfail.
Qed.

(** a module that is registered and not in the cache is called *)
Lemma require_calls (path : string) (body : Js.Body) (f : Js.Frame) :
  stack <> 0 ->
  OMap.get (Js.cache f) path = None ->
  ~ In path Js.inherited ->
  OMap.get (Js.modules f) path = Some body ->
  exists more,
    Js.steps (snd (Js.require stack path f)) = Js.steps f ++ Js.FactoryCalled path :: more.
Proof.
  intros Hstack Hcache Hinh Hbody.
  destruct stack as [| n]; [contradiction Hstack; reflexivity |].
  cbn [Js.require]. unfold Js.cacheRead. rewrite Hcache.
  destruct (existsb (String.eqb path) Js.inherited) eqn:E;
    [apply existsb_eqb_In in E; contradiction (Hinh E) |].
  cbn [Js.truthy]. rewrite Hbody.
  assert (Hreq : forall q g, Js.modules (snd (Js.require n q g)) = Js.modules g
                             /\ exists more, Js.steps (snd (Js.require n q g))
                                             = Js.steps g ++ more).
  { intros q g. destruct (require_keeps n q g) as [Hm (more & Hs & _)].
    split; [exact Hm | exists more; exact Hs]. }
  destruct (callBody_keeps (Js.require n) body Hreq (Js.addStep f (Js.FactoryCalled path)))
    as [_ (more & Hs)].
  destruct (Js.callBody (Js.require n) body (Js.addStep f (Js.FactoryCalled path)))
    as [[exports | r] f']; cbn [snd Js.addStep Js.writeCache Js.steps] in *;
    rewrite Hs, <- !app_assoc; eexists; reflexivity.
Qed.

Lemma settle_extends (state : Js.Frame * Js.Gathered) (pkg : string) :
  exists more,
    Js.steps (fst (Js.settle stack importResult c state pkg)) = Js.steps (fst state) ++ more.
Proof.
  destruct state as [f g]. unfold Js.settle.
  destruct (existsb (String.eqb pkg) (Js.pending g)); cbn [negb];
    [| exists []; rewrite app_nil_r; reflexivity].
  destruct (importResult pkg) as [m | r].
  - rewrite onEach_runs. unfold Js.fulfilledOne.
    destruct (negb _ && _); cbn [fst].
    + destruct (succeed_steps (Js.addStep (Js.writeCache f pkg m)
                                          (Js.Printed LogLevel
                                                      [Js.Text ("[swc] Preloaded: " ++ pkg)])))
        as (more & tail & -> & _).
      cbn [Js.steps Js.addStep Js.writeCache]. rewrite <- !app_assoc. eexists. reflexivity.
    + cbn [Js.steps Js.addStep Js.writeCache]. rewrite <- !app_assoc. eexists. reflexivity.
  - unfold Js.rejected. destruct (Js.settled (Js.notPending pkg g)); cbn [fst].
    + exists []. rewrite app_nil_r. reflexivity.
    + destruct (fail_keeps r f) as (_ & _ & more & -> & _). eexists. reflexivity.
Qed.

Lemma run_extends (order : list string) :
  forall state,
  exists more,
    Js.steps (fst (fold_left (Js.settle stack importResult c) order state))
    = Js.steps (fst state) ++ more.
Proof.
  induction order as [| pkg order IH]; intros state; cbn [fold_left].
  - exists []. rewrite app_nil_r. reflexivity.
  - destruct (IH (Js.settle stack importResult c state pkg)) as (more2 & ->).
    destruct (settle_extends state pkg) as (more1 & ->).
    rewrite <- app_assoc. eexists. reflexivity.
Qed.

Lemma run_fulfilled (body : Js.Body) (order : list string) :
  stack <> 0 ->
  OMap.get ms entryKey = Some body ->
  ~ In entryKey Bundle.externalPackages ->
  ~ In entryKey Js.inherited ->
  forall state,
    Waits state ->
    (forall q, In q (Js.pending (snd state)) ->
               Js.isNormal (importResult q) = true /\ In q order) ->
    In (Js.FactoryCalled entryKey)
       (Js.steps (fst (fold_left (Js.settle stack importResult c) order state))).
Proof.
  intros Hstack Hbody Hext Hinh.
  induction order as [| p order IH]; intros [f g] W Hall; cbn [fold_left].
  - pose proof (waits_some _ _ _ W) as Hsome. cbn [snd] in Hsome, Hall.
    destruct (Js.pending g) as [| q l]; [contradiction Hsome; reflexivity |].
    destruct (Hall q (or_introl eq_refl)) as [_ []].
  - cbn [snd] in Hall.
    destruct (in_dec string_dec p (Js.pending g)) as [Hp | Hp].
    + destruct (Hall p Hp) as [Hn _].
      destruct (importResult p) as [m | r] eqn:Hm; [| discriminate Hn].
      destruct (Js.without p (Js.pending g)) as [| x l] eqn:Hrest.
      * destruct (waits_over f g p m W Hp Hm Hrest) as (-> & _ & _ & Hms & Hcache & _).
        destruct (run_extends order (Js.succeed stack c (preloaded f p m),
                                     Js.settleAll (Js.oneMoreFulfilled (Js.notPending p g))))
          as (more & ->).
        cbn [fst]. apply in_or_app. left.
        destruct (succeed_after_require (preloaded f p m)) as (tail & ->).
        apply in_or_app. left.
        destruct (require_calls entryKey body (preloaded f p m) Hstack (Hcache _ Hext) Hinh)
          as (more2 & ->); [rewrite Hms; exact Hbody |].
        apply in_or_app. right. left. reflexivity.
      * assert (Hne : Js.without p (Js.pending g) <> []) by (rewrite Hrest; discriminate).
        destruct (waits_on f g p m W Hp Hm Hne) as [-> W'].
        apply IH; [exact W' |].
        cbn [snd Js.pending Js.oneMoreFulfilled Js.notPending].
        intros q Hq. pose proof (without_In _ _ _ Hq) as Hq'.
        destruct (Hall q Hq') as [Hnq [<- | Hin]]; [| split; assumption].
        pose proof (waits_NoDup _ _ _ W) as Hnd. cbn [snd] in Hnd.
        contradiction (proj2 (without_NoDup p _ Hnd) Hq).
    + rewrite settle_not_pending by exact Hp.
      apply IH; [exact W |]. cbn [snd].
      intros q Hq. destruct (Hall q Hq) as [Hnq [<- | Hin]]; [contradiction (Hp Hq) |].
      split; assumption.
Qed.

(** the imports of [done] are fulfilled and others are still awaited *)
Lemma run_preloads (namespaces : string -> Js.Value) (done : list string) :
  forall f g,
    Waits (f, g) ->
    NoDup done ->
    incl done (Js.pending g) ->
    List.length done < List.length (Js.pending g) ->
    (forall p, In p done -> importResult p = Js.Normal (namespaces p)) ->
    exists g',
      fold_left (Js.settle stack importResult c) done (f, g)
      = (fold_left (fun f p => preloaded f p (namespaces p)) done f, g')
      /\ Waits (fold_left (fun f p => preloaded f p (namespaces p)) done f, g')
      /\ List.length (Js.pending g') + List.length done = List.length (Js.pending g)
      /\ forall q, In q (Js.pending g) -> ~ In q done -> In q (Js.pending g').
Proof.
  induction done as [| p done IH]; intros f g W Hnd Hincl Hlen Hok; cbn [fold_left].
  - exists g. split; [reflexivity |]. split; [exact W |].
    split; [cbn; lia | intros q Hq _; exact Hq].
  - inversion Hnd as [| ? ? Hp Hnd']; subst.
    assert (Hin : In p (Js.pending g)) by (apply Hincl; left; reflexivity).
    pose proof (without_length p _ Hin) as Hwl. cbn [List.length] in Hlen.
    assert (Hrest : Js.without p (Js.pending g) <> []).
    { intros E. rewrite E in Hwl. cbn in Hwl. lia. }
    destruct (waits_on f g p (namespaces p) W Hin (Hok p (or_introl eq_refl)) Hrest)
      as [-> W'].
    destruct (IH (preloaded f p (namespaces p)) (Js.oneMoreFulfilled (Js.notPending p g)) W' Hnd')
      as (g' & Hfold & W'' & Hcount & Hkeep).
    + intros q Hq. cbn [Js.pending Js.oneMoreFulfilled Js.notPending].
      apply without_other; [apply Hincl; right; exact Hq |].
      intros ->. exact (Hp Hq).
    + cbn [Js.pending Js.oneMoreFulfilled Js.notPending]. lia.
    + intros q Hq. apply Hok. right. exact Hq.
    + exists g'. split; [exact Hfold |]. split; [exact W'' |].
      cbn [Js.pending Js.oneMoreFulfilled Js.notPending] in Hcount, Hkeep.
      split; [cbn [List.length]; lia |].
      intros q Hq Hout. apply Hkeep.
      * apply without_other; [exact Hq |]. intros ->. apply Hout. left. reflexivity.
      * intros H. apply Hout. right. exact H.
Qed.

(** all the imports are fulfilled, [last] being the last of them: the
    handler of [.then] runs on the frame the callbacks have left *)
Lemma run_all_preloaded (namespaces : string -> Js.Value) (done : list string)
      (last : string) (f : Js.Frame) (g : Js.Gathered) :
  Waits (f, g) ->
  NoDup (done ++ [last]) ->
  incl (done ++ [last]) (Js.pending g) ->
  List.length (done ++ [last]) = List.length (Js.pending g) ->
  (forall p, In p (done ++ [last]) -> importResult p = Js.Normal (namespaces p)) ->
  fst (fold_left (Js.settle stack importResult c) (done ++ [last]) (f, g))
  = Js.succeed stack c (fold_left (fun f p => preloaded f p (namespaces p)) (done ++ [last]) f).
Proof.
  intros W Hnd Hincl Hlen Hok. rewrite length_app in Hlen. cbn [List.length] in Hlen.
  pose proof Hnd as Hnd1. apply NoDup_remove_1 in Hnd1. rewrite app_nil_r in Hnd1.
  destruct (run_preloads namespaces done f g W Hnd1) as (g' & Hfold & W' & Hcount & Hkeep).
  - intros q Hq. apply Hincl, in_or_app. left. exact Hq.
  - lia.
  - intros p Hp. apply Hok, in_or_app. left. exact Hp.
  - rewrite !fold_left_app, Hfold. cbn [fold_left].
    assert (Hlast : In last (Js.pending g')).
    { apply Hkeep; [apply Hincl, in_or_app; right; left; reflexivity |].
      apply NoDup_remove_2 in Hnd. rewrite app_nil_r in Hnd. exact Hnd. }
    assert (Hrest : Js.without last (Js.pending g') = []).
    { pose proof (without_length last _ Hlast) as Hwl.
      destruct (Js.without last (Js.pending g')); [reflexivity | cbn in Hwl; lia]. }
    assert (Hm : importResult last = Js.Normal (namespaces last)).
    { apply Hok, in_or_app. right. left. reflexivity. }
    destruct (waits_over _ g' last (namespaces last) W' Hlast Hm Hrest) as (-> & _).
    reflexivity.
Qed.

End Preload.

(** *** The script, evaluated *)

Lemma declareAll_app (behaviour : string -> option Js.Body) (a b : list Js.Item) :
  forall f,
    Js.declareAll behaviour f (a ++ b)
    = match Js.declareAll behaviour f a with
      | None => None
      | Some f' => Js.declareAll behaviour f' b
      end.
Proof.
  induction a as [| i a IH]; intros f; cbn [app Js.declareAll]; [reflexivity |].
  destruct (Js.declare behaviour f i); [apply IH | reflexivity].
Qed.

Lemma declareAll_modules (behaviour : string -> option Js.Body)
      (entries : list (string * string)) :
  forall f,
    Js.declareAll behaviour f (flat_map Bundle.moduleItems entries)
    = match registered behaviour entries (Js.modules f) with
      | None => None
      | Some ms =>
          Some {| Js.modules := ms; Js.cache := Js.cache f; Js.arrays := Js.arrays f;
                  Js.root := Js.root f; Js.steps := Js.steps f |}
      end.
Proof.
  induction entries as [| [path code] entries IH]; intros f.
  - destruct f. reflexivity.
  - cbn [flat_map Bundle.moduleItems app Js.declareAll Js.declare registered fst snd].
    destruct (behaviour code) as [body |]; [| reflexivity].
    rewrite IH. reflexivity.
Qed.

Lemma run_script (stack : nat) (behaviour : string -> option Js.Body)
      (importResult : string -> Js.Completion Js.Value)
      (moduleMap : OMap.t string) (entryKey : string) (order : list string) :
  Js.run stack behaviour importResult (Bundle.script moduleMap entryKey) order
  = match registered behaviour (OMap.entries moduleMap) [] with
    | None => Js.initialFrame
    | Some ms =>
        fst (fold_left (Js.settle stack importResult (Bundle.preloadChain entryKey)) order
                       (loadedFrame ms, allPending))
    end.
Proof.
  unfold Js.run, Bundle.script. cbn [Js.declarations Js.preload].
  rewrite declareAll_app. cbn [Bundle.registry Js.declareAll Js.declare String.eqb Ascii.eqb
                                               Bool.eqb].
  rewrite declareAll_app, declareAll_modules. cbn [Js.modules].
  destruct (registered behaviour (OMap.entries moduleMap) []) as [ms |]; reflexivity.
Qed.

Lemma waits_loaded (importResult : string -> Js.Completion Js.Value) (ms : OMap.t Js.Body) :
  Waits importResult ms (loadedFrame ms, allPending).
Proof.
  constructor; cbn [fst snd loadedFrame allPending Js.settled Js.fulfilled Js.pending
                        Js.wanted Js.steps Js.root Js.cache Js.modules].
  - reflexivity.
  - reflexivity.
  - discriminate.
  - repeat constructor; cbn; intros H;
      repeat (destruct H as [H | H]; [discriminate H |]); exact H.
  - intros q Hq. exact Hq.
  - apply noFactory_nil.
  - reflexivity.
  - intros pkg Hpkg. left. exact Hpkg.
  - reflexivity.
  - reflexivity.
Qed.

Lemma registered_get (behaviour : string -> option Js.Body)
      (entries : list (string * string)) (k : string) :
  forall m ms,
    registered behaviour entries m = Some ms ->
    In k (map fst entries) \/ OMap.get m k <> None ->
    exists body, OMap.get ms k = Some body.
Proof.
  induction entries as [| [path code] entries IH]; intros m ms; cbn [registered map fst In].
  - intros H [[] | Hk]. injection H as <-.
    destruct (OMap.get m k) as [body |]; [exists body; reflexivity | contradiction Hk; reflexivity].
  - destruct (behaviour code) as [body |]; [| discriminate].
    intros H Hk. apply (IH _ _ H).
    destruct (string_dec k path) as [-> | Hne].
    + right. rewrite get_set_same. discriminate.
    + destruct Hk as [[Hk | Hk] | Hk].
      * contradiction Hne. symmetry. exact Hk.
      * left. exact Hk.
      * right. rewrite get_set_other by exact Hne. exact Hk.
Qed.

(** *** The entry point of a compile *)

Lemma registryPath_ends (p : string) :
  Str.endsWith (Swc.registryPath p) ".js" = true
  \/ Str.endsWith (Swc.registryPath p) ".jsx" = true.
Proof.
  unfold Swc.registryPath, Swc.addJs.
  destruct (Str.endsWith ("/src/" ++ Str.replaceFirst "@/" EmptyString p) ".js") eqn:E1;
    [left; exact E1 |].
  destruct (Str.endsWith ("/src/" ++ Str.replaceFirst "@/" EmptyString p) ".jsx") eqn:E2;
    [right; exact E2 |].
  cbn [negb andb]. left. apply endsWith_append.
Qed.

Lemma registryPath_no_package (p : string) :
  ~ In (Swc.registryPath p) Bundle.externalPackages
  /\ ~ In (Swc.registryPath p) Js.inherited.
Proof.
  pose proof (registryPath_ends p) as Hends.
  split; intros Hin; cbn in Hin;
    repeat (destruct Hin as [Hin | Hin];
            [rewrite <- Hin in Hends; vm_compute in Hends;
             destruct Hends as [H | H]; discriminate H |]);
    exact Hin.
Qed.

Lemma compile_registers_entry env options state result state' :
  Swc.compile env options state = (Ok result, state') ->
  In (Swc.resultEntryPoint result) (OMap.keys (Swc.moduleMap result))
  /\ ~ In (Swc.resultEntryPoint result) Bundle.externalPackages
  /\ ~ In (Swc.resultEntryPoint result) Js.inherited.
Proof.
  destruct state as [w this]. destruct state' as [w' this']. intros H.
  destruct (swc_compile_Ok_inv _ _ _ _ _ _ _ H) as (text & events & lines & this1 & _ & _ & -> & _).
  unfold assemble. cbn [Swc.moduleMap Swc.resultEntryPoint].
  split; [| apply registryPath_no_package].
  apply In_keys_fold. left. cbn. left. reflexivity.
Qed.

(** *** The frame the callbacks leave *)

Lemma preloads_leave (namespaces : string -> Js.Value) (order : list string) :
  forall f,
    let f' := fold_left (fun f p => preloaded f p (namespaces p)) order f in
    Js.steps f' = Js.steps f ++ flat_map preloadSteps order
    /\ Js.modules f' = Js.modules f
    /\ Js.root f' = Js.root f
    /\ (forall pkg, In pkg order -> OMap.get (Js.cache f') pkg = Some (namespaces pkg))
    /\ (forall k, ~ In k order -> OMap.get (Js.cache f') k = OMap.get (Js.cache f) k).
Proof.
  induction order as [| p order IH]; intros f; cbn [fold_left flat_map].
  - cbv zeta. rewrite app_nil_r.
    split; [reflexivity |]. split; [reflexivity |]. split; [reflexivity |].
    split; [intros pkg [] | intros k _; reflexivity].
  - destruct (IH (preloaded f p (namespaces p))) as (I1 & I2 & I3 & I4 & I5).
    cbv zeta. split; [| split; [| split; [| split]]].
    + rewrite I1. unfold preloaded at 1, preloadSteps at 2.
      cbn [Js.steps Js.addStep Js.writeCache]. rewrite <- !app_assoc. reflexivity.
    + rewrite I2. reflexivity.
    + rewrite I3. reflexivity.
    + intros pkg Hpkg. destruct (in_dec string_dec pkg order) as [Hin | Hout].
      * exact (I4 pkg Hin).
      * destruct Hpkg as [<- | Hpkg]; [| contradiction (Hout Hpkg)].
        rewrite (I5 p Hout). unfold preloaded. cbn [Js.cache Js.addStep Js.writeCache].
        apply get_set_same.
    + intros k Hk. rewrite I5 by (intros H; apply Hk; right; exact H).
      unfold preloaded. cbn [Js.cache Js.addStep Js.writeCache].
      apply get_set_other. intros ->. apply Hk. left. reflexivity.
Qed.

Lemma keys_set_new {V} (m : OMap.t V) (k : string) (v : V) :
  ~ In k (OMap.keys m) -> OMap.keys (OMap.set m k v) = OMap.keys m ++ [k].
Proof.
  induction m as [| [k' v'] m IH]; cbn; intros Hk; [reflexivity |].
  destruct (String.eqb_spec k k') as [-> | Hne].
  - contradiction Hk. left. reflexivity.
  - cbn. f_equal. apply IH. intros H. apply Hk. right. exact H.
Qed.

Lemma preloads_keys (namespaces : string -> Js.Value) (order : list string) :
  forall f,
    NoDup (OMap.keys (Js.cache f) ++ order) ->
    OMap.keys (Js.cache (fold_left (fun f p => preloaded f p (namespaces p)) order f))
    = OMap.keys (Js.cache f) ++ order.
Proof.
  induction order as [| p order IH]; intros f Hnd; cbn [fold_left].
  - rewrite app_nil_r. reflexivity.
  - assert (Hp : ~ In p (OMap.keys (Js.cache f))).
    { intros H. apply NoDup_remove_2 in Hnd. apply Hnd, in_or_app. left. exact H. }
    rewrite IH; unfold preloaded; cbn [Js.cache Js.addStep Js.writeCache];
      rewrite (keys_set_new _ _ _ Hp), <- app_assoc; [reflexivity | exact Hnd].
Qed.

(** the script of the bundle stands in a document whose import map
    names the four packages, and whose element with id [root] is empty
    and precedes the script, the only module script of the document *)
Lemma document_of_the_script (script : string) :
  exists head tail,
    iframeHTML script
    = (head ++ "<div id=" ++ Str.dq ++ "root" ++ Str.dq ++ "></div>" ++ Str.nl
       ++ "        <script type=" ++ Str.dq ++ "module" ++ Str.dq ++ ">" ++ Str.nl
       ++ "          " ++ script ++ tail)%string
    /\ mentions ("<script type=" ++ Str.dq ++ "module") head = false
    /\ forall pkg,
         In pkg Bundle.externalPackages ->
         mentions (Str.dq ++ pkg ++ Str.dq ++ ": " ++ Str.dq ++ "https://esm.sh/") head = true.
Proof.
  exists (Str.take 827 (iframeHTML EmptyString)), (Str.slice 890 (iframeHTML EmptyString)).
  split; [vm_compute; reflexivity |].
  split; [vm_compute; reflexivity |].
  intros pkg Hpkg. cbn in Hpkg.
  repeat (destruct Hpkg as [<- | Hpkg]; [vm_compute; reflexivity |]). destruct Hpkg.
Qed.



(** ** The bundle when every import is fulfilled *)

(** a call of [__require__] that returns has put what it returns into
    the cache *)
Lemma require_memoizes (stack : nat) (path : string) (f f' : Js.Frame) (exports : Js.Value) :
  OMap.get (Js.cache f) path = None ->
  ~ In path Js.inherited ->
  Js.require stack path f = (Js.Normal exports, f') ->
  OMap.get (Js.cache f') path = Some exports.
Proof.
  intros Hcache Hinh.
  destruct stack as [| n]; cbn [Js.require]; unfold Js.cacheRead; rewrite Hcache;
    (destruct (existsb (String.eqb path) Js.inherited) eqn:E;
     [apply existsb_eqb_In in E; contradiction (Hinh E) |]);
    cbn [Js.truthy];
    (destruct (OMap.get (Js.modules f) path) as [body |]; [| discriminate]);
    [discriminate |].
  destruct (Js.callBody (Js.require n) body (Js.addStep f (Js.FactoryCalled path)))
    as [[exports' | r] f'']; [| discriminate].
  intros H. injection H as <- <-. cbn [Js.cache Js.writeCache]. apply get_set_same.
Qed.



(** ** C5: the target of an alias, in the rewritten imports *)

Lemma resolveAlias_target (rest : string) : Swc.resolveAlias ("@/" ++ rest) = aliasTarget rest.
Proof.
  change (Swc.resolveAlias ("@/" ++ rest)) with (Swc.addJs ("/src/" ++ rest)).
  unfold Swc.addJs, aliasTarget.
  destruct (Str.endsWith ("/src/" ++ rest) ".js");
    destruct (Str.endsWith ("/src/" ++ rest) ".jsx"); reflexivity.
Qed.

Lemma registryPath_target (rest : string) : Swc.registryPath ("@/" ++ rest) = aliasTarget rest.
Proof.
  unfold Swc.registryPath. rewrite replaceFirst_alias. apply (resolveAlias_target rest).
Qed.

Lemma aliasTarget_ends (rest : string) :
  Str.endsWith (aliasTarget rest) ".js" || Str.endsWith (aliasTarget rest) ".jsx" = true.
Proof.
  unfold aliasTarget.
  destruct (Str.endsWith ("/src/" ++ rest) ".js") eqn:Ejs; cbn [orb];
    [rewrite Ejs; reflexivity |].
  destruct (Str.endsWith ("/src/" ++ rest) ".jsx") eqn:Ejsx.
  - rewrite Ejs, Ejsx. reflexivity.
  - change ("/src/" ++ rest ++ ".js")%string with ("/src/" ++ (rest ++ ".js"))%string.
    rewrite <- append_assoc, endsWith_append. reflexivity.
Qed.

Lemma specifierText_alias (rest : string) :
  specifierText rest = true -> specifierText ("@/" ++ rest) = true.
Proof.
  unfold specifierText. intros H. apply andb_prop in H as [_ H]. cbn. exact H.
Qed.

Lemma plain_alias (rest : string) : plain rest = true -> plain ("@/" ++ rest) = true.
Proof. intros H. exact H. Qed.

Lemma combinedBindings_plain (A B C rest : string) :
  plain A = true -> plain B = true -> plain C = true -> plain rest = true ->
  mentions "import" (combinedBindings A B C rest) = false
  /\ mentions "export" (combinedBindings A B C rest) = false.
Proof.
  intros HA HB HC Hrest.
  pose proof (plain_import _ HA) as HiA. pose proof (plain_export _ HA) as HeA.
  pose proof (plain_import _ HB) as HiB. pose proof (plain_export _ HB) as HeB.
  pose proof (plain_import _ HC) as HiC. pose proof (plain_export _ HC) as HeC.
  destruct (plain_resolveAlias _ (plain_alias rest Hrest)) as [HiR HeR].
  cbn [append] in HiR, HeR.
  unfold combinedBindings, Str.dq, Str.nl. split.
  - no_mention. rewrite HiA, HiR, HiB, HiC. reflexivity.
  - no_mention. rewrite HeA, HeR, HeB, HeC. reflexivity.
Qed.

(** C5, as the code has it.  The target of an alias-rooted specifier
    does not depend on the importer.  [resolveImports] of [SwcRunner]
    gives the same text for every path of the importing file.  In the
    imports it resolves (a default import, a named import with or
    without a renaming, and the two combined) it puts in the place of
    [@/rest] the fixed root [/src] followed by [rest], whatever the
    base location of the compile, and appends [.js] unless that path
    ends in [.js] or [.jsx] already, without asking which sources
    exist.  The path it writes bears an extension, and it is a key of
    the module map of every compile that fulfils with [@/rest] in its
    cache: the key under which [compile] registers that module.  The
    resolve callback of [EsbuildRunner] returns [@/rest] unchanged in
    the virtual namespace for every importer and namespace.  This
    holds for identifiers [A], [B] (other than [as]) and [C] where the
    words import and export do not occur in the names and in [rest]. *)
Theorem C5_alias_resolution_is_importer_independent
        (A B C rest importer1 importer2 namespace1 namespace2 : string) :
  ident A = true ->
  ident B = true ->
  ident C = true ->
  B <> "as" ->
  specifierText rest = true ->
  plain A = true ->
  plain B = true ->
  plain C = true ->
  plain rest = true ->
  (forall code, Swc.resolveImports code importer1 = Swc.resolveImports code importer2)
  /\ (forall importer,
         Swc.resolveImports
           ("import " ++ A ++ " from " ++ Str.dq ++ "@/" ++ rest ++ Str.dq) importer
         = ("const " ++ A ++ " = require(" ++ Str.dq ++ aliasTarget rest ++ Str.dq ++ ")")%string)
  /\ (forall importer,
         Swc.resolveImports
           ("import { " ++ B ++ " } from " ++ Str.dq ++ "@/" ++ rest ++ Str.dq) importer
         = ("const {  " ++ B ++ "  } = require(" ++ Str.dq ++ aliasTarget rest ++ Str.dq
              ++ ")")%string)
  /\ (forall importer,
         Swc.resolveImports
           ("import { " ++ B ++ " as " ++ C ++ " } from " ++ Str.dq ++ "@/" ++ rest ++ Str.dq)
           importer
         = ("const {  " ++ B ++ ": " ++ C ++ "  } = require(" ++ Str.dq ++ aliasTarget rest
              ++ Str.dq ++ ")")%string)
  /\ (forall importer,
         Swc.resolveImports
           ("import " ++ A ++ ", { " ++ B ++ " as " ++ C ++ " } from "
                      ++ Str.dq ++ "@/" ++ rest ++ Str.dq)
           importer
         = ("const " ++ A ++ " = require(" ++ Str.dq ++ aliasTarget rest ++ Str.dq ++ ");"
                     ++ Str.nl ++ "const {  " ++ B ++ ": " ++ C ++ "  } = " ++ A)%string)
  /\ (Str.endsWith (aliasTarget rest) ".js" || Str.endsWith (aliasTarget rest) ".jsx") = true
  /\ (forall env options state result state',
         Swc.compile env options state = (Ok result, state') ->
         In ("@/" ++ rest)%string (OMap.keys (Swc.transformedFiles (snd state'))) ->
         In (aliasTarget rest) (OMap.keys (Swc.moduleMap result)))
  /\ Esbuild.onResolve (Esbuild.mkResolveArgs ("@/" ++ rest) namespace1 importer1)
     = Esbuild.Virtual ("@/" ++ rest)
  /\ Esbuild.onResolve (Esbuild.mkResolveArgs ("@/" ++ rest) namespace2 importer2)
     = Esbuild.Virtual ("@/" ++ rest).
Proof.
  intros HA HB HC Hne Hrest HpA HpB HpC Hprest.
  pose proof (specifierText_alias rest Hrest) as Hspec.
  pose proof (plain_alias rest Hprest) as Hplain.
  split; [reflexivity |].
  split.
  { intros importer. rewrite <- resolveAlias_target.
    exact (resolveImports_default A ("@/" ++ rest) importer HA Hspec HpA Hplain). }
  split.
  { intros importer. rewrite <- resolveAlias_target.
    exact (resolveImports_named_plain B ("@/" ++ rest) importer HB Hne Hspec HpB Hplain). }
  split.
  { intros importer. rewrite <- resolveAlias_target.
    exact (resolveImports_named_rename B C ("@/" ++ rest) importer HB HC Hne Hspec HpB HpC
                                       Hplain). }
  split.
  { intros importer. rewrite <- resolveAlias_target.
    destruct (combinedBindings_plain A B C rest HpA HpB HpC Hprest) as [Hi He].
    exact (resolveImports_combined A B C rest importer HA HB HC Hne Hrest Hi He). }
  split; [apply aliasTarget_ends |].
  split; [| split; reflexivity].
  intros env options [w this] result [w' this'] H Hcached. cbn [snd] in Hcached.
  destruct (swc_compile_Ok_inv _ _ _ _ _ _ _ H) as (text & events & lines & this1 & _ & _ & -> & _).
  unfold assemble. cbn [Swc.moduleMap].
  apply In_keys_fold. right. exists ("@/" ++ rest)%string.
  split; [exact Hcached | symmetry; apply registryPath_target].
Qed.

Lemma C5_alias_resolution_is_importer_independent_witness :
  Swc.resolveImports
    ("import { Button } from " ++ Playground.quoted "@/components/ui/button") "/src/entry.js"
  = ("const {  Button  } = require(" ++ Playground.quoted "/src/components/ui/button.js"
       ++ ")")%string
  /\ Swc.resolveImports
       ("import { Button } from " ++ Playground.quoted "@/components/ui/button")
       "/src/lib/utils.js"
     = ("const {  Button  } = require(" ++ Playground.quoted "/src/components/ui/button.js"
          ++ ")")%string
  /\ Swc.resolveImports
       ("import App from " ++ Playground.quoted "@/components/ui/button") "/src/entry.js"
     = ("const App = require(" ++ Playground.quoted "/src/components/ui/button.js" ++ ")")%string.
Proof.
  destruct (C5_alias_resolution_is_importer_independent
              "App" "Button" "Btn" "components/ui/button" "/src/entry.js" "/src/lib/utils.js"
              "virtual" EmptyString eq_refl eq_refl eq_refl)
    as (_ & Hdefault & Hnamed & _); try reflexivity.
  - intros H. discriminate H.
  - split; [exact (Hnamed "/src/entry.js") |].
    split; [exact (Hnamed "/src/lib/utils.js") | exact (Hdefault "/src/entry.js")].
Defined.
